(** * Monado service core: frame pacing, session calls and the IPC server

    A shallow embedding of the parts of the runtime that the specification's
    properties talk about:

    - [u_timing_frame.c] (display-timing engine): [adjust_app_time],
      [dt_mark_point], [dt_info], [u_ft_display_timing_create] with
      [get_percent_of_time], and [dt_predict] with [predict_next_frame] and
      the helpers it calls;
    - the render-timing helper that follows it in the same file:
      [u_rt_helper_predict] and the other [u_rt_helper_*] calls;
    - [oxr_session_egl.c]: [oxr_session_begin], [oxr_session_end],
      [oxr_session_request_exit], [oxr_session_frame_begin],
      [oxr_session_frame_wait], [oxr_session_poll];
    - the IPC server process (under [ht_hand_math.hpp]):
      [find_event_slot], [_update_layers], [init_server_state],
      [update_server_state] and the event helpers they call,
      [init_tracking_origins], [init_shm], [handle_listen], [check_epoll]
      and [main_loop].

    Machine integers are [Z] with the wrap-around written out.  Code that can
    stop on an [assert], touch an array outside its bounds or loop for ever
    returns a [result].  The modules up to [IpcServerLoop] hold the
    embedding, the modules from [CIntFacts] on what is proved about it. *)

From Stdlib Require Import ZArith List Bool Lia Permutation Sorted.
From Stdlib Require SpecFloat.
From stdpp Require Import base numbers list sorting.

Open Scope Z_scope.

(** ** Machine integers *)

Module CInt.

Definition two32 : Z := 2 ^ 32.
Definition two64 : Z := 2 ^ 64.
Definition INT32_MIN : Z := - 2 ^ 31.
Definition INT32_MAX : Z := 2 ^ 31 - 1.
Definition INT64_MAX : Z := 2 ^ 63 - 1.
Definition UINT64_MAX : Z := 2 ^ 64 - 1.

(** Conversion to [uint64_t]: reduction modulo 2^64. *)
Definition to_uint64 (x : Z) : Z := x mod two64.

(** Conversion to [int64_t] (two's complement). *)
Definition to_int64 (x : Z) : Z := (x + 2 ^ 63) mod two64 - 2 ^ 63.

(** Conversion to [int32_t] (two's complement). *)
Definition to_int32 (x : Z) : Z := (x + 2 ^ 31) mod two32 - 2 ^ 31.

Definition is_uint64 (x : Z) : Prop := 0 <= x < two64.
Definition is_int32 (x : Z) : Prop := INT32_MIN <= x <= INT32_MAX.

End CInt.

(** ** Outcomes of a call *)

(** A call either returns, stops on a failed [assert] (debug builds only),
    touches an array outside its bounds, or is still looping when the fuel
    of the model runs out. *)
Inductive result (A : Type) : Type :=
  | Ok (a : A)
  | AssertFail
  | OutOfBounds
  | OutOfFuel.

Arguments Ok {A} a.
Arguments AssertFail {A}.
Arguments OutOfBounds {A}.
Arguments OutOfFuel {A}.

Definition rbind {A B} (m : result A) (k : A -> result B) : result B :=
  match m with
  | Ok a => k a
  | AssertFail => AssertFail
  | OutOfBounds => OutOfBounds
  | OutOfFuel => OutOfFuel
  end.

#[global] Instance result_bind : MBind result := fun A B k m => rbind m k.
#[global] Instance result_ret : MRet result := @Ok.
#[global] Instance result_fmap : FMap result :=
  fun A B f m => rbind m (fun a => Ok (f a)).

(** [assert(e)]: compiled out under [NDEBUG]. *)
Definition c_assert (ndebug : bool) (e : bool) : result unit :=
  if ndebug then Ok tt else if e then Ok tt else AssertFail.

(** An array read [a[i]] with [i] a C integer. *)
Definition array_get {A} (a : list A) (i : Z) : result A :=
  if i <? 0 then OutOfBounds
  else match a !! Z.to_nat i with
       | Some x => Ok x
       | None => OutOfBounds
       end.

(** ** Display-timing engine ([u_timing_frame.c]) *)

Module DisplayTiming.
Import CInt.

Definition NUM_FRAMES : Z := 16.

(** Modelled from the spec: [U_TIME_1MS_IN_NS] of [util/u_time.h], a header
    outside the sources at hand; one millisecond in nanoseconds (the spec
    gives the margin, which is this constant, as 1 ms). *)
Definition U_TIME_1MS_IN_NS : Z := 1000000.

(** Modelled from the spec: [U_TIME_HALF_MS_IN_NS] of the same header; half
    a millisecond in nanoseconds (the spec gives the present slop, which is
    this constant, as 0.5 ms). *)
Definition U_TIME_HALF_MS_IN_NS : Z := 500000.

Inductive frame_state : Set :=
  | STATE_SKIPPED
  | STATE_CLEARED
  | STATE_PREDICTED
  | STATE_WOKE
  | STATE_BEGAN
  | STATE_SUBMITTED
  | STATE_INFO.

(** The enumerators' integer values, used by the [>=] comparison. *)
Definition frame_state_value (s : frame_state) : Z :=
  match s with
  | STATE_SKIPPED => -1
  | STATE_CLEARED => 0
  | STATE_PREDICTED => 1
  | STATE_WOKE => 2
  | STATE_BEGAN => 3
  | STATE_SUBMITTED => 4
  | STATE_INFO => 5
  end.

Definition frame_state_eqb (a b : frame_state) : bool :=
  frame_state_value a =? frame_state_value b.

Record frame : Set := mk_frame {
  frame_id : Z;
  when_predict_ns : Z;
  wake_up_time_ns : Z;
  when_woke_ns : Z;
  when_began_ns : Z;
  when_submitted_ns : Z;
  when_infoed_ns : Z;
  current_app_time_ns : Z;
  expected_done_time_ns : Z;
  desired_present_time_ns : Z;
  predicted_display_time_ns : Z;
  present_margin_ns : Z;
  actual_present_time_ns : Z;
  earliest_present_time_ns : Z;
  state : frame_state
}.

Record display_timing : Set := mk_display_timing {
  present_offset_ns : Z;
  frame_period_ns : Z;
  app_time_ns : Z;
  padding_time_ns : Z;
  next_frame_id : Z;
  app_time_max_ns : Z;
  adjust_missed_ns : Z;
  adjust_non_miss_ns : Z;
  margin_ns : Z;
  frames : list frame
}.

(** Field assignments. *)
Definition set_state (f : frame) (s : frame_state) : frame :=
  mk_frame (frame_id f) (when_predict_ns f) (wake_up_time_ns f) (when_woke_ns f)
    (when_began_ns f) (when_submitted_ns f) (when_infoed_ns f)
    (current_app_time_ns f) (expected_done_time_ns f) (desired_present_time_ns f)
    (predicted_display_time_ns f) (present_margin_ns f) (actual_present_time_ns f)
    (earliest_present_time_ns f) s.

Definition set_when_woke_ns (f : frame) (t : Z) : frame :=
  mk_frame (frame_id f) (when_predict_ns f) (wake_up_time_ns f) t
    (when_began_ns f) (when_submitted_ns f) (when_infoed_ns f)
    (current_app_time_ns f) (expected_done_time_ns f) (desired_present_time_ns f)
    (predicted_display_time_ns f) (present_margin_ns f) (actual_present_time_ns f)
    (earliest_present_time_ns f) (state f).

Definition set_when_began_ns (f : frame) (t : Z) : frame :=
  mk_frame (frame_id f) (when_predict_ns f) (wake_up_time_ns f) (when_woke_ns f)
    t (when_submitted_ns f) (when_infoed_ns f)
    (current_app_time_ns f) (expected_done_time_ns f) (desired_present_time_ns f)
    (predicted_display_time_ns f) (present_margin_ns f) (actual_present_time_ns f)
    (earliest_present_time_ns f) (state f).

Definition set_when_submitted_ns (f : frame) (t : Z) : frame :=
  mk_frame (frame_id f) (when_predict_ns f) (wake_up_time_ns f) (when_woke_ns f)
    (when_began_ns f) t (when_infoed_ns f)
    (current_app_time_ns f) (expected_done_time_ns f) (desired_present_time_ns f)
    (predicted_display_time_ns f) (present_margin_ns f) (actual_present_time_ns f)
    (earliest_present_time_ns f) (state f).

Definition set_when_infoed_ns (f : frame) (t : Z) : frame :=
  mk_frame (frame_id f) (when_predict_ns f) (wake_up_time_ns f) (when_woke_ns f)
    (when_began_ns f) (when_submitted_ns f) t
    (current_app_time_ns f) (expected_done_time_ns f) (desired_present_time_ns f)
    (predicted_display_time_ns f) (present_margin_ns f) (actual_present_time_ns f)
    (earliest_present_time_ns f) (state f).

Definition set_present_margin_ns (f : frame) (t : Z) : frame :=
  mk_frame (frame_id f) (when_predict_ns f) (wake_up_time_ns f) (when_woke_ns f)
    (when_began_ns f) (when_submitted_ns f) (when_infoed_ns f)
    (current_app_time_ns f) (expected_done_time_ns f) (desired_present_time_ns f)
    (predicted_display_time_ns f) t (actual_present_time_ns f)
    (earliest_present_time_ns f) (state f).

Definition set_actual_present_time_ns (f : frame) (t : Z) : frame :=
  mk_frame (frame_id f) (when_predict_ns f) (wake_up_time_ns f) (when_woke_ns f)
    (when_began_ns f) (when_submitted_ns f) (when_infoed_ns f)
    (current_app_time_ns f) (expected_done_time_ns f) (desired_present_time_ns f)
    (predicted_display_time_ns f) (present_margin_ns f) t
    (earliest_present_time_ns f) (state f).

Definition set_earliest_present_time_ns (f : frame) (t : Z) : frame :=
  mk_frame (frame_id f) (when_predict_ns f) (wake_up_time_ns f) (when_woke_ns f)
    (when_began_ns f) (when_submitted_ns f) (when_infoed_ns f)
    (current_app_time_ns f) (expected_done_time_ns f) (desired_present_time_ns f)
    (predicted_display_time_ns f) (present_margin_ns f) (actual_present_time_ns f)
    t (state f).

Definition set_app_time_ns (dt : display_timing) (t : Z) : display_timing :=
  mk_display_timing (present_offset_ns dt) (frame_period_ns dt) t
    (padding_time_ns dt) (next_frame_id dt) (app_time_max_ns dt)
    (adjust_missed_ns dt) (adjust_non_miss_ns dt) (margin_ns dt) (frames dt).

Definition set_frames (dt : display_timing) (fs : list frame) : display_timing :=
  mk_display_timing (present_offset_ns dt) (frame_period_ns dt) (app_time_ns dt)
    (padding_time_ns dt) (next_frame_id dt) (app_time_max_ns dt)
    (adjust_missed_ns dt) (adjust_non_miss_ns dt) (margin_ns dt) fs.

(** [is_within_of_each_other]: both operands are cast to [int64_t] before
    the subtraction; the signed operations are taken modulo 2^64. *)
Definition is_within_of_each_other (l r range : Z) : bool :=
  let t := to_int64 (to_int64 l - to_int64 r) in
  (to_int64 (- to_int64 range) <? t) && (t <? to_int64 range).

Definition is_within_half_ms (l r : Z) : bool :=
  is_within_of_each_other l r U_TIME_HALF_MS_IN_NS.

(** [get_frame] yields the address of [dt->frames[index]]; the embedding
    returns the index.  [size_t] is 64 bits wide. *)
Definition get_frame (ndebug : bool) (frame_id : Z) : result Z :=
  _ ← c_assert ndebug (0 <=? frame_id);
  _ ← c_assert ndebug (to_uint64 frame_id <=? UINT64_MAX);
  Ok (to_uint64 (Z.rem frame_id NUM_FRAMES)).

Fixpoint latest_frame_loop (ndebug : bool) (dt : display_timing)
    (st : frame_state) (start_from : Z) (fuel : nat) (count : Z)
    : result (option Z) :=
  if (count <=? start_from) && (count <? NUM_FRAMES) then
    match fuel with
    | O => OutOfFuel
    | S fuel' =>
        i ← get_frame ndebug (to_int64 (start_from - count));
        f ← array_get (frames dt) i;
        if frame_state_value st <=? frame_state_value (state f)
        then Ok (Some i)
        else latest_frame_loop ndebug dt st start_from fuel' (count + 1)
    end
  else Ok None.

(** The loop body runs for [count] = 1 .. [NUM_FRAMES - 1] at most. *)
Definition get_latest_frame_with_state_at_least (ndebug : bool)
    (dt : display_timing) (st : frame_state) : result (option Z) :=
  latest_frame_loop ndebug dt st (to_uint64 (next_frame_id dt))
    (Z.to_nat NUM_FRAMES) 1.

(** The miss test at the head of [adjust_app_time]. *)
Definition frame_missed (f : frame) : bool :=
  (desired_present_time_ns f <? actual_present_time_ns f)
  && negb (is_within_half_ms (actual_present_time_ns f) (desired_present_time_ns f)).

Definition adjust_app_time (dt : display_timing) (f : frame) : display_timing :=
  if frame_missed f then
    let app_time := to_uint64 (app_time_ns dt + adjust_missed_ns dt) in
    let app_time :=
      if app_time_max_ns dt <? app_time then app_time_max_ns dt else app_time in
    set_app_time_ns dt app_time
  else if is_within_of_each_other (present_margin_ns f) (margin_ns dt)
            (adjust_non_miss_ns dt) then
    dt
  else if margin_ns dt <? present_margin_ns f then
    set_app_time_ns dt (to_uint64 (app_time_ns dt - adjust_non_miss_ns dt))
  else
    set_app_time_ns dt (to_uint64 (app_time_ns dt + adjust_non_miss_ns dt)).

(** [enum u_timing_point] is declared in [util/u_timing.h]; the three points
    the [switch] names, and any other value for its [default] arm. *)
Inductive u_timing_point : Set :=
  | U_TIMING_POINT_WAKE_UP
  | U_TIMING_POINT_BEGIN
  | U_TIMING_POINT_SUBMIT
  | U_TIMING_POINT_other (v : Z).

Definition set_frame (dt : display_timing) (i : Z) (f : frame) : display_timing :=
  set_frames dt (<[Z.to_nat i := f]> (frames dt)).

Definition dt_mark_point (ndebug : bool) (dt : display_timing)
    (point : u_timing_point) (frame_id : Z) (when_ns : Z)
    : result display_timing :=
  i ← get_frame ndebug frame_id;
  match point with
  | U_TIMING_POINT_WAKE_UP =>
      f ← array_get (frames dt) i;
      _ ← c_assert ndebug (frame_state_eqb (state f) STATE_PREDICTED);
      Ok (set_frame dt i (set_when_woke_ns (set_state f STATE_WOKE) when_ns))
  | U_TIMING_POINT_BEGIN =>
      f ← array_get (frames dt) i;
      _ ← c_assert ndebug (frame_state_eqb (state f) STATE_WOKE);
      Ok (set_frame dt i (set_when_began_ns (set_state f STATE_BEGAN) when_ns))
  | U_TIMING_POINT_SUBMIT =>
      f ← array_get (frames dt) i;
      _ ← c_assert ndebug (frame_state_eqb (state f) STATE_BEGAN);
      Ok (set_frame dt i (set_when_submitted_ns (set_state f STATE_SUBMITTED) when_ns))
  | U_TIMING_POINT_other _ =>
      _ ← c_assert ndebug false;
      Ok dt
  end.

(** [dt_info].  The [desired_present_time_ns] argument is not stored: the
    controller compares against the value recorded at prediction.  [now_ns]
    is the reading of [os_monotonic_get_ns].  The log and trace output at
    the end does not change [dt]. *)
Definition dt_info (ndebug : bool) (dt : display_timing) (frame_id : Z)
    (desired_present_time_ns' actual_present_time_ns' : Z)
    (earliest_present_time_ns' present_margin_ns' : Z) (now_ns : Z)
    : result display_timing :=
  last ← get_latest_frame_with_state_at_least ndebug dt STATE_INFO;
  i ← get_frame ndebug frame_id;
  f ← array_get (frames dt) i;
  _ ← c_assert ndebug (frame_state_eqb (state f) STATE_SUBMITTED);
  let f := set_when_infoed_ns f now_ns in
  let f := set_actual_present_time_ns f actual_present_time_ns' in
  let f := set_earliest_present_time_ns f earliest_present_time_ns' in
  let f := set_present_margin_ns f present_margin_ns' in
  let f := set_state f STATE_INFO in
  let dt := set_frame dt i f in
  Ok (adjust_app_time dt f).

Definition zero_frame : frame :=
  mk_frame 0 0 0 0 0 0 0 0 0 0 0 0 0 0 STATE_CLEARED.

Section create.
(** [get_percent_of_time] goes through [double] and the helpers
    [time_ns_to_s] and [time_s_to_ns] of [util/u_time.h]; the creation takes
    it as a parameter, and what is proved of the controller holds whatever
    it returns.  Its embedding follows the section. *)
Variable get_percent_of_time : Z -> Z -> Z.

(** [u_ft_display_timing_create]: the structure is [calloc]ed. *)
Definition u_ft_display_timing_create (estimated_frame_period_ns : Z)
    : display_timing :=
  {| present_offset_ns := U_TIME_1MS_IN_NS * 4;
     frame_period_ns := estimated_frame_period_ns;
     app_time_ns := get_percent_of_time estimated_frame_period_ns 10;
     padding_time_ns := 0;
     next_frame_id := 0;
     app_time_max_ns := get_percent_of_time estimated_frame_period_ns 30;
     adjust_missed_ns := get_percent_of_time estimated_frame_period_ns 4;
     adjust_non_miss_ns := get_percent_of_time estimated_frame_period_ns 2;
     margin_ns := U_TIME_1MS_IN_NS;
     frames := replicate (Z.to_nat NUM_FRAMES) zero_frame |}.
End create.

(** *** [get_percent_of_time] in [double] arithmetic *)

(** [double] is IEEE 754 binary64 with rounding to nearest, ties to even
    ([SpecFloat] with 53 bits of precision and exponents up to 1024). *)
Definition double : Set := SpecFloat.spec_float.

(** Conversion of an integer to [double]. *)
Definition double_of_int (n : Z) : double :=
  SpecFloat.binary_normalize 53 1024 n 0 false.

Definition double_mul (x y : double) : double := SpecFloat.SFmul 53 1024 x y.

Definition double_div (x y : double) : double := SpecFloat.SFdiv 53 1024 x y.

(** Conversion of a [double] to [int64_t]: the fraction is dropped.  C
    leaves the conversion undefined for a value outside the range of
    [int64_t], an infinity or a NaN; those give [None]. *)
Definition int64_of_double (x : double) : option Z :=
  match x with
  | SpecFloat.S754_zero _ => Some 0
  | SpecFloat.S754_finite s m e =>
      let v := if 0 <=? e then Z.pos m * 2 ^ e else Z.pos m / 2 ^ (- e) in
      let v := if s then - v else v in
      if (- 2 ^ 63 <=? v) && (v <? 2 ^ 63) then Some v else None
  | _ => None
  end.

(** [U_TIME_1S_IN_NS], [time_ns_to_s] and [time_s_to_ns] of
    [util/u_time.h], a header outside the sources at hand: one second in
    nanoseconds, and the conversions between a time in nanoseconds (an
    [int64_t]) and a time in seconds (a [double]), which divide and multiply
    by that constant. *)
Definition U_TIME_1S_IN_NS : Z := 1000000000.

Definition time_ns_to_s (ns : Z) : double :=
  double_div (double_of_int ns) (double_of_int U_TIME_1S_IN_NS).

Definition time_s_to_ns (duration : double) : option Z :=
  int64_of_double (double_mul duration (double_of_int U_TIME_1S_IN_NS)).

(** [get_percent_of_time]: [fraction_percent] is a [uint32_t]; the time
    goes to [time_ns_to_s] as an [int64_t] and the result comes back as a
    [uint64_t].  Where the conversion to [int64_t] is undefined the embedding
    yields 0. *)
Definition get_percent_of_time (time_ns fraction_percent : Z) : Z :=
  let fraction :=
    double_div (double_of_int (fraction_percent mod two32)) (double_of_int 100) in
  match time_s_to_ns (double_mul (time_ns_to_s (to_int64 time_ns)) fraction) with
  | Some v => to_uint64 v
  | None => 0
  end.

End DisplayTiming.

(** ** Render-timing helper (second half of [u_timing_frame.c]) *)

Module RenderTiming.
Import CInt.

(** [struct u_rt_helper] and its frame ring are declared in
    [util/u_render_timing.h]; the records list the fields the functions
    use.  The ring [frames] has [ARRAY_SIZE(urth->frames)] entries, the length
    of the list. *)
Inductive u_rt_state : Set :=
  | U_RT_READY
  | U_RT_WAIT_LEFT
  | U_RT_PREDICTED
  | U_RT_BEGUN.

Definition u_rt_state_eqb (a b : u_rt_state) : bool :=
  match a, b with
  | U_RT_READY, U_RT_READY
  | U_RT_WAIT_LEFT, U_RT_WAIT_LEFT
  | U_RT_PREDICTED, U_RT_PREDICTED
  | U_RT_BEGUN, U_RT_BEGUN => true
  | _, _ => false
  end.

Record u_rt_frame : Set := mk_u_rt_frame {
  predicted : Z;
  wait_woke : Z;
  begin : Z;
  end_frame : Z;
  frame_id : Z;
  state : u_rt_state
}.

Record u_rt_helper : Set := mk_u_rt_helper {
  frames : list u_rt_frame;
  frame_counter : Z;
  last_input : Z;
  extra : Z;
  period : Z;
  last_returned : Z
}.

Definition set_frames (urth : u_rt_helper) (fs : list u_rt_frame) : u_rt_helper :=
  mk_u_rt_helper fs (frame_counter urth) (last_input urth) (extra urth)
    (period urth) (last_returned urth).

Definition array_size (urth : u_rt_helper) : Z := Z.of_nat (length (frames urth)).

(** The loop of [get_last_input_plus_period_at_least_greater_then]: [val]
    is a [uint64_t], so the addition wraps. *)
Fixpoint plus_period_loop (ndebug : bool) (period then_ns : Z) (fuel : nat)
    (val : Z) : result Z :=
  if val <=? then_ns then
    match fuel with
    | O => OutOfFuel
    | S fuel' =>
        let val := to_uint64 (val + period) in
        _ ← c_assert ndebug (negb (val =? 0));
        plus_period_loop ndebug period then_ns fuel' val
    end
  else Ok val.

Definition get_last_input_plus_period_at_least_greater_then (ndebug : bool)
    (fuel : nat) (urth : u_rt_helper) (then_ns : Z) : result Z :=
  plus_period_loop ndebug (period urth) then_ns fuel (last_input urth).

Definition clear_frame (f : u_rt_frame) : u_rt_frame :=
  mk_u_rt_frame (predicted f) (wait_woke f) (begin f) (end_frame f) (-1) U_RT_READY.

Definition u_rt_helper_client_clear (urth : u_rt_helper) : u_rt_helper :=
  set_frames urth (map clear_frame (frames urth)).

(** [u_rt_helper_init] zeroes the structure, then clears the ring of [n]
    frames. *)
Definition u_rt_helper_init (n : nat) : u_rt_helper :=
  u_rt_helper_client_clear
    (mk_u_rt_helper (replicate n (mk_u_rt_frame 0 0 0 0 0 U_RT_READY)) 0 0 0 0 0).

(** What [u_rt_helper_predict] writes through its out pointers. *)
Record predict_out : Set := mk_predict_out {
  out_frame_id : Z;
  predicted_display_time : Z;
  wake_up_time : Z;
  predicted_display_period : Z;
  min_display_period : Z
}.

(** [now_ns] and [now2_ns] are the two readings of [os_monotonic_get_ns]. *)
Definition u_rt_helper_predict (ndebug : bool) (fuel : nat) (urth : u_rt_helper)
    (now_ns now2_ns : Z) : result (predict_out * u_rt_helper) :=
  let frame_id' := to_int64 (frame_counter urth + 1) in
  let at_least_ns :=
    if now_ns <? last_returned urth then last_returned urth else now_ns in
  predict_ns ←
    get_last_input_plus_period_at_least_greater_then ndebug fuel urth at_least_ns;
  let out :=
    mk_predict_out frame_id' predict_ns (to_uint64 (predict_ns - period urth))
      (period urth) (period urth) in
  let index := to_uint64 frame_id' mod array_size urth in
  f ← array_get (frames urth) index;
  _ ← c_assert ndebug (frame_id f =? -1);
  _ ← c_assert ndebug (u_rt_state_eqb (state f) U_RT_READY);
  let f' :=
    mk_u_rt_frame now2_ns (wait_woke f) (begin f) (end_frame f) frame_id'
      U_RT_PREDICTED in
  Ok (out,
      mk_u_rt_helper (<[Z.to_nat index := f']> (frames urth)) frame_id'
        (last_input urth) (extra urth) (period urth) predict_ns).

Definition u_rt_helper_mark_wait_woke (ndebug : bool) (urth : u_rt_helper)
    (frame_id' now_ns : Z) : result u_rt_helper :=
  let index := to_uint64 frame_id' mod array_size urth in
  f ← array_get (frames urth) index;
  _ ← c_assert ndebug (frame_id f =? frame_id');
  _ ← c_assert ndebug (u_rt_state_eqb (state f) U_RT_PREDICTED);
  let f' :=
    mk_u_rt_frame (predicted f) now_ns (begin f) (end_frame f) (frame_id f)
      U_RT_WAIT_LEFT in
  Ok (set_frames urth (<[Z.to_nat index := f']> (frames urth))).

Definition u_rt_helper_mark_begin (ndebug : bool) (urth : u_rt_helper)
    (frame_id' now_ns : Z) : result u_rt_helper :=
  let index := to_uint64 frame_id' mod array_size urth in
  f ← array_get (frames urth) index;
  _ ← c_assert ndebug (frame_id f =? frame_id');
  _ ← c_assert ndebug (u_rt_state_eqb (state f) U_RT_WAIT_LEFT);
  let f' :=
    mk_u_rt_frame (predicted f) (wait_woke f) now_ns (end_frame f) (frame_id f)
      U_RT_BEGUN in
  Ok (set_frames urth (<[Z.to_nat index := f']> (frames urth))).

Definition u_rt_helper_mark_discarded (ndebug : bool) (urth : u_rt_helper)
    (frame_id' now_ns : Z) : result u_rt_helper :=
  let index := to_uint64 frame_id' mod array_size urth in
  f ← array_get (frames urth) index;
  _ ← c_assert ndebug (frame_id f =? frame_id');
  _ ← c_assert ndebug (u_rt_state_eqb (state f) U_RT_WAIT_LEFT
                       || u_rt_state_eqb (state f) U_RT_BEGUN);
  let f' :=
    mk_u_rt_frame (predicted f) (wait_woke f) (begin f) now_ns (-1) U_RT_READY in
  Ok (set_frames urth (<[Z.to_nat index := f']> (frames urth))).

Definition u_rt_helper_mark_delivered (ndebug : bool) (urth : u_rt_helper)
    (frame_id' now_ns : Z) : result u_rt_helper :=
  let index := to_uint64 frame_id' mod array_size urth in
  f ← array_get (frames urth) index;
  _ ← c_assert ndebug (frame_id f =? frame_id');
  _ ← c_assert ndebug (u_rt_state_eqb (state f) U_RT_BEGUN);
  let f' :=
    mk_u_rt_frame (predicted f) (wait_woke f) (begin f) now_ns (-1) U_RT_READY in
  Ok (set_frames urth (<[Z.to_nat index := f']> (frames urth))).

Definition u_rt_helper_new_sample (urth : u_rt_helper)
    (predict extra' min_period : Z) : u_rt_helper :=
  mk_u_rt_helper (frames urth) (frame_counter urth) predict extra' min_period
    (last_returned urth).




End RenderTiming.

(** ** Session calls ([oxr_session_egl.c]) *)

Module Session.

Inductive XrSessionState : Set :=
  | XR_SESSION_STATE_UNKNOWN
  | XR_SESSION_STATE_IDLE
  | XR_SESSION_STATE_READY
  | XR_SESSION_STATE_SYNCHRONIZED
  | XR_SESSION_STATE_VISIBLE
  | XR_SESSION_STATE_FOCUSED
  | XR_SESSION_STATE_STOPPING
  | XR_SESSION_STATE_LOSS_PENDING
  | XR_SESSION_STATE_EXITING.

Definition XrSessionState_eqb (a b : XrSessionState) : bool :=
  match a, b with
  | XR_SESSION_STATE_UNKNOWN, XR_SESSION_STATE_UNKNOWN
  | XR_SESSION_STATE_IDLE, XR_SESSION_STATE_IDLE
  | XR_SESSION_STATE_READY, XR_SESSION_STATE_READY
  | XR_SESSION_STATE_SYNCHRONIZED, XR_SESSION_STATE_SYNCHRONIZED
  | XR_SESSION_STATE_VISIBLE, XR_SESSION_STATE_VISIBLE
  | XR_SESSION_STATE_FOCUSED, XR_SESSION_STATE_FOCUSED
  | XR_SESSION_STATE_STOPPING, XR_SESSION_STATE_STOPPING
  | XR_SESSION_STATE_LOSS_PENDING, XR_SESSION_STATE_LOSS_PENDING
  | XR_SESSION_STATE_EXITING, XR_SESSION_STATE_EXITING => true
  | _, _ => false
  end.

(** The result codes the modelled calls can return. *)
Inductive XrResult : Set :=
  | XR_SUCCESS
  | XR_SESSION_LOSS_PENDING
  | XR_FRAME_DISCARDED
  | XR_ERROR_SESSION_RUNNING
  | XR_ERROR_SESSION_NOT_RUNNING
  | XR_ERROR_SESSION_NOT_STOPPING
  | XR_ERROR_CALL_ORDER_INVALID
  | XR_ERROR_INSTANCE_LOST
  | XR_ERROR_VIEW_CONFIGURATION_TYPE_UNSUPPORTED.

(** Results of the compositor interface. *)
Inductive xrt_result : Set :=
  | XRT_SUCCESS
  | XRT_ERROR_IPC_FAILURE
  | XRT_ERROR_other (code : Z).

(** The compositor behind [sess->compositor] is an external collaborator:
    the calls made on it are logged in the session, and what it answers is an
    input of each function. *)
Inductive comp_call : Set :=
  | Comp_begin_session (view_type : Z)
  | Comp_end_session
  | Comp_discard_frame (frame_id : Z)
  | Comp_begin_frame (frame_id : Z).

Definition compositor := comp_call -> xrt_result.

Record oxr_session : Set := mk_oxr_session {
  has_compositor : bool;           (* sess->compositor != NULL *)
  state : XrSessionState;
  has_begun : bool;
  has_ended_once : bool;
  exiting : bool;
  frame_started : bool;
  frame_id_waited : Z;
  frame_id_begun : Z;
  active_wait_frames : Z;
  sem : Z;                         (* count of the wait/begin semaphore *)
  sys_view_config_type : Z;        (* sess->sys->view_config_type *)
  events : list XrSessionState;    (* pushed session-state-changed events *)
  xc_calls : list comp_call        (* calls made on the compositor *)
}.

Definition set_state (s : oxr_session) (st : XrSessionState) : oxr_session :=
  mk_oxr_session (has_compositor s) st (has_begun s) (has_ended_once s)
    (exiting s) (frame_started s) (frame_id_waited s) (frame_id_begun s)
    (active_wait_frames s) (sem s) (sys_view_config_type s) (events s) (xc_calls s).

Definition set_has_begun (s : oxr_session) (b : bool) : oxr_session :=
  mk_oxr_session (has_compositor s) (state s) b (has_ended_once s)
    (exiting s) (frame_started s) (frame_id_waited s) (frame_id_begun s)
    (active_wait_frames s) (sem s) (sys_view_config_type s) (events s) (xc_calls s).

Definition set_has_ended_once (s : oxr_session) (b : bool) : oxr_session :=
  mk_oxr_session (has_compositor s) (state s) (has_begun s) b
    (exiting s) (frame_started s) (frame_id_waited s) (frame_id_begun s)
    (active_wait_frames s) (sem s) (sys_view_config_type s) (events s) (xc_calls s).

Definition set_exiting (s : oxr_session) (b : bool) : oxr_session :=
  mk_oxr_session (has_compositor s) (state s) (has_begun s) (has_ended_once s)
    b (frame_started s) (frame_id_waited s) (frame_id_begun s)
    (active_wait_frames s) (sem s) (sys_view_config_type s) (events s) (xc_calls s).

Definition set_frame_started (s : oxr_session) (b : bool) : oxr_session :=
  mk_oxr_session (has_compositor s) (state s) (has_begun s) (has_ended_once s)
    (exiting s) b (frame_id_waited s) (frame_id_begun s)
    (active_wait_frames s) (sem s) (sys_view_config_type s) (events s) (xc_calls s).

Definition set_frame_id_waited (s : oxr_session) (v : Z) : oxr_session :=
  mk_oxr_session (has_compositor s) (state s) (has_begun s) (has_ended_once s)
    (exiting s) (frame_started s) v (frame_id_begun s)
    (active_wait_frames s) (sem s) (sys_view_config_type s) (events s) (xc_calls s).

Definition set_frame_id_begun (s : oxr_session) (v : Z) : oxr_session :=
  mk_oxr_session (has_compositor s) (state s) (has_begun s) (has_ended_once s)
    (exiting s) (frame_started s) (frame_id_waited s) v
    (active_wait_frames s) (sem s) (sys_view_config_type s) (events s) (xc_calls s).

Definition set_active_wait_frames (s : oxr_session) (v : Z) : oxr_session :=
  mk_oxr_session (has_compositor s) (state s) (has_begun s) (has_ended_once s)
    (exiting s) (frame_started s) (frame_id_waited s) (frame_id_begun s)
    v (sem s) (sys_view_config_type s) (events s) (xc_calls s).

Definition set_sem (s : oxr_session) (v : Z) : oxr_session :=
  mk_oxr_session (has_compositor s) (state s) (has_begun s) (has_ended_once s)
    (exiting s) (frame_started s) (frame_id_waited s) (frame_id_begun s)
    (active_wait_frames s) v (sys_view_config_type s) (events s) (xc_calls s).

Definition set_events (s : oxr_session) (l : list XrSessionState) : oxr_session :=
  mk_oxr_session (has_compositor s) (state s) (has_begun s) (has_ended_once s)
    (exiting s) (frame_started s) (frame_id_waited s) (frame_id_begun s)
    (active_wait_frames s) (sem s) (sys_view_config_type s) l (xc_calls s).

Definition set_xc_calls (s : oxr_session) (l : list comp_call) : oxr_session :=
  mk_oxr_session (has_compositor s) (state s) (has_begun s) (has_ended_once s)
    (exiting s) (frame_started s) (frame_id_waited s) (frame_id_begun s)
    (active_wait_frames s) (sem s) (sys_view_config_type s) (events s) l.

Definition is_running (sess : oxr_session) : bool := has_begun sess.

(** Modelled from the spec: [oxr_event_push_XrEventDataSessionStateChanged]
    lives in the event code, outside the sources at hand; per the spec a
    transition enqueues a state-change event, here appended to the session's
    list of pending events. *)
Definition oxr_event_push_XrEventDataSessionStateChanged
    (sess : oxr_session) (st : XrSessionState) : oxr_session :=
  set_events sess (events sess ++ [st]).

Definition oxr_session_change_state (sess : oxr_session) (st : XrSessionState)
    : oxr_session :=
  set_state (oxr_event_push_XrEventDataSessionStateChanged sess st) st.

(** A call on the compositor: log it and take the answer. *)
Definition xrt_comp (xc : compositor) (sess : oxr_session) (c : comp_call)
    : xrt_result * oxr_session :=
  (xc c, set_xc_calls sess (xc_calls sess ++ [c])).

(** The test of the [CALL_CHK] macro. *)
Definition is_ipc_failure (r : xrt_result) : bool :=
  match r with XRT_ERROR_IPC_FAILURE => true | _ => false end.

Section calls.
(** [oxr_session_success_result] is an inline helper of [oxr_objects.h],
    outside the sources at hand; it maps a session to the code a successful
    call returns. *)
Variable oxr_session_success_result : oxr_session -> XrResult.

Definition oxr_session_begin (xc : compositor) (sess : oxr_session)
    (primaryViewConfigurationType : Z) : XrResult * oxr_session :=
  if is_running sess then (XR_ERROR_SESSION_RUNNING, sess)
  else
    let continue (sess : oxr_session) :=
      let sess := set_has_begun sess true in
      (oxr_session_success_result sess, sess) in
    if has_compositor sess then
      if negb (primaryViewConfigurationType =? sys_view_config_type sess) then
        (XR_ERROR_VIEW_CONFIGURATION_TYPE_UNSUPPORTED, sess)
      else
        let '(r, sess) :=
          xrt_comp xc sess (Comp_begin_session primaryViewConfigurationType) in
        if is_ipc_failure r then (XR_ERROR_INSTANCE_LOST, sess)
        else continue sess
    else continue sess.

Definition oxr_session_end (xc : compositor) (sess : oxr_session)
    : XrResult * oxr_session :=
  if negb (is_running sess) then (XR_ERROR_SESSION_NOT_RUNNING, sess)
  else if negb (XrSessionState_eqb (state sess) XR_SESSION_STATE_STOPPING) then
    (XR_ERROR_SESSION_NOT_STOPPING, sess)
  else
    let continue (sess : oxr_session) :=
      let sess := oxr_session_change_state sess XR_SESSION_STATE_IDLE in
      let sess :=
        if exiting sess
        then oxr_session_change_state sess XR_SESSION_STATE_EXITING
        else oxr_session_change_state sess XR_SESSION_STATE_READY in
      let sess := set_has_begun sess false in
      (oxr_session_success_result sess, sess) in
    if has_compositor sess then
      let sess :=
        if 0 <? frame_id_waited sess then
          let '(_, sess) :=
            xrt_comp xc sess (Comp_discard_frame (frame_id_waited sess)) in
          set_frame_id_waited sess (-1)
        else sess in
      let sess :=
        if 0 <? frame_id_begun sess then
          let '(_, sess) :=
            xrt_comp xc sess (Comp_discard_frame (frame_id_begun sess)) in
          set_frame_id_begun sess (-1)
        else sess in
      let sess := set_frame_started sess false in
      let '(r, sess) := xrt_comp xc sess Comp_end_session in
      if is_ipc_failure r then (XR_ERROR_INSTANCE_LOST, sess)
      else continue sess
    else continue sess.

Definition oxr_session_request_exit (sess : oxr_session)
    : XrResult * oxr_session :=
  if negb (is_running sess) then (XR_ERROR_SESSION_NOT_RUNNING, sess)
  else
    let sess :=
      if XrSessionState_eqb (state sess) XR_SESSION_STATE_FOCUSED
      then oxr_session_change_state sess XR_SESSION_STATE_VISIBLE else sess in
    let sess :=
      if XrSessionState_eqb (state sess) XR_SESSION_STATE_VISIBLE
      then oxr_session_change_state sess XR_SESSION_STATE_SYNCHRONIZED else sess in
    let sess :=
      if negb (has_ended_once sess)
      then set_has_ended_once
             (oxr_session_change_state sess XR_SESSION_STATE_SYNCHRONIZED) true
      else sess in
    let sess := oxr_session_change_state sess XR_SESSION_STATE_STOPPING in
    let sess := set_exiting sess true in
    (oxr_session_success_result sess, sess).

Definition oxr_session_frame_begin (xc : compositor) (sess : oxr_session)
    : XrResult * oxr_session :=
  if negb (is_running sess) then (XR_ERROR_SESSION_NOT_RUNNING, sess)
  else
    let active_wait_frames' := active_wait_frames sess in
    if active_wait_frames' =? 0 then (XR_ERROR_CALL_ORDER_INVALID, sess)
    else
      (* the tail shared by both arms: begin the waited frame, post the
         semaphore *)
      let continue (ret : XrResult) (sess : oxr_session) :=
        let finish (sess : oxr_session) :=
          (ret, set_sem sess (sem sess + 1)) in
        if has_compositor sess then
          let '(r, sess) :=
            xrt_comp xc sess (Comp_begin_frame (frame_id_waited sess)) in
          if is_ipc_failure r then (XR_ERROR_INSTANCE_LOST, sess)
          else
            let sess := set_frame_id_begun sess (frame_id_waited sess) in
            let sess := set_frame_id_waited sess (-1) in
            finish sess
        else finish sess in
      if frame_started sess then
        if negb (active_wait_frames' =? 2) then
          (XR_ERROR_CALL_ORDER_INVALID, sess)
        else if has_compositor sess then
          let '(r, sess) :=
            xrt_comp xc sess (Comp_discard_frame (frame_id_begun sess)) in
          if is_ipc_failure r then (XR_ERROR_INSTANCE_LOST, sess)
          else
            let sess := set_frame_id_begun sess (-1) in
            let sess :=
              set_active_wait_frames sess (active_wait_frames sess - 1) in
            continue XR_FRAME_DISCARDED sess
        else continue XR_FRAME_DISCARDED sess
      else
        let ret := oxr_session_success_result sess in
        continue ret (set_frame_started sess true).
End calls.

(** The usual definition of [oxr_session_success_result]: a success is
    reported as [XR_SESSION_LOSS_PENDING] once the session is losing its
    connection. *)
Definition success_result_by_state (sess : oxr_session) : XrResult :=
  match state sess with
  | XR_SESSION_STATE_LOSS_PENDING => XR_SESSION_LOSS_PENDING
  | _ => XR_SUCCESS
  end.

End Session.

(** ** IPC server process (under [ht_hand_math.hpp]) *)

Module IpcServer.
Import CInt.

(** *** Data *)

(** [union xrt_compositor_event], by its [type] tag.  A zeroed slot holds
    [XRT_COMPOSITOR_EVENT_NONE]. *)
Inductive xrt_compositor_event : Set :=
  | XRT_COMPOSITOR_EVENT_NONE
  | XRT_COMPOSITOR_EVENT_STATE_CHANGE (visible focused : bool)
  | XRT_COMPOSITOR_EVENT_OVERLAY_CHANGE (visible : bool).

Record ipc_queued_event : Set := mk_ipc_queued_event {
  timestamp : Z;
  pending : bool;
  event : xrt_compositor_event
}.

Inductive xrt_layer_type : Set :=
  | XRT_LAYER_STEREO_PROJECTION
  | XRT_LAYER_QUAD
  | XRT_LAYER_other.

Record ipc_layer_entry : Set := mk_ipc_layer_entry {
  xdev_id : Z;
  swapchain_ids : Z * Z;
  layer_type : xrt_layer_type
}.

(** [struct ipc_client_state], declared in [ipc_server.h]: the fields the
    server functions read and write.  [queued_events] has
    [IPC_EVENT_QUEUE_SIZE] entries; [xscs] holds the client's swapchain
    pointers, [true] for a pointer that is not [NULL]. *)
Record ipc_client_state : Set := mk_ipc_client_state {
  server_thread_index : Z;
  session_active : bool;
  session_visible : bool;
  session_focused : bool;
  session_overlay : bool;
  z_order : Z;
  queued_events : list ipc_queued_event;
  num_layers : Z;
  layers : list ipc_layer_entry;
  xscs : list bool
}.

(** [struct ipc_server]: [threads] has [IPC_MAX_CLIENTS] entries (each
    thread's [ics]); [xdevs] holds the device pointers, [true] for a pointer
    that is not [NULL]. *)
Record ipc_server : Set := mk_ipc_server {
  threads : list ipc_client_state;
  active_client_index : Z;
  last_active_client_index : Z;
  current_slot_index : Z;
  xdevs : list bool
}.

Definition IPC_MAX_CLIENTS (s : ipc_server) : Z := Z.of_nat (length (threads s)).

Definition set_server_thread_index (c : ipc_client_state) (v : Z) : ipc_client_state :=
  mk_ipc_client_state v (session_active c) (session_visible c) (session_focused c)
    (session_overlay c) (z_order c) (queued_events c) (num_layers c) (layers c) (xscs c).

Definition set_session_visible (c : ipc_client_state) (b : bool) : ipc_client_state :=
  mk_ipc_client_state (server_thread_index c) (session_active c) b (session_focused c)
    (session_overlay c) (z_order c) (queued_events c) (num_layers c) (layers c) (xscs c).

Definition set_session_focused (c : ipc_client_state) (b : bool) : ipc_client_state :=
  mk_ipc_client_state (server_thread_index c) (session_active c) (session_visible c) b
    (session_overlay c) (z_order c) (queued_events c) (num_layers c) (layers c) (xscs c).

Definition set_queued_events (c : ipc_client_state) (q : list ipc_queued_event)
    : ipc_client_state :=
  mk_ipc_client_state (server_thread_index c) (session_active c) (session_visible c)
    (session_focused c) (session_overlay c) (z_order c) q (num_layers c) (layers c)
    (xscs c).

Definition set_threads (s : ipc_server) (t : list ipc_client_state) : ipc_server :=
  mk_ipc_server t (active_client_index s) (last_active_client_index s)
    (current_slot_index s) (xdevs s).

Definition set_active_client_index (s : ipc_server) (v : Z) : ipc_server :=
  mk_ipc_server (threads s) v (last_active_client_index s) (current_slot_index s)
    (xdevs s).

Definition set_last_active_client_index (s : ipc_server) (v : Z) : ipc_server :=
  mk_ipc_server (threads s) (active_client_index s) v (current_slot_index s) (xdevs s).

(** *** The event ring *)

(** The loop of [find_event_slot].  [first_timestamp] is
    [cs->queued_events->timestamp], the time stamp of entry 0, which is what
    the comparison reads at every iteration; [oldest_event_timestamp] is
    never assigned in the loop. *)
Fixpoint find_event_slot_loop (first_timestamp : Z) (slots : list ipc_queued_event)
    (i : Z) (oldest_event_timestamp oldest_event_index : Z) : Z :=
  match slots with
  | [] => oldest_event_index
  | qe :: slots' =>
      let oldest_event_index :=
        if first_timestamp <? oldest_event_timestamp then i
        else oldest_event_index in
      if negb (pending qe) then i
      else find_event_slot_loop first_timestamp slots' (i + 1)
             oldest_event_timestamp oldest_event_index
  end.

Definition find_event_slot (cs : ipc_client_state) : Z :=
  let first_timestamp :=
    match queued_events cs with
    | [] => 0
    | qe :: _ => timestamp qe
    end in
  find_event_slot_loop first_timestamp (queued_events cs) 0 UINT64_MAX 0.

(** A write to [cs->queued_events[event_slot]]. *)
Definition write_event (cs : ipc_client_state) (event_slot : Z)
    (qe : ipc_queued_event) : result ipc_client_state :=
  _ ← array_get (queued_events cs) event_slot;
  Ok (set_queued_events cs (<[Z.to_nat event_slot := qe]> (queued_events cs))).

(** [now_ns] is the reading of [os_monotonic_get_ns]. *)
Definition transition_overlay_visibility (cs : ipc_client_state) (visible : bool)
    (now_ns : Z) : result ipc_client_state :=
  let event_slot := find_event_slot cs in
  write_event cs event_slot
    (mk_ipc_queued_event now_ns true (XRT_COMPOSITOR_EVENT_OVERLAY_CHANGE visible)).

Definition send_client_state (ics : ipc_client_state) (now_ns : Z)
    : result ipc_client_state :=
  let event_slot := find_event_slot ics in
  write_event ics event_slot
    (mk_ipc_queued_event now_ns true
       (XRT_COMPOSITOR_EVENT_STATE_CHANGE (session_visible ics) (session_focused ics))).

(** *** Rendering the layer stacks in z order *)

Record _z_sort_data : Set := mk_z_sort_data {
  index : Z;
  zd_z_order : Z
}.

Definition _overlay_sort_func (oa ob : _z_sort_data) : Z :=
  if zd_z_order oa <? zd_z_order ob then -1
  else if zd_z_order ob <? zd_z_order oa then 1
  else 0.

(** Calls made on the compositor, tagged with the client whose layer is
    submitted. *)
Inductive layer_call : Set :=
  | Layer_stereo_projection (client : Z) (xdev lsc rsc : Z)
  | Layer_quad (client : Z) (xdev sc : Z).

(** [_update_projection_layer] and [_update_quad_layer]: [None] for the
    [false] return, [Some call] for the submitted layer. *)
Definition _update_projection_layer (s : ipc_server) (client : Z)
    (ics : ipc_client_state) (layer : ipc_layer_entry)
    : result (option layer_call) :=
  let xdevi := xdev_id layer in
  let lxsci := fst (swapchain_ids layer) in
  let rxsci := snd (swapchain_ids layer) in
  xdev ← array_get (xdevs s) xdevi;
  lxcs ← array_get (xscs ics) lxsci;
  rxcs ← array_get (xscs ics) rxsci;
  if negb lxcs || negb rxcs then Ok None
  else if negb xdev then Ok None
  else Ok (Some (Layer_stereo_projection client xdevi lxsci rxsci)).

Definition _update_quad_layer (s : ipc_server) (client : Z)
    (ics : ipc_client_state) (layer : ipc_layer_entry)
    : result (option layer_call) :=
  let xdevi := xdev_id layer in
  let sci := fst (swapchain_ids layer) in
  xdev ← array_get (xdevs s) xdevi;
  xcs ← array_get (xscs ics) sci;
  if negb xcs then Ok None
  else if negb xdev then Ok None
  else Ok (Some (Layer_quad client xdevi sci)).

(** The first loop of [_update_layers]: one entry per client. *)
Definition z_data_entry (i : nat) (ics : ipc_client_state) : _z_sort_data :=
  if session_overlay ics && session_active ics
  then mk_z_sort_data (Z.of_nat i) (to_int32 (z_order ics))
  else mk_z_sort_data (-1) (-1).

Definition z_data_init (s : ipc_server) : list _z_sort_data :=
  imap z_data_entry (threads s).

(** The entry of the primary application. *)
Definition z_data_primary (s : ipc_server) (z_data : list _z_sort_data)
    : result (list _z_sort_data) :=
  if 0 <=? active_client_index s then
    _ ← array_get z_data (active_client_index s);
    Ok (<[Z.to_nat (active_client_index s) :=
            mk_z_sort_data (active_client_index s) INT32_MIN]> z_data)
  else Ok z_data.

(** The inner loop over [ics->render_state.layers], [j] counting up from
    [j0] to [num_layers]. *)
Fixpoint render_layers (s : ipc_server) (client : Z) (ics : ipc_client_state)
    (todo : nat) (j : Z) : result (bool * list layer_call) :=
  match todo with
  | O => Ok (true, [])
  | S todo' =>
      layer ← array_get (layers ics) j;
      r ← match layer_type layer with
          | XRT_LAYER_STEREO_PROJECTION =>
              c ← _update_projection_layer s client ics layer; Ok (Some c)
          | XRT_LAYER_QUAD =>
              c ← _update_quad_layer s client ics layer; Ok (Some c)
          | XRT_LAYER_other => Ok None
          end;
      match r with
      | Some None => Ok (false, [])
      | Some (Some call) =>
          '(ok, calls) ← render_layers s client ics todo' (j + 1);
          Ok (ok, call :: calls)
      | None => render_layers s client ics todo' (j + 1)
      end
  end.

(** The loop over the sorted stack. *)
Fixpoint render_stack (s : ipc_server) (z_data : list _z_sort_data)
    : result (bool * list layer_call) :=
  match z_data with
  | [] => Ok (true, [])
  | zd :: z_data' =>
      if index zd <? 0 then render_stack s z_data'
      else
        ics ← array_get (threads s) (index zd);
        '(ok, calls) ← render_layers s (index zd) ics (Z.to_nat (num_layers ics)) 0;
        if (ok : bool) then
          '(ok', calls') ← render_stack s z_data';
          Ok (ok', calls ++ calls')
        else Ok (false, calls)
  end.

Section update_layers.
(** The C library's [qsort], applied with [_overlay_sort_func]. *)
Variable qsort :
  (_z_sort_data -> _z_sort_data -> Z) -> list _z_sort_data -> list _z_sort_data.

Definition sorted_z_data (s : ipc_server) : result (list _z_sort_data) :=
  z_data ← z_data_primary s (z_data_init s);
  Ok (qsort _overlay_sort_func z_data).

(** The clients whose layer stacks the render loop visits, in order. *)
Definition render_order (s : ipc_server) : result (list Z) :=
  z_data ← sorted_z_data s;
  Ok (filter (fun i => 0 <= i) (map index z_data)).

Definition _update_layers (s : ipc_server) : result (bool * list layer_call) :=
  z_data ← sorted_z_data s;
  render_stack s z_data.
End update_layers.

(** What the C standard asks of [qsort]: the result holds the same elements,
    in ascending order by the comparison function; the order of elements that
    compare equal is left open. *)
Definition qsort_contract
    (qsort : (_z_sort_data -> _z_sort_data -> Z) ->
             list _z_sort_data -> list _z_sort_data) : Prop :=
  forall l,
    Permutation (qsort _overlay_sort_func l) l /\
    StronglySorted (fun a b => _overlay_sort_func a b <= 0)
      (qsort _overlay_sort_func l).

(** *** Server state *)

Definition init_server_state (s : ipc_server) : ipc_server :=
  mk_ipc_server
    (map (fun cs => set_server_thread_index cs (-1)) (threads s))
    (-1) (-1) 0 (xdevs s).

(** The functions below read the monotonic clock once per queued event;
    [clk n] is the [n]-th reading and the count of readings is passed
    along. *)
Definition clocked (A : Type) : Type := nat -> result (A * nat).

Definition clocked_ret {A} (a : A) : clocked A := fun n => Ok (a, n).

Definition clocked_bind {A B} (m : clocked A) (k : A -> clocked B) : clocked B :=
  fun n => rbind (m n) (fun '(a, n') => k a n').

Definition with_clock {A} (clk : nat -> Z) (f : Z -> result A) : clocked A :=
  fun n => rbind (f (clk n)) (fun a => Ok (a, S n)).

Definition lift_result {A} (r : result A) : clocked A :=
  fun n => rbind r (fun a => Ok (a, n)).

Notation "x ⇐ m ; k" := (clocked_bind m (fun x => k))
  (at level 20, m at level 100, k at level 200, only parsing).

Section server_state.
Variable clk : nat -> Z.

(** What a read of [s->threads[i].ics] outside the array yields: [None]
    when the embedding stops there, [Some g] when the read is let through
    with the contents [g] of whatever lies at that address. *)
Variable oob_read : option ipc_client_state.

Definition threads_at (s : ipc_server) (i : Z) : result ipc_client_state :=
  match array_get (threads s) i with
  | Ok ics => Ok ics
  | _ => match oob_read with
         | Some g => Ok g
         | None => OutOfBounds
         end
  end.

Definition handle_overlay_client_events (ics : ipc_client_state)
    (active_id prev_active_id : Z) : clocked ipc_client_state :=
  if session_overlay ics then
    ics ⇐ (if (0 <=? active_id) && (0 <=? prev_active_id) then
             ics ⇐ with_clock clk (transition_overlay_visibility ics false);
             with_clock clk (transition_overlay_visibility ics true)
           else clocked_ret ics);
    ics ⇐ (if (0 <=? active_id) && (prev_active_id <? 0) then
             with_clock clk (transition_overlay_visibility ics true)
           else clocked_ret ics);
    if (active_id <? 0) && (0 <=? prev_active_id) then
      with_clock clk (transition_overlay_visibility ics false)
    else clocked_ret ics
  else clocked_ret ics.

Definition handle_focused_client_events (ics : ipc_client_state)
    (active_id prev_active_id : Z) : clocked ipc_client_state :=
  if (active_id =? -1) && (prev_active_id =? -1) then clocked_ret ics
  else
    let ics := set_session_focused ics false in
    let ics := set_session_visible ics false in
    if 0 <=? active_id then
      let ics :=
        if session_overlay ics then set_session_visible ics true else ics in
      let ics :=
        if server_thread_index ics =? active_id
        then set_session_focused (set_session_visible ics true) true
        else ics in
      with_clock clk (send_client_state ics)
    else if session_overlay ics then
      let ics := set_session_focused ics false in
      let ics := set_session_visible ics false in
      with_clock clk (send_client_state ics)
    else clocked_ret ics.

(** The search for a fallback application: the loop runs over all
    clients and keeps the index of each match. *)
Fixpoint fallback_loop (clients : list ipc_client_state) (i : Z)
    (set_idle : bool) (fallback_active_application : Z) : bool * Z :=
  match clients with
  | [] => (set_idle, fallback_active_application)
  | ics :: clients' =>
      if negb (session_overlay ics) && (0 <=? server_thread_index ics)
         && session_active ics
      then fallback_loop clients' (i + 1) false i
      else fallback_loop clients' (i + 1) set_idle fallback_active_application
  end.

(** The last loop: events for every connected client. *)
Fixpoint events_loop (s : ipc_server) (todo : nat) (i : Z) : clocked ipc_server :=
  match todo with
  | O => clocked_ret s
  | S todo' =>
      ics ⇐ lift_result (array_get (threads s) i);
      s ⇐ (if 0 <=? server_thread_index ics then
             ics ⇐ handle_focused_client_events ics (active_client_index s)
                     (last_active_client_index s);
             ics ⇐ handle_overlay_client_events ics (active_client_index s)
                     (last_active_client_index s);
             clocked_ret (set_threads s (<[Z.to_nat i := ics]> (threads s)))
           else clocked_ret s);
      events_loop s todo' (i + 1)
  end.

Definition update_server_state (s : ipc_server) : clocked ipc_server :=
  early ⇐ (if 0 <=? active_client_index s then
             ics ⇐ lift_result (threads_at s (active_client_index s));
             clocked_ret (session_active ics
                          && (active_client_index s =? last_active_client_index s))
           else clocked_ret false);
  if (early : bool) then clocked_ret s
  else
    let '(set_idle, fallback_active_application) :=
      fallback_loop (threads s) 0 true (-1) in
    (* the read of threads[active_client_index] comes before the test of
       the index *)
    ics ⇐ lift_result (threads_at s (active_client_index s));
    let s :=
      if negb (negb (session_overlay ics) && (0 <=? active_client_index s)
               && session_active ics)
      then set_active_client_index s fallback_active_application
      else s in
    let s := if set_idle then set_active_client_index s (-1) else s in
    s ⇐ events_loop s (length (threads s)) 0;
    clocked_ret (set_last_active_client_index s (active_client_index s)).
End server_state.

End IpcServer.

(** ** Display-timing engine: prediction ([u_timing_frame.c]) *)

Module DisplayTimingPredict.
Import CInt DisplayTiming.

Definition set_frame_id (f : frame) (v : Z) : frame :=
  mk_frame v (when_predict_ns f) (wake_up_time_ns f) (when_woke_ns f)
    (when_began_ns f) (when_submitted_ns f) (when_infoed_ns f)
    (current_app_time_ns f) (expected_done_time_ns f) (desired_present_time_ns f)
    (predicted_display_time_ns f) (present_margin_ns f) (actual_present_time_ns f)
    (earliest_present_time_ns f) (state f).

Definition set_when_predict_ns (f : frame) (t : Z) : frame :=
  mk_frame (frame_id f) t (wake_up_time_ns f) (when_woke_ns f)
    (when_began_ns f) (when_submitted_ns f) (when_infoed_ns f)
    (current_app_time_ns f) (expected_done_time_ns f) (desired_present_time_ns f)
    (predicted_display_time_ns f) (present_margin_ns f) (actual_present_time_ns f)
    (earliest_present_time_ns f) (state f).

Definition set_wake_up_time_ns (f : frame) (t : Z) : frame :=
  mk_frame (frame_id f) (when_predict_ns f) t (when_woke_ns f)
    (when_began_ns f) (when_submitted_ns f) (when_infoed_ns f)
    (current_app_time_ns f) (expected_done_time_ns f) (desired_present_time_ns f)
    (predicted_display_time_ns f) (present_margin_ns f) (actual_present_time_ns f)
    (earliest_present_time_ns f) (state f).

Definition set_current_app_time_ns (f : frame) (t : Z) : frame :=
  mk_frame (frame_id f) (when_predict_ns f) (wake_up_time_ns f) (when_woke_ns f)
    (when_began_ns f) (when_submitted_ns f) (when_infoed_ns f)
    t (expected_done_time_ns f) (desired_present_time_ns f)
    (predicted_display_time_ns f) (present_margin_ns f) (actual_present_time_ns f)
    (earliest_present_time_ns f) (state f).

Definition set_desired_present_time_ns (f : frame) (t : Z) : frame :=
  mk_frame (frame_id f) (when_predict_ns f) (wake_up_time_ns f) (when_woke_ns f)
    (when_began_ns f) (when_submitted_ns f) (when_infoed_ns f)
    (current_app_time_ns f) (expected_done_time_ns f) t
    (predicted_display_time_ns f) (present_margin_ns f) (actual_present_time_ns f)
    (earliest_present_time_ns f) (state f).

Definition set_predicted_display_time_ns (f : frame) (t : Z) : frame :=
  mk_frame (frame_id f) (when_predict_ns f) (wake_up_time_ns f) (when_woke_ns f)
    (when_began_ns f) (when_submitted_ns f) (when_infoed_ns f)
    (current_app_time_ns f) (expected_done_time_ns f) (desired_present_time_ns f)
    t (present_margin_ns f) (actual_present_time_ns f)
    (earliest_present_time_ns f) (state f).

Definition set_next_frame_id (dt : display_timing) (v : Z) : display_timing :=
  mk_display_timing (present_offset_ns dt) (frame_period_ns dt) (app_time_ns dt)
    (padding_time_ns dt) v (app_time_max_ns dt)
    (adjust_missed_ns dt) (adjust_non_miss_ns dt) (margin_ns dt) (frames dt).

Definition calc_total_app_time (dt : display_timing) : Z :=
  to_uint64 (app_time_ns dt + margin_ns dt).

Definition calc_display_time_from_present_time (dt : display_timing)
    (desired_present_time_ns' : Z) : Z :=
  to_uint64 (desired_present_time_ns' + present_offset_ns dt).

(** [create_frame] returns the address of the ring slot of the new frame;
    the embedding returns its index.  [next_frame_id] is an [int64_t]. *)
Definition create_frame (ndebug : bool) (dt : display_timing) (st : frame_state)
    : result (Z * display_timing) :=
  let frame_id' := next_frame_id dt in
  let dt := set_next_frame_id dt (to_int64 (frame_id' + 1)) in
  i ← get_frame ndebug frame_id';
  f ← array_get (frames dt) i;
  Ok (i, set_frame dt i (set_state (set_frame_id f frame_id') st)).

(** [now_ns] and [now2_ns] are the two readings of the clock. *)
Definition do_clean_slate_frame (ndebug : bool) (dt : display_timing)
    (now_ns now2_ns : Z) : result (Z * display_timing) :=
  '(i, dt) ← create_frame ndebug dt STATE_PREDICTED;
  let the_time_ns := to_uint64 (now2_ns + to_uint64 (frame_period_ns dt * 10)) in
  f ← array_get (frames dt) i;
  Ok (i, set_frame dt i
           (set_desired_present_time_ns (set_when_predict_ns f now_ns) the_time_ns)).

(** The loop of [walk_forward_through_frames]. *)
Fixpoint walk_loop (period from_time_ns : Z) (fuel : nat)
    (desired_present_time_ns' : Z) : result Z :=
  if desired_present_time_ns' <=? from_time_ns then
    match fuel with
    | O => OutOfFuel
    | S fuel' =>
        walk_loop period from_time_ns fuel'
          (to_uint64 (desired_present_time_ns' + period))
    end
  else Ok desired_present_time_ns'.

Definition walk_forward_through_frames (ndebug : bool) (fuel : nat)
    (dt : display_timing) (last_present_time_ns now_ns : Z)
    : result (Z * display_timing) :=
  let from_time_ns := to_uint64 (now_ns + calc_total_app_time dt) in
  desired ← walk_loop (frame_period_ns dt) from_time_ns fuel
              (to_uint64 (last_present_time_ns + frame_period_ns dt));
  '(i, dt) ← create_frame ndebug dt STATE_PREDICTED;
  f ← array_get (frames dt) i;
  Ok (i, set_frame dt i
           (set_desired_present_time_ns (set_when_predict_ns f now_ns) desired)).

(** A dereference of a frame pointer that may be [NULL]. *)
Definition deref (dt : display_timing) (p : option Z) : result frame :=
  match p with
  | Some i => array_get (frames dt) i
  | None => OutOfBounds
  end.

Definition same_frame (p q : option Z) : bool :=
  match p, q with
  | Some i, Some j => i =? j
  | None, None => true
  | _, _ => false
  end.

Definition is_null (p : option Z) : bool :=
  match p with Some _ => false | None => true end.

Definition predict_next_frame (ndebug : bool) (fuel : nat) (dt : display_timing)
    (now_ns now2_ns : Z) : result (Z * display_timing) :=
  last_predicted ← get_latest_frame_with_state_at_least ndebug dt STATE_PREDICTED;
  last_completed ← get_latest_frame_with_state_at_least ndebug dt STATE_INFO;
  '(i, dt) ←
    (if is_null last_predicted && is_null last_completed then
       do_clean_slate_frame ndebug dt now_ns now2_ns
     else if same_frame last_completed last_predicted then
       lc ← deref dt last_completed;
       walk_forward_through_frames ndebug fuel dt (earliest_present_time_ns lc) now_ns
     else if negb (is_null last_completed) then
       _ ← c_assert ndebug (negb (is_null last_predicted));
       lp ← deref dt last_predicted;
       lc ← deref dt last_completed;
       _ ← c_assert ndebug (frame_id lc <? frame_id lp);
       let diff_id := to_int64 (frame_id lp - frame_id lc) in
       let adjusted_last_present_time_ns :=
         to_uint64 (earliest_present_time_ns lc
                    + to_uint64 (diff_id * frame_period_ns dt)) in
       walk_forward_through_frames ndebug fuel dt adjusted_last_present_time_ns now_ns
     else
       _ ← c_assert ndebug (negb (is_null last_predicted));
       lp ← deref dt last_predicted;
       walk_forward_through_frames ndebug fuel dt (predicted_display_time_ns lp) now_ns);
  f ← array_get (frames dt) i;
  let f :=
    set_predicted_display_time_ns f
      (calc_display_time_from_present_time dt (desired_present_time_ns f)) in
  let f :=
    set_wake_up_time_ns f
      (to_uint64 (desired_present_time_ns f - calc_total_app_time dt)) in
  let f := set_current_app_time_ns f (app_time_ns dt) in
  Ok (i, set_frame dt i f).

(** What [dt_predict] writes through its out pointers. *)
Record predict_out : Set := mk_predict_out {
  out_frame_id : Z;
  out_wake_up_time_ns : Z;
  out_desired_present_time_ns : Z;
  out_present_slop_ns : Z;
  out_predicted_display_time_ns : Z;
  out_predicted_display_period_ns : Z;
  out_min_display_period_ns : Z
}.

Definition dt_predict (ndebug : bool) (fuel : nat) (dt : display_timing)
    (now_ns now2_ns : Z) : result (predict_out * display_timing) :=
  '(i, dt) ← predict_next_frame ndebug fuel dt now_ns now2_ns;
  f ← array_get (frames dt) i;
  Ok (mk_predict_out (frame_id f) (wake_up_time_ns f) (desired_present_time_ns f)
        U_TIME_HALF_MS_IN_NS (predicted_display_time_ns f) (frame_period_ns dt)
        (frame_period_ns dt),
      dt).

End DisplayTimingPredict.

(** ** Session: waiting for a frame and polling the compositor
    ([oxr_session_egl.c]) *)

Module SessionFrames.
Import CInt Session.

Definition should_render (st : XrSessionState) : bool :=
  match st with
  | XR_SESSION_STATE_VISIBLE => true
  | XR_SESSION_STATE_FOCUSED => true
  | XR_SESSION_STATE_STOPPING => true
  | _ => false
  end.

(** The fields of [XrFrameState] that [oxr_session_frame_wait] writes. *)
Record XrFrameState : Set := mk_XrFrameState {
  shouldRender : bool;
  predictedDisplayTime : Z;
  predictedDisplayPeriod : Z
}.

(** What [xrt_comp_wait_frame] answers and writes through its three out
    pointers; the first of them is [&sess->frame_id.waited]. *)
Record wait_frame_reply : Set := mk_wait_frame_reply {
  wf_result : xrt_result;
  wf_frame_id : Z;
  wf_predicted_display_time : Z;
  wf_predicted_display_period : Z
}.

(** How a call of [oxr_session_frame_wait] ends: it returns one of the
    codes of [XrResult], it returns [XR_ERROR_RUNTIME_FAILURE], or it stays
    in [os_semaphore_wait]. *)
Inductive frame_wait_outcome : Set :=
  | Wait_returns (r : XrResult) (frameState : XrFrameState) (sess : oxr_session)
  | Wait_XR_ERROR_RUNTIME_FAILURE (frameState : XrFrameState) (sess : oxr_session)
  | Wait_blocks (sess : oxr_session).

(** Modelled from the spec: [os_semaphore_wait] is declared in
    [os/os_threading.h], outside the sources at hand; per the spec the
    begin/wait semaphore has capacity 1, a wait on it suspends the caller
    until [begin_frame] posts it.  A wait takes one unit when the count is
    positive and blocks otherwise. *)
Definition os_semaphore_wait (sess : oxr_session) : option oxr_session :=
  if 0 <? sem sess then Some (set_sem sess (sem sess - 1)) else None.

Section frames.
(** [oxr_session_success_result], as for the other session calls. *)
Variable oxr_session_success_result : oxr_session -> XrResult.
(** [time_state_monotonic_to_ts_ns] belongs to the time keeping of
    [util/u_time.h]; it is kept abstract. *)
Variable time_state_monotonic_to_ts_ns : Z -> Z.

(** [oxr_session_frame_wait].  The clock update at its head, the optional
    log lines and the optional sleep at its end do not touch the session.
    The call on the compositor is not entered in [xc_calls], which lists the
    calls of the four functions above. *)
Definition oxr_session_frame_wait (reply : wait_frame_reply) (sess : oxr_session)
    (frameState : XrFrameState) : frame_wait_outcome :=
  if negb (is_running sess) then
    Wait_returns XR_ERROR_SESSION_NOT_RUNNING frameState sess
  else if negb (has_compositor sess) then
    Wait_returns (oxr_session_success_result sess)
      (mk_XrFrameState false (predictedDisplayTime frameState)
         (predictedDisplayPeriod frameState))
      sess
  else
    let sess := set_active_wait_frames sess (active_wait_frames sess + 1) in
    match os_semaphore_wait sess with
    | None => Wait_blocks sess
    | Some sess =>
        let sess := set_frame_id_waited sess (wf_frame_id reply) in
        if is_ipc_failure (wf_result reply) then
          Wait_returns XR_ERROR_INSTANCE_LOST frameState sess
        else if to_int64 (wf_predicted_display_time reply) <=? 0 then
          Wait_XR_ERROR_RUNTIME_FAILURE frameState sess
        else
          let frameState :=
            mk_XrFrameState (should_render (state sess))
              (time_state_monotonic_to_ts_ns (wf_predicted_display_time reply))
              (to_int64 (wf_predicted_display_period reply)) in
          if predictedDisplayTime frameState <=? 0 then
            Wait_XR_ERROR_RUNTIME_FAILURE frameState sess
          else
            Wait_returns (oxr_session_success_result sess) frameState sess
    end.
End frames.

(** *** Polling *)

(** [union xrt_compositor_event] as [oxr_session_poll] dispatches on it. *)
Inductive xrt_compositor_event : Set :=
  | XRT_COMPOSITOR_EVENT_NONE
  | XRT_COMPOSITOR_EVENT_STATE_CHANGE (visible focused : bool)
  | XRT_COMPOSITOR_EVENT_OVERLAY_CHANGE (visible : bool)
  | XRT_COMPOSITOR_EVENT_other (type : Z).

(** A session with the two flags [oxr_session_poll] keeps and the
    main-session-visibility events it has pushed
    ([oxr_event_push_XrEventDataMainSessionVisibilityChangedEXTX], kept as
    the list of the pushed values). *)
Record polled_session : Set := mk_polled_session {
  base : oxr_session;
  compositor_visible : bool;
  compositor_focused : bool;
  visibility_events : list bool
}.

(** The loop of [oxr_session_poll]: [replies] are the events that
    successive calls of [xc->poll_events] hand out.  The loop ends at the
    first [XRT_COMPOSITOR_EVENT_NONE]; the replies not read are returned. *)
Fixpoint poll_loop (replies : list xrt_compositor_event) (sess : polled_session)
    : result (polled_session * list xrt_compositor_event) :=
  match replies with
  | [] => OutOfFuel
  | xce :: replies' =>
      match xce with
      | XRT_COMPOSITOR_EVENT_NONE => Ok (sess, replies')
      | XRT_COMPOSITOR_EVENT_STATE_CHANGE visible focused =>
          poll_loop replies'
            (mk_polled_session (base sess) visible focused (visibility_events sess))
      | XRT_COMPOSITOR_EVENT_OVERLAY_CHANGE visible =>
          poll_loop replies'
            (mk_polled_session (base sess) (compositor_visible sess)
               (compositor_focused sess) (visibility_events sess ++ [visible]))
      | XRT_COMPOSITOR_EVENT_other _ => poll_loop replies' sess
      end
  end.

Definition set_base (sess : polled_session) (b : oxr_session) : polled_session :=
  mk_polled_session b (compositor_visible sess) (compositor_focused sess)
    (visibility_events sess).

Definition oxr_session_poll (replies : list xrt_compositor_event)
    (sess : polled_session)
    : result (polled_session * list xrt_compositor_event) :=
  if negb (has_compositor (base sess)) then Ok (sess, replies)
  else
    '(sess, replies) ← poll_loop replies sess;
    let sess :=
      if XrSessionState_eqb (state (base sess)) XR_SESSION_STATE_SYNCHRONIZED
         && compositor_visible sess
      then set_base sess (oxr_session_change_state (base sess) XR_SESSION_STATE_VISIBLE)
      else sess in
    let sess :=
      if XrSessionState_eqb (state (base sess)) XR_SESSION_STATE_VISIBLE
         && compositor_focused sess
      then set_base sess (oxr_session_change_state (base sess) XR_SESSION_STATE_FOCUSED)
      else sess in
    Ok (sess, replies).

End SessionFrames.

(** ** IPC server process: start-up tables, connections and the render loop
    (under [ht_hand_math.hpp]) *)

Module IpcServerProcess.
Import CInt IpcServer.

(** *** Tracking origins and the shared-memory tables *)

(** A tracking origin is known to the server by its address; the three
    fields that [init_shm] copies are what lies there. *)
Record xrt_tracking_origin : Set := mk_xrt_tracking_origin {
  xto_name : Z;
  xto_type : Z;
  xto_offset : Z
}.

(** [struct xrt_device], the fields the server start-up reads.  [str],
    the head-mounted-display part and the entries of [inputs] and [outputs]
    are opaque values; [num_inputs] and [num_outputs] are the lengths of the
    lists.  [tracking_origin] is an address, [None] for [NULL]. *)
Record xrt_device : Set := mk_xrt_device {
  xdev_name : Z;
  xdev_str : Z;
  xdev_hmd : option Z;
  tracking_origin : option Z;
  inputs : list Z;
  outputs : list Z
}.

(** The device and tracking-origin arrays of [struct ipc_server], both of
    [IPC_SERVER_NUM_XDEVS] entries. *)
Record server_devices : Set := mk_server_devices {
  sd_xdevs : list (option xrt_device);
  xtracks : list (option Z)
}.

Definition same_origin (a b : option Z) : bool :=
  match a, b with
  | Some x, Some y => x =? y
  | None, None => true
  | _, _ => false
  end.

(** The inner loop of [init_tracking_origins], from [index] on: the slots
    still to be looked at are [todo]. *)
Fixpoint store_origin (xtrack : option Z) (todo : list (option Z)) : list (option Z) :=
  match todo with
  | [] => []
  | slot :: todo' =>
      match slot with
      | None => xtrack :: todo'
      | Some _ =>
          if same_origin slot xtrack then slot :: todo'
          else slot :: store_origin xtrack todo'
      end
  end.

Fixpoint init_tracking_origins_loop (ndebug : bool) (devs : list (option xrt_device))
    (xtracks' : list (option Z)) : result (list (option Z)) :=
  match devs with
  | [] => Ok xtracks'
  | None :: devs' => init_tracking_origins_loop ndebug devs' xtracks'
  | Some xdev :: devs' =>
      let xtrack := tracking_origin xdev in
      _ ← c_assert ndebug (negb (same_origin xtrack None));
      init_tracking_origins_loop ndebug devs' (store_origin xtrack xtracks')
  end.

Definition init_tracking_origins (ndebug : bool) (s : server_devices)
    : result server_devices :=
  xtracks' ← init_tracking_origins_loop ndebug (sd_xdevs s) (xtracks s);
  Ok (mk_server_devices (sd_xdevs s) xtracks').

(** [struct ipc_shared_device] and the parts of [struct ipc_shared_memory]
    that [init_shm] fills in.  The four arrays have a fixed size, the length
    of the lists. *)
Record ipc_shared_device : Set := mk_ipc_shared_device {
  idev_name : Z;
  idev_str : Z;
  tracking_origin_index : Z;
  num_inputs : Z;
  first_input_index : Z;
  num_outputs : Z;
  first_output_index : Z
}.

Record ipc_shared_memory : Set := mk_ipc_shared_memory {
  itracks : list xrt_tracking_origin;
  num_itracks : Z;
  idevs : list ipc_shared_device;
  num_idevs : Z;
  ism_hmd : Z;
  ism_inputs : list Z;
  ism_outputs : list Z
}.

(** A store into an array: outside its bounds the embedding stops. *)
Definition array_set {A} (a : list A) (i : Z) (x : A) : result (list A) :=
  _ ← array_get a i;
  Ok (<[Z.to_nat i := x]> a).

(** Conversion to [uint32_t]. *)
Definition to_uint32 (x : Z) : Z := x mod two32.

(** [ism->inputs[input_index++] = xdev->inputs[k]] for all [k]; the index
    is a [uint32_t]. *)
Fixpoint copy_entries (src : list Z) (dst : list Z) (index : Z) : result (list Z * Z) :=
  match src with
  | [] => Ok (dst, index)
  | x :: src' =>
      dst ← array_set dst index x;
      copy_entries src' dst (to_uint32 (index + 1))
  end.

(** The loop over [k] that looks a tracking origin up in [s->xtracks];
    [(uint32_t)-1] when it is not there.  The index found is stored in a
    field that is compared with [(uint32_t)-1], a [uint32_t]. *)
Fixpoint find_origin (xtrack : option Z) (slots : list (option Z)) (k : Z) : Z :=
  match slots with
  | [] => to_uint32 (-1)
  | slot :: slots' =>
      if negb (same_origin xtrack slot) then find_origin xtrack slots' (k + 1)
      else to_uint32 k
  end.

Section init_shm.
(** What lies at the address of a tracking origin. *)
Variable origin_at : Z -> xrt_tracking_origin.
(** [xrt_device_update_inputs] is the device's own code; it yields the
    inputs the copy loop then reads. *)
Variable xrt_device_update_inputs : xrt_device -> list Z.
Variable IPC_SHARED_MAX_DEVICES : Z.

(** The first loop: one record per tracking origin that is not [NULL]. *)
Fixpoint copy_origins (ndebug : bool) (slots : list (option Z)) (i : Z)
    (tracks : list xrt_tracking_origin) (count : Z)
    : result (list xrt_tracking_origin * Z) :=
  match slots with
  | [] => Ok (tracks, count)
  | None :: slots' => copy_origins ndebug slots' (i + 1) tracks count
  | Some xtrack :: slots' =>
      _ ← c_assert ndebug (i <? IPC_SHARED_MAX_DEVICES);
      tracks ← array_set tracks count (origin_at xtrack);
      copy_origins ndebug slots' (i + 1) tracks (to_uint32 (count + 1))
  end.

(** The running values of the second loop. *)
Record copy_state : Set := mk_copy_state {
  cs_ism : ipc_shared_memory;
  cs_count : Z;
  input_index : Z;
  output_index : Z
}.

(** The body of the second loop for one device.  The two differences
    [input_index - input_start] and [output_index - output_start] are taken
    in [size_t]. *)
Definition copy_device (ndebug : bool) (s : server_devices) (xdev : xrt_device)
    (st : copy_state) : result copy_state :=
  let ism := cs_ism st in
  idev ← array_get (idevs ism) (cs_count st);
  let count := to_uint32 (cs_count st + 1) in
  let idev :=
    mk_ipc_shared_device (xdev_name xdev) (xdev_str xdev) (tracking_origin_index idev)
      (num_inputs idev) (first_input_index idev) (num_outputs idev)
      (first_output_index idev) in
  let hmd := match xdev_hmd xdev with Some h => h | None => ism_hmd ism end in
  let idev :=
    mk_ipc_shared_device (idev_name idev) (idev_str idev)
      (find_origin (tracking_origin xdev) (xtracks s) 0)
      (num_inputs idev) (first_input_index idev) (num_outputs idev)
      (first_output_index idev) in
  _ ← c_assert ndebug (negb (tracking_origin_index idev =? to_uint32 (-1)));
  let input_start := input_index st in
  '(inputs', input_index') ←
    copy_entries (xrt_device_update_inputs xdev) (ism_inputs ism) (input_index st);
  let idev :=
    if negb (input_start =? input_index') then
      mk_ipc_shared_device (idev_name idev) (idev_str idev) (tracking_origin_index idev)
        (to_uint64 (input_index' - input_start)) input_start (num_outputs idev)
        (first_output_index idev)
    else idev in
  let output_start := output_index st in
  '(outputs', output_index') ←
    copy_entries (outputs xdev) (ism_outputs ism) (output_index st);
  let idev :=
    if negb (output_start =? output_index') then
      mk_ipc_shared_device (idev_name idev) (idev_str idev) (tracking_origin_index idev)
        (num_inputs idev) (first_input_index idev)
        (to_uint64 (output_index' - output_start)) output_start
    else idev in
  Ok (mk_copy_state
        (mk_ipc_shared_memory (itracks ism) (num_itracks ism)
           (<[Z.to_nat (cs_count st) := idev]> (idevs ism)) (num_idevs ism)
           hmd inputs' outputs')
        count input_index' output_index').

Fixpoint copy_devices (ndebug : bool) (s : server_devices)
    (devs : list (option xrt_device)) (st : copy_state) : result copy_state :=
  match devs with
  | [] => Ok st
  | None :: devs' => copy_devices ndebug s devs' st
  | Some xdev :: devs' =>
      st ← copy_device ndebug s xdev st;
      copy_devices ndebug s devs' st
  end.

(** [init_shm], from "Setup the shared memory state" on: [ism] is the
    mapped memory as [mmap] hands it out.  The calls that create and map the
    memory come before and return -1 when they fail. *)
Definition init_shm (ndebug : bool) (s : server_devices) (ism : ipc_shared_memory)
    : result ipc_shared_memory :=
  '(tracks, count) ← copy_origins ndebug (xtracks s) 0 (itracks ism) 0;
  let ism :=
    mk_ipc_shared_memory tracks count (idevs ism) (num_idevs ism) (ism_hmd ism)
      (ism_inputs ism) (ism_outputs ism) in
  st ← copy_devices ndebug s (sd_xdevs s) (mk_copy_state ism 0 0 0);
  let ism := cs_ism st in
  Ok (mk_ipc_shared_memory (itracks ism) (num_itracks ism) (idevs ism) (cs_count st)
        (ism_hmd ism) (ism_inputs ism) (ism_outputs ism)).
End init_shm.

End IpcServerProcess.

(** *** Connections and the render loop *)

Module IpcServerLoop.
Import CInt IpcServer.

(** [enum ipc_thread_state] is declared in [ipc_server.h]: the three values
    the server code names, and any other. *)
Inductive ipc_thread_state : Set :=
  | IPC_THREAD_READY
  | IPC_THREAD_STARTING
  | IPC_THREAD_STOPPING
  | IPC_THREAD_other (v : Z).

Definition is_ready (st : ipc_thread_state) : bool :=
  match st with IPC_THREAD_READY => true | _ => false end.

Definition is_stopping (st : ipc_thread_state) : bool :=
  match st with IPC_THREAD_STOPPING => true | _ => false end.

(** What [s->threads[i]] holds beside the client state kept in [threads]
    of [ipc_server]: the state of the thread, the socket of the client and
    its render-timing helper. *)
Record ipc_thread : Set := mk_ipc_thread {
  it_state : ipc_thread_state;
  ipc_socket_fd : Z;
  urth : RenderTiming.u_rt_helper
}.

(** What the server does to the outside, in order. *)
Inductive effect : Set :=
  | Close (fd : Z)
  | Thread_join (i : Z)
  | Thread_start (i : Z)
  | Comp_begin_frame (frame_id : Z)
  | Comp_layer_begin (frame_id : Z)
  | Comp_layer (call : layer_call)
  | Comp_layer_commit (frame_id : Z).

Record server_process : Set := mk_server_process {
  sp_server : ipc_server;
  sp_threads : list ipc_thread;
  running : bool;
  listen_socket : Z;
  effects : list effect
}.

Definition set_running (vs : server_process) (b : bool) : server_process :=
  mk_server_process (sp_server vs) (sp_threads vs) b (listen_socket vs) (effects vs).

Definition add_effects (vs : server_process) (l : list effect) : server_process :=
  mk_server_process (sp_server vs) (sp_threads vs) (running vs) (listen_socket vs)
    (effects vs ++ l).

(** The search of [handle_listen] for a free thread. *)
Fixpoint find_free_thread (clients : list ipc_client_state) (i : Z) : option Z :=
  match clients with
  | [] => None
  | _cs :: clients' =>
      if server_thread_index _cs <? 0 then Some i
      else find_free_thread clients' (i + 1)
  end.

(** [handle_listen]; [ret] is what [accept] returns. *)
Definition handle_listen (ret : Z) (vs : server_process) : result server_process :=
  let vs := if ret <? 0 then set_running vs false else vs in
  let fd := ret in
  match find_free_thread (threads (sp_server vs)) 0 with
  | None => Ok (add_effects vs [Close fd])
  | Some cs_index =>
      it ← array_get (sp_threads vs) cs_index;
      if negb (is_ready (it_state it)) && negb (is_stopping (it_state it)) then
        Ok (add_effects vs [Close fd])
      else
        let vs :=
          if negb (is_ready (it_state it)) then add_effects vs [Thread_join cs_index]
          else vs in
        cs ← array_get (threads (sp_server vs)) cs_index;
        let it := mk_ipc_thread IPC_THREAD_STARTING fd (urth it) in
        let cs := set_server_thread_index cs cs_index in
        Ok (mk_server_process
              (set_threads (sp_server vs)
                 (<[Z.to_nat cs_index := cs]> (threads (sp_server vs))))
              (<[Z.to_nat cs_index := it]> (sp_threads vs))
              (running vs) (listen_socket vs)
              (effects vs ++ [Thread_start cs_index]))
  end.

(** What [epoll_wait] returns: an error, or the events, each with its
    [data.fd] and with what [accept] returns if the event leads to a call of
    [handle_listen]. *)
Inductive epoll_result : Set :=
  | Epoll_error (ret : Z)
  | Epoll_events (events : list (Z * Z)).

Fixpoint check_epoll_loop (events : list (Z * Z)) (vs : server_process)
    : result server_process :=
  match events with
  | [] => Ok vs
  | (fd, accept_ret) :: events' =>
      if fd =? 0 then Ok (set_running vs false)
      else
        vs ← (if fd =? listen_socket vs then handle_listen accept_ret vs else Ok vs);
        check_epoll_loop events' vs
  end.

Definition check_epoll (r : epoll_result) (vs : server_process)
    : result server_process :=
  match r with
  | Epoll_error _ => Ok (set_running vs false)
  | Epoll_events events => check_epoll_loop events vs
  end.

(** What one pass of the loop of [main_loop] takes from outside: the
    answer of [xrt_comp_wait_frame], the clock reading and the result of
    [epoll_wait]. *)
Record frame_input : Set := mk_frame_input {
  fi_frame_id : Z;
  fi_predicted_display_time : Z;
  fi_predicted_display_period : Z;
  fi_now : Z;
  fi_epoll : epoll_result
}.

Section main_loop.
Variable qsort :
  (_z_sort_data -> _z_sort_data -> Z) -> list _z_sort_data -> list _z_sort_data.

(** The body of the loop of [main_loop]. *)
Definition main_loop_body (fi : frame_input) (s : server_process)
    : result server_process :=
  let frame_id := fi_frame_id fi in
  let diff := to_uint64 (fi_predicted_display_time fi - fi_now fi) in
  let s :=
    mk_server_process (sp_server s)
      (map (fun it =>
              mk_ipc_thread (it_state it) (ipc_socket_fd it)
                (RenderTiming.u_rt_helper_new_sample (urth it)
                   (fi_predicted_display_time fi) diff
                   (fi_predicted_display_period fi)))
         (sp_threads s))
      (running s) (listen_socket s) (effects s) in
  let s := add_effects s [Comp_begin_frame frame_id; Comp_layer_begin frame_id] in
  '(_, calls) ← _update_layers qsort (sp_server s);
  let s := add_effects s (map Comp_layer calls) in
  let s := add_effects s [Comp_layer_commit frame_id] in
  check_epoll (fi_epoll fi) s.

(** [main_loop]: one [frame_input] per pass. *)
Fixpoint main_loop (inputs : list frame_input) (s : server_process)
    : result server_process :=
  if running s then
    match inputs with
    | [] => OutOfFuel
    | fi :: inputs' =>
        s ← main_loop_body fi s;
        main_loop inputs' s
    end
  else Ok s.
End main_loop.

End IpcServerLoop.

(** * Properties *)

(** ** Machine integers and array reads *)

Module CIntFacts.
Import CInt.

Lemma to_uint64_range x : is_uint64 (to_uint64 x).
Proof. unfold is_uint64, to_uint64, two64. apply Z.mod_pos_bound. lia. Qed.

Lemma to_uint64_small x : is_uint64 x -> to_uint64 x = x.
Proof. unfold is_uint64, to_uint64. intros H. apply Z.mod_small. lia. Qed.

Lemma to_int64_small x : - 2 ^ 63 <= x < 2 ^ 63 -> to_int64 x = x.
Proof.
  intros H. unfold to_int64, two64. rewrite Z.mod_small; lia.
Qed.

Lemma to_int64_range x : - 2 ^ 63 <= to_int64 x < 2 ^ 63.
Proof.
  unfold to_int64, two64.
  pose proof (Z.mod_pos_bound (x + 2 ^ 63) (2 ^ 64)). lia.
Qed.

Lemma to_int32_small x : is_int32 x -> to_int32 x = x.
Proof.
  unfold is_int32, INT32_MIN, INT32_MAX, to_int32, two32. intros H.
  rewrite Z.mod_small; lia.
Qed.

Lemma to_int32_range x : is_int32 (to_int32 x).
Proof.
  unfold is_int32, INT32_MIN, INT32_MAX, to_int32, two32.
  pose proof (Z.mod_pos_bound (x + 2 ^ 31) (2 ^ 32)). lia.
Qed.

(** Subtracting a smaller amount from an unsigned value does not wrap;
    subtracting a larger one wraps by exactly 2^64. *)
Lemma to_uint64_sub_nowrap a b :
  is_uint64 a -> 0 <= b <= a -> to_uint64 (a - b) = a - b.
Proof. unfold is_uint64. intros Ha Hb. apply to_uint64_small. unfold is_uint64. lia. Qed.

Lemma to_uint64_sub_wrap a b :
  is_uint64 a -> is_uint64 b -> a < b -> to_uint64 (a - b) = a - b + two64.
Proof.
  unfold is_uint64, to_uint64, two64. intros Ha Hb Hlt.
  symmetry. apply (Z.mod_unique_pos _ _ (-1)); lia.
Qed.

Lemma array_get_Ok {A} (a : list A) i x :
  array_get a i = Ok x <-> 0 <= i /\ a !! Z.to_nat i = Some x.
Proof.
  unfold array_get. destruct (Z.ltb_spec i 0).
  - split; [discriminate | lia].
  - destruct (a !! Z.to_nat i) eqn:E; split; intros H'.
    + inversion H'; subst. auto.
    + destruct H' as [_ H']. congruence.
    + discriminate.
    + destruct H' as [_ H']. discriminate.
Qed.

Lemma array_get_in_range {A} (a : list A) i :
  0 <= i < Z.of_nat (length a) -> exists x, array_get a i = Ok x.
Proof.
  intros H. destruct (lookup_lt_is_Some_2 a (Z.to_nat i)) as [x Hx]; [lia|].
  exists x. apply array_get_Ok. split; [lia | done].
Qed.

(** Case analysis on the calls a successful sequence of binds went
    through. *)
Ltac step_binds H :=
  repeat match type of H with
  | mbind _ ?m = Ok _ => destruct m; simpl in H; try discriminate
  | rbind ?m _ = Ok _ => destruct m; simpl in H; try discriminate
  end.

End CIntFacts.

(** ** Display-timing engine *)

Module DisplayTimingFacts.
Import CInt CIntFacts DisplayTiming.

Lemma frame_state_eqb_eq a b : frame_state_eqb a b = true <-> a = b.
Proof.
  unfold frame_state_eqb. rewrite Z.eqb_eq.
  split; [destruct a, b; simpl; intros; congruence || lia | intros ->; reflexivity].
Qed.

(** A frame ring of the declared size, and an id counter that has not
    left the non-negative [int64_t] range. *)
Definition dt_wf (dt : display_timing) : Prop :=
  length (frames dt) = Z.to_nat NUM_FRAMES /\ 0 <= next_frame_id dt < 2 ^ 63.

Lemma get_frame_nonneg ndebug frame_id :
  0 <= frame_id < 2 ^ 63 ->
  get_frame ndebug frame_id = Ok (frame_id mod NUM_FRAMES).
Proof.
  intros H. unfold get_frame, c_assert.
  assert (H1 : (0 <=? frame_id) = true) by (apply Z.leb_le; lia).
  assert (H2 : (to_uint64 frame_id <=? UINT64_MAX) = true).
  { apply Z.leb_le. pose proof (to_uint64_range frame_id) as R.
    unfold is_uint64, two64, UINT64_MAX in *. lia. }
  rewrite H1, H2. destruct ndebug; simpl; f_equal;
    (rewrite Z.rem_mod_nonneg by (unfold NUM_FRAMES; lia);
     apply to_uint64_small; unfold is_uint64, two64, NUM_FRAMES;
     pose proof (Z.mod_pos_bound frame_id 16); lia).
Qed.

Lemma get_frame_negative_debug frame_id :
  frame_id < 0 -> get_frame false frame_id = AssertFail.
Proof.
  intros H. unfold get_frame, c_assert.
  assert (H1 : (0 <=? frame_id) = false) by (apply Z.leb_gt; lia).
  rewrite H1. reflexivity.
Qed.

Lemma ring_slot_exists (dt : display_timing) (k : Z) :
  length (frames dt) = Z.to_nat NUM_FRAMES ->
  exists f, array_get (frames dt) (k mod NUM_FRAMES) = Ok f.
Proof.
  intros Hlen. apply array_get_in_range. rewrite Hlen.
  unfold NUM_FRAMES. pose proof (Z.mod_pos_bound k 16). lia.
Qed.

Lemma latest_frame_loop_returns ndebug dt st start_from :
  length (frames dt) = Z.to_nat NUM_FRAMES ->
  0 <= start_from < 2 ^ 63 ->
  forall fuel count,
    1 <= count -> NUM_FRAMES <= count + Z.of_nat fuel ->
    exists r, latest_frame_loop ndebug dt st start_from fuel count = Ok r.
Proof.
  intros Hlen Hs. induction fuel as [|fuel IH]; intros count Hc Hf.
  - simpl. destruct (Z.ltb_spec count NUM_FRAMES); [lia|].
    rewrite andb_false_r. eauto.
  - simpl.
    destruct ((count <=? start_from) && (count <? NUM_FRAMES)) eqn:Hcond; [|eauto].
    apply andb_true_iff in Hcond as [Hle Hlt].
    apply Z.leb_le in Hle. apply Z.ltb_lt in Hlt.
    rewrite to_int64_small by lia.
    rewrite get_frame_nonneg by lia. simpl.
    destruct (ring_slot_exists dt (start_from - count) Hlen) as [f Hf'].
    rewrite Hf'. simpl.
    destruct (frame_state_value st <=? frame_state_value (state f)); [eauto|].
    apply IH; lia.
Qed.

Lemma get_latest_frame_returns ndebug dt st :
  dt_wf dt -> exists r, get_latest_frame_with_state_at_least ndebug dt st = Ok r.
Proof.
  intros [Hlen Hid]. unfold get_latest_frame_with_state_at_least.
  rewrite to_uint64_small by (unfold is_uint64, two64; lia).
  apply latest_frame_loop_returns; auto; unfold NUM_FRAMES; simpl; lia.
Qed.

(** *** The signed window test on values of the [int64_t] range *)

Lemma is_within_of_each_other_spec l r range :
  0 <= l < 2 ^ 63 -> 0 <= r < 2 ^ 63 -> 0 <= range < 2 ^ 63 ->
  is_within_of_each_other l r range = (- range <? l - r) && (l - r <? range).
Proof.
  intros Hl Hr Hg. unfold is_within_of_each_other.
  rewrite (to_int64_small l), (to_int64_small r), (to_int64_small range) by lia.
  rewrite (to_int64_small (l - r)), (to_int64_small (- range)) by lia.
  reflexivity.
Qed.

Lemma frame_missed_late (f : frame) :
  0 <= desired_present_time_ns f < 2 ^ 63 ->
  0 <= actual_present_time_ns f < 2 ^ 63 ->
  desired_present_time_ns f + U_TIME_HALF_MS_IN_NS <= actual_present_time_ns f ->
  frame_missed f = true.
Proof.
  intros Hd Ha Hlate. unfold frame_missed, is_within_half_ms.
  rewrite is_within_of_each_other_spec by (unfold U_TIME_HALF_MS_IN_NS; lia).
  unfold U_TIME_HALF_MS_IN_NS in *.
  apply andb_true_iff. split; [apply Z.ltb_lt; lia|].
  apply negb_true_iff, andb_false_iff. right. apply Z.ltb_ge. lia.
Qed.

Lemma adjust_app_time_missed dt f :
  frame_missed f = true ->
  app_time_ns (adjust_app_time dt f)
  = Z.min (to_uint64 (app_time_ns dt + adjust_missed_ns dt)) (app_time_max_ns dt).
Proof.
  intros Hm. unfold adjust_app_time. rewrite Hm. simpl.
  destruct (Z.ltb_spec (app_time_max_ns dt)
              (to_uint64 (app_time_ns dt + adjust_missed_ns dt))); lia.
Qed.

Lemma adjust_app_time_frames dt f : frames (adjust_app_time dt f) = frames dt.
Proof.
  unfold adjust_app_time.
  repeat match goal with |- context [if ?b then _ else _] => destruct b end;
    reflexivity.
Qed.


(** *** Feedback on a missed frame *)

(** The controller constants are the percentages computed at creation. *)
Lemma create_controller_constants (pct : Z -> Z -> Z) (period : Z) :
  let dt := u_ft_display_timing_create pct period in
  app_time_ns dt = pct period 10 /\
  app_time_max_ns dt = pct period 30 /\
  adjust_missed_ns dt = pct period 4 /\
  adjust_non_miss_ns dt = pct period 2 /\
  margin_ns dt = U_TIME_1MS_IN_NS.
Proof. simpl. auto. Qed.

Lemma create_wf (pct : Z -> Z -> Z) (period : Z) :
  dt_wf (u_ft_display_timing_create pct period).
Proof. split; simpl; [reflexivity | lia]. Qed.

(** A display timing created for a 60 Hz display whose frame 0 has been
    predicted for time [desired] and carried up to [STATE_SUBMITTED]. *)
Definition dt_60hz : display_timing :=
  u_ft_display_timing_create get_percent_of_time 16666666.

(** The controller constants of the 60 Hz display. *)
Example get_percent_of_time_60hz :
  get_percent_of_time 16666666 10 = 1666666 /\
  get_percent_of_time 16666666 30 = 4999999 /\
  get_percent_of_time 16666666 4 = 666666 /\
  get_percent_of_time 16666666 2 = 333333.
Proof. vm_compute. auto. Qed.

(** The percentage is taken in [double]: 30 % of 100 ns are 29 ns, since
    the [double] nearest to 0.3 lies below it. *)
Example get_percent_of_time_rounds : get_percent_of_time 100 30 = 29.
Proof. vm_compute. reflexivity. Qed.

Definition submitted_frame (desired : Z) : frame :=
  mk_frame 0 0 0 0 0 0 0 0 0 desired 0 0 0 0 STATE_SUBMITTED.

Definition dt_60hz_submitted (desired : Z) : display_timing :=
  set_frame dt_60hz 0 (submitted_frame desired).

(** C3, as amended: a feedback sample for a frame whose recorded desired
    present time and reported actual present time both lie below 2^63 ns,
    the actual one at least 0.5 ms after the desired one, makes [dt_info]
    return with [app_time_ns] equal to the minimum of
    [(app_time_ns + adjust_missed_ns) mod 2^64] and [app_time_max_ns]; when the
    sum does not exceed the [uint64_t] range this is
    [min (app_time_ns + adjust_missed_ns) app_time_max_ns]. *)
Theorem dt_info_missed_frame
    ndebug dt frame_id desired actual earliest margin now f :
  dt_wf dt ->
  0 <= frame_id < 2 ^ 63 ->
  frames dt !! Z.to_nat (frame_id mod NUM_FRAMES) = Some f ->
  (ndebug = true \/ state f = STATE_SUBMITTED) ->
  0 <= desired_present_time_ns f < 2 ^ 63 ->
  0 <= actual < 2 ^ 63 ->
  desired_present_time_ns f + U_TIME_HALF_MS_IN_NS <= actual ->
  exists dt',
    dt_info ndebug dt frame_id desired actual earliest margin now = Ok dt' /\
    app_time_ns dt'
    = Z.min (to_uint64 (app_time_ns dt + adjust_missed_ns dt)) (app_time_max_ns dt) /\
    (is_uint64 (app_time_ns dt + adjust_missed_ns dt) ->
     app_time_ns dt'
     = Z.min (app_time_ns dt + adjust_missed_ns dt) (app_time_max_ns dt)).
Proof.
  intros Hwf Hid Hf Hst Hd Ha Hlate.
  destruct (get_latest_frame_returns ndebug dt STATE_INFO Hwf) as [last Hlast].
  assert (Hget : array_get (frames dt) (frame_id mod NUM_FRAMES) = Ok f).
  { apply array_get_Ok. split; [|exact Hf].
    unfold NUM_FRAMES. pose proof (Z.mod_pos_bound frame_id 16). lia. }
  assert (Hassert : c_assert ndebug (frame_state_eqb (state f) STATE_SUBMITTED) = Ok tt).
  { unfold c_assert. destruct Hst as [-> | ->]; [reflexivity|].
    destruct ndebug; reflexivity. }
  unfold dt_info. rewrite Hlast. simpl.
  rewrite get_frame_nonneg by lia. simpl.
  rewrite Hget. simpl. rewrite Hassert. simpl.
  eexists. split; [reflexivity|].
  match goal with |- context [adjust_app_time ?d ?g] =>
    pose proof (adjust_app_time_missed d g) as Hadj end.
  rewrite Hadj by (apply frame_missed_late; simpl; lia).
  simpl. split; [reflexivity|].
  intros Hsum. rewrite to_uint64_small by exact Hsum. reflexivity.
Qed.

Lemma dt_info_missed_frame_witness :
  exists dt',
    dt_info false (dt_60hz_submitted 50000000) 0 50000000 51000000 51000000 0
      51500000 = Ok dt' /\
    app_time_ns dt'
    = Z.min (to_uint64 (app_time_ns (dt_60hz_submitted 50000000)
                        + adjust_missed_ns (dt_60hz_submitted 50000000)))
        (app_time_max_ns (dt_60hz_submitted 50000000)) /\
    (is_uint64 (app_time_ns (dt_60hz_submitted 50000000)
                + adjust_missed_ns (dt_60hz_submitted 50000000)) ->
     app_time_ns dt'
     = Z.min (app_time_ns (dt_60hz_submitted 50000000)
              + adjust_missed_ns (dt_60hz_submitted 50000000))
         (app_time_max_ns (dt_60hz_submitted 50000000))).
Proof.
  apply (dt_info_missed_frame false (dt_60hz_submitted 50000000) 0 50000000
           51000000 51000000 0 51500000 (submitted_frame 50000000)).
  - split; [reflexivity | simpl; lia].
  - lia.
  - reflexivity.
  - right. reflexivity.
  - simpl. lia.
  - lia.
  - unfold U_TIME_HALF_MS_IN_NS. simpl. lia.
Defined.

(** After the miss of the witness [app_time_ns] has grown by one
    [adjust_missed_ns]: 1666666 + 666666. *)
Example dt_info_one_miss_60hz :
  app_time_ns <$> dt_info false (dt_60hz_submitted 50000000) 0 50000000 51000000
                    51000000 0 51500000
  = Ok 2333332.
Proof. vm_compute. reflexivity. Qed.

(** C3 as stated fails, in two ways.

    First, the window test casts both 64-bit unsigned times to [int64_t]
    before subtracting: an actual present time of 2^64 - 1 against a desired
    present time of 0 is seen as a difference of -1, within half a
    millisecond, so the frame is not treated as missed and, the margin being
    on target, [app_time_ns] stays as it was.

    Second, the sum itself is taken modulo 2^64: after [app_time_ns] has
    wrapped below zero (claim C9), a frame missed by one millisecond brings it
    to 333334, which is neither above the previous value nor the minimum of
    the mathematical sum and [app_time_max_ns]. *)
Lemma dt_info_missed_frame_counterexample :
  (let dt := dt_60hz_submitted 0 in
   let actual := UINT64_MAX in
   0 + U_TIME_HALF_MS_IN_NS < actual /\
   is_uint64 actual /\
   exists dt',
     dt_info false dt 0 0 actual actual (margin_ns dt) 1 = Ok dt' /\
     app_time_ns dt' = app_time_ns dt /\
     app_time_ns dt'
     <> Z.min (app_time_ns dt + adjust_missed_ns dt) (app_time_max_ns dt)) /\
  (let dt := set_app_time_ns (dt_60hz_submitted 50000000) (two64 - 333332) in
   50000000 + U_TIME_HALF_MS_IN_NS < 51000000 /\
   exists dt',
     dt_info false dt 0 50000000 51000000 51000000 0 51000001 = Ok dt' /\
     app_time_ns dt' = 333334 /\
     app_time_ns dt' < app_time_ns dt /\
     app_time_ns dt'
     <> Z.min (app_time_ns dt + adjust_missed_ns dt) (app_time_max_ns dt)).
Proof.
  split; cbv zeta.
  - split; [vm_compute; reflexivity|].
    split; [vm_compute; split; [discriminate | reflexivity]|].
    eexists. split; [vm_compute; reflexivity|].
    split; [vm_compute; reflexivity | vm_compute; discriminate].
  - split; [vm_compute; reflexivity|].
    eexists. split; [vm_compute; reflexivity|].
    split; [vm_compute; reflexivity|].
    split; [vm_compute; reflexivity | vm_compute; discriminate].
Qed.

(** *** Marking a point out of phase *)

(** The state a frame must be in for a point to be marked, the state the
    mark moves it to and the time stamp it writes, read off the [switch]. *)
Definition required_state (point : u_timing_point) : option frame_state :=
  match point with
  | U_TIMING_POINT_WAKE_UP => Some STATE_PREDICTED
  | U_TIMING_POINT_BEGIN => Some STATE_WOKE
  | U_TIMING_POINT_SUBMIT => Some STATE_BEGAN
  | U_TIMING_POINT_other _ => None
  end.

Definition marked_state (point : u_timing_point) : option frame_state :=
  match point with
  | U_TIMING_POINT_WAKE_UP => Some STATE_WOKE
  | U_TIMING_POINT_BEGIN => Some STATE_BEGAN
  | U_TIMING_POINT_SUBMIT => Some STATE_SUBMITTED
  | U_TIMING_POINT_other _ => None
  end.

Definition marked_time (point : u_timing_point) (f : frame) : option Z :=
  match point with
  | U_TIMING_POINT_WAKE_UP => Some (when_woke_ns f)
  | U_TIMING_POINT_BEGIN => Some (when_began_ns f)
  | U_TIMING_POINT_SUBMIT => Some (when_submitted_ns f)
  | U_TIMING_POINT_other _ => None
  end.

Definition out_of_phase (f : frame) (point : u_timing_point) : Prop :=
  required_state point <> Some (state f).

Lemma frame_state_eqb_neq a b : a <> b -> frame_state_eqb a b = false.
Proof.
  intros H. destruct (frame_state_eqb a b) eqn:E; [|reflexivity].
  apply frame_state_eqb_eq in E. contradiction.
Qed.

(** C8, as amended: an out-of-phase mark stops a debug build on the failed
    assertion.  A release build has no check left: for the three named points
    the mark is applied all the same (the record takes the phase of the mark
    and its time stamp is overwritten with [when_ns], the rest of the engine
    is untouched), and for any other point value nothing is changed. *)
Theorem dt_mark_point_out_of_phase dt point frame_id when_ns f :
  length (frames dt) = Z.to_nat NUM_FRAMES ->
  0 <= frame_id < 2 ^ 63 ->
  frames dt !! Z.to_nat (frame_id mod NUM_FRAMES) = Some f ->
  out_of_phase f point ->
  dt_mark_point false dt point frame_id when_ns = AssertFail /\
  exists dt',
    dt_mark_point true dt point frame_id when_ns = Ok dt' /\
    app_time_ns dt' = app_time_ns dt /\
    match marked_state point with
    | Some st =>
        exists f',
          frames dt' = <[Z.to_nat (frame_id mod NUM_FRAMES) := f']> (frames dt) /\
          state f' = st /\
          marked_time point f' = Some when_ns /\
          desired_present_time_ns f' = desired_present_time_ns f
    | None => dt' = dt
    end.
Proof.
  intros Hlen Hid Hf Hout.
  assert (Hget : array_get (frames dt) (frame_id mod NUM_FRAMES) = Ok f).
  { apply array_get_Ok. split; [|exact Hf].
    unfold NUM_FRAMES. pose proof (Z.mod_pos_bound frame_id 16). lia. }
  unfold dt_mark_point. rewrite !get_frame_nonneg by lia. simpl.
  destruct point; simpl; rewrite ?Hget; simpl.
  all: try (rewrite frame_state_eqb_neq
              by (intros E; apply Hout; simpl; congruence)).
  all: split; [reflexivity|].
  all: eexists; split; [reflexivity|]; split; [reflexivity|].
  all: try (eexists; repeat split; reflexivity).
Qed.

Lemma dt_mark_point_out_of_phase_witness :
  dt_mark_point false dt_60hz U_TIMING_POINT_BEGIN 3 42 = AssertFail /\
  exists dt',
    dt_mark_point true dt_60hz U_TIMING_POINT_BEGIN 3 42 = Ok dt' /\
    app_time_ns dt' = app_time_ns dt_60hz /\
    exists f',
      frames dt' = <[Z.to_nat (3 mod NUM_FRAMES) := f']> (frames dt_60hz) /\
      state f' = STATE_BEGAN /\
      Some (when_began_ns f') = Some 42 /\
      desired_present_time_ns f' = desired_present_time_ns zero_frame.
Proof.
  apply (dt_mark_point_out_of_phase dt_60hz U_TIMING_POINT_BEGIN 3 42 zero_frame).
  - reflexivity.
  - lia.
  - reflexivity.
  - unfold out_of_phase. simpl. discriminate.
Defined.

(** The phase test of a mark in phase passes in both builds. *)
Lemma dt_mark_point_in_phase ndebug dt point frame_id when_ns f :
  length (frames dt) = Z.to_nat NUM_FRAMES ->
  0 <= frame_id < 2 ^ 63 ->
  frames dt !! Z.to_nat (frame_id mod NUM_FRAMES) = Some f ->
  required_state point = Some (state f) ->
  exists dt' f',
    dt_mark_point ndebug dt point frame_id when_ns = Ok dt' /\
    frames dt' = <[Z.to_nat (frame_id mod NUM_FRAMES) := f']> (frames dt) /\
    marked_state point = Some (state f') /\
    marked_time point f' = Some when_ns.
Proof.
  intros Hlen Hid Hf Hreq.
  assert (Hget : array_get (frames dt) (frame_id mod NUM_FRAMES) = Ok f).
  { apply array_get_Ok. split; [|exact Hf].
    unfold NUM_FRAMES. pose proof (Z.mod_pos_bound frame_id 16). lia. }
  unfold dt_mark_point. rewrite get_frame_nonneg by lia. simpl.
  destruct point; simpl in *; try discriminate; rewrite Hget; simpl;
    injection Hreq as <-; unfold c_assert; destruct ndebug; simpl;
    eexists; eexists; repeat split; reflexivity.
Qed.

(** C8 as stated fails in its release half: frame 3 of a fresh engine is in
    [STATE_CLEARED], so marking [U_TIMING_POINT_BEGIN] is out of phase; the
    release build nevertheless moves the record to [STATE_BEGAN] and
    overwrites [when_began_ns]. *)
Lemma dt_mark_point_release_counterexample :
  out_of_phase zero_frame U_TIMING_POINT_BEGIN /\
  frames dt_60hz !! 3%nat = Some zero_frame /\
  exists dt' f',
    dt_mark_point true dt_60hz U_TIMING_POINT_BEGIN 3 42 = Ok dt' /\
    frames dt' !! 3%nat = Some f' /\
    state f' = STATE_BEGAN /\ state f' <> state zero_frame /\
    when_began_ns f' = 42 /\ when_began_ns f' <> when_began_ns zero_frame.
Proof.
  split; [unfold out_of_phase; simpl; discriminate|].
  split; [reflexivity|].
  eexists. eexists. split; [vm_compute; reflexivity|].
  split; [reflexivity|]. simpl. repeat split; discriminate.
Qed.

(** *** The downward adjustment has no floor *)

(** Feeding the controller a run of frame records, as [dt_info] does one at
    a time. *)
Definition feed (dt : display_timing) (fs : list frame) : display_timing :=
  fold_left adjust_app_time fs dt.

(** A frame that was presented on time with the GPU done just more than
    [margin_ns + adjust_non_miss_ns] ahead of the present. *)
Definition early_frame (dt : display_timing) : frame :=
  set_present_margin_ns zero_frame (margin_ns dt + adjust_non_miss_ns dt + 1).

Definition controller_wf (dt : display_timing) : Prop :=
  is_uint64 (app_time_ns dt) /\
  0 < adjust_non_miss_ns dt /\
  0 <= margin_ns dt /\
  margin_ns dt + adjust_non_miss_ns dt + 1 < 2 ^ 63.

Lemma adjust_app_time_early dt m a g :
  0 < adjust_non_miss_ns dt -> 0 <= margin_ns dt ->
  margin_ns dt + adjust_non_miss_ns dt + 1 < 2 ^ 63 ->
  m = margin_ns dt -> a = adjust_non_miss_ns dt ->
  g = set_present_margin_ns zero_frame (m + a + 1) ->
  adjust_app_time dt g = set_app_time_ns dt (to_uint64 (app_time_ns dt - a)).
Proof.
  intros Ha Hm Hb -> -> ->. unfold adjust_app_time.
  assert (Hmiss : frame_missed
            (set_present_margin_ns zero_frame
               (margin_ns dt + adjust_non_miss_ns dt + 1)) = false) by reflexivity.
  rewrite Hmiss. cbn [present_margin_ns set_present_margin_ns].
  rewrite is_within_of_each_other_spec by lia.
  replace (margin_ns dt + adjust_non_miss_ns dt + 1 - margin_ns dt <? adjust_non_miss_ns dt)
    with false by (symmetry; apply Z.ltb_ge; lia).
  rewrite andb_false_r.
  replace (margin_ns dt <? margin_ns dt + adjust_non_miss_ns dt + 1)
    with true by (symmetry; apply Z.ltb_lt; lia).
  reflexivity.
Qed.

Lemma feed_early_frames dt g :
  controller_wf dt -> g = early_frame dt ->
  forall n : nat,
    Z.of_nat n * adjust_non_miss_ns dt <= app_time_ns dt ->
    feed dt (replicate n g)
    = set_app_time_ns dt (app_time_ns dt - Z.of_nat n * adjust_non_miss_ns dt).
Proof.
  intros (Hu & Ha & Hm & Hb) ->. intros n. revert dt Hu Ha Hm Hb.
  induction n as [|n IH]; intros dt Hu Ha Hm Hb Hn.
  - simpl. destruct dt; simpl. unfold set_app_time_ns. simpl. f_equal. lia.
  - change (replicate (S n) (early_frame dt))
      with (early_frame dt :: replicate n (early_frame dt)).
    unfold feed. simpl fold_left.
    rewrite (adjust_app_time_early dt (margin_ns dt) (adjust_non_miss_ns dt))
      by (auto; reflexivity).
    rewrite to_uint64_sub_nowrap by (auto; nia).
    set (dt1 := set_app_time_ns dt (app_time_ns dt - adjust_non_miss_ns dt)).
    change (early_frame dt) with (early_frame dt1).
    fold (feed dt1 (replicate n (early_frame dt1))).
    rewrite IH; subst dt1; simpl; try lia.
    + unfold set_app_time_ns. simpl. f_equal. lia.
    + unfold is_uint64 in *. nia.
Qed.


Lemma feed_app : forall fs1 fs2 dt, feed dt (fs1 ++ fs2) = feed (feed dt fs1) fs2.
Proof. intros. unfold feed. apply fold_left_app. Qed.

(** C9: from any controller state with a positive [adjust_non_miss_ns]
    there is a run of frames, none of them missed and each with a present
    margin above [margin_ns + adjust_non_miss_ns], that brings [app_time_ns]
    below [adjust_non_miss_ns]; one more such frame then makes the unsigned
    subtraction wrap: the new [app_time_ns] is the old one minus
    [adjust_non_miss_ns] plus 2^64, the mathematical difference being
    negative.  The miss branch, in contrast, never leaves [app_time_ns] above
    [app_time_max_ns]. *)
Theorem app_time_wraps_below_zero dt :
  controller_wf dt ->
  (exists (fs : list frame) (f : frame),
     Forall (fun g => frame_missed g = false /\
                      margin_ns dt + adjust_non_miss_ns dt < present_margin_ns g)
       (fs ++ [f]) /\
     app_time_ns (feed dt fs) < adjust_non_miss_ns dt /\
     app_time_ns (feed dt fs) - adjust_non_miss_ns dt < 0 /\
     app_time_ns (adjust_app_time (feed dt fs) f)
     = app_time_ns (feed dt fs) - adjust_non_miss_ns dt + two64) /\
  (forall d g, frame_missed g = true ->
     app_time_ns (adjust_app_time d g) <= app_time_max_ns d).
Proof.
  intros Hwf. pose proof Hwf as (Hu & Ha & Hm & Hb). split.
  - set (a := adjust_non_miss_ns dt) in *.
    set (n := Z.to_nat (app_time_ns dt / a)).
    assert (Hn : Z.of_nat n = app_time_ns dt / a).
    { subst n. apply Z2Nat.id. apply Z.div_pos; unfold is_uint64 in Hu; lia. }
    pose proof (Z.mod_pos_bound (app_time_ns dt) a Ha) as Hr.
    pose proof (Z.div_mod (app_time_ns dt) a ltac:(lia)) as Hdm.
    exists (replicate n (early_frame dt)), (early_frame dt).
    rewrite (feed_early_frames dt (early_frame dt) Hwf eq_refl n)
      by (fold a; rewrite Hn; lia).
    fold a. rewrite Hn.
    split; [|split; [|split]].
    + apply Forall_app. split; [apply Forall_replicate|apply Forall_singleton];
        (split; [reflexivity | simpl; lia]).
    + cbn [app_time_ns set_app_time_ns]. nia.
    + cbn [app_time_ns set_app_time_ns]. nia.
    + rewrite (adjust_app_time_early _ (margin_ns dt) a (early_frame dt))
        by (simpl; auto; reflexivity).
      cbn [app_time_ns set_app_time_ns].
      apply to_uint64_sub_wrap; unfold is_uint64, two64 in *; lia.
  - intros d g Hg. rewrite adjust_app_time_missed by exact Hg. lia.
Qed.

Lemma dt_60hz_controller_wf : controller_wf dt_60hz.
Proof. vm_compute. repeat split; try reflexivity; discriminate. Qed.

Lemma app_time_wraps_below_zero_witness :
  (exists (fs : list frame) (f : frame),
     Forall (fun g => frame_missed g = false /\
                      margin_ns dt_60hz + adjust_non_miss_ns dt_60hz
                      < present_margin_ns g)
       (fs ++ [f]) /\
     app_time_ns (feed dt_60hz fs) < adjust_non_miss_ns dt_60hz /\
     app_time_ns (feed dt_60hz fs) - adjust_non_miss_ns dt_60hz < 0 /\
     app_time_ns (adjust_app_time (feed dt_60hz fs) f)
     = app_time_ns (feed dt_60hz fs) - adjust_non_miss_ns dt_60hz + two64) /\
  (forall d g, frame_missed g = true ->
     app_time_ns (adjust_app_time d g) <= app_time_max_ns d).
Proof.
  apply (app_time_wraps_below_zero dt_60hz).
  vm_compute. repeat split; try reflexivity; discriminate.
Defined.

(** The same run through [dt_info] in a debug build, on an engine whose
    ring holds submitted frames: five samples with 1.5 ms of margin take
    [app_time_ns] from 1666666 down to 1, the sixth wraps it. *)
Definition dt_60hz_all_submitted : display_timing :=
  set_frames dt_60hz (replicate (Z.to_nat NUM_FRAMES) (submitted_frame 50000000)).

Fixpoint info_run (ndebug : bool) (dt : display_timing) (ids : list Z)
    (margin : Z) : result display_timing :=
  match ids with
  | [] => Ok dt
  | frame_id :: ids' =>
      dt' ← dt_info ndebug dt frame_id 50000000 50000000 50000000 margin 50000001;
      info_run ndebug dt' ids' margin
  end.

Example dt_info_five_early_samples :
  app_time_ns <$> info_run false dt_60hz_all_submitted [0; 1; 2; 3; 4] 1500000
  = Ok 1.
Proof. vm_compute. reflexivity. Qed.

Example dt_info_six_early_samples :
  app_time_ns <$> info_run false dt_60hz_all_submitted [0; 1; 2; 3; 4; 5] 1500000
  = Ok (1 - 333333 + two64).
Proof. vm_compute. reflexivity. Qed.

(** A miss after the wrap: the unsigned sum wraps back, and the result lies
    below both the previous value and [app_time_max_ns]. *)
Example dt_info_miss_after_wrap :
  app_time_ns <$>
    (dt ← info_run false dt_60hz_all_submitted [0; 1; 2; 3; 4; 5] 1500000;
     dt_info false dt 6 50000000 51000000 51000000 0 51000001)
  = Ok 333334.
Proof. vm_compute. reflexivity. Qed.

End DisplayTimingFacts.

(** ** Render-timing helper *)

Module RenderTimingFacts.
Import CInt CIntFacts RenderTiming.


(** More fuel does not change a result. *)
Lemma plus_period_loop_fuel ndebug p then_ns :
  forall fuel fuel' val v,
    plus_period_loop ndebug p then_ns fuel val = Ok v ->
    (fuel <= fuel')%nat ->
    plus_period_loop ndebug p then_ns fuel' val = Ok v.
Proof.
  induction fuel as [|fuel IH]; intros fuel' val v; simpl;
    destruct (Z.leb_spec val then_ns) as [Hle|Hgt]; intros H Hf;
    try discriminate.
  - destruct fuel'; simpl; destruct (Z.leb_spec val then_ns); try lia; exact H.
  - destruct fuel' as [|fuel']; [lia|]. simpl.
    destruct (Z.leb_spec val then_ns); [|lia].
    destruct (c_assert ndebug (negb (to_uint64 (val + p) =? 0))); simpl in *;
      try discriminate.
    apply IH; [exact H | lia].
  - destruct fuel'; simpl; destruct (Z.leb_spec val then_ns); try lia; exact H.
Qed.

(** With a positive period and no overflow before [then_ns] is passed, the
    loop returns, in either build, the first value of
    [last_input + k * period] after [then_ns]. *)
Lemma plus_period_loop_returns ndebug p then_ns :
  0 < p -> then_ns + p < two64 ->
  forall fuel val,
    0 <= val ->
    then_ns - val < Z.of_nat fuel * p ->
    exists v, plus_period_loop ndebug p then_ns fuel val = Ok v /\
              then_ns < v <= Z.max val (then_ns + p) /\
              (v - val) mod p = 0.
Proof.
  intros Hp Hov. induction fuel as [|fuel IH]; intros val Hv Hfuel; simpl;
    destruct (Z.leb_spec val then_ns) as [Hle|Hgt].
  - lia.
  - exists val. rewrite Z.sub_diag. split; [reflexivity|]. split; [lia|].
    apply Z.mod_0_l. lia.
  - rewrite to_uint64_small by (unfold is_uint64; lia).
    replace (val + p =? 0) with false by (symmetry; apply Z.eqb_neq; lia).
    replace (c_assert ndebug (negb false)) with (Ok tt : result unit)
      by (destruct ndebug; reflexivity).
    simpl. destruct (IH (val + p)) as (v & Hv1 & Hv2 & Hv3); [lia | lia |].
    exists v. split; [exact Hv1|]. split; [lia|].
    replace (v - val) with (v - (val + p) + 1 * p) by lia.
    rewrite Z.mod_add by lia. exact Hv3.
  - exists val. rewrite Z.sub_diag. split; [reflexivity|]. split; [lia|].
    apply Z.mod_0_l. lia.
Qed.





(** A prediction returns whenever the period is positive, the sum
    [at_least_ns + period] stays within [uint64_t], and (in a debug build)
    the ring slot of the new frame id is free. *)
Lemma u_rt_helper_predict_returns ndebug urth now1 now2 f :
  0 < period urth -> 0 <= last_input urth ->
  Z.max now1 (last_returned urth) + period urth < two64 ->
  0 <= frame_counter urth < 2 ^ 63 - 1 ->
  frames urth !! Z.to_nat ((frame_counter urth + 1) mod array_size urth) = Some f ->
  (ndebug = true \/ (frame_id f = -1 /\ state f = U_RT_READY)) ->
  exists fuel out urth',
    u_rt_helper_predict ndebug fuel urth now1 now2 = Ok (out, urth') /\
    Z.max now1 (last_returned urth) < predicted_display_time out
      <= Z.max (last_input urth) (Z.max now1 (last_returned urth) + period urth) /\
    (predicted_display_time out - last_input urth) mod period urth = 0 /\
    out_frame_id out = frame_counter urth + 1.
Proof.
  intros Hp Hli Hov Hfc Hf Hfree.
  set (at_least := Z.max now1 (last_returned urth)) in *.
  set (fuel := Z.to_nat (Z.max 0 (at_least - last_input urth) + 1)).
  destruct (plus_period_loop_returns ndebug (period urth) at_least Hp Hov fuel
              (last_input urth) Hli) as (v & Hv & Hrange & Hmod).
  { subst fuel. rewrite Z2Nat.id by lia. nia. }
  exists fuel. unfold u_rt_helper_predict,
    get_last_input_plus_period_at_least_greater_then.
  replace (if now1 <? last_returned urth then last_returned urth else now1)
    with at_least by (subst at_least; destruct (Z.ltb_spec now1 (last_returned urth)); lia).
  rewrite Hv. simpl.
  rewrite (to_int64_small (frame_counter urth + 1)) by lia.
  rewrite (to_uint64_small (frame_counter urth + 1))
    by (unfold is_uint64, two64; lia).
  assert (Hget : array_get (frames urth)
                   ((frame_counter urth + 1) mod array_size urth) = Ok f).
  { apply array_get_Ok. split; [|exact Hf].
    unfold array_size. destruct (frames urth) as [|x l] eqn:E.
    - simpl in Hf. discriminate.
    - apply Z.mod_pos_bound. simpl length. lia. }
  rewrite Hget. simpl.
  assert (Ha1 : c_assert ndebug (frame_id f =? -1) = Ok tt).
  { unfold c_assert. destruct Hfree as [-> | [-> _]]; [reflexivity|].
    destruct ndebug; reflexivity. }
  assert (Ha2 : c_assert ndebug (u_rt_state_eqb (state f) U_RT_READY) = Ok tt).
  { unfold c_assert. destruct Hfree as [-> | [_ ->]]; [reflexivity|].
    destruct ndebug; reflexivity. }
  rewrite Ha1. simpl. rewrite Ha2. simpl.
  eexists. eexists. split; [reflexivity|]. simpl. auto.
Qed.


(** A helper with a ring of two frames that has received a sample. *)
Definition urth_sampled : u_rt_helper :=
  u_rt_helper_new_sample (u_rt_helper_init 2) 1000 50 100.


Definition urth_after_first : u_rt_helper :=
  mk_u_rt_helper
    [mk_u_rt_frame 0 0 0 0 (-1) U_RT_READY; mk_u_rt_frame 951 0 0 0 1 U_RT_PREDICTED]
    1 1000 50 100 1000.

Definition urth_after_calls : u_rt_helper :=
  mk_u_rt_helper
    [mk_u_rt_frame 0 0 0 0 (-1) U_RT_READY; mk_u_rt_frame 951 960 965 0 1 U_RT_BEGUN]
    1 1020 45 90 1000.



(** The second sample of the witness lies before the time already handed
    out; the helper then steps past the last returned time. *)
Example predict_after_earlier_sample :
  (predicted_display_time ∘ fst) <$>
    u_rt_helper_predict false 4 urth_after_calls 970 971 = Ok 1020.
Proof. vm_compute. reflexivity. Qed.

(** With a period of zero and a sample that is not in the future the loop
    never leaves: every amount of fuel runs out (release build). *)
Lemma plus_period_loop_zero_period then_ns val :
  is_uint64 val -> val <= then_ns ->
  forall fuel, plus_period_loop true 0 then_ns fuel val = OutOfFuel.
Proof.
  intros Hv Hle. induction fuel as [|fuel IH]; simpl;
    destruct (Z.leb_spec val then_ns); try lia; [reflexivity|].
  rewrite Z.add_0_r, to_uint64_small by exact Hv. simpl. exact IH.
Qed.

End RenderTimingFacts.

(** ** Session calls *)

Module SessionFacts.
Import Session.

Lemma XrSessionState_eqb_eq a b : XrSessionState_eqb a b = true <-> a = b.
Proof. destruct a, b; simpl; split; intros H; congruence. Qed.

Lemma change_state_spec sess st :
  state (oxr_session_change_state sess st) = st /\
  events (oxr_session_change_state sess st) = events sess ++ [st].
Proof. split; reflexivity. Qed.

(** A compositor none of whose answers is an IPC failure. *)
Definition no_ipc_failure (xc : compositor) : Prop :=
  forall c, is_ipc_failure (xc c) = false.

(** A session as [oxr_session_create] leaves it: not begun, no wait
    outstanding, semaphore at 1, the two initial transitions pushed. *)
Definition created_session (with_compositor : bool) : oxr_session :=
  oxr_session_change_state
    (oxr_session_change_state
       (mk_oxr_session with_compositor XR_SESSION_STATE_UNKNOWN false false false
          false 0 0 0 1 0 [] [])
       XR_SESSION_STATE_IDLE)
    XR_SESSION_STATE_READY.

Definition xc_ok : compositor := fun _ => XRT_SUCCESS.
Definition xc_lost : compositor := fun _ => XRT_ERROR_IPC_FAILURE.

(** *** [xrBeginFrame] *)

(** C5, as amended: for a running session whose compositor reports no IPC
    failure, [oxr_session_frame_begin]
    - returns [XR_ERROR_CALL_ORDER_INVALID], changing nothing, when no wait is
      outstanding;
    - when a frame has been started, returns [XR_FRAME_DISCARDED] exactly
      when two waits are outstanding, and [XR_ERROR_CALL_ORDER_INVALID]
      otherwise; with a compositor the discarded call first discards the
      frame begun before and decrements the counter, then begins the waited
      frame;
    - when no frame has been started and a wait is outstanding, marks the
      frame started and returns the session's success result.
    Every returning call of the last two kinds posts the semaphore. *)
Theorem oxr_session_frame_begin_spec
    (sr : oxr_session -> XrResult) (xc : compositor) (sess : oxr_session) :
  is_running sess = true ->
  no_ipc_failure xc ->
  let '(ret, sess') := oxr_session_frame_begin sr xc sess in
  (active_wait_frames sess = 0 ->
     ret = XR_ERROR_CALL_ORDER_INVALID /\ sess' = sess) /\
  (active_wait_frames sess <> 0 -> frame_started sess = true ->
     (ret = XR_FRAME_DISCARDED <-> active_wait_frames sess = 2) /\
     (active_wait_frames sess <> 2 ->
        ret = XR_ERROR_CALL_ORDER_INVALID /\ sess' = sess) /\
     (active_wait_frames sess = 2 ->
        frame_started sess' = true /\ sem sess' = sem sess + 1 /\
        if has_compositor sess then
          xc_calls sess' = xc_calls sess ++
            [Comp_discard_frame (frame_id_begun sess);
             Comp_begin_frame (frame_id_waited sess)] /\
          active_wait_frames sess' = 1 /\
          frame_id_begun sess' = frame_id_waited sess /\
          frame_id_waited sess' = -1
        else
          sess' = set_sem sess (sem sess + 1))) /\
  (active_wait_frames sess <> 0 -> frame_started sess = false ->
     ret = sr sess /\
     frame_started sess' = true /\ sem sess' = sem sess + 1 /\
     active_wait_frames sess' = active_wait_frames sess /\
     if has_compositor sess then
       xc_calls sess' = xc_calls sess ++ [Comp_begin_frame (frame_id_waited sess)] /\
       frame_id_begun sess' = frame_id_waited sess /\
       frame_id_waited sess' = -1
     else
       xc_calls sess' = xc_calls sess).
Proof.
  intros Hrun Hxc. unfold oxr_session_frame_begin. rewrite Hrun. simpl.
  destruct (Z.eqb_spec (active_wait_frames sess) 0) as [H0|H0].
  - repeat split; intros; try contradiction; auto.
  - destruct (frame_started sess) eqn:Hfs.
    + destruct (Z.eqb_spec (active_wait_frames sess) 2) as [H2|H2]; simpl.
      * destruct (has_compositor sess) eqn:Hc; simpl; rewrite ?Hc, ?Hxc; simpl;
          rewrite ?Hc, ?Hxc; simpl.
        all: split; [intros; contradiction|].
        all: split; [|intros; discriminate].
        all: intros _ _; split; [tauto|].
        all: split; [intros; contradiction|].
        all: intros _.
        -- rewrite <- app_assoc. simpl. repeat split; auto. lia.
        -- repeat split; auto.
      * split; [intros; contradiction|].
        split; [|intros; discriminate].
        intros _ _. split; [split; [discriminate | contradiction]|].
        split; [auto | intros; contradiction].
    + simpl. destruct (has_compositor sess) eqn:Hc; simpl; rewrite ?Hxc; simpl.
      all: split; [intros; contradiction|].
      all: split; [intros; discriminate|].
      all: intros _ _; repeat split; auto.
Qed.

Definition two_waits_session : oxr_session :=
  mk_oxr_session true XR_SESSION_STATE_FOCUSED true false false true 8 7 2 0 0
    [XR_SESSION_STATE_IDLE; XR_SESSION_STATE_READY] [].

Lemma oxr_session_frame_begin_spec_witness :
  let '(ret, sess') :=
    oxr_session_frame_begin success_result_by_state xc_ok two_waits_session in
  ret = XR_FRAME_DISCARDED /\
  xc_calls sess' = [Comp_discard_frame 7; Comp_begin_frame 8] /\
  active_wait_frames sess' = 1 /\ frame_id_begun sess' = 8.
Proof.
  pose proof (oxr_session_frame_begin_spec success_result_by_state xc_ok
                two_waits_session eq_refl (fun c => eq_refl)) as H.
  destruct (oxr_session_frame_begin success_result_by_state xc_ok
              two_waits_session) as [ret sess'].
  destruct H as (_ & H & _).
  destruct (H ltac:(simpl; lia) eq_refl) as (Hiff & _ & Hd).
  destruct (Hd eq_refl) as (_ & _ & Hcalls & Hawf & Hbegun & _).
  split; [apply Hiff; reflexivity|]. auto.
Defined.

(** An IPC failure of either compositor call ends the call with
    [XR_ERROR_INSTANCE_LOST]. *)
Lemma oxr_session_frame_begin_ipc_failure sr sess :
  is_running sess = true -> has_compositor sess = true ->
  active_wait_frames sess <> 0 ->
  (frame_started sess = true -> active_wait_frames sess = 2) ->
  fst (oxr_session_frame_begin sr xc_lost sess) = XR_ERROR_INSTANCE_LOST.
Proof.
  intros Hrun Hc H0 H2. unfold oxr_session_frame_begin.
  rewrite Hrun, Hc. simpl.
  destruct (Z.eqb_spec (active_wait_frames sess) 0); [contradiction|].
  destruct (frame_started sess); simpl.
  - rewrite (H2 eq_refl). reflexivity.
  - rewrite Hc. reflexivity.
Qed.

(** C5 as stated fails: the running test comes first.  A session that has
    been created but not begun has no wait outstanding, and
    [oxr_session_frame_begin] answers [XR_ERROR_SESSION_NOT_RUNNING], not
    [XR_ERROR_CALL_ORDER_INVALID]. *)
Lemma oxr_session_frame_begin_counterexample :
  active_wait_frames (created_session true) = 0 /\
  oxr_session_frame_begin success_result_by_state xc_ok (created_session true)
  = (XR_ERROR_SESSION_NOT_RUNNING, created_session true) /\
  fst (oxr_session_frame_begin success_result_by_state xc_ok (created_session true))
  <> XR_ERROR_CALL_ORDER_INVALID.
Proof. repeat split. discriminate. Qed.

(** *** [xrEndSession] *)

(** The state a stopped session is taken to after [XR_SESSION_STATE_IDLE]. *)
Definition after_idle (sess : oxr_session) : XrSessionState :=
  if exiting sess then XR_SESSION_STATE_EXITING else XR_SESSION_STATE_READY.

(** C6, as amended: for a session that is running and in state STOPPING,
    and whose compositor (if there is one) does not answer [end_session] with
    an IPC failure, [oxr_session_end] moves the session to IDLE and then to
    EXITING if [exiting] is set (as [oxr_session_request_exit] does) and to
    READY otherwise, pushing one session-state-changed event per transition,
    in that order; the session is no longer running afterwards. *)
Theorem oxr_session_end_spec
    (sr : oxr_session -> XrResult) (xc : compositor) (sess : oxr_session) :
  is_running sess = true ->
  state sess = XR_SESSION_STATE_STOPPING ->
  (has_compositor sess = false \/ is_ipc_failure (xc Comp_end_session) = false) ->
  let '(ret, sess') := oxr_session_end sr xc sess in
  ret = sr sess' /\
  state sess' = after_idle sess /\
  events sess' = events sess ++ [XR_SESSION_STATE_IDLE; after_idle sess] /\
  is_running sess' = false /\
  exiting sess' = exiting sess.
Proof.
  intros Hrun Hst Hxc. unfold oxr_session_end, after_idle.
  rewrite Hrun, Hst. simpl.
  destruct (has_compositor sess) eqn:Hc.
  - destruct Hxc as [Hxc|Hxc]; [discriminate|].
    destruct (0 <? frame_id_waited sess); simpl;
      destruct (0 <? frame_id_begun sess); simpl;
      rewrite Hxc; simpl; destruct (exiting sess) eqn:He; simpl;
      rewrite <- ?app_assoc, ?He; repeat split; reflexivity.
  - destruct (exiting sess) eqn:He; simpl;
      rewrite <- ?app_assoc, ?He; repeat split; reflexivity.
Qed.

Definition stopping_session (exit_requested : bool) : oxr_session :=
  mk_oxr_session true XR_SESSION_STATE_STOPPING true true exit_requested true 9 8
    1 0 0 [XR_SESSION_STATE_IDLE; XR_SESSION_STATE_READY] [].

Lemma oxr_session_end_spec_witness :
  let '(ret, sess') :=
    oxr_session_end success_result_by_state xc_ok (stopping_session true) in
  ret = success_result_by_state sess' /\
  state sess' = XR_SESSION_STATE_EXITING /\
  events sess' = events (stopping_session true)
                   ++ [XR_SESSION_STATE_IDLE; XR_SESSION_STATE_EXITING] /\
  is_running sess' = false /\
  exiting sess' = true.
Proof.
  apply (oxr_session_end_spec success_result_by_state xc_ok (stopping_session true)).
  - reflexivity.
  - reflexivity.
  - right. reflexivity.
Defined.

(** [exiting] is raised by [oxr_session_request_exit] on a running session,
    which also takes the session to STOPPING, and by nothing else. *)
Lemma request_exit_sets_exiting sr sess :
  is_running sess = true ->
  let sess' := snd (oxr_session_request_exit sr sess) in
  exiting sess' = true /\ state sess' = XR_SESSION_STATE_STOPPING /\
  is_running sess' = true.
Proof.
  intros Hrun. unfold oxr_session_request_exit. rewrite Hrun. simpl.
  destruct (XrSessionState_eqb (state sess) XR_SESSION_STATE_FOCUSED); simpl;
  repeat match goal with
  | |- context [if ?b then _ else _] => destruct b; simpl
  end; auto.
Qed.

Lemma request_exit_not_running sr sess :
  is_running sess = false ->
  oxr_session_request_exit sr sess = (XR_ERROR_SESSION_NOT_RUNNING, sess).
Proof. intros H. unfold oxr_session_request_exit. rewrite H. reflexivity. Qed.

Lemma other_calls_keep_exiting sr xc sess vt :
  exiting (snd (oxr_session_begin sr xc sess vt)) = exiting sess /\
  exiting (snd (oxr_session_end sr xc sess)) = exiting sess /\
  exiting (snd (oxr_session_frame_begin sr xc sess)) = exiting sess.
Proof.
  unfold oxr_session_begin, oxr_session_end, oxr_session_frame_begin.
  repeat split;
    repeat match goal with
    | |- context [if ?b then _ else _] => destruct b eqn:?; simpl
    end; congruence.
Qed.

(** C6 as stated fails when the compositor call fails: the session is
    running and STOPPING, [xrt_comp_end_session] reports an IPC failure, and
    [oxr_session_end] returns [XR_ERROR_INSTANCE_LOST] with the session still
    STOPPING and no event pushed. *)
Lemma oxr_session_end_counterexample :
  let sess := stopping_session false in
  let '(ret, sess') := oxr_session_end success_result_by_state xc_lost sess in
  is_running sess = true /\ state sess = XR_SESSION_STATE_STOPPING /\
  ret = XR_ERROR_INSTANCE_LOST /\
  state sess' = XR_SESSION_STATE_STOPPING /\
  state sess' <> XR_SESSION_STATE_READY /\
  events sess' = events sess.
Proof. simpl. repeat split. discriminate. Qed.

End SessionFacts.

(** ** IPC server: the event ring *)

Module EventRingFacts.
Import CInt CIntFacts IpcServer.

Definition all_pending (slots : list ipc_queued_event) : Prop :=
  Forall (fun qe => pending qe = true) slots.

Lemma find_event_slot_loop_first_free ts l1 qe l2 :
  all_pending l1 -> pending qe = false ->
  forall i ots oi,
    find_event_slot_loop ts (l1 ++ qe :: l2) i ots oi = i + Z.of_nat (length l1).
Proof.
  intros Hp Hq. induction Hp as [|x l1 Hx Hl1 IH]; intros i ots oi; simpl.
  - rewrite Hq. simpl. lia.
  - rewrite Hx. simpl. rewrite IH. lia.
Qed.

Lemma find_event_slot_loop_full ts l :
  all_pending l ->
  forall i oi,
    find_event_slot_loop ts l i UINT64_MAX oi
    = if ts <? UINT64_MAX
      then match l with [] => oi | _ => i + Z.of_nat (length l) - 1 end
      else oi.
Proof.
  intros Hp. induction Hp as [|x l Hx Hl IH]; intros i oi; simpl.
  - destruct (ts <? UINT64_MAX); reflexivity.
  - rewrite Hx. simpl. rewrite IH.
    destruct (ts <? UINT64_MAX); [|reflexivity].
    destruct l; simpl; lia.
Qed.

(** With a free slot in the ring, the first free slot is chosen. *)
Lemma find_event_slot_first_free cs l1 qe l2 :
  queued_events cs = l1 ++ qe :: l2 ->
  all_pending l1 -> pending qe = false ->
  find_event_slot cs = Z.of_nat (length l1).
Proof.
  intros Hq Hp Hf. unfold find_event_slot. rewrite Hq.
  rewrite find_event_slot_loop_first_free by assumption. lia.
Qed.

(** With the ring full the choice does not depend on the time stamps of
    the entries, apart from a test of entry 0 against [UINT64_MAX]: the slot
    returned is the last one of the ring. *)
Lemma find_event_slot_full cs qe0 rest :
  queued_events cs = qe0 :: rest ->
  all_pending (qe0 :: rest) ->
  find_event_slot cs
  = if timestamp qe0 <? UINT64_MAX then Z.of_nat (length rest) else 0.
Proof.
  intros Hq Hp. unfold find_event_slot. rewrite Hq.
  rewrite find_event_slot_loop_full by assumption.
  destruct (timestamp qe0 <? UINT64_MAX); [|reflexivity].
  simpl length. lia.
Qed.

(** A client whose ring of four is full, the oldest event in slot 0 and the
    newest in slot 3. *)
Definition full_ring : list ipc_queued_event :=
  [mk_ipc_queued_event 10 true (XRT_COMPOSITOR_EVENT_STATE_CHANGE true true);
   mk_ipc_queued_event 20 true (XRT_COMPOSITOR_EVENT_OVERLAY_CHANGE true);
   mk_ipc_queued_event 30 true (XRT_COMPOSITOR_EVENT_STATE_CHANGE true false);
   mk_ipc_queued_event 40 true (XRT_COMPOSITOR_EVENT_OVERLAY_CHANGE false)].

Definition full_ring_client : ipc_client_state :=
  mk_ipc_client_state 0 true true false false 0 full_ring 0 [] [].

(** The time stamp of the oldest entry of a ring. *)
Definition oldest_timestamp (slots : list ipc_queued_event) : Z :=
  foldr Z.min UINT64_MAX (map timestamp slots).

(** C2 at a full ring: the slot [find_event_slot] returns is slot 3, which
    holds the newest event (time stamp 40), while the oldest (time stamp 10)
    sits in slot 0; the enqueue that follows overwrites slot 3 and keeps the
    three older entries. *)
Theorem find_event_slot_full_ring :
  all_pending full_ring /\
  find_event_slot full_ring_client = 3 /\
  timestamp <$> full_ring !! 3%nat = Some 40 /\
  oldest_timestamp full_ring = 10 /\
  timestamp <$> full_ring !! 0%nat = Some 10 /\
  (queued_events <$> send_client_state full_ring_client 50)
  = Ok [mk_ipc_queued_event 10 true (XRT_COMPOSITOR_EVENT_STATE_CHANGE true true);
        mk_ipc_queued_event 20 true (XRT_COMPOSITOR_EVENT_OVERLAY_CHANGE true);
        mk_ipc_queued_event 30 true (XRT_COMPOSITOR_EVENT_STATE_CHANGE true false);
        mk_ipc_queued_event 50 true (XRT_COMPOSITOR_EVENT_STATE_CHANGE true false)].
Proof.
  split; [repeat constructor|].
  repeat split; reflexivity.
Qed.

(** The enqueue operations write the slot [find_event_slot] chose. *)
Lemma send_client_state_slot ics now_ns ics' :
  send_client_state ics now_ns = Ok ics' ->
  queued_events ics'
  = <[Z.to_nat (find_event_slot ics) :=
        mk_ipc_queued_event now_ns true
          (XRT_COMPOSITOR_EVENT_STATE_CHANGE (session_visible ics) (session_focused ics))]>
      (queued_events ics).
Proof.
  unfold send_client_state, write_event. intros H.
  destruct (array_get _ _); simpl in H; try discriminate.
  injection H as <-. reflexivity.
Qed.

Lemma transition_overlay_visibility_slot cs visible now_ns cs' :
  transition_overlay_visibility cs visible now_ns = Ok cs' ->
  queued_events cs'
  = <[Z.to_nat (find_event_slot cs) :=
        mk_ipc_queued_event now_ns true (XRT_COMPOSITOR_EVENT_OVERLAY_CHANGE visible)]>
      (queued_events cs).
Proof.
  unfold transition_overlay_visibility, write_event. intros H.
  destruct (array_get _ _); simpl in H; try discriminate.
  injection H as <-. reflexivity.
Qed.

End EventRingFacts.

(** ** IPC server: the z-ordered render loop *)

Module LayerFacts.
Import CInt CIntFacts IpcServer.

(** *** The comparison function *)

Lemma _overlay_sort_func_le a b :
  _overlay_sort_func a b <= 0 <-> zd_z_order a <= zd_z_order b.
Proof.
  unfold _overlay_sort_func.
  destruct (Z.ltb_spec (zd_z_order a) (zd_z_order b));
    destruct (Z.ltb_spec (zd_z_order b) (zd_z_order a)); lia.
Qed.

Lemma _overlay_sort_func_zero a b :
  _overlay_sort_func a b = 0 <-> zd_z_order a = zd_z_order b.
Proof.
  unfold _overlay_sort_func.
  destruct (Z.ltb_spec (zd_z_order a) (zd_z_order b));
    destruct (Z.ltb_spec (zd_z_order b) (zd_z_order a)); lia.
Qed.

(** *** A sorting function that meets the contract of [qsort] *)

(** Insertion sort.  An element is inserted in front of the first element
    it does not come after, so elements that compare equal keep their order:
    a stable sort. *)
Fixpoint sort_insert (cmp : _z_sort_data -> _z_sort_data -> Z) (x : _z_sort_data)
    (l : list _z_sort_data) : list _z_sort_data :=
  match l with
  | [] => [x]
  | y :: l' =>
      if cmp x y <=? 0 then x :: y :: l' else y :: sort_insert cmp x l'
  end.

Definition qsort_stable (cmp : _z_sort_data -> _z_sort_data -> Z)
    (l : list _z_sort_data) : list _z_sort_data :=
  foldr (sort_insert cmp) [] l.

Lemma sort_insert_Permutation cmp x l : sort_insert cmp x l ≡ₚ x :: l.
Proof.
  induction l as [|y l IH]; simpl; [reflexivity|].
  destruct (cmp x y <=? 0); [reflexivity|].
  rewrite IH. apply Permutation_swap.
Qed.

Lemma sort_insert_sorted x l :
  StronglySorted (fun a b => _overlay_sort_func a b <= 0) l ->
  StronglySorted (fun a b => _overlay_sort_func a b <= 0)
    (sort_insert _overlay_sort_func x l).
Proof.
  induction 1 as [|y l Hs IH Hy]; simpl.
  - repeat constructor.
  - destruct (Z.leb_spec (_overlay_sort_func x y) 0) as [Hxy|Hxy].
    + constructor; [constructor; assumption|].
      constructor; [exact Hxy|].
      eapply Forall_impl; [exact Hy|]. simpl. intros z.
      rewrite !_overlay_sort_func_le in *. lia.
    + assert (Hyx : _overlay_sort_func y x <= 0).
      { apply _overlay_sort_func_le.
        assert (~ zd_z_order x <= zd_z_order y)
          by (rewrite <- _overlay_sort_func_le; lia). lia. }
      constructor; [exact IH|].
      rewrite (sort_insert_Permutation _overlay_sort_func x l).
      constructor; assumption.
Qed.

Lemma qsort_stable_contract : qsort_contract qsort_stable.
Proof.
  intros l. unfold qsort_stable.
  induction l as [|x l [IHp IHs]]; simpl.
  - split; [reflexivity | constructor].
  - split.
    + rewrite sort_insert_Permutation, IHp. reflexivity.
    + apply sort_insert_sorted. exact IHs.
Qed.

(** *** What the render loop visits *)

(** The client at index [i] has an entry in the stack: it is the primary
    application, or an active overlay. *)
Definition is_enabled (s : ipc_server) (i : nat) (ics : ipc_client_state) : bool :=
  (Z.of_nat i =? active_client_index s)
  || (session_overlay ics && session_active ics).

(** The enabled clients by ascending index. *)
Definition enabled_clients (s : ipc_server) : list Z :=
  omap id (imap (fun i ics => if is_enabled s i ics then Some (Z.of_nat i) else None)
             (threads s)).

(** The z value a client is sorted by: [INT32_MIN] for the primary
    application, its own [z_order] (as an [int32_t]) otherwise. *)
Definition client_z (s : ipc_server) (i : Z) : Z :=
  if i =? active_client_index s then INT32_MIN
  else match threads s !! Z.to_nat i with
       | Some ics => to_int32 (z_order ics)
       | None => 0
       end.

(** The layer calls of one client, and of a list of clients in order,
    stopping at the first layer that is refused. *)
Definition client_calls (s : ipc_server) (i : Z) : result (bool * list layer_call) :=
  ics ← array_get (threads s) i;
  render_layers s i ics (Z.to_nat (num_layers ics)) 0.

Fixpoint render_clients (s : ipc_server) (order : list Z)
    : result (bool * list layer_call) :=
  match order with
  | [] => Ok (true, [])
  | i :: order' =>
      '(ok, calls) ← client_calls s i;
      if (ok : bool) then
        '(ok', calls') ← render_clients s order';
        Ok (ok', calls ++ calls')
      else Ok (false, calls)
  end.

Lemma render_stack_clients s z_data :
  render_stack s z_data
  = render_clients s (filter (fun i => 0 <= i) (map index z_data)).
Proof.
  induction z_data as [|zd l IH]; [reflexivity|].
  simpl render_stack. simpl map. rewrite filter_cons.
  destruct (Z.ltb_spec (index zd) 0) as [Hneg|Hpos].
  - rewrite decide_False by lia. exact IH.
  - rewrite decide_True by lia. simpl render_clients. unfold client_calls.
    rewrite IH. destruct (array_get (threads s) (index zd)); reflexivity.
Qed.

(** The stack after the entry of the primary application is written. *)
Definition stack_entry (s : ipc_server) (i : nat) (ics : ipc_client_state)
    : _z_sort_data :=
  if Z.of_nat i =? active_client_index s
  then mk_z_sort_data (active_client_index s) INT32_MIN
  else z_data_entry i ics.

Lemma z_data_primary_stack s :
  active_client_index s < IPC_MAX_CLIENTS s ->
  z_data_primary s (z_data_init s) = Ok (imap (stack_entry s) (threads s)).
Proof.
  intros Hlt. unfold z_data_primary, z_data_init, IPC_MAX_CLIENTS in *.
  destruct (Z.leb_spec 0 (active_client_index s)) as [Hpos|Hneg].
  - destruct (array_get_in_range (imap z_data_entry (threads s))
                (active_client_index s)) as [x Hx].
    { rewrite length_imap. lia. }
    rewrite Hx. simpl. f_equal.
    apply list_eq. intros i.
    rewrite list_lookup_imap.
    destruct (decide (i = Z.to_nat (active_client_index s))) as [->|Hne].
    + rewrite list_lookup_insert_eq by (rewrite length_imap; lia).
      destruct (lookup_lt_is_Some_2 (threads s) (Z.to_nat (active_client_index s)))
        as [ics Hics]; [lia|].
      rewrite Hics. simpl. unfold stack_entry.
      rewrite Z2Nat.id by lia. rewrite Z.eqb_refl. reflexivity.
    + rewrite list_lookup_insert_ne by congruence.
      rewrite list_lookup_imap.
      destruct (threads s !! i); [|reflexivity]. simpl. unfold stack_entry.
      destruct (Z.eqb_spec (Z.of_nat i) (active_client_index s)); [lia|reflexivity].
  - f_equal. apply imap_ext. intros i x _. unfold stack_entry.
    destruct (Z.eqb_spec (Z.of_nat i) (active_client_index s)); [lia|reflexivity].
Qed.


Lemma filter_index_imap (l : list ipc_client_state) :
  forall (f : nat -> ipc_client_state -> _z_sort_data)
         (g : nat -> ipc_client_state -> option Z),
    (forall i x, match g i x with
                 | Some v => index (f i x) = v /\ 0 <= v
                 | None => index (f i x) < 0
                 end) ->
    filter (fun i => 0 <= i) (map index (imap f l)) = omap id (imap g l).
Proof.
  induction l as [|x l IH]; intros f g Hfg; [reflexivity|].
  rewrite !imap_cons. simpl map. rewrite filter_cons. simpl omap.
  rewrite (IH (f ∘ S) (g ∘ S)) by (intros i y; apply Hfg).
  pose proof (Hfg 0%nat x) as H0.
  destruct (g 0%nat x) as [v|]; simpl.
  - destruct H0 as [<- Hv]. rewrite decide_True by lia. reflexivity.
  - rewrite decide_False by lia. reflexivity.
Qed.

Lemma stack_indices s :
  filter (fun i => 0 <= i) (map index (imap (stack_entry s) (threads s)))
  = enabled_clients s.
Proof.
  unfold enabled_clients. apply filter_index_imap. intros i x.
  unfold is_enabled, stack_entry, z_data_entry.
  destruct (Z.eqb_spec (Z.of_nat i) (active_client_index s)) as [He|Hne]; simpl.
  - split; [congruence | lia].
  - destruct (session_overlay x && session_active x); simpl; lia.
Qed.

Lemma stack_entry_z s zd :
  zd ∈ imap (stack_entry s) (threads s) ->
  0 <= index zd -> zd_z_order zd = client_z s (index zd).
Proof.
  intros Hin Hpos. apply list_elem_of_lookup in Hin as [i Hi].
  rewrite list_lookup_imap in Hi.
  destruct (threads s !! i) as [ics|] eqn:Hics; [|discriminate].
  simpl in Hi. injection Hi as <-. unfold stack_entry, client_z in *.
  destruct (Z.eqb_spec (Z.of_nat i) (active_client_index s)) as [He|Hne]; simpl in *.
  - rewrite Z.eqb_refl. reflexivity.
  - unfold z_data_entry in *.
    destruct (session_overlay ics && session_active ics); simpl in *; [|lia].
    destruct (Z.eqb_spec (Z.of_nat i) (active_client_index s)); [contradiction|].
    rewrite Nat2Z.id, Hics. reflexivity.
Qed.

Lemma sorted_stack_z s (l : list _z_sort_data) :
  StronglySorted (fun a b => _overlay_sort_func a b <= 0) l ->
  (forall zd, zd ∈ l -> 0 <= index zd -> zd_z_order zd = client_z s (index zd)) ->
  StronglySorted Z.le (client_z s <$> filter (fun i => 0 <= i) (map index l)).
Proof.
  induction 1 as [|x l Hs IH Hx]; intros Hz; [constructor|].
  simpl map. rewrite filter_cons.
  assert (IH' : StronglySorted Z.le
                  (client_z s <$> filter (fun i => 0 <= i) (map index l))).
  { apply IH. intros zd Hzd. apply Hz. right. exact Hzd. }
  destruct (decide (0 <= index x)) as [Hpos|Hneg]; [|exact IH'].
  rewrite fmap_cons. constructor; [exact IH'|].
  apply List.Forall_forall. intros z Hzin.
  rewrite <- list_elem_of_In in Hzin.
  apply list_elem_of_fmap in Hzin as (i & -> & Hi).
  apply list_elem_of_filter in Hi as [Hipos Hi].
  apply list_elem_of_fmap in Hi as (y & -> & Hy).
  rewrite <- (Hz x) by (auto; left).
  rewrite <- (Hz y) by (auto; right; exact Hy).
  apply _overlay_sort_func_le.
  rewrite List.Forall_forall in Hx. apply Hx. apply list_elem_of_In. exact Hy.
Qed.

Lemma client_z_lower_bound s i : INT32_MIN <= client_z s i.
Proof.
  unfold client_z. destruct (i =? active_client_index s); [lia|].
  destruct (threads s !! Z.to_nat i) as [ics|].
  - pose proof (to_int32_range (z_order ics)) as H. unfold is_int32 in H. lia.
  - unfold INT32_MIN. lia.
Qed.

Lemma active_client_enabled s :
  0 <= active_client_index s < IPC_MAX_CLIENTS s ->
  active_client_index s ∈ enabled_clients s.
Proof.
  intros [Hpos Hlt]. unfold IPC_MAX_CLIENTS in Hlt.
  destruct (lookup_lt_is_Some_2 (threads s) (Z.to_nat (active_client_index s)))
    as [ics Hics]; [lia|].
  unfold enabled_clients. apply list_elem_of_omap.
  exists (Some (active_client_index s)). split; [|reflexivity].
  apply list_elem_of_lookup. exists (Z.to_nat (active_client_index s)).
  rewrite list_lookup_imap, Hics. simpl. unfold is_enabled.
  rewrite Z2Nat.id by lia. rewrite Z.eqb_refl. reflexivity.
Qed.


(** Whatever sorting function meeting the contract of [qsort] is linked
    in, and with [active_client_index] inside the client array (or negative),
    the render loop visits exactly the enabled clients (the active overlays
    and the primary application, each once), in ascending order of the z
    value they are sorted by, the primary application counting as
    [INT32_MIN]; the layer calls are those of the clients in that order, up
    to the first refused layer.  The primary application comes first whenever
    no other enabled client is sorted by [INT32_MIN]. *)
Theorem render_order_spec
    (qsort : (_z_sort_data -> _z_sort_data -> Z) ->
             list _z_sort_data -> list _z_sort_data)
    (s : ipc_server) :
  qsort_contract qsort ->
  active_client_index s < IPC_MAX_CLIENTS s ->
  exists order,
    render_order qsort s = Ok order /\
    _update_layers qsort s = render_clients s order /\
    order ≡ₚ enabled_clients s /\
    StronglySorted Z.le (client_z s <$> order) /\
    (0 <= active_client_index s ->
     (forall i, i ∈ enabled_clients s -> i <> active_client_index s ->
                client_z s i <> INT32_MIN) ->
     head order = Some (active_client_index s)).
Proof.
  intros Hq Hlt.
  set (stack := imap (stack_entry s) (threads s)).
  destruct (Hq stack) as [Hperm Hsorted].
  set (sorted := qsort _overlay_sort_func stack) in *.
  exists (filter (fun i => 0 <= i) (map index sorted)).
  assert (Hsd : sorted_z_data qsort s = Ok sorted).
  { unfold sorted_z_data. rewrite z_data_primary_stack by exact Hlt. reflexivity. }
  assert (Hp : filter (fun i => 0 <= i) (map index sorted) ≡ₚ enabled_clients s).
  { rewrite <- stack_indices. fold stack.
    apply filter_Permutation. change (map index sorted) with (index <$> sorted).
    change (map index stack) with (index <$> stack). rewrite Hperm. reflexivity. }
  assert (Hz : StronglySorted Z.le
                 (client_z s <$> filter (fun i => 0 <= i) (map index sorted))).
  { apply sorted_stack_z; [exact Hsorted|].
    intros zd Hzd. apply stack_entry_z. fold stack. rewrite <- Hperm. exact Hzd. }
  split; [unfold render_order; rewrite Hsd; reflexivity|].
  split; [unfold _update_layers; rewrite Hsd; simpl; apply render_stack_clients|].
  split; [exact Hp|]. split; [exact Hz|].
  intros Hpos Huniq.
  assert (Hact : active_client_index s
                 ∈ filter (fun i => 0 <= i) (map index sorted)).
  { rewrite Hp. apply active_client_enabled. lia. }
  destruct (filter (fun i => 0 <= i) (map index sorted)) as [|x order] eqn:Ho.
  - inversion Hact.
  - simpl. f_equal.
    destruct (decide (x = active_client_index s)) as [|Hne]; [assumption|].
    exfalso. apply elem_of_cons in Hact as [Heq|Hin]; [congruence|].
    rewrite fmap_cons in Hz. apply StronglySorted_inv in Hz as [_ Hall].
    rewrite List.Forall_forall in Hall.
    specialize (Hall (client_z s (active_client_index s))).
    assert (Hle : client_z s x <= client_z s (active_client_index s)).
    { apply Hall. apply list_elem_of_In. apply list_elem_of_fmap_2. exact Hin. }
    assert (Hmin : client_z s (active_client_index s) = INT32_MIN).
    { unfold client_z. rewrite Z.eqb_refl. reflexivity. }
    pose proof (client_z_lower_bound s x) as Hlow.
    apply (Huniq x); [|exact Hne|lia].
    rewrite <- Hp. left.
Qed.


(** *** Concrete servers *)

Definition quad_layer (sc : Z) : ipc_layer_entry :=
  mk_ipc_layer_entry 0 (sc, 0) XRT_LAYER_QUAD.

Definition projection_layer (lsc rsc : Z) : ipc_layer_entry :=
  mk_ipc_layer_entry 0 (lsc, rsc) XRT_LAYER_STEREO_PROJECTION.

(** A connected client with the given flags, z order and layers, all of
    its two swapchains valid. *)
Definition client (i : Z) (overlay active : bool) (z : Z)
    (ls : list ipc_layer_entry) : ipc_client_state :=
  mk_ipc_client_state i active false false overlay z [] (Z.of_nat (length ls)) ls
    [true; true].

(** The scenario of the specification: a primary application and two
    overlays with z orders 20 and 10. *)
Definition server_primary_two_overlays : ipc_server :=
  mk_ipc_server
    [client 0 false true 0 [projection_layer 0 1];
     client 1 true true 20 [quad_layer 0];
     client 2 true true 10 [quad_layer 1]]
    0 0 0 [true].

Example render_primary_two_overlays :
  render_order qsort_stable server_primary_two_overlays = Ok [0; 2; 1] /\
  _update_layers qsort_stable server_primary_two_overlays
  = Ok (true, [Layer_stereo_projection 0 0 0 1; Layer_quad 2 0 1; Layer_quad 1 0 0]).
Proof. split; vm_compute; reflexivity. Qed.

(** A layer that names a swapchain the client does not have ends the whole
    pass: the clients sorted after it are not rendered. *)
Example render_stops_at_refused_layer :
  let s :=
    mk_ipc_server
      [client 0 false true 0 [projection_layer 0 1];
       mk_ipc_client_state 1 true false false true 10 [] 1 [quad_layer 1] [true; false];
       client 2 true true 20 [quad_layer 1]]
      0 0 0 [true] in
  render_order qsort_stable s = Ok [0; 1; 2] /\
  _update_layers qsort_stable s = Ok (false, [Layer_stereo_projection 0 0 0 1]).
Proof. split; vm_compute; reflexivity. Qed.

(** *** The order the specification states *)

(** Modelled from the spec's words, for comparison with [render_order]: the
    [(client_index, z_order)] pairs of the overlay-active sessions, the active
    primary (if one exists) prepended with [z = INT32_MIN], stably sorted
    ascending by [z]. *)
Definition spec_stack (s : ipc_server) : list (Z * Z) :=
  (if 0 <=? active_client_index s
   then [(active_client_index s, INT32_MIN)] else [])
  ++ omap id
       (imap (fun i ics =>
                if session_overlay ics && session_active ics
                then Some (Z.of_nat i, to_int32 (z_order ics)) else None)
          (threads s)).

Fixpoint insert_by_z (x : Z * Z) (l : list (Z * Z)) : list (Z * Z) :=
  match l with
  | [] => [x]
  | y :: l' => if x.2 <=? y.2 then x :: y :: l' else y :: insert_by_z x l'
  end.

Definition stable_sort_ascending_by_z (l : list (Z * Z)) : list (Z * Z) :=
  foldr insert_by_z [] l.

Definition spec_render_order (s : ipc_server) : list Z :=
  (stable_sort_ascending_by_z (spec_stack s)).*1.

Example spec_order_primary_two_overlays :
  spec_render_order server_primary_two_overlays = [0; 2; 1].
Proof. vm_compute. reflexivity. Qed.

(** Two overlays with the same z order, a third below them, no primary
    application. *)
Definition server_equal_z : ipc_server :=
  mk_ipc_server
    [client 0 true true 5 [quad_layer 0];
     client 1 true true 5 [quad_layer 0];
     client 2 true true 3 [quad_layer 0]]
    (-1) (-1) 0 [true].

(** With a stable sort the two overlays of z order 5 are rendered in
    client-index order, as the specification states. *)
Example render_order_equal_z :
  render_order qsort_stable server_equal_z = Ok [2; 0; 1] /\
  spec_render_order server_equal_z = [2; 0; 1].
Proof. split; vm_compute; reflexivity. Qed.



End LayerFacts.

(** ** IPC server: choosing the active primary application *)

Module ServerStateFacts.
Import CInt CIntFacts IpcServer.

(** A client that can be shown as the primary application: connected,
    session active, not an overlay (the test of the fallback loop). *)
Definition displayable (ics : ipc_client_state) : bool :=
  negb (session_overlay ics) && (0 <=? server_thread_index ics)
  && session_active ics.

Lemma fallback_loop_none clients :
  Forall (fun ics => displayable ics = false) clients ->
  forall i set_idle fb, fallback_loop clients i set_idle fb = (set_idle, fb).
Proof.
  induction 1 as [|ics l Hd Hl IH]; intros i set_idle fb; simpl; [reflexivity|].
  unfold displayable in Hd. rewrite Hd. apply IH.
Qed.

(** The loop has no [break]: the index kept is that of the last client
    that passes the test. *)
Lemma fallback_loop_last l1 ics l2 :
  displayable ics = true ->
  Forall (fun c => displayable c = false) l2 ->
  forall i set_idle fb,
    fallback_loop (l1 ++ ics :: l2) i set_idle fb = (false, i + Z.of_nat (length l1)).
Proof.
  intros Hd Hl2. induction l1 as [|x l1 IH]; intros i set_idle fb; simpl.
  - unfold displayable in Hd. rewrite Hd.
    rewrite fallback_loop_none by exact Hl2. f_equal. lia.
  - destruct (negb (session_overlay x) && (0 <=? server_thread_index x)
              && session_active x); rewrite IH; f_equal; lia.
Qed.

(** *** The reads of [threads[active_client_index]] *)

Lemma threads_at_strict s i ics :
  threads_at None s i = Ok ics -> 0 <= i < IPC_MAX_CLIENTS s.
Proof.
  unfold threads_at, IPC_MAX_CLIENTS. intros H.
  destruct (array_get (threads s) i) as [x| | |] eqn:E; try discriminate.
  apply array_get_Ok in E as [Hpos Hx].
  apply lookup_lt_Some in Hx. lia.
Qed.

Lemma threads_at_negative s i : i < 0 -> threads_at None s i = OutOfBounds.
Proof.
  intros H. unfold threads_at, array_get.
  destruct (Z.ltb_spec i 0); [reflexivity | lia].
Qed.

(** C10: with the read of [threads[active_client_index]] checked (an
    out-of-bounds read stops the call), [update_server_state] returns only if
    [active_client_index] is a valid index, so [0 <= active_client_index] is
    needed; the state set up by [init_server_state] has
    [active_client_index = -1], and on it the call ends in the out-of-bounds
    read. *)
Theorem update_server_state_unchecked_read (clk : nat -> Z) (s : ipc_server) (n : nat) :
  (forall r, update_server_state clk None s n = Ok r ->
             0 <= active_client_index s < IPC_MAX_CLIENTS s) /\
  active_client_index (init_server_state s) = -1 /\
  update_server_state clk None (init_server_state s) n = OutOfBounds.
Proof.
  split; [|split; [reflexivity|]].
  - intros r. unfold update_server_state, clocked_bind, lift_result, clocked_ret.
    destruct (Z.leb_spec 0 (active_client_index s)) as [Hpos|Hneg].
    + destruct (threads_at None s (active_client_index s)) as [ics| | |] eqn:E;
        simpl; try discriminate.
      intros _. eapply threads_at_strict. exact E.
    + simpl. destruct (fallback_loop _ _ _ _).
      rewrite threads_at_negative by lia. simpl. discriminate.
  - unfold update_server_state, clocked_bind, lift_result, clocked_ret. simpl.
    destruct (fallback_loop _ _ _ _). reflexivity.
Qed.


(** *** The event loop leaves the choice alone *)

Lemma events_loop_indices clk :
  forall todo s i n s' n',
    events_loop clk s todo i n = Ok (s', n') ->
    active_client_index s' = active_client_index s /\
    last_active_client_index s' = last_active_client_index s.
Proof.
  induction todo as [|todo IH]; intros s i n s' n'; simpl.
  - unfold clocked_ret. intros H. injection H as <- <-. auto.
  - unfold clocked_bind, lift_result, clocked_ret.
    destruct (array_get (threads s) i) as [ics| | |]; simpl; try discriminate.
    destruct (0 <=? server_thread_index ics).
    + destruct (handle_focused_client_events clk ics _ _ n) as [[ics1 n1]| | |];
        simpl; try discriminate.
      destruct (handle_overlay_client_events clk ics1 _ _ n1) as [[ics2 n2]| | |];
        simpl; try discriminate.
      intros H. apply IH in H. simpl in H. exact H.
    + intros H. apply IH in H. exact H.
Qed.

Lemma events_loop_no_clients clk :
  forall todo s i n,
    Forall (fun ics => server_thread_index ics < 0) (threads s) ->
    0 <= i -> i + Z.of_nat todo <= Z.of_nat (length (threads s)) ->
    events_loop clk s todo i n = Ok (s, n).
Proof.
  induction todo as [|todo IH]; intros s i n Hall Hi Hlen; simpl; [reflexivity|].
  unfold clocked_bind, lift_result, clocked_ret.
  destruct (array_get_in_range (threads s) i) as [ics Hics]; [lia|].
  rewrite Hics. simpl.
  assert (Hneg : server_thread_index ics < 0).
  { apply array_get_Ok in Hics as [_ Hics].
    rewrite List.Forall_forall in Hall. apply Hall.
    apply list_elem_of_In. eapply list_elem_of_lookup_2. exact Hics. }
  destruct (Z.leb_spec 0 (server_thread_index ics)); [lia|].
  apply IH; [exact Hall | lia | lia].
Qed.

(** The choice [update_server_state] makes once it is past the early
    return: the currently-set application if that one is displayable and is
    not declared idle, the fallback otherwise, and none when the fallback
    loop found nothing. *)
Definition chosen_active (s : ipc_server) (current : ipc_client_state) : Z :=
  let '(set_idle, fallback_active_application) :=
    fallback_loop (threads s) 0 true (-1) in
  if set_idle then -1
  else if negb (session_overlay current) && (0 <=? active_client_index s)
          && session_active current
       then active_client_index s
       else fallback_active_application.

Lemma update_server_state_choice clk oob s n s' n' current :
  threads_at oob s (active_client_index s) = Ok current ->
  (0 <=? active_client_index s) && session_active current
    && (active_client_index s =? last_active_client_index s) = false ->
  update_server_state clk oob s n = Ok (s', n') ->
  active_client_index s' = chosen_active s current /\
  last_active_client_index s' = chosen_active s current.
Proof.
  intros Hcur Hearly. unfold update_server_state, chosen_active.
  unfold clocked_bind at 1. unfold lift_result, clocked_ret.
  assert (Hfirst :
    (if 0 <=? active_client_index s
     then clocked_bind
            (fun n0 => rbind (threads_at oob s (active_client_index s))
                         (fun a => Ok (a, n0)))
            (fun ics n0 =>
               Ok (session_active ics
                   && (active_client_index s =? last_active_client_index s), n0))
     else fun n0 => Ok (false, n0)) n = Ok (false, n)).
  { destruct (0 <=? active_client_index s); [|reflexivity].
    unfold clocked_bind. rewrite Hcur. simpl. simpl in Hearly. rewrite Hearly.
    reflexivity. }
  rewrite Hfirst. simpl.
  destruct (fallback_loop (threads s) 0 true (-1)) as [set_idle fb].
  unfold clocked_bind. rewrite Hcur. simpl.
  match goal with
  | |- rbind (events_loop clk ?s1 _ _ _) _ = _ -> _ => set (s1' := s1)
  end.
  destruct (events_loop clk s1' _ 0 n) as [[s2 n2]| | |] eqn:Hev; simpl;
    try discriminate.
  intros H. injection H as <- <-. simpl.
  apply events_loop_indices in Hev as [Ha _]. rewrite Ha. subst s1'.
  destruct set_idle; simpl; [auto|].
  destruct (negb (session_overlay current) && (0 <=? active_client_index s)
            && session_active current); simpl; auto.
Qed.

(** When the currently-set application has to be replaced and some client
    is displayable, the new primary is the last displayable client of the
    array; when none is, the server goes idle. *)
Lemma chosen_active_last s current l1 ics l2 :
  negb (session_overlay current) && (0 <=? active_client_index s)
    && session_active current = false ->
  threads s = l1 ++ ics :: l2 ->
  displayable ics = true ->
  Forall (fun c => displayable c = false) l2 ->
  chosen_active s current = Z.of_nat (length l1).
Proof.
  intros Hrep Hthreads Hd Hl2. unfold chosen_active.
  rewrite Hthreads, (fallback_loop_last l1 ics l2 Hd Hl2). rewrite Hrep.
  simpl. reflexivity.
Qed.

Lemma chosen_active_none s current :
  Forall (fun c => displayable c = false) (threads s) ->
  chosen_active s current = -1.
Proof.
  intros Hnone. unfold chosen_active.
  rewrite fallback_loop_none by exact Hnone. reflexivity.
Qed.

(** *** A server with two candidates *)

Definition empty_slot : ipc_queued_event :=
  mk_ipc_queued_event 0 false XRT_COMPOSITOR_EVENT_NONE.

(** A connected client in slot [i] with an empty event ring of two. *)
Definition connected (i : Z) (overlay active : bool) : ipc_client_state :=
  mk_ipc_client_state i active false false overlay 0 [empty_slot; empty_slot] 0 []
    [].

(** Clients 0 and 1 are connected, session active and not overlays; the
    application set as primary, client 2, has stopped being session active. *)
Definition server_two_candidates : ipc_server :=
  mk_ipc_server
    [connected 0 false true; connected 1 false true; connected 2 false false]
    2 2 0 [].

Definition clock_from (t0 : Z) : nat -> Z := fun n => t0 + Z.of_nat n.

(** The visible and focused flags of the clients. *)
Definition focus_flags (s : ipc_server) : list (bool * bool) :=
  map (fun c => (session_visible c, session_focused c)) (threads s).

(** C7 at a server with two candidates: the primary set before (client 2)
    is no longer session active, clients 0 and 1 both qualify, and
    [update_server_state] makes client 1 the primary, not the first
    qualifying client 0.  No read leaves the array on this input. *)
Theorem update_server_state_two_candidates :
  displayable <$> threads server_two_candidates = [true; true; false] /\
  active_client_index server_two_candidates = 2 /\
  (active_client_index ∘ fst) <$>
    update_server_state (clock_from 100) None server_two_candidates 0%nat
  = Ok 1 /\
  (focus_flags ∘ fst) <$>
    update_server_state (clock_from 100) None server_two_candidates 0%nat
  = Ok [(false, false); (true, true); (false, false)].
Proof. repeat split; vm_compute; reflexivity. Qed.

(** From the initial state, with the out-of-bounds read let through, the
    call returns and changes nothing, whatever the read yields. *)
Lemma update_server_state_initial clk g s n :
  update_server_state clk (Some g) (init_server_state s) n
  = Ok (init_server_state s, n).
Proof.
  assert (Hall : Forall (fun ics => server_thread_index ics < 0)
                   (threads (init_server_state s))).
  { simpl. apply List.Forall_forall. intros x Hx.
    apply in_map_iff in Hx as (y & <- & _). simpl. lia. }
  assert (Hnone : Forall (fun c => displayable c = false)
                    (threads (init_server_state s))).
  { eapply Forall_impl; [exact Hall|]. simpl. intros x Hx. unfold displayable.
    destruct (Z.leb_spec 0 (server_thread_index x)); [lia|].
    rewrite andb_false_r. reflexivity. }
  unfold update_server_state.
  unfold clocked_bind at 1. cbn [active_client_index init_server_state].
  change (0 <=? -1) with false. unfold clocked_ret at 1. cbn iota beta.
  rewrite (fallback_loop_none _ Hnone).
  unfold clocked_bind, lift_result, clocked_ret, threads_at.
  cbn [active_client_index init_server_state].
  change (array_get (threads (init_server_state s)) (-1))
    with (@OutOfBounds ipc_client_state).
  cbn [rbind]. rewrite andb_false_r. cbn [andb negb].
  change (set_active_client_index
            (set_active_client_index (init_server_state s) (-1)) (-1))
    with (init_server_state s).
  rewrite (events_loop_no_clients clk _ (init_server_state s) 0 n Hall)
    by (simpl; lia).
  reflexivity.
Qed.

End ServerStateFacts.

(** ** IPC server: the render order under a stable sort *)

Module StableOrderFacts.
Import CInt CIntFacts IpcServer LayerFacts.


























(** Two overlays of the same z order in front of the primary application
    in the client array. *)
Definition server_overlays_before_primary : ipc_server :=
  mk_ipc_server
    [client 0 true true 5 [quad_layer 0];
     client 1 true true 5 [quad_layer 1];
     client 2 false true 0 [projection_layer 0 1]]
    2 2 0 [true].


(** The primary application first, then the two overlays in client-index
    order. *)
Example render_overlays_before_primary :
  spec_render_order server_overlays_before_primary = [2; 0; 1] /\
  _update_layers qsort_stable server_overlays_before_primary
  = Ok (true, [Layer_stereo_projection 2 0 0 1; Layer_quad 0 0 0; Layer_quad 1 0 1]).
Proof. split; vm_compute; reflexivity. Qed.

End StableOrderFacts.

(** ** Sequencing and assertions *)

Module ResultFacts.

Lemma bind_Ok {A B} (x : A) (k : A -> result B) : mbind k (Ok x) = k x.
Proof. reflexivity. Qed.

Lemma c_assert_true ndebug : c_assert ndebug true = Ok tt.
Proof. destruct ndebug; reflexivity. Qed.

Lemma c_assert_release e : c_assert true e = Ok tt.
Proof. reflexivity. Qed.

(** In a debug build an assertion that lets the program go on held. *)
Lemma c_assert_debug_Ok e u : c_assert false e = Ok u -> e = true.
Proof. destruct e; [reflexivity | discriminate]. Qed.

Lemma c_assert_debug_false : c_assert false false = AssertFail.
Proof. reflexivity. Qed.

End ResultFacts.

(** ** Display-timing engine: prediction *)

Module DisplayTimingPredictFacts.
Import CInt CIntFacts ResultFacts DisplayTiming DisplayTimingFacts DisplayTimingPredict.

(** The ring slot of a frame id. *)
Definition slot (frame_id : Z) : nat := Z.to_nat (frame_id mod NUM_FRAMES).

(** A frame ring of the declared size and an id counter that can be
    incremented without leaving the non-negative [int64_t] range. *)
Definition dt_ready (dt : display_timing) : Prop :=
  length (frames dt) = Z.to_nat NUM_FRAMES /\ 0 <= next_frame_id dt < 2 ^ 63 - 1.

Lemma dt_ready_wf dt : dt_ready dt -> dt_wf dt.
Proof. intros [Hlen Hid]. split; [exact Hlen | lia]. Qed.

Lemma slot_lt dt k :
  length (frames dt) = Z.to_nat NUM_FRAMES -> (slot k < length (frames dt))%nat.
Proof.
  intros ->. unfold slot, NUM_FRAMES. pose proof (Z.mod_pos_bound k 16). lia.
Qed.

Lemma slot_is_Some dt k :
  length (frames dt) = Z.to_nat NUM_FRAMES -> exists f, frames dt !! slot k = Some f.
Proof. intros Hlen. apply lookup_lt_is_Some_2, slot_lt, Hlen. Qed.

Lemma array_get_slot (fs : list frame) k f :
  fs !! slot k = Some f -> array_get fs (k mod NUM_FRAMES) = Ok f.
Proof.
  intros Hf. apply array_get_Ok. split; [|exact Hf].
  unfold NUM_FRAMES. pose proof (Z.mod_pos_bound k 16). lia.
Qed.

Lemma set_frame_twice dt i f g : set_frame (set_frame dt i f) i g = set_frame dt i g.
Proof.
  unfold set_frame, set_frames. simpl. rewrite list_insert_insert_eq. reflexivity.
Qed.

Lemma set_frame_lookup dt k f :
  length (frames dt) = Z.to_nat NUM_FRAMES ->
  frames (set_frame dt (k mod NUM_FRAMES) f) !! slot k = Some f.
Proof.
  intros Hlen. unfold set_frame. simpl.
  apply list_lookup_insert_eq. apply slot_lt, Hlen.
Qed.

(** The engine after [create_frame] and the two stores of
    [do_clean_slate_frame] and [walk_forward_through_frames]. *)
Definition created (dt : display_timing) (f0 : frame) (now_ns d : Z) : display_timing :=
  set_frame (set_next_frame_id dt (next_frame_id dt + 1))
    (next_frame_id dt mod NUM_FRAMES)
    (set_desired_present_time_ns
       (set_when_predict_ns
          (set_state (set_frame_id f0 (next_frame_id dt)) STATE_PREDICTED) now_ns) d).

(** The engine after the three further stores of [predict_next_frame]. *)
Definition predicted (dt : display_timing) (f0 : frame) (now_ns d : Z) : display_timing :=
  set_frame (set_next_frame_id dt (next_frame_id dt + 1))
    (next_frame_id dt mod NUM_FRAMES)
    (set_current_app_time_ns
       (set_wake_up_time_ns
          (set_predicted_display_time_ns
             (set_desired_present_time_ns
                (set_when_predict_ns
                   (set_state (set_frame_id f0 (next_frame_id dt)) STATE_PREDICTED)
                   now_ns) d)
             (to_uint64 (d + present_offset_ns dt)))
          (to_uint64 (d - to_uint64 (app_time_ns dt + margin_ns dt))))
       (app_time_ns dt)).

Lemma create_frame_eq ndebug dt st f0 :
  dt_ready dt -> frames dt !! slot (next_frame_id dt) = Some f0 ->
  create_frame ndebug dt st =
  Ok (next_frame_id dt mod NUM_FRAMES,
      set_frame (set_next_frame_id dt (next_frame_id dt + 1))
        (next_frame_id dt mod NUM_FRAMES)
        (set_state (set_frame_id f0 (next_frame_id dt)) st)).
Proof.
  intros [Hlen Hid] Hf. unfold create_frame.
  rewrite get_frame_nonneg by lia. simpl.
  rewrite (array_get_slot _ _ _ Hf). simpl.
  rewrite to_int64_small by lia. reflexivity.
Qed.

Lemma do_clean_slate_frame_eq ndebug dt now_ns now2_ns f0 :
  dt_ready dt -> frames dt !! slot (next_frame_id dt) = Some f0 ->
  do_clean_slate_frame ndebug dt now_ns now2_ns =
  Ok (next_frame_id dt mod NUM_FRAMES,
      created dt f0 now_ns (to_uint64 (now2_ns + to_uint64 (frame_period_ns dt * 10)))).
Proof.
  intros Hr Hf. unfold do_clean_slate_frame.
  rewrite (create_frame_eq _ _ _ _ Hr Hf). simpl.
  pose proof Hr as [Hlen _].
  rewrite (array_get_slot _ (next_frame_id dt) _
             (list_lookup_insert_eq _ _ _ (slot_lt dt _ Hlen))).
  simpl. unfold created. f_equal. f_equal.
  unfold set_frame, set_frames. simpl. rewrite list_insert_insert_eq. reflexivity.
Qed.

Lemma walk_forward_through_frames_eq ndebug fuel dt last now_ns f0 :
  dt_ready dt -> frames dt !! slot (next_frame_id dt) = Some f0 ->
  walk_forward_through_frames ndebug fuel dt last now_ns =
  (d ← walk_loop (frame_period_ns dt) (to_uint64 (now_ns + calc_total_app_time dt))
         fuel (to_uint64 (last + frame_period_ns dt));
   Ok (next_frame_id dt mod NUM_FRAMES, created dt f0 now_ns d)).
Proof.
  intros Hr Hf. unfold walk_forward_through_frames.
  destruct (walk_loop _ _ _ _) as [d| | |]; simpl; try reflexivity.
  rewrite (create_frame_eq _ _ _ _ Hr Hf). simpl.
  pose proof Hr as [Hlen _].
  rewrite (array_get_slot _ (next_frame_id dt) _
             (list_lookup_insert_eq _ _ _ (slot_lt dt _ Hlen))).
  simpl. unfold created. f_equal. f_equal.
  unfold set_frame, set_frames. simpl. rewrite list_insert_insert_eq. reflexivity.
Qed.

(** The stores that close [predict_next_frame]. *)
Lemma predict_tail_eq dt f0 now_ns d :
  length (frames dt) = Z.to_nat NUM_FRAMES ->
  (let dt1 := created dt f0 now_ns d in
   let i := next_frame_id dt mod NUM_FRAMES in
   f ← array_get (frames dt1) i;
   let f :=
     set_predicted_display_time_ns f
       (calc_display_time_from_present_time dt1 (desired_present_time_ns f)) in
   let f :=
     set_wake_up_time_ns f
       (to_uint64 (desired_present_time_ns f - calc_total_app_time dt1)) in
   let f := set_current_app_time_ns f (app_time_ns dt1) in
   Ok (i, set_frame dt1 i f)) =
  Ok (next_frame_id dt mod NUM_FRAMES, predicted dt f0 now_ns d).
Proof.
  intros Hlen. cbv zeta.
  rewrite (array_get_slot (frames (created dt f0 now_ns d)) (next_frame_id dt) _
             (set_frame_lookup (set_next_frame_id dt _) _ _ Hlen)).
  simpl. unfold predicted, created. f_equal. f_equal.
  unfold set_frame, set_frames. simpl. rewrite list_insert_insert_eq. reflexivity.
Qed.

(** The loop of [walk_forward_through_frames] leaves only with a time
    after [from_time_ns]. *)
Lemma walk_loop_gt p from : forall fuel d0 d,
  walk_loop p from fuel d0 = Ok d -> from < d.
Proof.
  induction fuel as [|fuel IH]; intros d0 d; simpl;
    destruct (Z.leb_spec d0 from); try discriminate.
  - intros [= <-]. lia.
  - apply IH.
  - intros [= <-]. lia.
Qed.

(** Without wrap-around the loop stops at the first multiple of the
    period past [from_time_ns]. *)
Lemma walk_loop_first p from : 0 < p -> from + p < two64 ->
  forall fuel d0 d, 0 <= d0 ->
    walk_loop p from fuel d0 = Ok d ->
    exists k, 0 <= k /\ d = d0 + k * p /\ (k = 0 \/ d - p <= from).
Proof.
  intros Hp Hw. induction fuel as [|fuel IH]; intros d0 d Hd0; simpl;
    destruct (Z.leb_spec d0 from); try discriminate.
  - intros [= <-]. exists 0. lia.
  - intros H'. rewrite to_uint64_small in H' by (unfold is_uint64; lia).
    destruct (Z.leb_spec (d0 + p) from) as [Hle|Hgt].
    + apply IH in H'; [|lia]. destruct H' as (k & Hk & -> & Hor).
      exists (k + 1). split; [lia|]. split; [lia|]. right.
      destruct Hor as [->|Hor]; lia.
    + destruct fuel; simpl in H'; destruct (Z.leb_spec (d0 + p) from); try lia;
        injection H' as <-; exists 1; lia.
  - intros [= <-]. exists 0. lia.
Qed.

Lemma walk_loop_returns p from : 0 < p -> 0 <= from -> from + p < two64 ->
  forall fuel d0, 0 <= d0 ->
    (from - d0) / p + 1 < Z.of_nat fuel \/ from < d0 ->
    exists d, walk_loop p from fuel d0 = Ok d.
Proof.
  intros Hp Hf Hw. induction fuel as [|fuel IH]; intros d0 Hd0 Hfuel; simpl;
    destruct (Z.leb_spec d0 from); eauto.
  - exfalso. destruct Hfuel as [Hfuel|Hfuel]; [|lia].
    pose proof (Z.div_pos (from - d0) p). lia.
  - rewrite to_uint64_small by (unfold is_uint64; lia).
    apply IH; [lia|]. destruct Hfuel as [Hfuel|Hfuel]; [|lia].
    destruct (Z.le_gt_cases (d0 + p) from) as [Hle|Hgt]; [left|right; lia].
    replace (from - (d0 + p)) with ((from - d0) + (-1) * p) by lia.
    rewrite Z.div_add by lia. lia.
Qed.

Lemma walk_loop_uint64 p from : forall fuel d0 d,
  is_uint64 d0 -> walk_loop p from fuel d0 = Ok d -> is_uint64 d.
Proof.
  induction fuel as [|fuel IH]; intros d0 d Hd0; simpl;
    destruct (Z.leb_spec d0 from); try discriminate.
  - intros [= <-]. exact Hd0.
  - apply IH, to_uint64_range.
  - intros [= <-]. exact Hd0.
Qed.

(** Every path through [predict_next_frame] goes through
    [do_clean_slate_frame] or [walk_forward_through_frames]. *)
Lemma predict_branch_shape ndebug fuel dt now_ns now2_ns f0 lp lc i dt1 :
  dt_ready dt -> frames dt !! slot (next_frame_id dt) = Some f0 ->
  (if is_null lp && is_null lc then
     do_clean_slate_frame ndebug dt now_ns now2_ns
   else if same_frame lc lp then
     lc' ← deref dt lc;
     walk_forward_through_frames ndebug fuel dt (earliest_present_time_ns lc') now_ns
   else if negb (is_null lc) then
     _ ← c_assert ndebug (negb (is_null lp));
     lp' ← deref dt lp;
     lc' ← deref dt lc;
     _ ← c_assert ndebug (frame_id lc' <? frame_id lp');
     let diff_id := to_int64 (frame_id lp' - frame_id lc') in
     let adjusted_last_present_time_ns :=
       to_uint64 (earliest_present_time_ns lc'
                  + to_uint64 (diff_id * frame_period_ns dt)) in
     walk_forward_through_frames ndebug fuel dt adjusted_last_present_time_ns now_ns
   else
     _ ← c_assert ndebug (negb (is_null lp));
     lp' ← deref dt lp;
     walk_forward_through_frames ndebug fuel dt (predicted_display_time_ns lp') now_ns)
  = Ok (i, dt1) ->
  exists d,
    i = next_frame_id dt mod NUM_FRAMES /\ dt1 = created dt f0 now_ns d /\
    is_uint64 d /\
    (lp = None ->
     d = to_uint64 (now2_ns + to_uint64 (frame_period_ns dt * 10))) /\
    (lp <> None -> to_uint64 (now_ns + calc_total_app_time dt) < d).
Proof.
  intros Hr Hf.
  destruct (is_null lp && is_null lc) eqn:Hnull.
  - rewrite (do_clean_slate_frame_eq _ _ _ _ _ Hr Hf). intros [= <- <-].
    eexists. split; [reflexivity|]. split; [reflexivity|].
    split; [apply to_uint64_range|].
    split; [reflexivity|]. destruct lp; [discriminate | congruence].
  - intros H.
    assert (Hw : exists last d,
               walk_loop (frame_period_ns dt)
                 (to_uint64 (now_ns + calc_total_app_time dt)) fuel
                 (to_uint64 (last + frame_period_ns dt)) = Ok d /\
               i = next_frame_id dt mod NUM_FRAMES /\ dt1 = created dt f0 now_ns d).
    { destruct (same_frame lc lp); [|destruct (negb (is_null lc))];
        step_binds H;
        rewrite (walk_forward_through_frames_eq _ _ _ _ _ _ Hr Hf) in H;
        match type of H with
        | mbind _ (walk_loop _ _ _ (to_uint64 (?l + _))) = _ =>
            destruct (walk_loop _ _ _ (to_uint64 (l + _))) as [d| | |] eqn:Hd;
            simpl in H; try discriminate; injection H as <- <-;
            exists l, d; auto
        end. }
    destruct Hw as (last & d & Hd & -> & ->). exists d.
    split; [reflexivity|]. split; [reflexivity|].
    split; [eapply walk_loop_uint64, Hd; apply to_uint64_range|].
    split; [|intros _; eapply walk_loop_gt, Hd].
    intros ->. simpl in Hnull. destruct lc; simpl in *; try discriminate.
    destruct ndebug; discriminate.
Qed.

Lemma predict_next_frame_shape ndebug fuel dt now_ns now2_ns f0 i dt' :
  dt_ready dt -> frames dt !! slot (next_frame_id dt) = Some f0 ->
  predict_next_frame ndebug fuel dt now_ns now2_ns = Ok (i, dt') ->
  exists d,
    i = next_frame_id dt mod NUM_FRAMES /\ dt' = predicted dt f0 now_ns d /\
    is_uint64 d /\
    (get_latest_frame_with_state_at_least ndebug dt STATE_PREDICTED = Ok None ->
     d = to_uint64 (now2_ns + to_uint64 (frame_period_ns dt * 10))) /\
    (forall j,
       get_latest_frame_with_state_at_least ndebug dt STATE_PREDICTED = Ok (Some j) ->
       to_uint64 (now_ns + calc_total_app_time dt) < d).
Proof.
  intros Hr Hf. unfold predict_next_frame.
  destruct (get_latest_frame_with_state_at_least ndebug dt STATE_PREDICTED)
    as [lp| | |]; simpl; try discriminate.
  destruct (get_latest_frame_with_state_at_least ndebug dt STATE_INFO)
    as [lc| | |]; simpl; try discriminate.
  match goal with
  | |- mbind _ ?B = _ -> _ => destruct B as [[i1 dt1]| | |] eqn:HB
  end; simpl; try discriminate.
  apply (predict_branch_shape _ _ _ _ _ _ _ _ _ _ Hr Hf) in HB.
  destruct HB as (d & -> & -> & Hu & Hclean & Hwalk).
  pose proof Hr as [Hlen _].
  pose proof (predict_tail_eq dt f0 now_ns d Hlen) as Ht. cbv zeta in Ht.
  intros H.
  assert (He : Ok (i, dt') = Ok (next_frame_id dt mod NUM_FRAMES, predicted dt f0 now_ns d))
    by (rewrite <- H; exact Ht).
  injection He as -> ->. exists d. split; [reflexivity|]. split; [reflexivity|].
  split; [exact Hu|]. split.
  - intros [= ->]. auto.
  - intros j [= ->]. apply Hwalk. discriminate.
Qed.

Lemma dt_predict_shape ndebug fuel dt now_ns now2_ns out dt' :
  dt_ready dt ->
  dt_predict ndebug fuel dt now_ns now2_ns = Ok (out, dt') ->
  exists f0 d,
    frames dt !! slot (next_frame_id dt) = Some f0 /\
    dt' = predicted dt f0 now_ns d /\
    out = mk_predict_out (next_frame_id dt)
            (to_uint64 (d - to_uint64 (app_time_ns dt + margin_ns dt))) d
            U_TIME_HALF_MS_IN_NS (to_uint64 (d + present_offset_ns dt))
            (frame_period_ns dt) (frame_period_ns dt) /\
    is_uint64 d /\
    (get_latest_frame_with_state_at_least ndebug dt STATE_PREDICTED = Ok None ->
     d = to_uint64 (now2_ns + to_uint64 (frame_period_ns dt * 10))) /\
    (forall j,
       get_latest_frame_with_state_at_least ndebug dt STATE_PREDICTED = Ok (Some j) ->
       to_uint64 (now_ns + calc_total_app_time dt) < d).
Proof.
  intros Hr. pose proof Hr as [Hlen _].
  destruct (slot_is_Some dt (next_frame_id dt) Hlen) as [f0 Hf].
  unfold dt_predict.
  destruct (predict_next_frame ndebug fuel dt now_ns now2_ns)
    as [[i dt1]| | |] eqn:Hp; simpl; try discriminate.
  destruct (predict_next_frame_shape _ _ _ _ _ _ _ _ Hr Hf Hp)
    as (d & -> & -> & Hu & Hclean & Hwalk).
  rewrite (array_get_slot (frames (predicted dt f0 now_ns d)) (next_frame_id dt) _
             (set_frame_lookup (set_next_frame_id dt _) _ _ Hlen)).
  simpl. intros [= <- <-]. exists f0, d. auto 10.
Qed.

(** X1: what a prediction hands out and records.  Whenever [dt_predict]
    returns on an engine whose frame ring has its 16 slots and whose id
    counter is in [0, 2^63 - 1), the frame id is the old value of the counter
    and the counter has moved on by one; the predicted display time is the
    desired present time plus the present offset, and the wake-up time the
    desired present time minus [app_time_ns + margin_ns], both modulo 2^64;
    the slop is half a millisecond and both periods are the frame period.
    The ring slot of the id holds a record in [STATE_PREDICTED] with these
    values, the clock reading and the current application time; no other
    slot and none of the controller values has changed. *)
Theorem dt_predict_outputs ndebug fuel dt now_ns now2_ns out dt' :
  dt_ready dt ->
  dt_predict ndebug fuel dt now_ns now2_ns = Ok (out, dt') ->
  out_frame_id out = next_frame_id dt /\
  next_frame_id dt' = next_frame_id dt + 1 /\
  out_predicted_display_time_ns out =
    to_uint64 (out_desired_present_time_ns out + present_offset_ns dt) /\
  out_wake_up_time_ns out =
    to_uint64 (out_desired_present_time_ns out
               - to_uint64 (app_time_ns dt + margin_ns dt)) /\
  out_present_slop_ns out = U_TIME_HALF_MS_IN_NS /\
  out_predicted_display_period_ns out = frame_period_ns dt /\
  out_min_display_period_ns out = frame_period_ns dt /\
  (exists f,
     frames dt' !! slot (next_frame_id dt) = Some f /\
     frame_id f = out_frame_id out /\ state f = STATE_PREDICTED /\
     when_predict_ns f = now_ns /\
     desired_present_time_ns f = out_desired_present_time_ns out /\
     wake_up_time_ns f = out_wake_up_time_ns out /\
     predicted_display_time_ns f = out_predicted_display_time_ns out /\
     current_app_time_ns f = app_time_ns dt) /\
  (forall j, j <> slot (next_frame_id dt) -> frames dt' !! j = frames dt !! j) /\
  length (frames dt') = length (frames dt) /\
  (present_offset_ns dt', frame_period_ns dt', app_time_ns dt', app_time_max_ns dt',
   adjust_missed_ns dt', adjust_non_miss_ns dt', margin_ns dt') =
  (present_offset_ns dt, frame_period_ns dt, app_time_ns dt, app_time_max_ns dt,
   adjust_missed_ns dt, adjust_non_miss_ns dt, margin_ns dt).
Proof.
  intros Hr H. pose proof Hr as [Hlen _].
  destruct (dt_predict_shape _ _ _ _ _ _ _ Hr H) as (f0 & d & Hf & -> & -> & _).
  simpl. repeat (split; [reflexivity|]).
  split; [|split; [|split; [apply length_insert | reflexivity]]].
  - eexists. split; [apply list_lookup_insert_eq, slot_lt, Hlen|].
    simpl. repeat split; reflexivity.
  - intros j Hj. apply list_lookup_insert_ne. unfold slot in Hj. congruence.
Qed.

Lemma dt_60hz_ready : dt_ready dt_60hz.
Proof. split; [reflexivity | simpl; lia]. Qed.

Lemma dt_predict_outputs_witness :
  out_frame_id (mk_predict_out 0 165000994 167667660 500000 171667660 16666666 16666666)
    = next_frame_id dt_60hz /\
  out_wake_up_time_ns
    (mk_predict_out 0 165000994 167667660 500000 171667660 16666666 16666666)
    = to_uint64 (167667660 - to_uint64 (app_time_ns dt_60hz + margin_ns dt_60hz)).
Proof.
  pose proof (dt_predict_outputs false 0 dt_60hz 1000000 1001000
                (mk_predict_out 0 165000994 167667660 500000 171667660 16666666 16666666)
                (predicted dt_60hz zero_frame 1000000 167667660)
                dt_60hz_ready) as H.
  destruct H as (H1 & _ & _ & H4 & _); [vm_compute; reflexivity|].
  split; [exact H1 | exact H4].
Defined.

(** *** The backward search of the ring *)

(** What [get_latest_frame_with_state_at_least] may return: the slot of the
    most recent of the last 15 frame ids whose record is at or past [st], or
    [NULL] when none of them is. *)
Definition latest_from (dt : display_timing) (st : frame_state) (start_from count : Z)
    (r : option Z) : Prop :=
  match r with
  | Some i =>
      exists k f,
        count <= k < NUM_FRAMES /\ k <= start_from /\
        i = (start_from - k) mod NUM_FRAMES /\
        frames dt !! slot (start_from - k) = Some f /\
        frame_state_value st <= frame_state_value (state f) /\
        forall k' f', count <= k' < k ->
          frames dt !! slot (start_from - k') = Some f' ->
          frame_state_value (state f') < frame_state_value st
  | None =>
      forall k' f', count <= k' < NUM_FRAMES -> k' <= start_from ->
        frames dt !! slot (start_from - k') = Some f' ->
        frame_state_value (state f') < frame_state_value st
  end.

Lemma latest_frame_loop_spec ndebug dt st start_from :
  length (frames dt) = Z.to_nat NUM_FRAMES ->
  0 <= start_from < 2 ^ 63 ->
  forall fuel count r,
    1 <= count ->
    latest_frame_loop ndebug dt st start_from fuel count = Ok r ->
    latest_from dt st start_from count r.
Proof.
  intros Hlen Hs. induction fuel as [|fuel IH]; intros count r Hc; simpl;
    destruct ((count <=? start_from) && (count <? NUM_FRAMES)) eqn:Hcond;
    try discriminate.
  - intros [= <-]. apply andb_false_iff in Hcond. simpl. intros k' f' Hk Hk'.
    destruct Hcond as [Hcond|Hcond];
      [apply Z.leb_gt in Hcond | apply Z.ltb_ge in Hcond]; lia.
  - apply andb_true_iff in Hcond as [Hle Hlt].
    apply Z.leb_le in Hle. apply Z.ltb_lt in Hlt.
    rewrite to_int64_small by lia.
    rewrite get_frame_nonneg by lia. simpl.
    destruct (slot_is_Some dt (start_from - count) Hlen) as [f Hf].
    rewrite (array_get_slot _ _ _ Hf). simpl.
    destruct (Z.leb_spec (frame_state_value st) (frame_state_value (state f)))
      as [Hst|Hst].
    + intros [= <-]. simpl. exists count, f.
      repeat split; auto; lia.
    + intros H. apply IH in H; [|lia]. destruct r as [i|]; simpl in *.
      * destruct H as (k & g & Hk & Hks & -> & Hg & Hge & Hbefore).
        exists k, g. repeat split; auto; try lia.
        intros k' f' Hk' Hf'. destruct (Z.eq_dec k' count) as [->|Hne].
        -- rewrite Hf in Hf'. injection Hf' as <-. exact Hst.
        -- apply (Hbefore k' f'); [lia | exact Hf'].
      * intros k' f' Hk' Hks Hf'. destruct (Z.eq_dec k' count) as [->|Hne].
        -- rewrite Hf in Hf'. injection Hf' as <-. exact Hst.
        -- apply (H k' f'); [lia | lia | exact Hf'].
  - intros [= <-]. apply andb_false_iff in Hcond. simpl. intros k' f' Hk Hk'.
    destruct Hcond as [Hcond|Hcond];
      [apply Z.leb_gt in Hcond | apply Z.ltb_ge in Hcond]; lia.
Qed.

Lemma get_latest_frame_latest ndebug dt st r :
  dt_wf dt ->
  get_latest_frame_with_state_at_least ndebug dt st = Ok r ->
  latest_from dt st (next_frame_id dt) 1 r.
Proof.
  intros [Hlen Hid]. unfold get_latest_frame_with_state_at_least.
  rewrite to_uint64_small by (unfold is_uint64, two64; lia).
  apply latest_frame_loop_spec; auto; lia.
Qed.

(** X2: [get_latest_frame_with_state_at_least] looks at the 15 frame ids
    before [next_frame_id] (fewer when fewer have been handed out), newest
    first, in both builds always returns, and yields the slot of the newest
    one whose record is in state [st] or later; it yields [NULL] exactly
    when none of those records is. *)
Theorem get_latest_frame_with_state_at_least_spec ndebug dt st :
  dt_wf dt ->
  exists r,
    get_latest_frame_with_state_at_least ndebug dt st = Ok r /\
    match r with
    | Some i =>
        exists k f,
          1 <= k < NUM_FRAMES /\ k <= next_frame_id dt /\
          i = (next_frame_id dt - k) mod NUM_FRAMES /\
          frames dt !! Z.to_nat i = Some f /\
          frame_state_value st <= frame_state_value (state f) /\
          forall k' f', 1 <= k' < k ->
            frames dt !! Z.to_nat ((next_frame_id dt - k') mod NUM_FRAMES) = Some f' ->
            frame_state_value (state f') < frame_state_value st
    | None =>
        forall k' f', 1 <= k' < NUM_FRAMES -> k' <= next_frame_id dt ->
          frames dt !! Z.to_nat ((next_frame_id dt - k') mod NUM_FRAMES) = Some f' ->
          frame_state_value (state f') < frame_state_value st
    end.
Proof.
  intros Hwf. destruct (get_latest_frame_returns ndebug dt st Hwf) as [r Hr].
  exists r. split; [exact Hr|].
  pose proof (get_latest_frame_latest _ _ _ _ Hwf Hr) as H.
  destruct r as [i|]; simpl in H.
  - destruct H as (k & f & Hk & Hks & -> & Hf & Hge & Hb).
    exists k, f. repeat split; auto; lia.
  - exact H.
Qed.

Lemma get_latest_frame_with_state_at_least_spec_witness :
  exists r,
    get_latest_frame_with_state_at_least false
      (predicted dt_60hz zero_frame 1000000 167667660) STATE_PREDICTED = Ok r /\
    match r with
    | Some i =>
        exists k f,
          1 <= k < NUM_FRAMES /\
          k <= next_frame_id (predicted dt_60hz zero_frame 1000000 167667660) /\
          i = (next_frame_id (predicted dt_60hz zero_frame 1000000 167667660) - k)
              mod NUM_FRAMES /\
          frames (predicted dt_60hz zero_frame 1000000 167667660) !! Z.to_nat i
            = Some f /\
          frame_state_value STATE_PREDICTED <= frame_state_value (state f) /\
          forall k' f', 1 <= k' < k ->
            frames (predicted dt_60hz zero_frame 1000000 167667660)
              !! Z.to_nat
                   ((next_frame_id (predicted dt_60hz zero_frame 1000000 167667660) - k')
                    mod NUM_FRAMES) = Some f' ->
            frame_state_value (state f') < frame_state_value STATE_PREDICTED
    | None =>
        forall k' f', 1 <= k' < NUM_FRAMES ->
          k' <= next_frame_id (predicted dt_60hz zero_frame 1000000 167667660) ->
          frames (predicted dt_60hz zero_frame 1000000 167667660)
            !! Z.to_nat
                 ((next_frame_id (predicted dt_60hz zero_frame 1000000 167667660) - k')
                  mod NUM_FRAMES) = Some f' ->
          frame_state_value (state f') < frame_state_value STATE_PREDICTED
    end.
Proof.
  apply (get_latest_frame_with_state_at_least_spec false
           (predicted dt_60hz zero_frame 1000000 167667660) STATE_PREDICTED).
  split; [reflexivity | simpl; lia].
Defined.

Lemma latest_found ndebug dt st k f :
  dt_wf dt -> 1 <= k < NUM_FRAMES -> k <= next_frame_id dt ->
  frames dt !! slot (next_frame_id dt - k) = Some f ->
  frame_state_value st <= frame_state_value (state f) ->
  exists j, get_latest_frame_with_state_at_least ndebug dt st = Ok (Some j).
Proof.
  intros Hwf Hk Hks Hf Hst.
  destruct (get_latest_frame_returns ndebug dt st Hwf) as [r Hr].
  pose proof (get_latest_frame_latest _ _ _ _ Hwf Hr) as H.
  destruct r as [j|]; [eauto|]. simpl in H.
  specialize (H k f Hk Hks Hf). lia.
Qed.

(** X3: once a frame has been predicted (one of the 15 most recent ids has
    a record at or past [STATE_PREDICTED]), every further prediction that
    returns has a desired present time strictly after
    [now + app_time_ns + margin_ns], in [uint64_t] arithmetic; when that sum
    does not wrap, the wake-up time handed out is strictly after the clock
    reading and lies exactly [app_time_ns + margin_ns] before the desired
    present time. *)
Theorem dt_predict_in_future ndebug fuel dt now_ns now2_ns out dt' k f :
  dt_ready dt ->
  1 <= k < NUM_FRAMES -> k <= next_frame_id dt ->
  frames dt !! Z.to_nat ((next_frame_id dt - k) mod NUM_FRAMES) = Some f ->
  frame_state_value STATE_PREDICTED <= frame_state_value (state f) ->
  dt_predict ndebug fuel dt now_ns now2_ns = Ok (out, dt') ->
  to_uint64 (now_ns + to_uint64 (app_time_ns dt + margin_ns dt))
    < out_desired_present_time_ns out /\
  (0 <= now_ns -> 0 <= app_time_ns dt + margin_ns dt ->
   now_ns + (app_time_ns dt + margin_ns dt) < two64 ->
   now_ns < out_wake_up_time_ns out /\
   out_wake_up_time_ns out + (app_time_ns dt + margin_ns dt)
     = out_desired_present_time_ns out).
Proof.
  intros Hr Hk Hks Hf Hst H.
  destruct (latest_found ndebug dt STATE_PREDICTED k f (dt_ready_wf _ Hr) Hk Hks Hf Hst)
    as [j Hj].
  destruct (dt_predict_shape _ _ _ _ _ _ _ Hr H)
    as (f0 & d & _ & _ & -> & Hu & _ & Hwalk).
  specialize (Hwalk j Hj). unfold calc_total_app_time in Hwalk. simpl.
  split; [exact Hwalk|]. intros Hn Ht Hsum.
  rewrite (to_uint64_small (app_time_ns dt + margin_ns dt)) in *
    by (unfold is_uint64; lia).
  rewrite to_uint64_small in Hwalk by (unfold is_uint64; lia).
  unfold is_uint64 in Hu.
  rewrite to_uint64_small by (unfold is_uint64; lia). lia.
Qed.

Lemma dt_predict_in_future_witness :
  to_uint64 (2000000 + to_uint64
               (app_time_ns (predicted dt_60hz zero_frame 1000000 167667660)
                + margin_ns (predicted dt_60hz zero_frame 1000000 167667660)))
    < out_desired_present_time_ns
        (mk_predict_out 1 185667660 188334326 500000 192334326 16666666 16666666).
Proof.
  refine (proj1 (dt_predict_in_future false 2
                   (predicted dt_60hz zero_frame 1000000 167667660) 2000000 2000001
                   (mk_predict_out 1 185667660 188334326 500000 192334326 16666666 16666666)
                   (predicted (predicted dt_60hz zero_frame 1000000 167667660)
                      zero_frame 2000000 188334326)
                   1
                   (mk_frame 0 1000000 165000994 0 0 0 0 1666666 0 167667660
                      171667660 0 0 0 STATE_PREDICTED)
                   _ _ _ _ _ _)).
  - split; [reflexivity | simpl; lia].
  - unfold NUM_FRAMES. lia.
  - simpl. lia.
  - reflexivity.
  - simpl. lia.
  - vm_compute. reflexivity.
Defined.

Lemma latest_frame_loop_no_frames ndebug dt st fuel :
  latest_frame_loop ndebug dt st 0 fuel 1 = Ok None.
Proof. destruct fuel; reflexivity. Qed.

(** X4: the first prediction of a newly created engine is the "clean
    slate" one.  In both builds and whatever the clock reads, [dt_predict]
    returns frame id 0 with a desired present time of ten frame periods after
    the second clock reading (modulo 2^64), without looking at the
    application time; the display time is 4 ms later and the wake-up time
    [app_time_ns + 1 ms] earlier, where [app_time_ns] is 10 % of the
    period. *)
Theorem dt_predict_first_frame (pct : Z -> Z -> Z) (period : Z)
    ndebug fuel now_ns now2_ns :
  let dt := u_ft_display_timing_create pct period in
  let d := to_uint64 (now2_ns + to_uint64 (period * 10)) in
  dt_predict ndebug fuel dt now_ns now2_ns =
  Ok (mk_predict_out 0
        (to_uint64 (d - to_uint64 (pct period 10 + U_TIME_1MS_IN_NS))) d
        U_TIME_HALF_MS_IN_NS (to_uint64 (d + U_TIME_1MS_IN_NS * 4)) period period,
      predicted dt zero_frame now_ns d).
Proof.
  intros dt d.
  assert (Hr : dt_ready dt) by (split; [reflexivity | simpl; lia]).
  assert (Hf : frames dt !! slot (next_frame_id dt) = Some zero_frame) by reflexivity.
  assert (Hp : predict_next_frame ndebug fuel dt now_ns now2_ns =
               Ok (0, predicted dt zero_frame now_ns d)).
  { unfold predict_next_frame, get_latest_frame_with_state_at_least.
    change (to_uint64 (next_frame_id dt)) with 0.
    rewrite !latest_frame_loop_no_frames. simpl mbind.
    change (is_null None && is_null None) with true. cbv iota.
    rewrite (do_clean_slate_frame_eq _ _ _ _ _ Hr Hf).
    exact (predict_tail_eq dt zero_frame now_ns d (proj1 Hr)). }
  unfold dt_predict. rewrite Hp. reflexivity.
Qed.

(** *** Predictions always return *)

(** The records of the last 15 frame ids carry their own id. *)
Definition ring_ids_ok (dt : display_timing) : Prop :=
  forall k f, 1 <= k < NUM_FRAMES -> k <= next_frame_id dt ->
    frames dt !! slot (next_frame_id dt - k) = Some f ->
    frame_id f = next_frame_id dt - k.

Lemma slot_ne id m : 1 <= m < NUM_FRAMES -> slot (id - m) <> slot id.
Proof.
  unfold slot, NUM_FRAMES. intros Hm He.
  pose proof (Z.mod_pos_bound (id - m) 16). pose proof (Z.mod_pos_bound id 16).
  apply Z2Nat.inj in He; [|lia|lia].
  pose proof (Z.div_mod (id - m) 16). pose proof (Z.div_mod id 16). lia.
Qed.

Lemma ring_ids_ok_predicted dt f0 now_ns d :
  dt_ready dt -> ring_ids_ok dt -> ring_ids_ok (predicted dt f0 now_ns d).
Proof.
  intros [Hlen Hid] Hok k f Hk Hks. simpl.
  destruct (Z.eq_dec k 1) as [->|Hne].
  - replace (next_frame_id dt + 1 - 1) with (next_frame_id dt) by lia.
    rewrite list_lookup_insert_eq by (apply slot_lt, Hlen).
    intros [= <-]. reflexivity.
  - replace (next_frame_id dt + 1 - k) with (next_frame_id dt - (k - 1)) by lia.
    rewrite list_lookup_insert_ne
      by (intros He; apply (slot_ne (next_frame_id dt) (k - 1)); [lia | auto]).
    intros Hf. apply Hok in Hf; simpl in *; lia.
Qed.

Lemma ring_ids_ok_create (pct : Z -> Z -> Z) (period : Z) :
  ring_ids_ok (u_ft_display_timing_create pct period).
Proof. intros k f Hk Hks. simpl in Hks. lia. Qed.

Definition walk_fuel (dt : display_timing) (now_ns : Z) : nat :=
  Z.to_nat (to_uint64 (now_ns + calc_total_app_time dt) / frame_period_ns dt + 3).

Lemma walk_forward_through_frames_returns ndebug dt last now_ns f0 :
  dt_ready dt -> frames dt !! slot (next_frame_id dt) = Some f0 ->
  0 < frame_period_ns dt ->
  to_uint64 (now_ns + calc_total_app_time dt) + frame_period_ns dt < two64 ->
  exists d,
    walk_forward_through_frames ndebug (walk_fuel dt now_ns) dt last now_ns =
    Ok (next_frame_id dt mod NUM_FRAMES, created dt f0 now_ns d).
Proof.
  intros Hr Hf Hp Hw.
  rewrite (walk_forward_through_frames_eq _ _ _ _ _ _ Hr Hf).
  set (from := to_uint64 (now_ns + calc_total_app_time dt)) in *.
  pose proof (to_uint64_range (now_ns + calc_total_app_time dt)) as Hfrom.
  pose proof (to_uint64_range (last + frame_period_ns dt)) as Hd0.
  fold from in Hfrom. unfold is_uint64 in *.
  destruct (walk_loop_returns (frame_period_ns dt) from Hp (proj1 Hfrom) Hw
              (walk_fuel dt now_ns) (to_uint64 (last + frame_period_ns dt)) (proj1 Hd0))
    as [d Hd].
  { left. unfold walk_fuel. fold from.
    pose proof (Z.div_pos from (frame_period_ns dt) (proj1 Hfrom) Hp).
    rewrite Z2Nat.id by lia.
    assert ((from - to_uint64 (last + frame_period_ns dt)) / frame_period_ns dt
            <= from / frame_period_ns dt) by (apply Z.div_le_mono; lia).
    lia. }
  exists d. rewrite Hd. reflexivity.
Qed.

Lemma deref_latest dt st start count j :
  latest_from dt st start count (Some j) ->
  exists k f,
    count <= k < NUM_FRAMES /\ k <= start /\
    frames dt !! slot (start - k) = Some f /\ deref dt (Some j) = Ok f /\
    j = (start - k) mod NUM_FRAMES /\
    frame_state_value st <= frame_state_value (state f) /\
    forall k' f', count <= k' < k ->
      frames dt !! slot (start - k') = Some f' ->
      frame_state_value (state f') < frame_state_value st.
Proof.
  simpl. intros (k & f & Hk & Hks & -> & Hf & Hst & Hb).
  exists k, f. repeat split; auto; try lia.
  apply array_get_slot, Hf.
Qed.

Lemma predict_next_frame_returns ndebug dt now_ns now2_ns f0 :
  dt_ready dt -> frames dt !! slot (next_frame_id dt) = Some f0 ->
  ndebug = true \/ ring_ids_ok dt ->
  0 < frame_period_ns dt ->
  to_uint64 (now_ns + calc_total_app_time dt) + frame_period_ns dt < two64 ->
  exists d,
    predict_next_frame ndebug (walk_fuel dt now_ns) dt now_ns now2_ns =
    Ok (next_frame_id dt mod NUM_FRAMES, predicted dt f0 now_ns d).
Proof.
  intros Hr Hf Hok Hp Hw. pose proof (dt_ready_wf _ Hr) as Hwf.
  destruct (get_latest_frame_returns ndebug dt STATE_PREDICTED Hwf) as [lp Hlp].
  destruct (get_latest_frame_returns ndebug dt STATE_INFO Hwf) as [lc Hlc].
  pose proof (get_latest_frame_latest _ _ _ _ Hwf Hlp) as Sp.
  pose proof (get_latest_frame_latest _ _ _ _ Hwf Hlc) as Sc.
  unfold predict_next_frame. rewrite Hlp, Hlc. rewrite ?bind_Ok; cbv beta.
  assert (HB : exists d,
    (if is_null lp && is_null lc then
       do_clean_slate_frame ndebug dt now_ns now2_ns
     else if same_frame lc lp then
       lc' ← deref dt lc;
       walk_forward_through_frames ndebug (walk_fuel dt now_ns) dt
         (earliest_present_time_ns lc') now_ns
     else if negb (is_null lc) then
       _ ← c_assert ndebug (negb (is_null lp));
       lp' ← deref dt lp;
       lc' ← deref dt lc;
       _ ← c_assert ndebug (frame_id lc' <? frame_id lp');
       let diff_id := to_int64 (frame_id lp' - frame_id lc') in
       let adjusted_last_present_time_ns :=
         to_uint64 (earliest_present_time_ns lc'
                    + to_uint64 (diff_id * frame_period_ns dt)) in
       walk_forward_through_frames ndebug (walk_fuel dt now_ns) dt
         adjusted_last_present_time_ns now_ns
     else
       _ ← c_assert ndebug (negb (is_null lp));
       lp' ← deref dt lp;
       walk_forward_through_frames ndebug (walk_fuel dt now_ns) dt
         (predicted_display_time_ns lp') now_ns)
    = Ok (next_frame_id dt mod NUM_FRAMES, created dt f0 now_ns d)).
  { destruct lp as [jp|], lc as [jc|].
    - destruct (deref_latest _ _ _ _ _ Sp) as (kp & fp & Hkp & Hksp & Hfp & Hdp & Hjp & Hstp & Hbp).
      destruct (deref_latest _ _ _ _ _ Sc) as (kc & fc & Hkc & Hksc & Hfc & Hdc & Hjc & Hstc & Hbc).
      change (is_null (Some jp) && is_null (Some jc)) with false. cbv iota.
      destruct (same_frame (Some jc) (Some jp)) eqn:Hsame.
      + rewrite Hdc. rewrite ?bind_Ok; cbv beta.
        apply walk_forward_through_frames_returns; auto.
      + change (negb (is_null (Some jc))) with true. cbv iota.
        change (negb (is_null (Some jp))) with true.
        assert (Ha : c_assert ndebug true = Ok tt) by (destruct ndebug; reflexivity).
        rewrite Ha, Hdp, Hdc. rewrite ?bind_Ok; cbv beta.
        assert (Hb : c_assert ndebug (frame_id fc <? frame_id fp) = Ok tt).
        { destruct Hok as [->|Hok]; [reflexivity|].
          assert (kp < kc).
          { destruct (Z.lt_trichotomy kp kc) as [Hlt|[Heq|Hgt]]; [exact Hlt| |].
            - subst kc. simpl in Hsame. apply Z.eqb_neq in Hsame. congruence.
            - specialize (Hbp kc fc (conj (proj1 Hkc) Hgt) Hfc).
              simpl in *. lia. }
          rewrite (Hok kp fp Hkp Hksp Hfp), (Hok kc fc Hkc Hksc Hfc).
          unfold c_assert.
          destruct (Z.ltb_spec (next_frame_id dt - kc) (next_frame_id dt - kp));
            [destruct ndebug; reflexivity | lia]. }
        rewrite Hb. rewrite ?bind_Ok; cbv beta. cbv zeta.
        apply walk_forward_through_frames_returns; auto.
    - destruct (deref_latest _ _ _ _ _ Sp) as (kp & fp & Hkp & Hksp & Hfp & Hdp & Hjp & Hstp & Hbp).
      change (is_null (Some jp) && is_null None) with false. cbv iota.
      change (same_frame None (Some jp)) with false. cbv iota.
      change (negb (is_null None)) with false. cbv iota.
      change (negb (is_null (Some jp))) with true.
      assert (Ha : c_assert ndebug true = Ok tt) by (destruct ndebug; reflexivity).
      rewrite Ha, Hdp. rewrite ?bind_Ok; cbv beta.
      apply walk_forward_through_frames_returns; auto.
    - exfalso.
      destruct (deref_latest _ _ _ _ _ Sc) as (kc & fc & Hkc & Hksc & Hfc & Hdc & Hjc & Hstc & Hbc).
      simpl in Sp. specialize (Sp kc fc Hkc Hksc Hfc). simpl in *. lia.
    - change (is_null None && is_null None) with true. cbv iota.
      rewrite (do_clean_slate_frame_eq _ _ _ _ _ Hr Hf). eauto. }
  destruct HB as [d HB]. exists d. cbv zeta in HB. cbv zeta. rewrite HB.
  exact (predict_tail_eq dt f0 now_ns d (proj1 Hr)).
Qed.

(** X5: predictions return, in both builds.  On an engine with its 16
    ring slots, an id counter in [0, 2^63 - 1) and records that carry their
    own frame id, with a positive frame period and
    [now + app_time_ns + margin_ns + period] not wrapping, [dt_predict]
    returns (the loop of [walk_forward_through_frames] ends and no assertion
    stops it), and the engine it leaves again has records that carry their
    own id, so the next prediction returns as well. *)
Theorem dt_predict_returns ndebug dt now_ns now2_ns :
  dt_ready dt -> ring_ids_ok dt ->
  0 < frame_period_ns dt ->
  to_uint64 (now_ns + to_uint64 (app_time_ns dt + margin_ns dt)) + frame_period_ns dt
    < two64 ->
  exists fuel out dt',
    dt_predict ndebug fuel dt now_ns now2_ns = Ok (out, dt') /\
    out_frame_id out = next_frame_id dt /\
    ring_ids_ok dt' /\ dt_wf dt'.
Proof.
  intros Hr Hok Hp Hw. pose proof Hr as [Hlen Hid].
  destruct (slot_is_Some dt (next_frame_id dt) Hlen) as [f0 Hf].
  destruct (predict_next_frame_returns ndebug dt now_ns now2_ns f0 Hr Hf
              (or_intror Hok) Hp Hw) as [d Hd].
  exists (walk_fuel dt now_ns). unfold dt_predict. rewrite Hd. rewrite ?bind_Ok; cbv beta.
  rewrite (array_get_slot (frames (predicted dt f0 now_ns d)) (next_frame_id dt) _
             (set_frame_lookup (set_next_frame_id dt _) _ _ Hlen)).
  rewrite ?bind_Ok; cbv beta. eexists. eexists. split; [reflexivity|].
  split; [reflexivity|]. split; [apply ring_ids_ok_predicted; auto|].
  split; [simpl; rewrite length_insert; exact Hlen | simpl; lia].
Qed.

Lemma dt_predict_returns_witness :
  exists fuel out dt',
    dt_predict false fuel dt_60hz 1000000 1001000 = Ok (out, dt') /\
    out_frame_id out = next_frame_id dt_60hz /\
    ring_ids_ok dt' /\ dt_wf dt'.
Proof.
  apply (dt_predict_returns false dt_60hz 1000000 1001000).
  - split; [reflexivity | simpl; lia].
  - intros k f Hk Hks. simpl in Hks. lia.
  - simpl. lia.
  - vm_compute. reflexivity.
Defined.

(** *** A frame from prediction to feedback *)

(** The record a mark leaves. *)
Definition marked (point : u_timing_point) (f : frame) (when_ns : Z) : frame :=
  match point with
  | U_TIMING_POINT_WAKE_UP => set_when_woke_ns (set_state f STATE_WOKE) when_ns
  | U_TIMING_POINT_BEGIN => set_when_began_ns (set_state f STATE_BEGAN) when_ns
  | U_TIMING_POINT_SUBMIT => set_when_submitted_ns (set_state f STATE_SUBMITTED) when_ns
  | U_TIMING_POINT_other _ => f
  end.

(** The record [dt_info] leaves. *)
Definition infoed (f : frame) (actual earliest margin now_ns : Z) : frame :=
  set_state
    (set_present_margin_ns
       (set_earliest_present_time_ns
          (set_actual_present_time_ns (set_when_infoed_ns f now_ns) actual) earliest)
       margin) STATE_INFO.

Lemma dt_mark_point_eq ndebug dt point id when_ns f :
  0 <= id < 2 ^ 63 ->
  frames dt !! slot id = Some f ->
  required_state point = Some (state f) ->
  dt_mark_point ndebug dt point id when_ns =
  Ok (set_frame dt (id mod NUM_FRAMES) (marked point f when_ns)).
Proof.
  intros Hid Hf Hreq. unfold dt_mark_point.
  rewrite get_frame_nonneg by lia. rewrite bind_Ok.
  destruct point; simpl in Hreq; try discriminate;
    rewrite (array_get_slot _ _ _ Hf); rewrite bind_Ok;
    injection Hreq as <-; unfold c_assert; destruct ndebug; reflexivity.
Qed.

Lemma dt_info_eq ndebug dt id desired actual earliest margin now_ns f :
  dt_wf dt -> 0 <= id < 2 ^ 63 ->
  frames dt !! slot id = Some f ->
  state f = STATE_SUBMITTED ->
  dt_info ndebug dt id desired actual earliest margin now_ns =
  Ok (adjust_app_time
        (set_frame dt (id mod NUM_FRAMES) (infoed f actual earliest margin now_ns))
        (infoed f actual earliest margin now_ns)).
Proof.
  intros Hwf Hid Hf Hst. unfold dt_info.
  destruct (get_latest_frame_returns ndebug dt STATE_INFO Hwf) as [r ->].
  rewrite bind_Ok. rewrite get_frame_nonneg by lia. rewrite bind_Ok.
  rewrite (array_get_slot _ _ _ Hf). rewrite bind_Ok. rewrite Hst.
  unfold c_assert. destruct ndebug; reflexivity.
Qed.

Lemma dt_info_not_submitted dt id desired actual earliest margin now_ns f :
  dt_wf dt -> 0 <= id < 2 ^ 63 ->
  frames dt !! slot id = Some f ->
  state f <> STATE_SUBMITTED ->
  dt_info false dt id desired actual earliest margin now_ns = AssertFail.
Proof.
  intros Hwf Hid Hf Hst. unfold dt_info.
  destruct (get_latest_frame_returns false dt STATE_INFO Hwf) as [r ->].
  rewrite bind_Ok. rewrite get_frame_nonneg by lia. rewrite bind_Ok.
  rewrite (array_get_slot _ _ _ Hf). rewrite bind_Ok.
  rewrite (frame_state_eqb_neq _ _ Hst). reflexivity.
Qed.

Lemma set_frame_slot dt id f :
  length (frames dt) = Z.to_nat NUM_FRAMES ->
  frames (set_frame dt (id mod NUM_FRAMES) f) !! slot id = Some f /\
  length (frames (set_frame dt (id mod NUM_FRAMES) f)) = Z.to_nat NUM_FRAMES.
Proof.
  intros Hlen. split; [apply set_frame_lookup, Hlen|].
  simpl. rewrite length_insert. exact Hlen.
Qed.

(** X6: a frame goes from prediction to feedback without tripping an
    assertion.  After [dt_predict] has returned frame id [id], the marks
    [U_TIMING_POINT_WAKE_UP], [U_TIMING_POINT_BEGIN] and
    [U_TIMING_POINT_SUBMIT] and then [dt_info] for [id], in this order, all
    return, in both builds.  The record of the frame then is in [STATE_INFO],
    holds the four time stamps and the reported actual and earliest present
    times and present margin, and still holds the desired present time of the
    prediction: the one passed to [dt_info] is not stored.  A second
    [dt_info] for the same frame stops on the assertion in a debug build. *)
Theorem frame_life_cycle ndebug fuel dt now_ns now2_ns out dt1
    t_woke t_began t_submitted desired actual earliest margin t_info :
  dt_ready dt ->
  dt_predict ndebug fuel dt now_ns now2_ns = Ok (out, dt1) ->
  exists dt2 dt3 dt4 dt5 f,
    dt_mark_point ndebug dt1 U_TIMING_POINT_WAKE_UP (out_frame_id out) t_woke = Ok dt2 /\
    dt_mark_point ndebug dt2 U_TIMING_POINT_BEGIN (out_frame_id out) t_began = Ok dt3 /\
    dt_mark_point ndebug dt3 U_TIMING_POINT_SUBMIT (out_frame_id out) t_submitted
      = Ok dt4 /\
    dt_info ndebug dt4 (out_frame_id out) desired actual earliest margin t_info
      = Ok dt5 /\
    frames dt5 !! slot (out_frame_id out) = Some f /\
    state f = STATE_INFO /\ frame_id f = out_frame_id out /\
    desired_present_time_ns f = out_desired_present_time_ns out /\
    when_predict_ns f = now_ns /\ when_woke_ns f = t_woke /\
    when_began_ns f = t_began /\ when_submitted_ns f = t_submitted /\
    when_infoed_ns f = t_info /\
    actual_present_time_ns f = actual /\ earliest_present_time_ns f = earliest /\
    present_margin_ns f = margin /\
    dt_info false dt5 (out_frame_id out) desired actual earliest margin t_info
      = AssertFail.
Proof.
  intros Hr H. pose proof Hr as [Hlen Hid].
  destruct (dt_predict_shape _ _ _ _ _ _ _ Hr H) as (f0 & d & Hf & -> & -> & _).
  cbn [out_frame_id out_desired_present_time_ns].
  set (id := next_frame_id dt) in *.
  assert (Hidr : 0 <= id < 2 ^ 63) by (subst id; lia).
  unfold predicted. fold id.
  set (dt0 := set_next_frame_id dt (id + 1)).
  assert (Hlen0 : length (frames dt0) = Z.to_nat NUM_FRAMES) by exact Hlen.
  match goal with
  | |- context [set_frame dt0 (id mod NUM_FRAMES) ?f] => set (f1 := f)
  end.
  destruct (set_frame_slot dt0 id f1 Hlen0) as [Hf1 Hl1].
  rewrite (dt_mark_point_eq ndebug _ U_TIMING_POINT_WAKE_UP id t_woke f1 Hidr Hf1 eq_refl).
  rewrite set_frame_twice.
  set (f2 := marked U_TIMING_POINT_WAKE_UP f1 t_woke).
  destruct (set_frame_slot dt0 id f2 Hlen0) as [Hf2 Hl2].
  pose proof (dt_mark_point_eq ndebug _ U_TIMING_POINT_BEGIN id t_began f2 Hidr Hf2 eq_refl)
    as E2.
  rewrite set_frame_twice in E2.
  set (f3 := marked U_TIMING_POINT_BEGIN f2 t_began) in *.
  destruct (set_frame_slot dt0 id f3 Hlen0) as [Hf3 Hl3].
  pose proof (dt_mark_point_eq ndebug _ U_TIMING_POINT_SUBMIT id t_submitted f3 Hidr Hf3
                eq_refl) as E3.
  rewrite set_frame_twice in E3.
  set (f4 := marked U_TIMING_POINT_SUBMIT f3 t_submitted) in *.
  destruct (set_frame_slot dt0 id f4 Hlen0) as [Hf4 Hl4].
  assert (Hwf4 : dt_wf (set_frame dt0 (id mod NUM_FRAMES) f4))
    by (split; [exact Hl4 | simpl; subst id; lia]).
  pose proof (dt_info_eq ndebug _ id desired actual earliest margin t_info f4 Hwf4 Hidr
                Hf4 eq_refl) as E4.
  rewrite set_frame_twice in E4.
  set (f5 := infoed f4 actual earliest margin t_info) in *.
  destruct (set_frame_slot dt0 id f5 Hlen0) as [Hf5 Hl5].
  set (dt5 := adjust_app_time (set_frame dt0 (id mod NUM_FRAMES) f5) f5) in *.
  assert (Hfr5 : frames dt5 = frames (set_frame dt0 (id mod NUM_FRAMES) f5))
    by apply adjust_app_time_frames.
  exists (set_frame dt0 (id mod NUM_FRAMES) f2), (set_frame dt0 (id mod NUM_FRAMES) f3),
    (set_frame dt0 (id mod NUM_FRAMES) f4), dt5, f5.
  split; [reflexivity|]. split; [exact E2|]. split; [exact E3|]. split; [exact E4|].
  split; [rewrite Hfr5; exact Hf5|].
  repeat (split; [reflexivity|]).
  apply (dt_info_not_submitted dt5 id desired actual earliest margin t_info f5).
  - split; [rewrite Hfr5; exact Hl5|].
    unfold dt5, adjust_app_time.
    repeat match goal with |- context [if ?c then _ else _] => destruct c end;
      simpl; subst id; lia.
  - exact Hidr.
  - rewrite Hfr5. exact Hf5.
  - discriminate.
Qed.

(** The first prediction of a 60 Hz engine, at clock readings 1 ms and
    1.001 ms. *)
Definition out_60hz : predict_out :=
  mk_predict_out 0 165000994 167667660 500000 171667660 16666666 16666666.

Definition dt_60hz_predicted : display_timing :=
  predicted dt_60hz zero_frame 1000000 167667660.

Lemma frame_life_cycle_witness :
  exists dt2 dt3 dt4 dt5 f,
    dt_mark_point false dt_60hz_predicted U_TIMING_POINT_WAKE_UP
      (out_frame_id out_60hz) 165000000 = Ok dt2 /\
    dt_mark_point false dt2 U_TIMING_POINT_BEGIN (out_frame_id out_60hz) 165100000
      = Ok dt3 /\
    dt_mark_point false dt3 U_TIMING_POINT_SUBMIT (out_frame_id out_60hz) 166000000
      = Ok dt4 /\
    dt_info false dt4 (out_frame_id out_60hz) 0 167700000 167600000 1200000 170000000
      = Ok dt5 /\
    frames dt5 !! slot (out_frame_id out_60hz) = Some f /\
    state f = STATE_INFO /\ frame_id f = out_frame_id out_60hz /\
    desired_present_time_ns f = out_desired_present_time_ns out_60hz /\
    when_predict_ns f = 1000000 /\ when_woke_ns f = 165000000 /\
    when_began_ns f = 165100000 /\ when_submitted_ns f = 166000000 /\
    when_infoed_ns f = 170000000 /\
    actual_present_time_ns f = 167700000 /\ earliest_present_time_ns f = 167600000 /\
    present_margin_ns f = 1200000 /\
    dt_info false dt5 (out_frame_id out_60hz) 0 167700000 167600000 1200000 170000000
      = AssertFail.
Proof.
  apply (frame_life_cycle false 0 dt_60hz 1000000 1001000 out_60hz dt_60hz_predicted).
  - split; [reflexivity | simpl; lia].
  - vm_compute. reflexivity.
Defined.

(** X7: marks and feedback find the record by the frame id modulo 16 and
    do not compare the id stored in it: an id that differs by a multiple of
    16 from another acts on the same record in the same way, so a mark for a
    frame that is 16 ids old is applied to the frame that has taken its
    slot. *)
Theorem frame_id_modulo_ring ndebug dt point id n when_ns
    desired actual earliest margin now_ns :
  0 <= id -> 0 <= n -> id + NUM_FRAMES * n < 2 ^ 63 ->
  dt_mark_point ndebug dt point (id + NUM_FRAMES * n) when_ns
    = dt_mark_point ndebug dt point id when_ns /\
  dt_info ndebug dt (id + NUM_FRAMES * n) desired actual earliest margin now_ns
    = dt_info ndebug dt id desired actual earliest margin now_ns.
Proof.
  intros Hid Hn Hlt. unfold dt_mark_point, dt_info.
  assert (Hid' : 0 <= id < 2 ^ 63) by (unfold NUM_FRAMES in *; lia).
  rewrite (get_frame_nonneg ndebug (id + NUM_FRAMES * n))
    by (unfold NUM_FRAMES in *; lia).
  rewrite (get_frame_nonneg ndebug id) by exact Hid'.
  replace ((id + NUM_FRAMES * n) mod NUM_FRAMES) with (id mod NUM_FRAMES)
    by (rewrite Z.mul_comm, Z_mod_plus_full; reflexivity).
  split; reflexivity.
Qed.

Lemma frame_id_modulo_ring_witness :
  dt_mark_point false dt_60hz_predicted U_TIMING_POINT_WAKE_UP (0 + NUM_FRAMES * 1) 5
    = dt_mark_point false dt_60hz_predicted U_TIMING_POINT_WAKE_UP 0 5 /\
  dt_info false dt_60hz_predicted (0 + NUM_FRAMES * 1) 1 2 3 4 5
    = dt_info false dt_60hz_predicted 0 1 2 3 4 5.
Proof.
  apply (frame_id_modulo_ring false dt_60hz_predicted U_TIMING_POINT_WAKE_UP 0 1 5
           1 2 3 4 5); unfold NUM_FRAMES; lia.
Defined.

(** X8: feedback for a frame that was not presented late (the reported
    actual present time is not after the recorded desired one).  [dt_info]
    returns; the application time is unchanged when the reported present
    margin is within [adjust_non_miss_ns] of [margin_ns], is lowered by
    [adjust_non_miss_ns] when the margin is larger, and is raised by
    [adjust_non_miss_ns] when it is smaller, both modulo 2^64.  The raise is
    not limited by [app_time_max_ns]: that cap is applied on the miss path
    only. *)
Theorem dt_info_on_time_frame ndebug dt id desired actual earliest margin now_ns f :
  dt_wf dt -> 0 <= id < 2 ^ 63 ->
  frames dt !! Z.to_nat (id mod NUM_FRAMES) = Some f ->
  state f = STATE_SUBMITTED ->
  actual <= desired_present_time_ns f ->
  0 <= margin < 2 ^ 63 -> 0 <= margin_ns dt < 2 ^ 63 ->
  0 <= adjust_non_miss_ns dt < 2 ^ 63 ->
  exists dt',
    dt_info ndebug dt id desired actual earliest margin now_ns = Ok dt' /\
    (margin_ns dt - adjust_non_miss_ns dt < margin
       < margin_ns dt + adjust_non_miss_ns dt ->
     app_time_ns dt' = app_time_ns dt) /\
    (margin_ns dt + adjust_non_miss_ns dt <= margin ->
     app_time_ns dt' = to_uint64 (app_time_ns dt - adjust_non_miss_ns dt)) /\
    (margin <= margin_ns dt - adjust_non_miss_ns dt ->
     app_time_ns dt' = to_uint64 (app_time_ns dt + adjust_non_miss_ns dt) /\
     (app_time_max_ns dt < to_uint64 (app_time_ns dt + adjust_non_miss_ns dt) ->
      app_time_max_ns dt < app_time_ns dt')).
Proof.
  intros Hwf Hid Hf Hst Hact Hm Hmd Ha.
  rewrite (dt_info_eq ndebug dt id desired actual earliest margin now_ns f Hwf Hid Hf Hst).
  eexists. split; [reflexivity|].
  unfold adjust_app_time.
  assert (Hmiss : frame_missed (infoed f actual earliest margin now_ns) = false).
  { unfold frame_missed. cbn [infoed desired_present_time_ns actual_present_time_ns
      set_state set_present_margin_ns set_earliest_present_time_ns
      set_actual_present_time_ns set_when_infoed_ns].
    destruct (Z.ltb_spec (desired_present_time_ns f) actual); [lia | reflexivity]. }
  rewrite Hmiss.
  cbn [infoed present_margin_ns set_state set_present_margin_ns].
  change (margin_ns (set_frame dt (id mod NUM_FRAMES)
                       (infoed f actual earliest margin now_ns))) with (margin_ns dt).
  change (adjust_non_miss_ns (set_frame dt (id mod NUM_FRAMES)
                       (infoed f actual earliest margin now_ns)))
    with (adjust_non_miss_ns dt).
  rewrite is_within_of_each_other_spec by lia.
  destruct (Z.ltb_spec (- adjust_non_miss_ns dt) (margin - margin_ns dt));
    destruct (Z.ltb_spec (margin - margin_ns dt) (adjust_non_miss_ns dt));
    destruct (Z.ltb_spec (margin_ns dt) margin);
    cbn [andb app_time_ns set_app_time_ns set_frame set_frames];
    repeat split; intros; try lia; try reflexivity;
    try (replace (adjust_non_miss_ns dt) with 0 by lia;
         rewrite ?Z.add_0_r, ?Z.sub_0_r; reflexivity).
Qed.

Lemma dt_info_on_time_frame_witness :
  exists dt',
    dt_info false (dt_60hz_submitted 167667660) 0 0 167600000 167600000 500000 170000000
      = Ok dt' /\
    (margin_ns (dt_60hz_submitted 167667660)
       - adjust_non_miss_ns (dt_60hz_submitted 167667660) < 500000
       < margin_ns (dt_60hz_submitted 167667660)
         + adjust_non_miss_ns (dt_60hz_submitted 167667660) ->
     app_time_ns dt' = app_time_ns (dt_60hz_submitted 167667660)) /\
    (margin_ns (dt_60hz_submitted 167667660)
       + adjust_non_miss_ns (dt_60hz_submitted 167667660) <= 500000 ->
     app_time_ns dt'
     = to_uint64 (app_time_ns (dt_60hz_submitted 167667660)
                  - adjust_non_miss_ns (dt_60hz_submitted 167667660))) /\
    (500000 <= margin_ns (dt_60hz_submitted 167667660)
               - adjust_non_miss_ns (dt_60hz_submitted 167667660) ->
     app_time_ns dt'
     = to_uint64 (app_time_ns (dt_60hz_submitted 167667660)
                  + adjust_non_miss_ns (dt_60hz_submitted 167667660)) /\
     (app_time_max_ns (dt_60hz_submitted 167667660)
        < to_uint64 (app_time_ns (dt_60hz_submitted 167667660)
                     + adjust_non_miss_ns (dt_60hz_submitted 167667660)) ->
      app_time_max_ns (dt_60hz_submitted 167667660) < app_time_ns dt')).
Proof.
  apply (dt_info_on_time_frame false (dt_60hz_submitted 167667660) 0 0 167600000
           167600000 500000 170000000 (submitted_frame 167667660)).
  - split; [reflexivity | simpl; lia].
  - lia.
  - reflexivity.
  - reflexivity.
  - simpl. lia.
  - lia.
  - vm_compute. split; [discriminate | reflexivity].
  - vm_compute. split; [discriminate | reflexivity].
Defined.

(** X9: a mark and a feedback sample touch the addressed record only.
    Whenever [dt_mark_point] returns, every other slot of the ring, the id
    counter and all controller values are as before; whenever [dt_info]
    returns, the same holds except for [app_time_ns]. *)
Theorem mark_and_info_touch_one_record ndebug dt :
  (forall point id when_ns dt',
     dt_mark_point ndebug dt point id when_ns = Ok dt' ->
     (forall j, j <> Z.to_nat (to_uint64 (Z.rem id NUM_FRAMES)) ->
        frames dt' !! j = frames dt !! j) /\
     length (frames dt') = length (frames dt) /\
     set_frames dt' (frames dt) = dt) /\
  (forall id desired actual earliest margin now_ns dt',
     dt_info ndebug dt id desired actual earliest margin now_ns = Ok dt' ->
     (forall j, j <> Z.to_nat (to_uint64 (Z.rem id NUM_FRAMES)) ->
        frames dt' !! j = frames dt !! j) /\
     length (frames dt') = length (frames dt) /\
     set_app_time_ns (set_frames dt' (frames dt)) (app_time_ns dt) = dt).
Proof.
  assert (Hg : forall id i,
             get_frame ndebug id = Ok i -> i = to_uint64 (Z.rem id NUM_FRAMES)).
  { intros id i H. unfold get_frame in H. step_binds H. congruence. }
  split.
  - intros point id when_ns dt' H. unfold dt_mark_point in H.
    destruct (get_frame ndebug id) as [i| | |] eqn:Hi; simpl in H; try discriminate.
    apply Hg in Hi. subst i.
    destruct point; step_binds H; injection H as <-;
      (split; [intros j Hj; simpl; try reflexivity;
               apply list_lookup_insert_ne; congruence|]);
      (split; [simpl; try reflexivity; apply length_insert|]);
      destruct dt; reflexivity.
  - intros id desired actual earliest margin now_ns dt' H.
    unfold dt_info in H.
    destruct (get_latest_frame_with_state_at_least ndebug dt STATE_INFO);
      simpl in H; try discriminate.
    destruct (get_frame ndebug id) as [i| | |] eqn:Hi; simpl in H; try discriminate.
    apply Hg in Hi. subst i.
    step_binds H. injection H as <-.
    rewrite adjust_app_time_frames.
    split; [intros j Hj; simpl; apply list_lookup_insert_ne; congruence|].
    split; [simpl; apply length_insert|].
    unfold adjust_app_time.
    repeat match goal with |- context [if ?c then _ else _] => destruct c end;
      destruct dt; reflexivity.
Qed.

(** *** The time a prediction starts from *)

Lemma latest_is_previous ndebug dt st f :
  dt_wf dt -> 1 <= next_frame_id dt ->
  frames dt !! slot (next_frame_id dt - 1) = Some f ->
  frame_state_value st <= frame_state_value (state f) ->
  get_latest_frame_with_state_at_least ndebug dt st
  = Ok (Some ((next_frame_id dt - 1) mod NUM_FRAMES)).
Proof.
  intros Hwf Hid Hf Hst.
  destruct (get_latest_frame_returns ndebug dt st Hwf) as [r Hr].
  pose proof (get_latest_frame_latest _ _ _ _ Hwf Hr) as H.
  rewrite Hr. destruct r as [i|]; simpl in H.
  - destruct H as (k & g & Hk & Hks & -> & Hg & Hge & Hb).
    destruct (Z.eq_dec k 1) as [->|Hne]; [reflexivity|].
    specialize (Hb 1 f). unfold NUM_FRAMES in *.
    assert (frame_state_value (state f) < frame_state_value st)
      by (apply Hb; [lia | exact Hf]).
    lia.
  - specialize (H 1 f). unfold NUM_FRAMES in *.
    assert (frame_state_value (state f) < frame_state_value st)
      by (apply H; [lia | lia | exact Hf]).
    lia.
Qed.

Lemma latest_is_none ndebug dt st :
  dt_wf dt ->
  (forall k' f', 1 <= k' < NUM_FRAMES -> k' <= next_frame_id dt ->
     frames dt !! slot (next_frame_id dt - k') = Some f' ->
     frame_state_value (state f') < frame_state_value st) ->
  get_latest_frame_with_state_at_least ndebug dt st = Ok None.
Proof.
  intros Hwf Hnone.
  destruct (get_latest_frame_returns ndebug dt st Hwf) as [r Hr].
  pose proof (get_latest_frame_latest _ _ _ _ Hwf Hr) as H.
  rewrite Hr. destruct r as [i|]; [|reflexivity]. simpl in H.
  destruct H as (k & g & Hk & Hks & -> & Hg & Hge & Hb).
  specialize (Hnone k g Hk Hks Hg). lia.
Qed.

Lemma walk_forward_through_frames_first ndebug dt last now_ns f0 :
  dt_ready dt -> frames dt !! slot (next_frame_id dt) = Some f0 ->
  0 < frame_period_ns dt ->
  0 <= last -> last + frame_period_ns dt < two64 ->
  to_uint64 (now_ns + calc_total_app_time dt) + frame_period_ns dt < two64 ->
  exists k,
    1 <= k /\
    to_uint64 (now_ns + calc_total_app_time dt) < last + k * frame_period_ns dt /\
    (k = 1 \/ last + k * frame_period_ns dt - frame_period_ns dt
              <= to_uint64 (now_ns + calc_total_app_time dt)) /\
    walk_forward_through_frames ndebug (walk_fuel dt now_ns) dt last now_ns =
    Ok (next_frame_id dt mod NUM_FRAMES,
        created dt f0 now_ns (last + k * frame_period_ns dt)).
Proof.
  intros Hr Hf Hp Hl Hlw Hw.
  destruct (walk_forward_through_frames_returns ndebug dt last now_ns f0 Hr Hf Hp Hw)
    as [d Hd].
  pose proof Hd as Hd'.
  rewrite (walk_forward_through_frames_eq _ _ _ _ _ _ Hr Hf) in Hd'.
  destruct (walk_loop _ _ _ _) as [d'| | |] eqn:Hloop; simpl in Hd'; try discriminate.
  assert (d' = d).
  { injection Hd' as Hc.
    apply (f_equal (fun l => l !! slot (next_frame_id dt))) in Hc.
    unfold slot in Hc.
    rewrite !list_lookup_insert_eq in Hc by (apply slot_lt, Hr).
    injection Hc as Hc. exact Hc. }
  subst d'.
  rewrite (to_uint64_small (last + frame_period_ns dt)) in Hloop
    by (unfold is_uint64; lia).
  pose proof (walk_loop_gt _ _ _ _ _ Hloop) as Hgt.
  assert (H0 : 0 <= last + frame_period_ns dt) by lia.
  destruct (walk_loop_first _ _ Hp Hw _ _ _ H0 Hloop) as (k & Hk & Hdk & Hor).
  subst d.
  exists (k + 1). split; [lia|].
  replace (last + (k + 1) * frame_period_ns dt)
    with (last + frame_period_ns dt + k * frame_period_ns dt) by lia.
  split; [exact Hgt|]. split; [|exact Hd].
  destruct Hor as [->|Hor]; [left; reflexivity | right; lia].
Qed.

(** X10: where a prediction starts from.  Let the frame handed out last
    (id [next_frame_id - 1]) have a record at or past [STATE_PREDICTED].  If
    that record already has its feedback, the prediction walks forward from
    its earliest present time; if no record of the last 15 ids has feedback,
    it walks forward from the predicted display time of that record, which
    is its desired present time plus the present offset.  In both cases, with
    a positive period and no wrap-around, [dt_predict] returns in both builds
    and the desired present time is the start plus the least positive number
    of periods that puts it strictly after
    [now + app_time_ns + margin_ns]. *)
Theorem dt_predict_walks_forward ndebug dt now_ns now2_ns f base :
  dt_ready dt -> 1 <= next_frame_id dt ->
  frames dt !! Z.to_nat ((next_frame_id dt - 1) mod NUM_FRAMES) = Some f ->
  frame_state_value STATE_PREDICTED <= frame_state_value (state f) ->
  (state f = STATE_INFO /\ base = earliest_present_time_ns f) \/
  ((forall k' f', 1 <= k' < NUM_FRAMES -> k' <= next_frame_id dt ->
      frames dt !! Z.to_nat ((next_frame_id dt - k') mod NUM_FRAMES) = Some f' ->
      frame_state_value (state f') < frame_state_value STATE_INFO) /\
   base = predicted_display_time_ns f) ->
  0 < frame_period_ns dt ->
  0 <= base -> base + frame_period_ns dt < two64 ->
  to_uint64 (now_ns + to_uint64 (app_time_ns dt + margin_ns dt)) + frame_period_ns dt
    < two64 ->
  exists fuel out dt' k,
    dt_predict ndebug fuel dt now_ns now2_ns = Ok (out, dt') /\
    1 <= k /\
    out_desired_present_time_ns out = base + k * frame_period_ns dt /\
    to_uint64 (now_ns + to_uint64 (app_time_ns dt + margin_ns dt))
      < out_desired_present_time_ns out /\
    (k = 1 \/ out_desired_present_time_ns out - frame_period_ns dt
              <= to_uint64 (now_ns + to_uint64 (app_time_ns dt + margin_ns dt))).
Proof.
  intros Hr Hid Hf Hst Hcase Hp Hb Hbw Hw.
  pose proof (dt_ready_wf _ Hr) as Hwf. pose proof Hr as [Hlen _].
  destruct (slot_is_Some dt (next_frame_id dt) Hlen) as [f0 Hf0].
  destruct (walk_forward_through_frames_first ndebug dt base now_ns f0 Hr Hf0 Hp Hb Hbw Hw)
    as (k & Hk & Hgt & Hor & Hwalk).
  exists (walk_fuel dt now_ns).
  assert (Hpn : predict_next_frame ndebug (walk_fuel dt now_ns) dt now_ns now2_ns =
                Ok (next_frame_id dt mod NUM_FRAMES,
                    predicted dt f0 now_ns (base + k * frame_period_ns dt))).
  { unfold predict_next_frame.
    rewrite (latest_is_previous ndebug dt STATE_PREDICTED f Hwf Hid Hf Hst).
    rewrite bind_Ok.
    assert (Hderef : deref dt (Some ((next_frame_id dt - 1) mod NUM_FRAMES)) = Ok f)
      by (apply array_get_slot, Hf).
    assert (Ha : c_assert ndebug true = Ok tt) by (destruct ndebug; reflexivity).
    destruct Hcase as [[Hinfo ->]|[Hnone ->]].
    - rewrite (latest_is_previous ndebug dt STATE_INFO f Hwf Hid Hf)
        by (rewrite Hinfo; reflexivity).
      rewrite bind_Ok.
      change (is_null (Some ((next_frame_id dt - 1) mod NUM_FRAMES))) with false.
      cbn [andb]. cbv iota.
      unfold same_frame. rewrite Z.eqb_refl. cbv iota.
      rewrite Hderef, bind_Ok, Hwalk.
      exact (predict_tail_eq dt f0 now_ns _ Hlen).
    - rewrite (latest_is_none ndebug dt STATE_INFO Hwf Hnone).
      rewrite bind_Ok.
      change (is_null (Some ((next_frame_id dt - 1) mod NUM_FRAMES))) with false.
      change (is_null None) with true.
      cbn [andb same_frame negb]. cbv iota.
      rewrite Ha, bind_Ok, Hderef, bind_Ok, Hwalk.
      exact (predict_tail_eq dt f0 now_ns _ Hlen). }
  unfold dt_predict. rewrite Hpn, bind_Ok.
  rewrite (array_get_slot (frames (predicted dt f0 now_ns _)) (next_frame_id dt) _
             (set_frame_lookup (set_next_frame_id dt _) _ _ Hlen)).
  rewrite bind_Ok. eexists. eexists. exists k.
  split; [reflexivity|]. split; [exact Hk|]. split; [reflexivity|].
  split; [exact Hgt | exact Hor].
Qed.

Lemma dt_predict_walks_forward_witness :
  exists fuel out dt' k,
    dt_predict false fuel dt_60hz_predicted 2000000 2000001 = Ok (out, dt') /\
    1 <= k /\
    out_desired_present_time_ns out = 171667660 + k * frame_period_ns dt_60hz_predicted /\
    to_uint64 (2000000 + to_uint64 (app_time_ns dt_60hz_predicted
                                    + margin_ns dt_60hz_predicted))
      < out_desired_present_time_ns out /\
    (k = 1 \/ out_desired_present_time_ns out - frame_period_ns dt_60hz_predicted
              <= to_uint64 (2000000 + to_uint64 (app_time_ns dt_60hz_predicted
                                                 + margin_ns dt_60hz_predicted))).
Proof.
  apply (dt_predict_walks_forward false dt_60hz_predicted 2000000 2000001
           (mk_frame 0 1000000 165000994 0 0 0 0 1666666 0 167667660
              171667660 0 0 0 STATE_PREDICTED) 171667660).
  - split; [reflexivity | simpl; lia].
  - simpl. lia.
  - reflexivity.
  - simpl. lia.
  - right. split; [|reflexivity].
    intros k' f' Hk Hks. simpl in Hks. assert (k' = 1) as -> by lia.
    intros [= <-]. simpl. lia.
  - simpl. lia.
  - lia.
  - vm_compute. reflexivity.
  - vm_compute. reflexivity.
Defined.

End DisplayTimingPredictFacts.

(** ** Render-timing helper: frames in flight *)

Module RenderTimingLifeCycle.
Import CInt CIntFacts ResultFacts RenderTiming RenderTimingFacts.

(** The ring slot of a frame id. *)
Definition slot_of (urth : u_rt_helper) (id : Z) : Z :=
  to_uint64 id mod array_size urth.

(** A slot that no frame occupies. *)
Definition is_free (f : u_rt_frame) : bool :=
  (frame_id f =? -1) && u_rt_state_eqb (state f) U_RT_READY.

Definition free_slots (urth : u_rt_helper) : nat :=
  length (List.filter is_free (frames urth)).

Lemma filter_insert_length {A} (p : A -> bool) (x y : A) :
  forall (l : list A) (i : nat),
    l !! i = Some y ->
    (length (List.filter p (<[i:=x]> l)) + (if p y then 1 else 0)
     = length (List.filter p l) + (if p x then 1 else 0))%nat.
Proof.
  induction l as [|a l IH]; intros [|i] H; simpl in *; try discriminate.
  - injection H as ->. destruct (p x), (p y); simpl; lia.
  - specialize (IH i H). destruct (p a); simpl; lia.
Qed.

Lemma u_rt_state_eqb_eq a b : u_rt_state_eqb a b = true <-> a = b.
Proof. destruct a, b; simpl; split; intros; congruence. Qed.

Lemma array_get_slot_of (urth : u_rt_helper) i f :
  array_get (frames urth) i = Ok f -> frames urth !! Z.to_nat i = Some f.
Proof. intros H. apply array_get_Ok in H. tauto. Qed.

(** The helper a prediction leaves and what it hands out. *)
Lemma u_rt_helper_predict_shape ndebug fuel urth now_ns now2_ns out urth1 :
  u_rt_helper_predict ndebug fuel urth now_ns now2_ns = Ok (out, urth1) ->
  forall id, id = to_int64 (frame_counter urth + 1) ->
  exists f v,
    array_get (frames urth) (slot_of urth id) = Ok f /\
    (ndebug = false -> is_free f = true) /\
    out = mk_predict_out id v (to_uint64 (v - period urth)) (period urth) (period urth) /\
    urth1 = mk_u_rt_helper
              (<[Z.to_nat (slot_of urth id) :=
                   mk_u_rt_frame now2_ns (wait_woke f) (begin f) (end_frame f) id
                     U_RT_PREDICTED]> (frames urth))
              id (last_input urth) (extra urth) (period urth) v.
Proof.
  unfold u_rt_helper_predict. intros H id ->.
  set (id := to_int64 (frame_counter urth + 1)) in *.
  cbv zeta in H. fold (slot_of urth id) in H.
  destruct (get_last_input_plus_period_at_least_greater_then _ _ _ _) as [v| | |];
    simpl in H; try discriminate.
  destruct (array_get (frames urth) (slot_of urth id)) as [f| | |] eqn:Hf;
    simpl in H; try discriminate.
  destruct (c_assert ndebug (frame_id f =? -1)) eqn:H1; simpl in H; try discriminate.
  destruct (c_assert ndebug (u_rt_state_eqb (state f) U_RT_READY)) eqn:H2;
    simpl in H; try discriminate.
  injection H as <- <-. exists f, v. repeat split.
  intros ->. apply c_assert_debug_Ok in H1, H2. unfold is_free.
  rewrite H1, H2. reflexivity.
Qed.

(** Storing a record in the slot of a frame id. *)
Definition put (urth : u_rt_helper) (id : Z) (g : u_rt_frame) : u_rt_helper :=
  set_frames urth (<[Z.to_nat (slot_of urth id) := g]> (frames urth)).

Lemma slot_of_put urth id g id' : slot_of (put urth id g) id' = slot_of urth id'.
Proof. unfold slot_of, put, array_size. simpl. rewrite length_insert. reflexivity. Qed.

Lemma put_get urth id f g :
  array_get (frames urth) (slot_of urth id) = Ok f ->
  array_get (frames (put urth id g)) (slot_of (put urth id g) id) = Ok g.
Proof.
  intros H. rewrite slot_of_put. apply array_get_Ok in H as [Hi Hf].
  apply array_get_Ok. split; [exact Hi|]. unfold put. simpl.
  apply list_lookup_insert_eq. eapply lookup_lt_Some, Hf.
Qed.

Lemma put_put urth id g h : put (put urth id g) id h = put urth id h.
Proof.
  unfold put at 1. rewrite slot_of_put. unfold put, set_frames. simpl.
  rewrite list_insert_insert_eq. reflexivity.
Qed.

Lemma u_rt_helper_mark_wait_woke_eq ndebug urth id now_ns f :
  array_get (frames urth) (slot_of urth id) = Ok f ->
  frame_id f = id -> state f = U_RT_PREDICTED ->
  u_rt_helper_mark_wait_woke ndebug urth id now_ns =
  Ok (put urth id
        (mk_u_rt_frame (predicted f) now_ns (begin f) (end_frame f) id U_RT_WAIT_LEFT)).
Proof.
  intros Hf Hid Hst. unfold u_rt_helper_mark_wait_woke. fold (slot_of urth id).
  cbv zeta. rewrite Hf, bind_Ok, Hid, Hst, Z.eqb_refl. cbn [u_rt_state_eqb].
  rewrite c_assert_true, !bind_Ok. reflexivity.
Qed.

Lemma u_rt_helper_mark_begin_eq ndebug urth id now_ns f :
  array_get (frames urth) (slot_of urth id) = Ok f ->
  frame_id f = id -> state f = U_RT_WAIT_LEFT ->
  u_rt_helper_mark_begin ndebug urth id now_ns =
  Ok (put urth id
        (mk_u_rt_frame (predicted f) (wait_woke f) now_ns (end_frame f) id U_RT_BEGUN)).
Proof.
  intros Hf Hid Hst. unfold u_rt_helper_mark_begin. fold (slot_of urth id).
  cbv zeta. rewrite Hf, bind_Ok, Hid, Hst, Z.eqb_refl. cbn [u_rt_state_eqb].
  rewrite c_assert_true, !bind_Ok. reflexivity.
Qed.

Lemma u_rt_helper_mark_delivered_eq ndebug urth id now_ns f :
  array_get (frames urth) (slot_of urth id) = Ok f ->
  frame_id f = id -> state f = U_RT_BEGUN ->
  u_rt_helper_mark_delivered ndebug urth id now_ns =
  Ok (put urth id
        (mk_u_rt_frame (predicted f) (wait_woke f) (begin f) now_ns (-1) U_RT_READY)).
Proof.
  intros Hf Hid Hst. unfold u_rt_helper_mark_delivered. fold (slot_of urth id).
  cbv zeta. rewrite Hf, bind_Ok, Hid, Hst, Z.eqb_refl. cbn [u_rt_state_eqb].
  rewrite c_assert_true, !bind_Ok. reflexivity.
Qed.

Lemma u_rt_helper_mark_discarded_eq ndebug urth id now_ns f :
  array_get (frames urth) (slot_of urth id) = Ok f ->
  frame_id f = id -> state f = U_RT_WAIT_LEFT \/ state f = U_RT_BEGUN ->
  u_rt_helper_mark_discarded ndebug urth id now_ns =
  Ok (put urth id
        (mk_u_rt_frame (predicted f) (wait_woke f) (begin f) now_ns (-1) U_RT_READY)).
Proof.
  intros Hf Hid Hst. unfold u_rt_helper_mark_discarded. fold (slot_of urth id).
  cbv zeta. rewrite Hf, bind_Ok, Hid, Z.eqb_refl.
  destruct Hst as [-> | ->]; cbn [u_rt_state_eqb orb];
    rewrite c_assert_true, !bind_Ok; reflexivity.
Qed.

(** *** From prediction to delivery *)

(** X11: a frame goes from prediction to delivery without tripping an
    assertion and gives its slot back.  After [u_rt_helper_predict] has
    returned frame id [id], [u_rt_helper_mark_wait_woke],
    [u_rt_helper_mark_begin] and [u_rt_helper_mark_delivered] for [id], in this
    order, all return, in both builds; [u_rt_helper_mark_discarded] returns
    as well after either of the first two.  After the delivery and after
    either discard the slot is free again (frame id -1, [U_RT_READY]) and
    holds the time stamps; every other slot is as it was before the
    prediction, and the helper still records the id and the time it handed
    out. *)
Theorem u_rt_frame_life_cycle ndebug fuel urth now_ns now2_ns out urth1
    t_woke t_begin t_end :
  u_rt_helper_predict ndebug fuel urth now_ns now2_ns = Ok (out, urth1) ->
  exists urth2 urth3 urth4 urth2' urth3' f,
    u_rt_helper_mark_wait_woke ndebug urth1 (out_frame_id out) t_woke = Ok urth2 /\
    u_rt_helper_mark_begin ndebug urth2 (out_frame_id out) t_begin = Ok urth3 /\
    u_rt_helper_mark_delivered ndebug urth3 (out_frame_id out) t_end = Ok urth4 /\
    u_rt_helper_mark_discarded ndebug urth2 (out_frame_id out) t_end = Ok urth2' /\
    u_rt_helper_mark_discarded ndebug urth3 (out_frame_id out) t_end = Ok urth3' /\
    frames urth4 !! Z.to_nat (slot_of urth (out_frame_id out)) = Some f /\
    is_free f = true /\
    predicted f = now2_ns /\ wait_woke f = t_woke /\ begin f = t_begin /\
    end_frame f = t_end /\
    is_free <$> frames urth2' !! Z.to_nat (slot_of urth (out_frame_id out)) = Some true /\
    frames urth3' = frames urth4 /\
    (forall j, j <> Z.to_nat (slot_of urth (out_frame_id out)) ->
       frames urth4 !! j = frames urth !! j) /\
    frame_counter urth4 = out_frame_id out /\
    last_returned urth4 = predicted_display_time out.
Proof.
  intros H. destruct (u_rt_helper_predict_shape _ _ _ _ _ _ _ H _ eq_refl)
    as (f & v & Hf & _ & -> & ->).
  cbn [out_frame_id predicted_display_time].
  set (id := to_int64 (frame_counter urth + 1)) in *.
  set (u0 := mk_u_rt_helper (frames urth) id (last_input urth) (extra urth)
               (period urth) v).
  assert (Hf0 : array_get (frames u0) (slot_of u0 id) = Ok f) by exact Hf.
  set (f1 := mk_u_rt_frame now2_ns (wait_woke f) (begin f) (end_frame f) id
               U_RT_PREDICTED).
  change (mk_u_rt_helper _ id (last_input urth) (extra urth) (period urth) v)
    with (put u0 id f1).
  pose proof (put_get u0 id f f1 Hf0) as Hf1.
  pose proof (u_rt_helper_mark_wait_woke_eq ndebug _ id t_woke f1 Hf1 eq_refl eq_refl)
    as E1.
  rewrite put_put in E1. cbn [predicted begin end_frame f1] in E1.
  set (f2 := mk_u_rt_frame now2_ns t_woke (begin f) (end_frame f) id U_RT_WAIT_LEFT)
    in E1.
  pose proof (put_get u0 id f f2 Hf0) as Hf2.
  pose proof (u_rt_helper_mark_begin_eq ndebug _ id t_begin f2 Hf2 eq_refl eq_refl) as E2.
  rewrite put_put in E2. cbn [predicted wait_woke end_frame f2] in E2.
  set (f3 := mk_u_rt_frame now2_ns t_woke t_begin (end_frame f) id U_RT_BEGUN) in E2.
  pose proof (put_get u0 id f f3 Hf0) as Hf3.
  pose proof (u_rt_helper_mark_delivered_eq ndebug _ id t_end f3 Hf3 eq_refl eq_refl)
    as E3.
  rewrite put_put in E3. cbn [predicted wait_woke begin f3] in E3.
  pose proof (u_rt_helper_mark_discarded_eq ndebug _ id t_end f2 Hf2 eq_refl
                (or_introl eq_refl)) as D2.
  rewrite put_put in D2. cbn [predicted wait_woke begin f2] in D2.
  pose proof (u_rt_helper_mark_discarded_eq ndebug _ id t_end f3 Hf3 eq_refl
                (or_intror eq_refl)) as D3.
  rewrite put_put in D3. cbn [predicted wait_woke begin f3] in D3.
  eexists. eexists. eexists. eexists. eexists. eexists.
  split; [exact E1|]. split; [exact E2|]. split; [exact E3|].
  split; [exact D2|]. split; [exact D3|].
  apply array_get_Ok in Hf as [Hi0 Hf].
  pose proof (lookup_lt_Some _ _ _ Hf) as Hlt.
  change (slot_of u0 id) with (slot_of urth id) in *.
  unfold put. cbn [frames set_frames u0 frame_counter last_returned].
  change (slot_of u0 id) with (slot_of urth id).
  rewrite !list_lookup_insert_eq by exact Hlt.
  split; [reflexivity|]. repeat (split; [reflexivity|]).
  split; [|split; reflexivity].
  intros j Hj. apply list_lookup_insert_ne. congruence.
Qed.

Lemma u_rt_frame_life_cycle_witness :
  exists urth2 urth3 urth4 urth2' urth3' f,
    u_rt_helper_mark_wait_woke false urth_after_first
      (out_frame_id (mk_predict_out 1 1000 900 100 100)) 960 = Ok urth2 /\
    u_rt_helper_mark_begin false urth2
      (out_frame_id (mk_predict_out 1 1000 900 100 100)) 965 = Ok urth3 /\
    u_rt_helper_mark_delivered false urth3
      (out_frame_id (mk_predict_out 1 1000 900 100 100)) 990 = Ok urth4 /\
    u_rt_helper_mark_discarded false urth2
      (out_frame_id (mk_predict_out 1 1000 900 100 100)) 990 = Ok urth2' /\
    u_rt_helper_mark_discarded false urth3
      (out_frame_id (mk_predict_out 1 1000 900 100 100)) 990 = Ok urth3' /\
    frames urth4
      !! Z.to_nat (slot_of urth_sampled (out_frame_id (mk_predict_out 1 1000 900 100 100)))
      = Some f /\
    is_free f = true /\
    predicted f = 951 /\ wait_woke f = 960 /\ begin f = 965 /\
    end_frame f = 990 /\
    is_free <$> frames urth2'
      !! Z.to_nat (slot_of urth_sampled (out_frame_id (mk_predict_out 1 1000 900 100 100)))
      = Some true /\
    frames urth3' = frames urth4 /\
    (forall j,
       j <> Z.to_nat (slot_of urth_sampled
                        (out_frame_id (mk_predict_out 1 1000 900 100 100))) ->
       frames urth4 !! j = frames urth_sampled !! j) /\
    frame_counter urth4 = out_frame_id (mk_predict_out 1 1000 900 100 100) /\
    last_returned urth4 = predicted_display_time (mk_predict_out 1 1000 900 100 100).
Proof.
  apply (u_rt_frame_life_cycle false 4 urth_sampled 950 951).
  vm_compute. reflexivity.
Defined.

(** *** A helper that has not received a sample *)

Lemma plus_period_loop_zero_debug then_ns fuel :
  0 <= then_ns -> plus_period_loop false 0 then_ns (S fuel) 0 = AssertFail.
Proof.
  intros H. simpl. destruct (Z.leb_spec 0 then_ns); [reflexivity | lia].
Qed.

(** X12: a helper cannot predict before its first sample.
    [u_rt_helper_init] leaves [last_input] and [period] at zero, so the loop
    of [get_last_input_plus_period_at_least_greater_then] adds zero for ever:
    whatever the clock reads, [u_rt_helper_predict] on a newly initialised
    helper stops on [assert(val != 0)] in a debug build and never returns in
    a release build (every amount of fuel runs out).  After one call of
    [u_rt_helper_new_sample] with a positive period it returns. *)
Theorem u_rt_helper_predict_before_sample (n : nat) fuel now_ns now2_ns :
  0 <= now_ns ->
  u_rt_helper_predict false (S fuel) (u_rt_helper_init n) now_ns now2_ns = AssertFail /\
  u_rt_helper_predict true fuel (u_rt_helper_init n) now_ns now2_ns = OutOfFuel /\
  forall sample extra' p,
    (0 < n)%nat -> 0 < p -> 0 <= sample -> now_ns + p < two64 ->
    exists fuel' out urth',
      u_rt_helper_predict false fuel'
        (u_rt_helper_new_sample (u_rt_helper_init n) sample extra' p) now_ns now2_ns
      = Ok (out, urth') /\
      now_ns < predicted_display_time out.
Proof.
  intros Hn. unfold u_rt_helper_predict,
    get_last_input_plus_period_at_least_greater_then.
  change (last_returned (u_rt_helper_init n)) with 0.
  change (period (u_rt_helper_init n)) with 0.
  change (last_input (u_rt_helper_init n)) with 0.
  replace (now_ns <? 0) with false by (symmetry; apply Z.ltb_ge; lia).
  split; [|split].
  - rewrite plus_period_loop_zero_debug by exact Hn. reflexivity.
  - rewrite plus_period_loop_zero_period by (unfold is_uint64, two64; lia).
    reflexivity.
  - intros sample extra' p Hpos Hp Hs Hov.
    set (u := u_rt_helper_new_sample (u_rt_helper_init n) sample extra' p).
    assert (Hlen : length (RenderTiming.frames u) = n).
    { unfold u. simpl. rewrite length_map, length_replicate. reflexivity. }
    assert (Hsize : 0 < array_size u) by (unfold array_size; rewrite Hlen; lia).
    pose proof (Z.mod_pos_bound 1 (array_size u) Hsize) as Hb.
    destruct (lookup_lt_is_Some_2 (RenderTiming.frames u) (Z.to_nat (1 mod array_size u)))
      as [f Hf].
    { unfold array_size in *. lia. }
    assert (Hfree : frame_id f = -1 /\ state f = U_RT_READY).
    { unfold u in Hf. simpl in Hf.
      apply list_lookup_fmap_Some in Hf as (g & -> & _). auto. }
    destruct (u_rt_helper_predict_returns false u now_ns now2_ns f) as
      (fuel' & out & urth' & Hp' & Hrange & _).
    + exact Hp.
    + exact Hs.
    + change (last_returned u) with 0. change (period u) with p. lia.
    + change (frame_counter u) with 0. lia.
    + exact Hf.
    + right. exact Hfree.
    + exists fuel', out, urth'. split; [exact Hp'|].
      change (last_returned u) with 0 in Hrange. lia.
Qed.

Lemma u_rt_helper_predict_before_sample_witness :
  u_rt_helper_predict false 1 (u_rt_helper_init 2) 950 951 = AssertFail /\
  u_rt_helper_predict true 0 (u_rt_helper_init 2) 950 951 = OutOfFuel /\
  forall sample extra' p,
    (0 < 2)%nat -> 0 < p -> 0 <= sample -> 950 + p < two64 ->
    exists fuel' out urth',
      u_rt_helper_predict false fuel'
        (u_rt_helper_new_sample (u_rt_helper_init 2) sample extra' p) 950 951
      = Ok (out, urth') /\
      950 < predicted_display_time out.
Proof.
  apply (u_rt_helper_predict_before_sample 2 0 950 951). lia.
Defined.

(** *** Counting the free slots *)

Lemma free_slots_put urth id f g :
  array_get (frames urth) (slot_of urth id) = Ok f ->
  (free_slots (put urth id g) + (if is_free f then 1 else 0)
   = free_slots urth + (if is_free g then 1 else 0))%nat.
Proof.
  intros H. apply array_get_Ok in H as [_ H]. unfold free_slots, put. simpl.
  apply filter_insert_length, H.
Qed.

Lemma free_slots_clear urth :
  free_slots (u_rt_helper_client_clear urth) = length (frames urth).
Proof.
  unfold free_slots, u_rt_helper_client_clear. simpl.
  induction (frames urth) as [|f l IH]; simpl; [reflexivity | lia].
Qed.

(** X13: frames in flight are counted by the free slots of the ring.  In a
    debug build, a prediction that returns has taken exactly one free slot
    (so none returns while no slot is free: at most as many frames as the
    ring has slots are in flight), [u_rt_helper_mark_wait_woke] and
    [u_rt_helper_mark_begin] leave the number of free slots unchanged, and
    [u_rt_helper_mark_delivered] and [u_rt_helper_mark_discarded] give
    exactly one slot back; [u_rt_helper_client_clear] frees them all. *)
Theorem free_slots_accounting urth :
  (forall fuel now_ns now2_ns out urth',
     u_rt_helper_predict false fuel urth now_ns now2_ns = Ok (out, urth') ->
     (free_slots urth' + 1 = free_slots urth)%nat) /\
  (forall id now_ns urth',
     u_rt_helper_mark_wait_woke false urth id now_ns = Ok urth' ->
     free_slots urth' = free_slots urth) /\
  (forall id now_ns urth',
     u_rt_helper_mark_begin false urth id now_ns = Ok urth' ->
     free_slots urth' = free_slots urth) /\
  (forall id now_ns urth',
     u_rt_helper_mark_delivered false urth id now_ns = Ok urth' ->
     free_slots urth' = (free_slots urth + 1)%nat) /\
  (forall id now_ns urth',
     u_rt_helper_mark_discarded false urth id now_ns = Ok urth' ->
     free_slots urth' = (free_slots urth + 1)%nat) /\
  free_slots (u_rt_helper_client_clear urth) = length (frames urth).
Proof.
  split; [|split; [|split; [|split; [|split]]]].
  - intros fuel now_ns now2_ns out urth' H.
    destruct (u_rt_helper_predict_shape _ _ _ _ _ _ _ H _ eq_refl)
      as (f & v & Hf & Hfree & _ & ->).
    specialize (Hfree eq_refl).
    set (id := to_int64 (frame_counter urth + 1)) in *.
    pose proof (free_slots_put urth id f
                  (mk_u_rt_frame now2_ns (wait_woke f) (begin f) (end_frame f) id
                     U_RT_PREDICTED) Hf) as Hc.
    rewrite Hfree in Hc. unfold is_free in Hc. simpl in Hc.
    rewrite andb_false_r in Hc. unfold free_slots, put in *. simpl in *. lia.
  - intros id now_ns urth' H. unfold u_rt_helper_mark_wait_woke in H.
    fold (slot_of urth id) in H. cbv zeta in H.
    destruct (array_get (frames urth) (slot_of urth id)) as [f| | |] eqn:Hf;
      simpl in H; try discriminate.
    unfold c_assert in H.
    destruct (frame_id f =? id) eqn:H1; simpl in H; try discriminate.
    destruct (u_rt_state_eqb (state f) U_RT_PREDICTED) eqn:H2;
      simpl in H; try discriminate.
    injection H as <-. apply u_rt_state_eqb_eq in H2.
    pose proof (free_slots_put urth id f
                  (mk_u_rt_frame (predicted f) now_ns (begin f) (end_frame f)
                     (frame_id f) U_RT_WAIT_LEFT) Hf) as Hc.
    unfold is_free in Hc. rewrite H2 in Hc. simpl in Hc.
    rewrite !andb_false_r in Hc. unfold put in Hc. lia.
  - intros id now_ns urth' H. unfold u_rt_helper_mark_begin in H.
    fold (slot_of urth id) in H. cbv zeta in H.
    destruct (array_get (frames urth) (slot_of urth id)) as [f| | |] eqn:Hf;
      simpl in H; try discriminate.
    unfold c_assert in H.
    destruct (frame_id f =? id) eqn:H1; simpl in H; try discriminate.
    destruct (u_rt_state_eqb (state f) U_RT_WAIT_LEFT) eqn:H2;
      simpl in H; try discriminate.
    injection H as <-. apply u_rt_state_eqb_eq in H2.
    pose proof (free_slots_put urth id f
                  (mk_u_rt_frame (predicted f) (wait_woke f) now_ns (end_frame f)
                     (frame_id f) U_RT_BEGUN) Hf) as Hc.
    unfold is_free in Hc. rewrite H2 in Hc. simpl in Hc.
    rewrite !andb_false_r in Hc. unfold put in Hc. lia.
  - intros id now_ns urth' H. unfold u_rt_helper_mark_delivered in H.
    fold (slot_of urth id) in H. cbv zeta in H.
    destruct (array_get (frames urth) (slot_of urth id)) as [f| | |] eqn:Hf;
      simpl in H; try discriminate.
    unfold c_assert in H.
    destruct (frame_id f =? id) eqn:H1; simpl in H; try discriminate.
    destruct (u_rt_state_eqb (state f) U_RT_BEGUN) eqn:H2;
      simpl in H; try discriminate.
    injection H as <-. apply u_rt_state_eqb_eq in H2.
    pose proof (free_slots_put urth id f
                  (mk_u_rt_frame (predicted f) (wait_woke f) (begin f) now_ns (-1)
                     U_RT_READY) Hf) as Hc.
    unfold is_free in Hc. rewrite H2 in Hc. simpl in Hc.
    rewrite !andb_false_r in Hc. unfold put in Hc. lia.
  - intros id now_ns urth' H. unfold u_rt_helper_mark_discarded in H.
    fold (slot_of urth id) in H. cbv zeta in H.
    destruct (array_get (frames urth) (slot_of urth id)) as [f| | |] eqn:Hf;
      simpl in H; try discriminate.
    unfold c_assert in H.
    destruct (frame_id f =? id) eqn:H1; simpl in H; try discriminate.
    destruct (u_rt_state_eqb (state f) U_RT_WAIT_LEFT
              || u_rt_state_eqb (state f) U_RT_BEGUN) eqn:H2;
      simpl in H; try discriminate.
    injection H as <-.
    pose proof (free_slots_put urth id f
                  (mk_u_rt_frame (predicted f) (wait_woke f) (begin f) now_ns (-1)
                     U_RT_READY) Hf) as Hc.
    assert (Hnf : is_free f = false).
    { unfold is_free. destruct (state f); simpl in *; try discriminate;
        apply andb_false_r. }
    rewrite Hnf in Hc. unfold is_free in Hc. simpl in Hc. unfold put in Hc. lia.
  - apply free_slots_clear.
Qed.

End RenderTimingLifeCycle.

(** ** Session: the frame loop and polling *)

Module SessionFramesFacts.
Import CInt CIntFacts ResultFacts Session SessionFacts SessionFrames.

(** *** Waiting for and beginning frames *)

(** A reply of [xrt_comp_wait_frame] that lets [oxr_session_frame_wait]
    succeed. *)
Definition good_reply (to_ts : Z -> Z) (reply : wait_frame_reply) : Prop :=
  is_ipc_failure (wf_result reply) = false /\
  0 < to_int64 (wf_predicted_display_time reply) /\
  0 < to_ts (wf_predicted_display_time reply).

(** X14: the frame loop without [xrEndFrame].  On a running session with
    a compositor whose semaphore is free, which either has no frame started
    and no wait outstanding or has a frame started and one wait counted,
    [oxr_session_frame_wait] returns the success code with [shouldRender] as
    [should_render] says for the session state and stores the frame id the
    compositor handed out; [oxr_session_frame_begin] then begins that frame.
    It returns the success code the first time and [XR_FRAME_DISCARDED]
    afterwards, when it first discards the frame begun before.  The session
    is then again in the second of the two situations, so the pair of calls
    can be repeated without end. *)
Theorem frame_loop_without_end (sr : oxr_session -> XrResult) (to_ts : Z -> Z)
    (xc : compositor) reply sess fs :
  is_running sess = true -> has_compositor sess = true -> sem sess = 1 ->
  (frame_started sess = false /\ active_wait_frames sess = 0) \/
  (frame_started sess = true /\ active_wait_frames sess = 1) ->
  no_ipc_failure xc -> good_reply to_ts reply ->
  exists fs' sess1 sess2,
    oxr_session_frame_wait sr to_ts reply sess fs = Wait_returns (sr sess1) fs' sess1 /\
    shouldRender fs' = should_render (state sess) /\
    predictedDisplayTime fs' = to_ts (wf_predicted_display_time reply) /\
    predictedDisplayPeriod fs' = to_int64 (wf_predicted_display_period reply) /\
    oxr_session_frame_begin sr xc sess1 =
      (if frame_started sess then XR_FRAME_DISCARDED else sr sess1, sess2) /\
    xc_calls sess2 =
      xc_calls sess
      ++ (if frame_started sess then [Comp_discard_frame (frame_id_begun sess)] else [])
      ++ [Comp_begin_frame (wf_frame_id reply)] /\
    frame_id_begun sess2 = wf_frame_id reply /\ frame_id_waited sess2 = -1 /\
    is_running sess2 = true /\ has_compositor sess2 = true /\ sem sess2 = 1 /\
    frame_started sess2 = true /\ active_wait_frames sess2 = 1 /\
    state sess2 = state sess /\ events sess2 = events sess.
Proof.
  intros Hrun Hc Hsem Hcase Hxc (Hr & Ht & Hts).
  destruct sess as [hc st hb he ex fst' w b awf sm vt ev calls].
  simpl in Hrun, Hc, Hsem, Hcase. subst hb hc sm.
  unfold oxr_session_frame_wait, os_semaphore_wait, oxr_session_frame_begin.
  destruct Hcase as [[-> ->]|[-> ->]]; cbn -[to_int64]; rewrite Hr;
    (destruct (Z.leb_spec (to_int64 (wf_predicted_display_time reply)) 0); [lia|]);
    (destruct (Z.leb_spec (to_ts (wf_predicted_display_time reply)) 0); [lia|]);
    eexists; eexists; eexists; (split; [reflexivity|]);
    cbn -[to_int64]; rewrite ?Hxc; cbn -[to_int64]; rewrite ?Hxc; cbn -[to_int64];
    repeat split; rewrite <- ?app_assoc; try reflexivity.
Qed.

(** A session with a compositor after [xrBeginSession]. *)
Definition begun_session (with_compositor : bool) : oxr_session :=
  set_has_begun (created_session with_compositor) true.

Lemma begun_session_begin with_compositor :
  oxr_session_begin success_result_by_state xc_ok (created_session with_compositor) 0
  = (XR_SUCCESS,
     if with_compositor
     then set_xc_calls (begun_session true) [Comp_begin_session 0]
     else begun_session false).
Proof. destruct with_compositor; reflexivity. Qed.

Definition reply_7 : wait_frame_reply := mk_wait_frame_reply XRT_SUCCESS 7 1000 100.

Lemma frame_loop_without_end_witness :
  exists fs' sess1 sess2,
    oxr_session_frame_wait success_result_by_state (fun t => t) reply_7
      (begun_session true) (mk_XrFrameState false 0 0)
    = Wait_returns (success_result_by_state sess1) fs' sess1 /\
    shouldRender fs' = should_render (state (begun_session true)) /\
    predictedDisplayTime fs' = wf_predicted_display_time reply_7 /\
    predictedDisplayPeriod fs' = to_int64 (wf_predicted_display_period reply_7) /\
    oxr_session_frame_begin success_result_by_state xc_ok sess1 =
      (if frame_started (begun_session true) then XR_FRAME_DISCARDED
       else success_result_by_state sess1, sess2) /\
    xc_calls sess2 =
      xc_calls (begun_session true)
      ++ (if frame_started (begun_session true)
          then [Comp_discard_frame (frame_id_begun (begun_session true))] else [])
      ++ [Comp_begin_frame (wf_frame_id reply_7)] /\
    frame_id_begun sess2 = wf_frame_id reply_7 /\ frame_id_waited sess2 = -1 /\
    is_running sess2 = true /\ has_compositor sess2 = true /\ sem sess2 = 1 /\
    frame_started sess2 = true /\ active_wait_frames sess2 = 1 /\
    state sess2 = state (begun_session true) /\
    events sess2 = events (begun_session true).
Proof.
  apply (frame_loop_without_end success_result_by_state (fun t => t) xc_ok reply_7
           (begun_session true) (mk_XrFrameState false 0 0)).
  - reflexivity.
  - reflexivity.
  - reflexivity.
  - left. split; reflexivity.
  - intros c. reflexivity.
  - split; [reflexivity|]. split; vm_compute; reflexivity.
Defined.

(** X15: a wait that fails keeps what it took.  On a running session with
    a compositor and a free semaphore, when [xrt_comp_wait_frame] reports an
    IPC failure, or hands out a predicted display time that is not positive
    as an [int64_t] or that the time conversion maps to a non-positive time,
    [oxr_session_frame_wait] returns [XR_ERROR_INSTANCE_LOST] respectively
    [XR_ERROR_RUNTIME_FAILURE], and leaves the wait counted in
    [active_wait_frames] and the semaphore taken.  With a semaphore count of
    1 before, the next [oxr_session_frame_wait] therefore blocks, whatever
    the compositor would answer. *)
Theorem frame_wait_failure_keeps_semaphore (sr : oxr_session -> XrResult)
    (to_ts : Z -> Z) reply reply' sess fs fs' :
  is_running sess = true -> has_compositor sess = true -> sem sess = 1 ->
  ~ good_reply to_ts reply ->
  exists sess1,
    (oxr_session_frame_wait sr to_ts reply sess fs
       = Wait_returns XR_ERROR_INSTANCE_LOST fs sess1 \/
     (exists fs1,
        oxr_session_frame_wait sr to_ts reply sess fs
        = Wait_XR_ERROR_RUNTIME_FAILURE fs1 sess1)) /\
    active_wait_frames sess1 = active_wait_frames sess + 1 /\
    sem sess1 = 0 /\
    frame_id_waited sess1 = wf_frame_id reply /\
    oxr_session_frame_wait sr to_ts reply' sess1 fs'
      = Wait_blocks (set_active_wait_frames sess1 (active_wait_frames sess + 2)).
Proof.
  intros Hrun Hc Hsem Hbad.
  destruct sess as [hc st hb he ex fst' w b awf sm vt ev calls].
  simpl in Hrun, Hc, Hsem. subst hb hc sm.
  unfold oxr_session_frame_wait, os_semaphore_wait. cbn -[Z.add to_int64].
  assert (Hcases :
    is_ipc_failure (wf_result reply) = true \/
    (is_ipc_failure (wf_result reply) = false /\
     to_int64 (wf_predicted_display_time reply) <= 0) \/
    (is_ipc_failure (wf_result reply) = false /\
     0 < to_int64 (wf_predicted_display_time reply) /\
     to_ts (wf_predicted_display_time reply) <= 0)).
  { destruct (is_ipc_failure (wf_result reply)) eqn:E; [auto|]. right.
    destruct (Z.le_gt_cases (to_int64 (wf_predicted_display_time reply)) 0);
      [auto|].
    right. split; [reflexivity|]. split; [lia|].
    destruct (Z.le_gt_cases (to_ts (wf_predicted_display_time reply)) 0); [auto|].
    exfalso. apply Hbad. repeat split; auto; lia. }
  destruct Hcases as [E|[[E Ht]|(E & Ht & Hts)]]; rewrite E.
  - eexists. split; [left; reflexivity|]. cbn -[Z.add]. repeat split. f_equal.
    unfold set_active_wait_frames. cbn -[Z.add]. f_equal. lia.
  - destruct (Z.leb_spec (to_int64 (wf_predicted_display_time reply)) 0); [|lia].
    eexists. split; [right; eexists; reflexivity|]. cbn -[Z.add]. repeat split. f_equal.
    unfold set_active_wait_frames. cbn -[Z.add]. f_equal. lia.
  - destruct (Z.leb_spec (to_int64 (wf_predicted_display_time reply)) 0); [lia|].
    destruct (Z.leb_spec (to_ts (wf_predicted_display_time reply)) 0); [|lia].
    eexists. split; [right; eexists; reflexivity|]. cbn -[Z.add]. repeat split. f_equal.
    unfold set_active_wait_frames. cbn -[Z.add]. f_equal. lia.
Qed.

Lemma frame_wait_failure_keeps_semaphore_witness :
  exists sess1,
    (oxr_session_frame_wait success_result_by_state (fun t => t)
       (mk_wait_frame_reply XRT_SUCCESS 7 0 100) (begun_session true)
       (mk_XrFrameState false 0 0)
       = Wait_returns XR_ERROR_INSTANCE_LOST (mk_XrFrameState false 0 0) sess1 \/
     (exists fs1,
        oxr_session_frame_wait success_result_by_state (fun t => t)
          (mk_wait_frame_reply XRT_SUCCESS 7 0 100) (begun_session true)
          (mk_XrFrameState false 0 0)
        = Wait_XR_ERROR_RUNTIME_FAILURE fs1 sess1)) /\
    active_wait_frames sess1 = active_wait_frames (begun_session true) + 1 /\
    sem sess1 = 0 /\
    frame_id_waited sess1 = wf_frame_id (mk_wait_frame_reply XRT_SUCCESS 7 0 100) /\
    oxr_session_frame_wait success_result_by_state (fun t => t) reply_7 sess1
      (mk_XrFrameState false 0 0)
      = Wait_blocks
          (set_active_wait_frames sess1 (active_wait_frames (begun_session true) + 2)).
Proof.
  apply (frame_wait_failure_keeps_semaphore success_result_by_state (fun t => t)
           (mk_wait_frame_reply XRT_SUCCESS 7 0 100) reply_7 (begun_session true)).
  - reflexivity.
  - reflexivity.
  - reflexivity.
  - intros (_ & H & _). vm_compute in H. discriminate.
Defined.

(** X16: on a session without compositor (headless) no frame can be
    begun.  For a running session that has no compositor,
    [oxr_session_frame_wait] returns the success code with [shouldRender]
    false and does not count the wait: the session is unchanged.  With no
    wait counted, [oxr_session_frame_begin] returns
    [XR_ERROR_CALL_ORDER_INVALID], again without changing the session, so this
    holds after any number of waits. *)
Theorem headless_frame_begin_call_order (sr : oxr_session -> XrResult)
    (to_ts : Z -> Z) (xc : compositor) reply sess fs :
  is_running sess = true -> has_compositor sess = false ->
  active_wait_frames sess = 0 ->
  oxr_session_frame_wait sr to_ts reply sess fs
    = Wait_returns (sr sess)
        (mk_XrFrameState false (predictedDisplayTime fs) (predictedDisplayPeriod fs))
        sess /\
  oxr_session_frame_begin sr xc sess = (XR_ERROR_CALL_ORDER_INVALID, sess).
Proof.
  intros Hrun Hc Hawf. unfold oxr_session_frame_wait, oxr_session_frame_begin.
  rewrite Hrun, Hc, Hawf. split; reflexivity.
Qed.

Lemma headless_frame_begin_call_order_witness :
  oxr_session_frame_wait success_result_by_state (fun t => t) reply_7
    (begun_session false) (mk_XrFrameState true 5 6)
    = Wait_returns (success_result_by_state (begun_session false))
        (mk_XrFrameState false 5 6) (begun_session false) /\
  oxr_session_frame_begin success_result_by_state xc_ok (begun_session false)
    = (XR_ERROR_CALL_ORDER_INVALID, begun_session false).
Proof.
  apply (headless_frame_begin_call_order success_result_by_state (fun t => t) xc_ok
           reply_7 (begun_session false) (mk_XrFrameState true 5 6));
    reflexivity.
Defined.

(** *** Polling the compositor *)

(** The visibility values of the overlay-change events of a run of replies. *)
Definition overlay_changes (evs : list xrt_compositor_event) : list bool :=
  omap (fun e => match e with
                 | XRT_COMPOSITOR_EVENT_OVERLAY_CHANGE v => Some v
                 | _ => None
                 end) evs.

(** The flags after a run of replies: those of the last state-change event,
    if any. *)
Definition flags_after (evs : list xrt_compositor_event) (flags : bool * bool)
    : bool * bool :=
  fold_left (fun fl e => match e with
                         | XRT_COMPOSITOR_EVENT_STATE_CHANGE v f => (v, f)
                         | _ => fl
                         end) evs flags.

Lemma poll_loop_spec : forall replies sess sess' rest,
  poll_loop replies sess = Ok (sess', rest) ->
  exists evs,
    replies = evs ++ XRT_COMPOSITOR_EVENT_NONE :: rest /\
    (XRT_COMPOSITOR_EVENT_NONE ∉ evs) /\
    base sess' = base sess /\
    (compositor_visible sess', compositor_focused sess')
      = flags_after evs (compositor_visible sess, compositor_focused sess) /\
    visibility_events sess' = visibility_events sess ++ overlay_changes evs.
Proof.
  induction replies as [|xce replies IH]; intros sess sess' rest H; simpl in H;
    [discriminate|].
  destruct xce as [|v f|v|t].
  - injection H as <- <-. exists []. simpl. rewrite app_nil_r.
    repeat split. apply not_elem_of_nil.
  - apply IH in H as (evs & -> & Hn & Hb & Hf & Hv).
    exists (XRT_COMPOSITOR_EVENT_STATE_CHANGE v f :: evs). simpl.
    repeat split; auto. apply not_elem_of_cons. split; [discriminate | exact Hn].
  - apply IH in H as (evs & -> & Hn & Hb & Hf & Hv).
    exists (XRT_COMPOSITOR_EVENT_OVERLAY_CHANGE v :: evs). simpl in *.
    repeat split; auto.
    + apply not_elem_of_cons. split; [discriminate | exact Hn].
    + rewrite Hv, <- app_assoc. reflexivity.
  - apply IH in H as (evs & -> & Hn & Hb & Hf & Hv).
    exists (XRT_COMPOSITOR_EVENT_other t :: evs). simpl.
    repeat split; auto. apply not_elem_of_cons. split; [discriminate | exact Hn].
Qed.

(** X17: what a poll reads.  On a session with a compositor,
    [oxr_session_poll] reads the compositor's events up to and including the
    first [XRT_COMPOSITOR_EVENT_NONE] and leaves the later ones unread; it
    returns whenever there is such an event.  Of the state-change events read
    only the last one counts: its two flags are the session's
    [compositor_visible] and [compositor_focused] afterwards.  Every
    overlay-change event read pushes one main-session-visibility event, in
    the order read.  A session without compositor reads nothing. *)
Theorem oxr_session_poll_reads replies sess :
  (has_compositor (base sess) = false ->
   oxr_session_poll replies sess = Ok (sess, replies)) /\
  (has_compositor (base sess) = true ->
   (forall evs rest,
      XRT_COMPOSITOR_EVENT_NONE ∉ evs ->
      replies = evs ++ XRT_COMPOSITOR_EVENT_NONE :: rest ->
      exists sess', oxr_session_poll replies sess = Ok (sess', rest)) /\
   (forall sess' rest,
      oxr_session_poll replies sess = Ok (sess', rest) ->
      exists evs,
        replies = evs ++ XRT_COMPOSITOR_EVENT_NONE :: rest /\
        (XRT_COMPOSITOR_EVENT_NONE ∉ evs) /\
        (compositor_visible sess', compositor_focused sess')
          = flags_after evs (compositor_visible sess, compositor_focused sess) /\
        visibility_events sess' = visibility_events sess ++ overlay_changes evs)).
Proof.
  split; [|split].
  - intros Hc. unfold oxr_session_poll. rewrite Hc. reflexivity.
  - intros evs rest Hn ->. unfold oxr_session_poll. rewrite H. cbn [negb].
    assert (Hl : forall s, exists s',
               poll_loop (evs ++ XRT_COMPOSITOR_EVENT_NONE :: rest) s = Ok (s', rest)).
    { clear sess H. induction evs as [|e evs IH]; intros s; simpl.
      - eauto.
      - apply not_elem_of_cons in Hn as [He Hn].
        destruct e; [congruence| | |]; apply IH; exact Hn. }
    destruct (Hl sess) as [s' ->]. rewrite bind_Ok. eauto.
  - intros sess' rest Hp. unfold oxr_session_poll in Hp. rewrite H in Hp.
    cbn [negb] in Hp.
    destruct (poll_loop replies sess) as [[s1 r1]| | |] eqn:Hl; simpl in Hp;
      try discriminate.
    apply poll_loop_spec in Hl as (evs & -> & Hn & Hb & Hf & Hv).
    injection Hp as <- <-. exists evs. split; [reflexivity|]. split; [exact Hn|].
    rewrite <- Hf, <- Hv.
    repeat match goal with |- context [if ?c then _ else _] => destruct c end;
      split; reflexivity.
Qed.

(** The states a poll can walk through, in order. *)
Definition raised (st st' : XrSessionState) : list XrSessionState :=
  match st, st' with
  | XR_SESSION_STATE_SYNCHRONIZED, XR_SESSION_STATE_VISIBLE =>
      [XR_SESSION_STATE_VISIBLE]
  | XR_SESSION_STATE_SYNCHRONIZED, XR_SESSION_STATE_FOCUSED =>
      [XR_SESSION_STATE_VISIBLE; XR_SESSION_STATE_FOCUSED]
  | XR_SESSION_STATE_VISIBLE, XR_SESSION_STATE_FOCUSED =>
      [XR_SESSION_STATE_FOCUSED]
  | _, _ => []
  end.

Lemma oxr_session_poll_shape replies sess sess' rest :
  oxr_session_poll replies sess = Ok (sess', rest) ->
  let st := state (base sess) in
  let st' := state (base sess') in
  (st' = st \/
   (st = XR_SESSION_STATE_SYNCHRONIZED /\
    (st' = XR_SESSION_STATE_VISIBLE \/ st' = XR_SESSION_STATE_FOCUSED)) \/
   (st = XR_SESSION_STATE_VISIBLE /\ st' = XR_SESSION_STATE_FOCUSED)) /\
  events (base sess') = events (base sess) ++ raised st st' /\
  set_events (set_state (base sess') st) (events (base sess)) = base sess /\
  (has_compositor (base sess) = true -> st = XR_SESSION_STATE_SYNCHRONIZED ->
   (st' <> st <-> compositor_visible sess' = true) /\
   (st' = XR_SESSION_STATE_FOCUSED <->
    compositor_visible sess' = true /\ compositor_focused sess' = true)) /\
  (has_compositor (base sess) = true -> st = XR_SESSION_STATE_VISIBLE ->
   (st' = XR_SESSION_STATE_FOCUSED <-> compositor_focused sess' = true)).
Proof.
  intros Hp. unfold oxr_session_poll in Hp.
  destruct (has_compositor (base sess)) eqn:Hc; cbn [negb] in Hp.
  - destruct (poll_loop replies sess) as [[s1 r1]| | |] eqn:Hl; simpl in Hp;
      try discriminate.
    apply poll_loop_spec in Hl as (evs & _ & _ & Hb & _ & _).
    destruct s1 as [b1 cv cf ve]. simpl in Hb. subst b1.
    destruct (base sess) as [hc st hb he ex fs w b awf sm vt ev calls] eqn:Eb.
    injection Hp as <- <-. cbn.
    destruct st, cv, cf; cbn; rewrite ?app_nil_r, <- ?app_assoc;
      repeat split; auto; try discriminate; try tauto;
      try (intros H; exfalso; apply H; reflexivity);
      try (intros [? ?]; discriminate); try (intros ?; discriminate).
  - injection Hp as <- <-. cbn.
    destruct (base sess) as [hc st hb he ex fs w b awf sm vt ev calls] eqn:Eb.
    cbn in *. subst hc.
    destruct st; cbn; rewrite ?app_nil_r; repeat split; auto; discriminate.
Qed.

(** X18: a poll only ever raises the session state.  Whenever
    [oxr_session_poll] returns, the session state is the old one, or the old
    one was SYNCHRONIZED and the new one is VISIBLE or FOCUSED, or the old one
    was VISIBLE and the new one is FOCUSED; one state-changed event is pushed
    for each state entered, VISIBLE before FOCUSED, and nothing else of the
    session changes.  With a compositor the state is raised exactly as far
    as the flags allow: to VISIBLE if and only if the compositor reports the
    session visible, on to FOCUSED if and only if it also reports it
    focused.  In particular a FOCUSED or VISIBLE
    session is not taken back when the compositor reports the loss of focus
    or visibility, and a READY session is not moved at all. *)
Theorem oxr_session_poll_only_raises replies sess sess' rest :
  oxr_session_poll replies sess = Ok (sess', rest) ->
  let st := state (base sess) in
  let st' := state (base sess') in
  (st' = st \/
   (st = XR_SESSION_STATE_SYNCHRONIZED /\
    (st' = XR_SESSION_STATE_VISIBLE \/ st' = XR_SESSION_STATE_FOCUSED)) \/
   (st = XR_SESSION_STATE_VISIBLE /\ st' = XR_SESSION_STATE_FOCUSED)) /\
  events (base sess') = events (base sess) ++ raised st st' /\
  set_events (set_state (base sess') st) (events (base sess)) = base sess /\
  (has_compositor (base sess) = true -> st = XR_SESSION_STATE_SYNCHRONIZED ->
   (st' <> st <-> compositor_visible sess' = true) /\
   (st' = XR_SESSION_STATE_FOCUSED <->
    compositor_visible sess' = true /\ compositor_focused sess' = true)) /\
  (has_compositor (base sess) = true -> st = XR_SESSION_STATE_VISIBLE ->
   (st' = XR_SESSION_STATE_FOCUSED <-> compositor_focused sess' = true)).
Proof. apply oxr_session_poll_shape. Qed.

Definition synchronized_session : polled_session :=
  mk_polled_session
    (mk_oxr_session true XR_SESSION_STATE_SYNCHRONIZED true false false false 0 0 0 1 0
       [XR_SESSION_STATE_IDLE; XR_SESSION_STATE_READY; XR_SESSION_STATE_SYNCHRONIZED] [])
    false false [].

Definition focused_session : polled_session :=
  mk_polled_session
    (mk_oxr_session true XR_SESSION_STATE_FOCUSED true false false false 0 0 0 1 0
       [XR_SESSION_STATE_IDLE; XR_SESSION_STATE_READY; XR_SESSION_STATE_SYNCHRONIZED;
        XR_SESSION_STATE_VISIBLE; XR_SESSION_STATE_FOCUSED] [])
    true true [].

Lemma oxr_session_poll_only_raises_witness :
  let st := state (base synchronized_session) in
  let st' := state (base focused_session) in
  (st' = st \/
   (st = XR_SESSION_STATE_SYNCHRONIZED /\
    (st' = XR_SESSION_STATE_VISIBLE \/ st' = XR_SESSION_STATE_FOCUSED)) \/
   (st = XR_SESSION_STATE_VISIBLE /\ st' = XR_SESSION_STATE_FOCUSED)) /\
  events (base focused_session) = events (base synchronized_session) ++ raised st st' /\
  set_events (set_state (base focused_session) st) (events (base synchronized_session))
    = base synchronized_session /\
  (has_compositor (base synchronized_session) = true ->
   st = XR_SESSION_STATE_SYNCHRONIZED ->
   (st' <> st <-> compositor_visible focused_session = true) /\
   (st' = XR_SESSION_STATE_FOCUSED <->
    compositor_visible focused_session = true /\
    compositor_focused focused_session = true)) /\
  (has_compositor (base synchronized_session) = true ->
   st = XR_SESSION_STATE_VISIBLE ->
   (st' = XR_SESSION_STATE_FOCUSED <-> compositor_focused focused_session = true)).
Proof.
  apply (oxr_session_poll_only_raises
           [XRT_COMPOSITOR_EVENT_STATE_CHANGE true false;
            XRT_COMPOSITOR_EVENT_STATE_CHANGE true true;
            XRT_COMPOSITOR_EVENT_NONE; XRT_COMPOSITOR_EVENT_STATE_CHANGE false false]
           synchronized_session focused_session
           [XRT_COMPOSITOR_EVENT_STATE_CHANGE false false]).
  reflexivity.
Defined.

(** A FOCUSED session that is told it lost focus and visibility stays
    FOCUSED. *)
Example poll_keeps_focused_state :
  (state ∘ base ∘ fst) <$>
    oxr_session_poll
      [XRT_COMPOSITOR_EVENT_STATE_CHANGE false false; XRT_COMPOSITOR_EVENT_NONE]
      focused_session
  = Ok XR_SESSION_STATE_FOCUSED.
Proof. reflexivity. Qed.

(** *** The events follow the state *)

(** The state-changed event pushed last names the state of the session. *)
Definition events_track_state (sess : oxr_session) : Prop :=
  last (events sess) = Some (state sess).

Lemma events_track_change_state sess st :
  events_track_state (oxr_session_change_state sess st).
Proof. unfold events_track_state. simpl. apply last_snoc. Qed.

(** X19: every state change is announced.  A session is created with the
    last pushed state-changed event naming its state, and every session call
    keeps it so, whatever it returns: [oxr_session_begin], [oxr_session_end],
    [oxr_session_request_exit], [oxr_session_frame_begin],
    [oxr_session_frame_wait] (also when it blocks) and
    [oxr_session_poll]. *)
Theorem session_events_track_state (sr : oxr_session -> XrResult) (to_ts : Z -> Z)
    (xc : compositor) sess :
  events_track_state sess ->
  (forall vt, events_track_state (snd (oxr_session_begin sr xc sess vt))) /\
  events_track_state (snd (oxr_session_end sr xc sess)) /\
  events_track_state (snd (oxr_session_request_exit sr sess)) /\
  events_track_state (snd (oxr_session_frame_begin sr xc sess)) /\
  (forall reply fs,
     match oxr_session_frame_wait sr to_ts reply sess fs with
     | Wait_returns _ _ sess'
     | Wait_XR_ERROR_RUNTIME_FAILURE _ sess'
     | Wait_blocks sess' => events_track_state sess'
     end) /\
  (forall replies cv cf ve sess' rest,
     oxr_session_poll replies (mk_polled_session sess cv cf ve) = Ok (sess', rest) ->
     events_track_state (base sess')).
Proof.
  intros Hs. destruct sess as [hc st hb he ex fs w b awf sm vt ev calls].
  unfold events_track_state in *. cbn in Hs.
  split; [|split; [|split; [|split; [|split]]]].
  - intros vt'. unfold oxr_session_begin. cbn.
    repeat match goal with |- context [if ?c then _ else _] => destruct c end;
      cbn; exact Hs.
  - unfold oxr_session_end. cbn.
    repeat match goal with |- context [if ?c then _ else _] => destruct c end;
      cbn; rewrite ?last_snoc; auto.
  - unfold oxr_session_request_exit. cbn.
    destruct hb; cbn; [|exact Hs].
    destruct st, he; cbn; rewrite ?last_snoc; reflexivity.
  - unfold oxr_session_frame_begin. cbn.
    repeat match goal with |- context [if ?c then _ else _] => destruct c end;
      cbn; exact Hs.
  - intros reply fs'. unfold oxr_session_frame_wait, os_semaphore_wait. cbn.
    repeat match goal with |- context [if ?c then _ else _] => destruct c end;
      cbn; exact Hs.
  - intros replies cv cf ve sess' rest Hp.
    pose proof (oxr_session_poll_shape _ _ _ _ Hp) as (Hst & Hev & _).
    cbn in Hst, Hev. unfold events_track_state. rewrite Hev.
    destruct Hst as [E|[[E1 [E2|E2]]|[E1 E2]]].
    + rewrite E. destruct st; cbn; rewrite app_nil_r; exact Hs.
    + rewrite E1, E2. apply last_snoc.
    + rewrite E1, E2. cbn [raised].
      change [XR_SESSION_STATE_VISIBLE; XR_SESSION_STATE_FOCUSED]
        with ([XR_SESSION_STATE_VISIBLE] ++ [XR_SESSION_STATE_FOCUSED]).
      rewrite app_assoc. apply last_snoc.
    + rewrite E1, E2. apply last_snoc.
Qed.

Lemma session_events_track_state_witness :
  (forall vt,
     events_track_state
       (snd (oxr_session_begin success_result_by_state xc_ok (created_session true) vt))) /\
  events_track_state
    (snd (oxr_session_end success_result_by_state xc_ok (created_session true))) /\
  events_track_state
    (snd (oxr_session_request_exit success_result_by_state (created_session true))) /\
  events_track_state
    (snd (oxr_session_frame_begin success_result_by_state xc_ok (created_session true))) /\
  (forall reply fs,
     match oxr_session_frame_wait success_result_by_state (fun t => t) reply
             (created_session true) fs with
     | Wait_returns _ _ sess'
     | Wait_XR_ERROR_RUNTIME_FAILURE _ sess'
     | Wait_blocks sess' => events_track_state sess'
     end) /\
  (forall replies cv cf ve sess' rest,
     oxr_session_poll replies (mk_polled_session (created_session true) cv cf ve)
       = Ok (sess', rest) ->
     events_track_state (base sess')).
Proof.
  apply (session_events_track_state success_result_by_state (fun t => t) xc_ok
           (created_session true)).
  reflexivity.
Defined.

(** *** Refused calls *)

(** The codes with which a call is refused before it does anything. *)
Definition is_refusal (r : XrResult) : bool :=
  match r with
  | XR_ERROR_SESSION_RUNNING
  | XR_ERROR_SESSION_NOT_RUNNING
  | XR_ERROR_SESSION_NOT_STOPPING
  | XR_ERROR_CALL_ORDER_INVALID
  | XR_ERROR_VIEW_CONFIGURATION_TYPE_UNSUPPORTED => true
  | _ => false
  end.

(** X20: a refused call changes nothing.  When [oxr_session_begin],
    [oxr_session_end], [oxr_session_request_exit], [oxr_session_frame_begin]
    or [oxr_session_frame_wait] returns one of the codes
    [XR_ERROR_SESSION_RUNNING], [XR_ERROR_SESSION_NOT_RUNNING],
    [XR_ERROR_SESSION_NOT_STOPPING], [XR_ERROR_CALL_ORDER_INVALID] and
    [XR_ERROR_VIEW_CONFIGURATION_TYPE_UNSUPPORTED], the session is exactly as
    before and the compositor has not been called.  (Success is reported as
    [XR_SUCCESS] or [XR_SESSION_LOSS_PENDING].) *)
Theorem refused_call_changes_nothing (to_ts : Z -> Z) (xc : compositor) sess :
  (forall vt r sess',
     oxr_session_begin success_result_by_state xc sess vt = (r, sess') ->
     is_refusal r = true -> sess' = sess) /\
  (forall r sess',
     oxr_session_end success_result_by_state xc sess = (r, sess') ->
     is_refusal r = true -> sess' = sess) /\
  (forall r sess',
     oxr_session_request_exit success_result_by_state sess = (r, sess') ->
     is_refusal r = true -> sess' = sess) /\
  (forall r sess',
     oxr_session_frame_begin success_result_by_state xc sess = (r, sess') ->
     is_refusal r = true -> sess' = sess) /\
  (forall reply fs r fs' sess',
     oxr_session_frame_wait success_result_by_state to_ts reply sess fs
       = Wait_returns r fs' sess' ->
     is_refusal r = true -> sess' = sess /\ fs' = fs).
Proof.
  assert (Hsr : forall s, is_refusal (success_result_by_state s) = false).
  { intros s. unfold success_result_by_state. destruct (state s); reflexivity. }
  split; [|split; [|split; [|split]]].
  - intros vt r sess'. unfold oxr_session_begin.
    repeat (cbn -[success_result_by_state];
            match goal with |- context [if ?c then _ else _] => destruct c end);
      cbn -[success_result_by_state]; intros He Hr; inversion He; subst;
      try reflexivity; rewrite ?Hsr in Hr; discriminate.
  - intros r sess'. unfold oxr_session_end.
    repeat (cbn -[success_result_by_state];
            match goal with |- context [if ?c then _ else _] => destruct c end);
      cbn -[success_result_by_state]; intros He Hr; inversion He; subst;
      try reflexivity; rewrite ?Hsr in Hr; discriminate.
  - intros r sess'. unfold oxr_session_request_exit.
    destruct (negb (is_running sess)); intros He Hr; inversion He; subst;
      [reflexivity|].
    rewrite Hsr in Hr. discriminate.
  - intros r sess'. unfold oxr_session_frame_begin.
    repeat (cbn -[success_result_by_state];
            match goal with |- context [if ?c then _ else _] => destruct c end);
      cbn -[success_result_by_state]; intros He Hr; inversion He; subst;
      try reflexivity; rewrite ?Hsr in Hr; discriminate.
  - intros reply fs r fs' sess'. unfold oxr_session_frame_wait, os_semaphore_wait.
    repeat (cbn -[success_result_by_state];
            match goal with |- context [if ?c then _ else _] => destruct c end);
      cbn -[success_result_by_state]; intros He Hr; inversion He; subst; auto;
      rewrite ?Hsr in Hr; discriminate.
Qed.

End SessionFramesFacts.

(** ** IPC server: queueing events *)

Module EventQueueFacts.
Import CInt CIntFacts ResultFacts IpcServer EventRingFacts.

(** The loop returns the index of a slot it has visited, or the index it
    was started with. *)
Lemma find_event_slot_loop_range ts : forall slots i ots oi,
  let r := find_event_slot_loop ts slots i ots oi in
  r = oi \/ i <= r < i + Z.of_nat (length slots).
Proof.
  induction slots as [|qe slots IH]; intros i ots oi; simpl; [auto|].
  destruct (pending qe); simpl; [|right; lia].
  match goal with
  | |- context [find_event_slot_loop ts slots (i + 1) ots ?oi'] =>
      destruct (IH (i + 1) ots oi') as [E|E]
  end.
  - rewrite E. destruct (ts <? ots); [right; lia | left; reflexivity].
  - right. lia.
Qed.

Lemma find_event_slot_range cs :
  queued_events cs <> [] ->
  0 <= find_event_slot cs < Z.of_nat (length (queued_events cs)).
Proof.
  intros Hne. unfold find_event_slot.
  pose proof (find_event_slot_loop_range
                (match queued_events cs with [] => 0 | qe :: _ => timestamp qe end)
                (queued_events cs) 0 UINT64_MAX 0) as H.
  cbv zeta in H. destruct (queued_events cs) as [|qe l]; [contradiction|].
  simpl length in *. destruct H as [->|H]; lia.
Qed.

Lemma write_event_Ok cs slot qe :
  0 <= slot < Z.of_nat (length (queued_events cs)) ->
  write_event cs slot qe
  = Ok (set_queued_events cs (<[Z.to_nat slot := qe]> (queued_events cs))).
Proof.
  intros H. unfold write_event.
  destruct (array_get_in_range (queued_events cs) slot H) as [x ->]. reflexivity.
Qed.

(** X21: queueing an event on a ring that is not empty.  Both
    [send_client_state] and [transition_overlay_visibility] always return:
    the slot [find_event_slot] picks lies inside the ring.  They change
    nothing of the client but the ring, and of the ring only the slot picked,
    which then is pending and holds the clock reading and the event.  When
    the ring has a free slot, the first free slot is the one picked: no
    pending event is overwritten and the entries before and after it stay in
    place. *)
Theorem queue_event_on_ring cs now_ns visible :
  queued_events cs <> [] ->
  let state_change :=
    mk_ipc_queued_event now_ns true
      (XRT_COMPOSITOR_EVENT_STATE_CHANGE (session_visible cs) (session_focused cs)) in
  let overlay_change :=
    mk_ipc_queued_event now_ns true (XRT_COMPOSITOR_EVENT_OVERLAY_CHANGE visible) in
  let slot := Z.to_nat (find_event_slot cs) in
  (slot < length (queued_events cs))%nat /\
  send_client_state cs now_ns
    = Ok (set_queued_events cs (<[slot := state_change]> (queued_events cs))) /\
  transition_overlay_visibility cs visible now_ns
    = Ok (set_queued_events cs (<[slot := overlay_change]> (queued_events cs))) /\
  (forall l1 qe l2,
     queued_events cs = l1 ++ qe :: l2 -> all_pending l1 -> pending qe = false ->
     slot = length l1 /\
     forall new, <[slot := new]> (queued_events cs) = l1 ++ new :: l2).
Proof.
  intros Hne. cbv zeta. pose proof (find_event_slot_range cs Hne) as Hr.
  split; [lia|]. split; [|split].
  - unfold send_client_state. apply write_event_Ok, Hr.
  - unfold transition_overlay_visibility. apply write_event_Ok, Hr.
  - intros l1 qe l2 Hq Hp Hf.
    rewrite (find_event_slot_first_free cs l1 qe l2 Hq Hp Hf), Nat2Z.id.
    split; [reflexivity|]. intros new. rewrite Hq.
    rewrite insert_app_r_alt by lia. rewrite Nat.sub_diag. reflexivity.
Qed.

Lemma queue_event_on_ring_witness :
  let cs := ServerStateFacts.connected 0 false true in
  let state_change :=
    mk_ipc_queued_event 7 true
      (XRT_COMPOSITOR_EVENT_STATE_CHANGE (session_visible cs) (session_focused cs)) in
  let overlay_change :=
    mk_ipc_queued_event 7 true (XRT_COMPOSITOR_EVENT_OVERLAY_CHANGE true) in
  let slot := Z.to_nat (find_event_slot cs) in
  (slot < length (queued_events cs))%nat /\
  send_client_state cs 7
    = Ok (set_queued_events cs (<[slot := state_change]> (queued_events cs))) /\
  transition_overlay_visibility cs true 7
    = Ok (set_queued_events cs (<[slot := overlay_change]> (queued_events cs))) /\
  (forall l1 qe l2,
     queued_events cs = l1 ++ qe :: l2 -> all_pending l1 -> pending qe = false ->
     slot = length l1 /\
     forall new, <[slot := new]> (queued_events cs) = l1 ++ new :: l2).
Proof.
  apply (queue_event_on_ring (ServerStateFacts.connected 0 false true) 7 true).
  discriminate.
Defined.

End EventQueueFacts.

(** ** IPC server: what an update of the server state changes *)

Module ServerUpdateFacts.
Import CInt CIntFacts ResultFacts IpcServer EventRingFacts ServerStateFacts.

(** Two client states that differ at most in the visible and focused flags
    and in the contents of the event ring. *)
Definition same_client (c c' : ipc_client_state) : Prop :=
  server_thread_index c' = server_thread_index c /\
  session_active c' = session_active c /\
  session_overlay c' = session_overlay c /\
  z_order c' = z_order c /\
  num_layers c' = num_layers c /\
  layers c' = layers c /\
  xscs c' = xscs c /\
  length (queued_events c') = length (queued_events c).

Lemma same_client_refl c : same_client c c.
Proof. repeat split. Qed.

Lemma same_client_trans c1 c2 c3 :
  same_client c1 c2 -> same_client c2 c3 -> same_client c1 c3.
Proof. unfold same_client. intuition congruence. Qed.

Lemma write_event_same cs slot qe cs' :
  write_event cs slot qe = Ok cs' ->
  same_client cs cs' /\
  session_visible cs' = session_visible cs /\
  session_focused cs' = session_focused cs.
Proof.
  unfold write_event. intros H.
  destruct (array_get _ _); simpl in H; try discriminate.
  injection H as <-. unfold same_client. simpl. rewrite length_insert. auto 12.
Qed.

Lemma with_clock_Ok {A} clk (f : Z -> result A) n a n' :
  with_clock clk f n = Ok (a, n') -> f (clk n) = Ok a /\ n' = S n.
Proof.
  unfold with_clock. destruct (f (clk n)); simpl; intros H; try discriminate.
  injection H as <- <-. auto.
Qed.

Lemma transition_same clk cs visible n cs' n' :
  with_clock clk (transition_overlay_visibility cs visible) n = Ok (cs', n') ->
  same_client cs cs' /\
  session_visible cs' = session_visible cs /\
  session_focused cs' = session_focused cs.
Proof.
  intros H. apply with_clock_Ok in H as [H _].
  unfold transition_overlay_visibility in H. eapply write_event_same, H.
Qed.

(** [handle_overlay_client_events] touches the event ring only. *)
Lemma handle_overlay_client_events_same clk ics a p n ics' n' :
  handle_overlay_client_events clk ics a p n = Ok (ics', n') ->
  same_client ics ics' /\
  session_visible ics' = session_visible ics /\
  session_focused ics' = session_focused ics.
Proof.
  unfold handle_overlay_client_events.
  destruct (session_overlay ics); [|intros [= <- <-]; split; [apply same_client_refl | auto]].
  unfold clocked_bind, clocked_ret.
  assert (Hstep : forall (c : bool) (v : bool) x m x' m',
            (if c then with_clock clk (transition_overlay_visibility x v)
             else fun k => Ok (x, k)) m = Ok (x', m') ->
            same_client x x' /\ session_visible x' = session_visible x /\
            session_focused x' = session_focused x).
  { intros c v x m x' m'. destruct c.
    - apply transition_same.
    - intros [= <- <-]. split; [apply same_client_refl | auto]. }
  intros H.
  destruct ((0 <=? a) && (0 <=? p)) eqn:E1.
  - destruct (with_clock clk (transition_overlay_visibility ics false) n)
      as [[c1 n1]| | |] eqn:H1; simpl in H; try discriminate.
    destruct (with_clock clk (transition_overlay_visibility c1 true) n1)
      as [[c2 n2]| | |] eqn:H2; simpl in H; try discriminate.
    apply transition_same in H1 as (S1 & V1 & F1).
    apply transition_same in H2 as (S2 & V2 & F2).
    destruct ((if (0 <=? a) && (p <? 0)
               then with_clock clk (transition_overlay_visibility c2 true)
               else fun k => Ok (c2, k)) n2) as [[c3 n3]| | |] eqn:H3;
      simpl in H; try discriminate.
    apply Hstep in H3 as (S3 & V3 & F3).
    apply Hstep in H as (S4 & V4 & F4).
    split; [eauto using same_client_trans | split; congruence].
  - simpl in H.
    destruct ((if (0 <=? a) && (p <? 0)
               then with_clock clk (transition_overlay_visibility ics true)
               else fun k => Ok (ics, k)) n) as [[c3 n3]| | |] eqn:H3;
      simpl in H; try discriminate.
    apply Hstep in H3 as (S3 & V3 & F3).
    apply Hstep in H as (S4 & V4 & F4).
    split; [eauto using same_client_trans | split; congruence].
Qed.

(** The flags [handle_focused_client_events] leaves. *)
Definition focused_after (ics : ipc_client_state) (active_id : Z) : bool :=
  (0 <=? active_id) && (server_thread_index ics =? active_id).

Definition visible_after (ics : ipc_client_state) (active_id : Z) : bool :=
  (0 <=? active_id) && (session_overlay ics || (server_thread_index ics =? active_id)).

Lemma handle_focused_client_events_same clk ics a p n ics' n' :
  handle_focused_client_events clk ics a p n = Ok (ics', n') ->
  same_client ics ics' /\
  if (a =? -1) && (p =? -1)
  then session_visible ics' = session_visible ics /\
       session_focused ics' = session_focused ics
  else session_visible ics' = visible_after ics a /\
       session_focused ics' = focused_after ics a.
Proof.
  unfold handle_focused_client_events, visible_after, focused_after.
  destruct ((a =? -1) && (p =? -1)).
  - unfold clocked_ret. intros [= <- <-]. split; [apply same_client_refl | auto].
  - cbn [session_overlay set_session_visible set_session_focused server_thread_index].
    destruct (session_overlay ics) eqn:Eo, (server_thread_index ics =? a) eqn:Ei,
      (0 <=? a) eqn:Ea;
      cbn [andb orb session_overlay set_session_visible set_session_focused
           server_thread_index];
      rewrite ?Eo, ?Ei;
      unfold clocked_ret; intros H;
      try (apply with_clock_Ok in H as [H _];
           unfold send_client_state in H;
           apply write_event_same in H as (S & V & F);
           rewrite V, F; unfold same_client in *; cbn in *; auto);
      try (injection H as <- <-; unfold same_client; cbn; auto 12).
Qed.

(** What the event loop has done to the clients from index [i] on. *)
Lemma events_loop_clients clk :
  forall todo s i n s' n',
    0 <= i ->
    events_loop clk s todo i n = Ok (s', n') ->
    length (threads s') = length (threads s) /\
    xdevs s' = xdevs s /\ current_slot_index s' = current_slot_index s /\
    forall j c,
      threads s !! j = Some c ->
      exists c',
        threads s' !! j = Some c' /\ same_client c c' /\
        if decide (Z.to_nat i <= j < Z.to_nat i + todo)%nat
        then
          if (0 <=? server_thread_index c)
             && negb ((active_client_index s =? -1)
                      && (last_active_client_index s =? -1))
          then session_visible c' = visible_after c (active_client_index s) /\
               session_focused c' = focused_after c (active_client_index s)
          else session_visible c' = session_visible c /\
               session_focused c' = session_focused c
        else c' = c.
Proof.
  induction todo as [|todo IH]; intros s i n s' n' Hi; simpl.
  - unfold clocked_ret. intros [= <- <-]. repeat split; auto.
    intros j c Hc. exists c. split; [exact Hc|]. split; [apply same_client_refl|].
    destruct (decide _); [lia | reflexivity].
  - unfold clocked_bind, lift_result, clocked_ret.
    destruct (array_get (threads s) i) as [ics| | |] eqn:Hget; simpl;
      try discriminate.
    apply array_get_Ok in Hget as [_ Hget].
    destruct (0 <=? server_thread_index ics) eqn:Hconn.
    + destruct (handle_focused_client_events clk ics _ _ n) as [[c1 n1]| | |] eqn:H1;
        simpl; try discriminate.
      destruct (handle_overlay_client_events clk c1 _ _ n1) as [[c2 n2]| | |] eqn:H2;
        simpl; try discriminate.
      apply handle_focused_client_events_same in H1 as (S1 & Fl1).
      apply handle_overlay_client_events_same in H2 as (S2 & V2 & F2).
      intros H. apply IH in H as (Hlen & Hx & Hsl & Hall); [|lia].
      cbn [threads set_threads active_client_index last_active_client_index
           xdevs current_slot_index] in *.
      rewrite length_insert in Hlen.
      split; [exact Hlen|]. split; [exact Hx|]. split; [exact Hsl|].
      intros j c Hc.
      destruct (decide (j = Z.to_nat i)) as [->|Hne].
      * rewrite Hget in Hc. injection Hc as <-.
        destruct (Hall (Z.to_nat i) c2) as (c' & Hc' & Sc' & Hcase).
        { apply list_lookup_insert_eq. eapply lookup_lt_Some, Hget. }
        exists c'. split; [exact Hc'|].
        destruct (decide (Z.to_nat (i + 1) <= Z.to_nat i < Z.to_nat (i + 1) + todo)%nat);
          [lia|].
        subst c'. split; [eauto using same_client_trans|].
        destruct (decide _); [|lia].
        rewrite Hconn. cbn [andb].
        destruct ((active_client_index s =? -1) && (last_active_client_index s =? -1));
          cbn [negb]; destruct Fl1 as [Hv Hf]; split; congruence.
      * destruct (Hall j c) as (c' & Hc' & Sc' & Hcase).
        { rewrite list_lookup_insert_ne by congruence. exact Hc. }
        exists c'. split; [exact Hc'|]. split; [exact Sc'|].
        destruct (decide (Z.to_nat (i + 1) <= j < Z.to_nat (i + 1) + todo)%nat);
          destruct (decide (Z.to_nat i <= j < Z.to_nat i + S todo)%nat);
          try lia; exact Hcase.
    + intros H. apply IH in H as (Hlen & Hx & Hsl & Hall); [|lia].
      split; [exact Hlen|]. split; [exact Hx|]. split; [exact Hsl|].
      intros j c Hc. destruct (Hall j c Hc) as (c' & Hc' & Sc' & Hcase).
      exists c'. split; [exact Hc'|]. split; [exact Sc'|].
      destruct (decide (j = Z.to_nat i)) as [->|Hne].
      * rewrite Hget in Hc. injection Hc as <-.
        destruct (decide (Z.to_nat (i + 1) <= Z.to_nat i < Z.to_nat (i + 1) + todo)%nat);
          [lia|].
        subst c'. destruct (decide _); [|lia].
        rewrite Hconn. cbn [andb]. auto.
      * destruct (decide (Z.to_nat (i + 1) <= j < Z.to_nat (i + 1) + todo)%nat);
          destruct (decide (Z.to_nat i <= j < Z.to_nat i + S todo)%nat);
          try lia; exact Hcase.
Qed.

(** The test at the head of [update_server_state]. *)
Definition returns_early (oob : option ipc_client_state) (s : ipc_server) : bool :=
  (0 <=? active_client_index s)
  && match threads_at oob s (active_client_index s) with
     | Ok ics => session_active ics
                 && (active_client_index s =? last_active_client_index s)
     | _ => false
     end.

Lemma update_server_state_early clk oob s n :
  returns_early oob s = true -> update_server_state clk oob s n = Ok (s, n).
Proof.
  unfold returns_early, update_server_state. intros H.
  apply andb_true_iff in H as [Hpos H].
  destruct (threads_at oob s (active_client_index s)) as [ics| | |] eqn:Hcur;
    try discriminate.
  unfold clocked_bind at 1. rewrite Hpos.
  unfold clocked_bind, lift_result, clocked_ret. simpl.
  rewrite H. reflexivity.
Qed.

(** The flags of a client after the event loop of an update that has made
    [active] the active application, [last] being the one before. *)
Definition flags_updated (active last : Z) (c c' : ipc_client_state) : Prop :=
  if (0 <=? server_thread_index c) && negb ((active =? -1) && (last =? -1))
  then session_visible c' = visible_after c active /\
       session_focused c' = focused_after c active
  else session_visible c' = session_visible c /\
       session_focused c' = session_focused c.

Lemma update_server_state_shape clk oob s n s1 n1 :
  update_server_state clk oob s n = Ok (s1, n1) ->
  (returns_early oob s = true /\ s1 = s /\ n1 = n) \/
  (returns_early oob s = false /\
   exists current,
     threads_at oob s (active_client_index s) = Ok current /\
     active_client_index s1 = chosen_active s current /\
     last_active_client_index s1 = chosen_active s current /\
     length (threads s1) = length (threads s) /\
     xdevs s1 = xdevs s /\ current_slot_index s1 = current_slot_index s /\
     forall j c,
       threads s !! j = Some c ->
       exists c',
         threads s1 !! j = Some c' /\ same_client c c' /\
         flags_updated (chosen_active s current) (last_active_client_index s) c c').
Proof.
  destruct (returns_early oob s) eqn:He.
  - rewrite (update_server_state_early clk oob s n He). intros [= <- <-]. auto.
  - intros H. right. split; [reflexivity|]. pose proof H as Hupd.
    unfold update_server_state in H. unfold clocked_bind at 1 in H.
    unfold returns_early in He.
    destruct (threads_at oob s (active_client_index s)) as [current| | |] eqn:Hcur.
    2-4: (destruct (0 <=? active_client_index s);
          unfold clocked_bind, lift_result, clocked_ret in H;
          simpl in H; try discriminate;
          destruct (fallback_loop (threads s) 0 true (-1));
          unfold clocked_bind, lift_result, clocked_ret in H;
          simpl in H; discriminate).
    exists current. split; [reflexivity|].
    assert (Hfirst :
      (if 0 <=? active_client_index s
       then clocked_bind (lift_result (Ok current))
              (fun ics =>
                 clocked_ret (session_active ics
                     && (active_client_index s =? last_active_client_index s)))
       else clocked_ret false) n = Ok (false, n)).
    { destruct (0 <=? active_client_index s); [|reflexivity].
      unfold clocked_bind, lift_result, clocked_ret. simpl.
      simpl in He. rewrite He. reflexivity. }
    rewrite Hfirst in H. simpl in H.
    pose proof (update_server_state_choice clk oob s n s1 n1 current Hcur) as Hch.
    assert (Hearly : (0 <=? active_client_index s) && session_active current
                     && (active_client_index s =? last_active_client_index s) = false).
    { rewrite <- andb_assoc. exact He. }
    specialize (Hch Hearly).
    destruct (Hch Hupd) as [Ha Hl]. split; [exact Ha|]. split; [exact Hl|].
    unfold chosen_active in *.
    destruct (fallback_loop (threads s) 0 true (-1)) as [set_idle fb].
    unfold clocked_bind, lift_result, clocked_ret in H.
    simpl in H.
    match type of H with
    | rbind (events_loop clk ?s2 _ _ _) _ = _ => set (s2' := s2) in *
    end.
    destruct (events_loop clk s2' (length (threads s2')) 0 n) as [[s3 n3]| | |] eqn:Hev;
      simpl in H; try discriminate.
    injection H as <- <-.
    apply events_loop_clients in Hev as (Hlen & Hx & Hsl & Hall); [|lia].
    assert (Hthreads : threads s2' = threads s).
    { subst s2'. destruct set_idle;
        destruct (negb (negb (session_overlay current) && (0 <=? active_client_index s)
                        && session_active current)); reflexivity. }
    assert (Hxd : xdevs s2' = xdevs s /\ current_slot_index s2' = current_slot_index s
                  /\ last_active_client_index s2' = last_active_client_index s).
    { subst s2'. destruct set_idle;
        destruct (negb (negb (session_overlay current) && (0 <=? active_client_index s)
                        && session_active current)); auto. }
    assert (Hact : active_client_index s2' =
                   if set_idle then -1
                   else if negb (session_overlay current) && (0 <=? active_client_index s)
                           && session_active current
                        then active_client_index s else fb).
    { subst s2'. destruct set_idle;
        destruct (negb (session_overlay current) && (0 <=? active_client_index s)
                  && session_active current); reflexivity. }
    destruct Hxd as (Hx2 & Hsl2 & Hl2).
    cbn [threads xdevs current_slot_index set_last_active_client_index].
    rewrite Hthreads in Hlen, Hall.
    split; [exact Hlen|]. split; [congruence|]. split; [congruence|].
    intros j c Hc. destruct (Hall j c Hc) as (c' & Hc' & Sc' & Hcase).
    exists c'. split; [exact Hc'|]. split; [exact Sc'|].
    destruct (decide _) as [_|Hout].
    + unfold flags_updated. rewrite <- Hact, <- Hl2. exact Hcase.
    + exfalso. apply Hout. apply lookup_lt_Some in Hc. rewrite ?Hthreads. lia.
Qed.

(** X22: an update of the server state changes nothing of a client but
    its visible and focused flags and the contents of its event ring.
    Whenever [update_server_state] returns, the server has the same number of
    clients and the same devices, and every client has the thread index,
    session-active and overlay flags, z order, layers and swapchains it had
    before, and an event ring of the same size: connections, the layer
    stacks and their z order are out of its reach. *)
Theorem update_server_state_keeps_clients clk oob s n s1 n1 :
  update_server_state clk oob s n = Ok (s1, n1) ->
  length (threads s1) = length (threads s) /\
  xdevs s1 = xdevs s /\ current_slot_index s1 = current_slot_index s /\
  forall j c,
    threads s !! j = Some c ->
    exists c',
      threads s1 !! j = Some c' /\
      server_thread_index c' = server_thread_index c /\
      session_active c' = session_active c /\
      session_overlay c' = session_overlay c /\
      z_order c' = z_order c /\
      num_layers c' = num_layers c /\
      layers c' = layers c /\
      xscs c' = xscs c /\
      length (queued_events c') = length (queued_events c).
Proof.
  intros H. apply update_server_state_shape in H as [(_ & -> & _)|(_ & cur & H)].
  - repeat split. intros j c Hc. exists c. repeat split. exact Hc.
  - destruct H as (_ & _ & _ & Hlen & Hx & Hsl & Hall).
    split; [exact Hlen|]. split; [exact Hx|]. split; [exact Hsl|].
    intros j c Hc. destruct (Hall j c Hc) as (c' & Hc' & Sc' & _).
    exists c'. split; [exact Hc' | exact Sc'].
Qed.

(** The server with two candidates after its update, with the clock
    started at 100. *)
Definition queued (c : ipc_client_state) (t : Z) (visible focused : bool)
    : ipc_client_state :=
  set_queued_events (set_session_focused (set_session_visible c visible) focused)
    [mk_ipc_queued_event t true (XRT_COMPOSITOR_EVENT_STATE_CHANGE visible focused);
     empty_slot].

Definition server_two_candidates_updated : ipc_server :=
  mk_ipc_server
    [queued (connected 0 false true) 100 false false;
     queued (connected 1 false true) 101 true true;
     queued (connected 2 false false) 102 false false]
    1 1 0 [].

Lemma server_two_candidates_update :
  update_server_state (clock_from 100) None server_two_candidates 0%nat
  = Ok (server_two_candidates_updated, 3%nat).
Proof. vm_compute. reflexivity. Qed.

Lemma update_server_state_keeps_clients_witness :
  length (threads server_two_candidates_updated)
    = length (threads server_two_candidates) /\
  xdevs server_two_candidates_updated = xdevs server_two_candidates /\
  current_slot_index server_two_candidates_updated
    = current_slot_index server_two_candidates /\
  forall j c,
    threads server_two_candidates !! j = Some c ->
    exists c',
      threads server_two_candidates_updated !! j = Some c' /\
      server_thread_index c' = server_thread_index c /\
      session_active c' = session_active c /\
      session_overlay c' = session_overlay c /\
      z_order c' = z_order c /\
      num_layers c' = num_layers c /\
      layers c' = layers c /\
      xscs c' = xscs c /\
      length (queued_events c') = length (queued_events c).
Proof.
  apply (update_server_state_keeps_clients (clock_from 100) None
           server_two_candidates 0%nat server_two_candidates_updated 3%nat).
  vm_compute. reflexivity.
Defined.

Lemma fallback_loop_found : forall clients i set_idle fb set_idle' fb',
  fallback_loop clients i set_idle fb = (set_idle', fb') ->
  (set_idle' = set_idle /\ fb' = fb) \/
  (set_idle' = false /\ i <= fb' /\
   exists c, clients !! Z.to_nat (fb' - i) = Some c /\ displayable c = true).
Proof.
  induction clients as [|ics clients IH]; intros i set_idle fb set_idle' fb'; simpl.
  - intros [= <- <-]. auto.
  - destruct (negb (session_overlay ics) && (0 <=? server_thread_index ics)
              && session_active ics) eqn:Hd; intros H; apply IH in H.
    + right. destruct H as [[-> ->]|(-> & Hle & c & Hc & Hdc)].
      * split; [reflexivity|]. split; [lia|]. exists ics.
        rewrite Z.sub_diag. split; [reflexivity | exact Hd].
      * split; [reflexivity|]. split; [lia|]. exists c. split; [|exact Hdc].
        replace (Z.to_nat (fb' - i)) with (S (Z.to_nat (fb' - (i + 1)))) by lia.
        exact Hc.
    + destruct H as [[-> ->]|(-> & Hle & c & Hc & Hdc)]; [auto|].
      right. split; [reflexivity|]. split; [lia|]. exists c. split; [|exact Hdc].
      replace (Z.to_nat (fb' - i)) with (S (Z.to_nat (fb' - (i + 1)))) by lia.
      exact Hc.
Qed.

(** X23: after an update of the server state only the active application
    is focused.  When [update_server_state] returns without taking its early
    exit, and either an application is active afterwards or one was before,
    then every connected client is focused exactly if it is the new active
    application, and visible exactly if some application is active and the
    client is that application or an overlay; the previous-active index has
    caught up with the active index.  So two focused connected clients have
    the same thread index, and with no application active none is focused or
    visible. *)
Theorem update_server_state_focus clk oob s n s1 n1 :
  update_server_state clk oob s n = Ok (s1, n1) ->
  returns_early oob s = false ->
  active_client_index s1 <> -1 \/ last_active_client_index s <> -1 ->
  last_active_client_index s1 = active_client_index s1 /\
  forall j c',
    threads s1 !! j = Some c' -> 0 <= server_thread_index c' ->
    session_focused c'
      = (0 <=? active_client_index s1)
        && (server_thread_index c' =? active_client_index s1) /\
    session_visible c'
      = (0 <=? active_client_index s1)
        && (session_overlay c' || (server_thread_index c' =? active_client_index s1)).
Proof.
  intros H He Hact.
  apply update_server_state_shape in H as [(He' & _)|(_ & cur & H)]; [congruence|].
  destruct H as (_ & Ha & Hl & Hlen & _ & _ & Hall).
  split; [congruence|]. intros j c' Hc' Hconn.
  destruct (lookup_lt_is_Some_2 (threads s) j) as [c Hc].
  { rewrite <- Hlen. eapply lookup_lt_Some, Hc'. }
  destruct (Hall j c Hc) as (c'' & Hc'' & Sc & Hfl).
  rewrite Hc' in Hc''. injection Hc'' as <-.
  destruct Sc as (Hi & _ & Ho & _).
  unfold flags_updated in Hfl. rewrite <- Ha in Hfl. rewrite <- Hi in Hfl.
  replace (0 <=? server_thread_index c') with true in Hfl
    by (symmetry; apply Z.leb_le; exact Hconn).
  replace ((active_client_index s1 =? -1) && (last_active_client_index s =? -1))
    with false in Hfl.
  - cbn [andb negb] in Hfl. unfold visible_after, focused_after in Hfl.
    rewrite <- Hi, <- Ho in Hfl. destruct Hfl as [Hv Hf]. auto.
  - symmetry. apply andb_false_iff.
    destruct Hact as [Hn|Hn]; [left | right]; apply Z.eqb_neq; exact Hn.
Qed.

Lemma update_server_state_focus_witness :
  last_active_client_index server_two_candidates_updated
    = active_client_index server_two_candidates_updated /\
  forall j c',
    threads server_two_candidates_updated !! j = Some c' ->
    0 <= server_thread_index c' ->
    session_focused c'
      = (0 <=? active_client_index server_two_candidates_updated)
        && (server_thread_index c'
            =? active_client_index server_two_candidates_updated) /\
    session_visible c'
      = (0 <=? active_client_index server_two_candidates_updated)
        && (session_overlay c'
            || (server_thread_index c'
                =? active_client_index server_two_candidates_updated)).
Proof.
  apply (update_server_state_focus (clock_from 100) None server_two_candidates 0%nat
           server_two_candidates_updated 3%nat).
  - vm_compute. reflexivity.
  - reflexivity.
  - left. simpl. lia.
Defined.

Lemma threads_at_same oob s s1 i c :
  length (threads s1) = length (threads s) ->
  (forall j c, threads s !! j = Some c ->
     exists c', threads s1 !! j = Some c' /\ same_client c c') ->
  threads_at oob s i = Ok c ->
  exists c', threads_at oob s1 i = Ok c' /\ session_active c' = session_active c.
Proof.
  intros Hlen Hall. unfold threads_at, array_get.
  destruct (i <? 0); [destruct oob; [|discriminate]; intros [= <-]; eauto|].
  destruct (threads s !! Z.to_nat i) as [x|] eqn:Hx.
  - intros [= <-]. destruct (Hall _ _ Hx) as (c' & -> & Sc).
    exists c'. split; [reflexivity | apply Sc].
  - apply lookup_ge_None in Hx. rewrite <- Hlen in Hx. apply lookup_ge_None in Hx.
    rewrite Hx. destruct oob; [|discriminate]. intros [= <-]. eauto.
Qed.

(** X24: an update that has made an application active has nothing left
    to do.  If [update_server_state] returns with an active application
    ([active_client_index] not negative), calling it again on the result
    returns the same server state without reading the clock: no client gets
    a second event for the same change. *)
Theorem update_server_state_settles clk oob s n s1 n1 :
  update_server_state clk oob s n = Ok (s1, n1) ->
  0 <= active_client_index s1 ->
  forall n2, update_server_state clk oob s1 n2 = Ok (s1, n2).
Proof.
  intros H Hpos n2. apply update_server_state_early.
  apply update_server_state_shape in H as [(He & -> & _)|(_ & cur & H)];
    [exact He|].
  destruct H as (Hcur & Ha & Hl & Hlen & _ & _ & Hall).
  assert (Hall' : forall j c, threads s !! j = Some c ->
                    exists c', threads s1 !! j = Some c' /\ same_client c c').
  { intros j c Hc. destruct (Hall j c Hc) as (c' & ? & ? & _). eauto. }
  unfold returns_early. apply andb_true_iff. split; [apply Z.leb_le; exact Hpos|].
  assert (Hact : exists c1, threads_at oob s1 (active_client_index s1) = Ok c1 /\
                            session_active c1 = true).
  { rewrite Ha in *. unfold chosen_active in *.
    destruct (fallback_loop (threads s) 0 true (-1)) as [set_idle fb] eqn:Hfb.
    destruct set_idle; [lia|].
    destruct (negb (session_overlay cur) && (0 <=? active_client_index s)
              && session_active cur) eqn:Htest.
    - destruct (threads_at_same oob s s1 _ cur Hlen Hall' Hcur) as (c1 & Hc1 & Hs1).
      exists c1. split; [exact Hc1|]. rewrite Hs1.
      apply andb_true_iff in Htest as [_ Htest]. exact Htest.
    - apply fallback_loop_found in Hfb as [[Hf _]|(_ & Hle & c & Hc & Hd)];
        [discriminate|].
      rewrite Z.sub_0_r in Hc.
      destruct (Hall' _ _ Hc) as (c1 & Hc1 & Sc).
      exists c1. split.
      + unfold threads_at.
        replace (array_get (threads s1) fb) with (Ok c1); [reflexivity|].
        symmetry. apply array_get_Ok. split; [lia | exact Hc1].
      + destruct Sc as (_ & -> & _). unfold displayable in Hd.
        apply andb_true_iff in Hd as [_ Hd]. exact Hd. }
  destruct Hact as (c1 & -> & ->). rewrite Hl, Ha, Z.eqb_refl. reflexivity.
Qed.

Lemma update_server_state_settles_witness :
  update_server_state (clock_from 100) None server_two_candidates_updated 3%nat
  = Ok (server_two_candidates_updated, 3%nat).
Proof.
  refine (update_server_state_settles (clock_from 100) None server_two_candidates
            0%nat server_two_candidates_updated 3%nat _ _ 3%nat).
  - vm_compute. reflexivity.
  - simpl. lia.
Defined.

End ServerUpdateFacts.

(** ** IPC server: the layers handed to the compositor *)

Module LayerSafetyFacts.
Import CInt CIntFacts ResultFacts IpcServer.

(** A layer call that names a device of the server and swapchains of the
    client, none of them [NULL]. *)
Definition valid_call (s : ipc_server) (call : layer_call) : Prop :=
  match call with
  | Layer_stereo_projection client xdev lsc rsc =>
      xdevs s !! Z.to_nat xdev = Some true /\
      exists ics,
        threads s !! Z.to_nat client = Some ics /\
        xscs ics !! Z.to_nat lsc = Some true /\
        xscs ics !! Z.to_nat rsc = Some true
  | Layer_quad client xdev sc =>
      xdevs s !! Z.to_nat xdev = Some true /\
      exists ics,
        threads s !! Z.to_nat client = Some ics /\
        xscs ics !! Z.to_nat sc = Some true
  end.

Lemma _update_projection_layer_valid s client ics layer call :
  threads s !! Z.to_nat client = Some ics ->
  _update_projection_layer s client ics layer = Ok (Some call) ->
  valid_call s call.
Proof.
  intros Hics. unfold _update_projection_layer.
  destruct (array_get (xdevs s) (xdev_id layer)) as [xdev| | |] eqn:Hx;
    simpl; try discriminate.
  destruct (array_get (xscs ics) (fst (swapchain_ids layer))) as [l| | |] eqn:Hl;
    simpl; try discriminate.
  destruct (array_get (xscs ics) (snd (swapchain_ids layer))) as [r| | |] eqn:Hr;
    simpl; try discriminate.
  apply array_get_Ok in Hx as [_ Hx]. apply array_get_Ok in Hl as [_ Hl].
  apply array_get_Ok in Hr as [_ Hr].
  destruct l, r, xdev; simpl; try discriminate.
  intros [= <-]. simpl. eauto.
Qed.

Lemma _update_quad_layer_valid s client ics layer call :
  threads s !! Z.to_nat client = Some ics ->
  _update_quad_layer s client ics layer = Ok (Some call) ->
  valid_call s call.
Proof.
  intros Hics. unfold _update_quad_layer.
  destruct (array_get (xdevs s) (xdev_id layer)) as [xdev| | |] eqn:Hx;
    simpl; try discriminate.
  destruct (array_get (xscs ics) (fst (swapchain_ids layer))) as [l| | |] eqn:Hl;
    simpl; try discriminate.
  apply array_get_Ok in Hx as [_ Hx]. apply array_get_Ok in Hl as [_ Hl].
  destruct l, xdev; simpl; try discriminate.
  intros [= <-]. simpl. eauto.
Qed.

Lemma render_layers_valid s client ics :
  threads s !! Z.to_nat client = Some ics ->
  forall todo j ok calls,
    render_layers s client ics todo j = Ok (ok, calls) ->
    Forall (valid_call s) calls.
Proof.
  intros Hics. induction todo as [|todo IH]; intros j ok calls; simpl.
  - intros [= <- <-]. constructor.
  - destruct (array_get (layers ics) j) as [layer| | |]; simpl; try discriminate.
    destruct (layer_type layer).
    + destruct (_update_projection_layer s client ics layer) as [[call|]| | |] eqn:Hp;
        simpl; try discriminate.
      * destruct (render_layers s client ics todo (j + 1)) as [[ok' calls']| | |] eqn:Hr;
          simpl; try discriminate.
        intros [= <- <-]. constructor.
        -- eapply _update_projection_layer_valid; eassumption.
        -- eapply IH; eassumption.
      * intros [= <- <-]. constructor.
    + destruct (_update_quad_layer s client ics layer) as [[call|]| | |] eqn:Hp;
        simpl; try discriminate.
      * destruct (render_layers s client ics todo (j + 1)) as [[ok' calls']| | |] eqn:Hr;
          simpl; try discriminate.
        intros [= <- <-]. constructor.
        -- eapply _update_quad_layer_valid; eassumption.
        -- eapply IH; eassumption.
      * intros [= <- <-]. constructor.
    + apply IH.
Qed.

Lemma render_stack_valid s : forall z_data ok calls,
  render_stack s z_data = Ok (ok, calls) -> Forall (valid_call s) calls.
Proof.
  induction z_data as [|zd z_data IH]; intros ok calls; simpl.
  - intros [= <- <-]. constructor.
  - destruct (index zd <? 0); [apply IH|].
    destruct (array_get (threads s) (index zd)) as [ics| | |] eqn:Hics; simpl;
      try discriminate.
    apply array_get_Ok in Hics as [_ Hics].
    destruct (render_layers s (index zd) ics (Z.to_nat (num_layers ics)) 0)
      as [[ok1 calls1]| | |] eqn:Hl; simpl; try discriminate.
    pose proof (render_layers_valid s _ ics Hics _ _ _ _ Hl) as Hv1.
    destruct ok1.
    + destruct (render_stack s z_data) as [[ok2 calls2]| | |] eqn:Hs; simpl;
        try discriminate.
      intros [= <- <-]. apply Forall_app. split; [exact Hv1 | eapply IH; reflexivity].
    + intros [= <- <-]. exact Hv1.
Qed.

(** Whatever run of [_update_layers] returns, the calls it has made are
    valid. *)
Lemma _update_layers_calls_valid
    (qsort : (_z_sort_data -> _z_sort_data -> Z) ->
             list _z_sort_data -> list _z_sort_data)
    (s : ipc_server) :
  forall ok calls,
    _update_layers qsort s = Ok (ok, calls) -> Forall (valid_call s) calls.
Proof.
  intros ok calls. unfold _update_layers.
  destruct (sorted_z_data qsort s) as [z_data| | |]; simpl; try discriminate.
  apply render_stack_valid.
Qed.

(** *** A pass over stacks whose indices stay inside the arrays *)

Definition index_in {A} (l : list A) (i : Z) : bool :=
  (0 <=? i) && (i <? Z.of_nat (length l)).

(** The device and swapchain indices a layer entry makes the loop read. *)
Definition layer_in_bounds (s : ipc_server) (ics : ipc_client_state)
    (layer : ipc_layer_entry) : bool :=
  match layer_type layer with
  | XRT_LAYER_STEREO_PROJECTION =>
      index_in (xdevs s) (xdev_id layer)
      && index_in (xscs ics) (fst (swapchain_ids layer))
      && index_in (xscs ics) (snd (swapchain_ids layer))
  | XRT_LAYER_QUAD =>
      index_in (xdevs s) (xdev_id layer)
      && index_in (xscs ics) (fst (swapchain_ids layer))
  | XRT_LAYER_other => true
  end.

Definition client_in_bounds (s : ipc_server) (ics : ipc_client_state) : bool :=
  (Z.to_nat (num_layers ics) <=? length (layers ics))%nat
  && forallb (layer_in_bounds s ics) (take (Z.to_nat (num_layers ics)) (layers ics)).

(** Every client the render loop visits has its [num_layers] layers inside
    [layers], and these name indices inside [xdevs] and [xscs]. *)
Definition stacks_in_bounds (s : ipc_server) : bool :=
  forallb id
    (imap (fun i ics => implb (LayerFacts.is_enabled s i ics) (client_in_bounds s ics))
       (threads s)).

(** The call a layer entry asks for; none for a layer of a type the loop
    skips. *)
Definition layer_call_of (client : Z) (layer : ipc_layer_entry) : option layer_call :=
  match layer_type layer with
  | XRT_LAYER_STEREO_PROJECTION =>
      Some (Layer_stereo_projection client (xdev_id layer)
              (fst (swapchain_ids layer)) (snd (swapchain_ids layer)))
  | XRT_LAYER_QUAD =>
      Some (Layer_quad client (xdev_id layer) (fst (swapchain_ids layer)))
  | XRT_LAYER_other => None
  end.

(** The calls the layers of a client ask for, and those of a list of
    clients, in order. *)
Definition client_layer_calls (s : ipc_server) (i : Z) : list layer_call :=
  match threads s !! Z.to_nat i with
  | Some ics => omap (layer_call_of i) (take (Z.to_nat (num_layers ics)) (layers ics))
  | None => []
  end.

Definition stack_layer_calls (s : ipc_server) (order : list Z) : list layer_call :=
  concat (map (client_layer_calls s) order).

(** [calls] are the calls of [wanted] up to the first one that is not
    valid; [ok] tells whether all of them were. *)
Definition stops_at_invalid (s : ipc_server) (ok : bool) (calls wanted : list layer_call)
    : Prop :=
  Forall (valid_call s) calls /\
  calls `prefix_of` wanted /\
  if ok then calls = wanted
  else exists c, wanted !! length calls = Some c /\ ~ valid_call s c.

Lemma stops_at_invalid_nil s : stops_at_invalid s true [] [].
Proof. split; [constructor|]. split; reflexivity. Qed.

Lemma stops_at_invalid_refused s c wanted :
  ~ valid_call s c -> stops_at_invalid s false [] (c :: wanted).
Proof.
  intros Hc. split; [constructor|]. split; [apply prefix_nil|].
  exists c. split; [reflexivity | exact Hc].
Qed.

Lemma stops_at_invalid_cons s c ok calls wanted :
  valid_call s c -> stops_at_invalid s ok calls wanted ->
  stops_at_invalid s ok (c :: calls) (c :: wanted).
Proof.
  intros Hc (Hv & Hp & Ho). split; [constructor; assumption|].
  split; [apply prefix_cons; exact Hp|].
  destruct ok; [congruence|]. exact Ho.
Qed.

Lemma stops_at_invalid_app s calls1 ok calls2 wanted2 :
  Forall (valid_call s) calls1 ->
  stops_at_invalid s ok calls2 wanted2 ->
  stops_at_invalid s ok (calls1 ++ calls2) (calls1 ++ wanted2).
Proof.
  intros H1. induction H1 as [|c calls1 Hc H1 IH]; intros H2; [exact H2|].
  simpl. apply stops_at_invalid_cons; [exact Hc | apply IH, H2].
Qed.

Lemma stops_at_invalid_more s calls wanted more :
  stops_at_invalid s false calls wanted ->
  stops_at_invalid s false calls (wanted ++ more).
Proof.
  intros (Hv & Hp & c & Hc & Hn). split; [exact Hv|].
  split; [apply prefix_app_r; exact Hp|].
  exists c. split; [|exact Hn].
  apply lookup_app_l_Some. exact Hc.
Qed.

Lemma index_in_lookup {A} (l : list A) i :
  index_in l i = true -> exists x, array_get l i = Ok x /\ l !! Z.to_nat i = Some x.
Proof.
  unfold index_in. intros H. apply andb_true_iff in H as [H0 H1].
  apply Z.leb_le in H0. apply Z.ltb_lt in H1.
  destruct (array_get_in_range l i) as [x Hx]; [lia|].
  exists x. split; [exact Hx|]. apply array_get_Ok in Hx. tauto.
Qed.

(** One layer entry: submitted when what it names is there, refused
    otherwise, skipped when it is of another type. *)
Lemma layer_step s client ics layer :
  threads s !! Z.to_nat client = Some ics ->
  layer_in_bounds s ics layer = true ->
  match layer_call_of client layer with
  | Some call =>
      (valid_call s call /\
       match layer_type layer with
       | XRT_LAYER_STEREO_PROJECTION =>
           _update_projection_layer s client ics layer = Ok (Some call)
       | XRT_LAYER_QUAD => _update_quad_layer s client ics layer = Ok (Some call)
       | XRT_LAYER_other => False
       end) \/
      (~ valid_call s call /\
       match layer_type layer with
       | XRT_LAYER_STEREO_PROJECTION =>
           _update_projection_layer s client ics layer = Ok None
       | XRT_LAYER_QUAD => _update_quad_layer s client ics layer = Ok None
       | XRT_LAYER_other => False
       end)
  | None => layer_type layer = XRT_LAYER_other
  end.
Proof.
  intros Hics. unfold layer_in_bounds, layer_call_of.
  destruct (layer_type layer); [| |reflexivity].
  - intros H. apply andb_true_iff in H as [H Hr]. apply andb_true_iff in H as [Hx Hl].
    destruct (index_in_lookup _ _ Hx) as (xdev & Gx & Lx).
    destruct (index_in_lookup _ _ Hl) as (l & Gl & Ll).
    destruct (index_in_lookup _ _ Hr) as (r & Gr & Lr).
    unfold _update_projection_layer. cbv zeta. rewrite Gx, Gl, Gr, !bind_Ok.
    unfold valid_call.
    destruct l, r, xdev; simpl; first
      [ left; split; [eauto|reflexivity]
      | right; split; [|reflexivity];
        intros (Hd & ics' & Hi & H1 & H2);
        rewrite Hics in Hi; injection Hi as <-; congruence ].
  - intros H. apply andb_true_iff in H as [Hx Hl].
    destruct (index_in_lookup _ _ Hx) as (xdev & Gx & Lx).
    destruct (index_in_lookup _ _ Hl) as (l & Gl & Ll).
    unfold _update_quad_layer. cbv zeta. rewrite Gx, Gl, !bind_Ok.
    unfold valid_call.
    destruct l, xdev; simpl; first
      [ left; split; [eauto|reflexivity]
      | right; split; [|reflexivity];
        intros (Hd & ics' & Hi & H1);
        rewrite Hics in Hi; injection Hi as <-; congruence ].
Qed.

(** The inner loop over the layers of one client. *)
Lemma render_layers_stops s client ics :
  threads s !! Z.to_nat client = Some ics ->
  forall todo j,
    (j + todo <= length (layers ics))%nat ->
    forallb (layer_in_bounds s ics) (take todo (drop j (layers ics))) = true ->
    exists ok calls,
      render_layers s client ics todo (Z.of_nat j) = Ok (ok, calls) /\
      stops_at_invalid s ok calls
        (omap (layer_call_of client) (take todo (drop j (layers ics)))).
Proof.
  intros Hics. induction todo as [|todo IH]; intros j Hlen Hb.
  - exists true, []. split; [reflexivity|]. apply stops_at_invalid_nil.
  - destruct (lookup_lt_is_Some_2 (layers ics) j) as [layer Hl]; [lia|].
    rewrite (drop_S _ _ _ Hl) in *. cbn [take forallb] in Hb.
    apply andb_true_iff in Hb as [Hb1 Hb].
    destruct (IH (S j) ltac:(lia) Hb) as (ok & calls & Hr & Hs).
    cbn [render_layers take].
    assert (array_get (layers ics) (Z.of_nat j) = Ok layer) as ->.
    { apply array_get_Ok. rewrite Nat2Z.id. split; [lia|exact Hl]. }
    rewrite bind_Ok.
    replace (Z.of_nat j + 1) with (Z.of_nat (S j)) by lia.
    pose proof (layer_step s client ics layer Hics Hb1) as Hstep.
    cbn [omap list_omap]. change (list_omap _ _ ?f ?l) with (omap f l).
    destruct (layer_call_of client layer) as [call|] eqn:Hcall.
    + destruct Hstep as [[Hv Hu]|[Hn Hu]];
        destruct (layer_type layer); try contradiction; rewrite Hu, !bind_Ok.
      all: first
        [ rewrite Hr, bind_Ok; exists ok, (call :: calls);
          split; [reflexivity|]; apply stops_at_invalid_cons; assumption
        | exists false, []; split; [reflexivity|];
          apply stops_at_invalid_refused; assumption ].
    + rewrite Hstep, bind_Ok. exists ok, calls. split; [exact Hr | exact Hs].
Qed.

Lemma forallb_imap_lookup {A} (l : list A) : forall (f : nat -> A -> bool) n x,
  forallb id (imap f l) = true -> l !! n = Some x -> f n x = true.
Proof.
  induction l as [|y l IH]; intros f n x Hall Hn; [discriminate|].
  rewrite imap_cons in Hall. cbn [forallb] in Hall.
  apply andb_true_iff in Hall as [H0 Hall].
  destruct n as [|n]; [injection Hn as <-; exact H0|].
  apply (IH (f ∘ S) n x Hall Hn).
Qed.

Lemma enabled_client_lookup s i :
  i ∈ LayerFacts.enabled_clients s ->
  exists n ics, i = Z.of_nat n /\ threads s !! n = Some ics /\
                LayerFacts.is_enabled s n ics = true.
Proof.
  unfold LayerFacts.enabled_clients. intros Hi.
  apply list_elem_of_omap in Hi as (o & Ho & Hid). simpl in Hid. subst o.
  apply list_elem_of_lookup in Ho as [n Hn]. rewrite list_lookup_imap in Hn.
  destruct (threads s !! n) as [ics|] eqn:Hics; [|discriminate]. simpl in Hn.
  destruct (LayerFacts.is_enabled s n ics) eqn:He; [|discriminate].
  injection Hn as <-. eauto.
Qed.

(** The loop over the clients in render order. *)
Lemma render_clients_stops s : forall order,
  stacks_in_bounds s = true ->
  Forall (fun i => i ∈ LayerFacts.enabled_clients s) order ->
  exists ok calls,
    LayerFacts.render_clients s order = Ok (ok, calls) /\
    stops_at_invalid s ok calls (stack_layer_calls s order).
Proof.
  intros order Hb Hall. induction Hall as [|i order Hi Hall IH].
  - exists true, []. split; [reflexivity|]. apply stops_at_invalid_nil.
  - destruct IH as (ok2 & calls2 & Hr2 & Hs2).
    destruct (enabled_client_lookup s i Hi) as (n & ics & -> & Hics & Hen).
    pose proof (forallb_imap_lookup _ _ n ics Hb Hics) as Hcb.
    cbv beta in Hcb. rewrite Hen in Hcb. cbn [implb] in Hcb.
    unfold client_in_bounds in Hcb. apply andb_true_iff in Hcb as [Hnl Hlb].
    apply Nat.leb_le in Hnl.
    assert (Hics' : threads s !! Z.to_nat (Z.of_nat n) = Some ics)
      by (rewrite Nat2Z.id; exact Hics).
    destruct (render_layers_stops s (Z.of_nat n) ics Hics'
                (Z.to_nat (num_layers ics)) 0%nat)
      as (ok1 & calls1 & Hr1 & Hs1); [lia|rewrite drop_0; exact Hlb|].
    rewrite drop_0 in Hs1. change (Z.of_nat 0) with 0 in Hr1.
    cbn [LayerFacts.render_clients]. unfold LayerFacts.client_calls.
    assert (array_get (threads s) (Z.of_nat n) = Ok ics) as ->.
    { apply array_get_Ok. split; [lia|exact Hics']. }
    rewrite bind_Ok, Hr1, bind_Ok. cbv beta iota.
    unfold stack_layer_calls. cbn [map concat].
    unfold client_layer_calls at 1. rewrite Hics'.
    fold (stack_layer_calls s order).
    destruct ok1.
    + rewrite Hr2, bind_Ok. cbv beta iota. exists ok2, (calls1 ++ calls2).
      split; [reflexivity|].
      destruct Hs1 as (Hv1 & _ & <-). apply stops_at_invalid_app; assumption.
    + exists false, calls1. split; [reflexivity|].
      apply stops_at_invalid_more. exact Hs1.
Qed.

(** A pass of [_update_layers] over stacks whose indices stay inside the
    arrays. *)
Lemma _update_layers_stops
    (qsort : (_z_sort_data -> _z_sort_data -> Z) ->
             list _z_sort_data -> list _z_sort_data)
    (s : ipc_server) :
  qsort_contract qsort ->
  active_client_index s < IPC_MAX_CLIENTS s ->
  stacks_in_bounds s = true ->
  exists order ok calls,
    render_order qsort s = Ok order /\
    order ≡ₚ LayerFacts.enabled_clients s /\
    _update_layers qsort s = Ok (ok, calls) /\
    stops_at_invalid s ok calls (stack_layer_calls s order).
Proof.
  intros Hq Hlt Hb.
  destruct (LayerFacts.render_order_spec qsort s Hq Hlt)
    as (order & Ho & Hu & Hp & _).
  destruct (render_clients_stops s order Hb) as (ok & calls & Hr & Hs).
  { apply Forall_forall. intros i Hi. rewrite <- Hp. exact Hi. }
  exists order, ok, calls. rewrite Hu. auto.
Qed.

(** X25: no layer reaches the compositor with a [NULL] device or
    swapchain, and a refused layer ends the pass without taking back what
    was submitted.  For any [qsort] that meets the C contract, with
    [active_client_index] below [IPC_MAX_CLIENTS] and, for every client the
    render loop visits, [num_layers] layers inside [layers] that name indices
    inside [xdevs] and [xscs], [_update_layers] returns.  Every layer call it
    has made names a device slot of the server that holds a device and
    swapchain slots of the submitting client that hold swapchains.  The
    calls made are the ones the projection and quad layers of the visited
    clients ask for, in render order: all of them when it returns [true];
    when it returns [false], exactly those in front of the first one that
    names a [NULL] device or swapchain. *)
Theorem _update_layers_submits_valid_layers
    (qsort : (_z_sort_data -> _z_sort_data -> Z) ->
             list _z_sort_data -> list _z_sort_data)
    (s : ipc_server) :
  qsort_contract qsort ->
  active_client_index s < IPC_MAX_CLIENTS s ->
  stacks_in_bounds s = true ->
  exists order ok calls,
    render_order qsort s = Ok order /\
    order ≡ₚ LayerFacts.enabled_clients s /\
    _update_layers qsort s = Ok (ok, calls) /\
    Forall (valid_call s) calls /\
    calls `prefix_of` stack_layer_calls s order /\
    if ok then calls = stack_layer_calls s order
    else exists c,
        stack_layer_calls s order !! length calls = Some c /\ ~ valid_call s c.
Proof. apply _update_layers_stops. Qed.

(** A primary application and two overlays; the second layer of the overlay
    of z order 10 names a swapchain the client does not have. *)
Definition server_refused_layer : ipc_server :=
  mk_ipc_server
    [LayerFacts.client 0 false true 0 [LayerFacts.projection_layer 0 1];
     mk_ipc_client_state 1 true false false true 10 [] 2
       [LayerFacts.quad_layer 0; LayerFacts.quad_layer 1] [true; false];
     LayerFacts.client 2 true true 20 [LayerFacts.quad_layer 1]]
    0 0 0 [true].

(** The pass over it ends at the refused layer with [false]: the two layers
    in front of it stay submitted, the overlay of z order 20 is not
    rendered. *)
Example render_refused_layer :
  render_order LayerFacts.qsort_stable server_refused_layer = Ok [0; 1; 2] /\
  _update_layers LayerFacts.qsort_stable server_refused_layer
  = Ok (false, [Layer_stereo_projection 0 0 0 1; Layer_quad 1 0 0]) /\
  stack_layer_calls server_refused_layer [0; 1; 2]
  = [Layer_stereo_projection 0 0 0 1; Layer_quad 1 0 0; Layer_quad 1 0 1;
     Layer_quad 2 0 1].
Proof. repeat split; vm_compute; reflexivity. Qed.

Lemma _update_layers_submits_valid_layers_witness :
  (exists order ok calls,
     render_order LayerFacts.qsort_stable server_refused_layer = Ok order /\
     order ≡ₚ LayerFacts.enabled_clients server_refused_layer /\
     _update_layers LayerFacts.qsort_stable server_refused_layer = Ok (ok, calls) /\
     Forall (valid_call server_refused_layer) calls /\
     calls `prefix_of` stack_layer_calls server_refused_layer order /\
     if ok then calls = stack_layer_calls server_refused_layer order
     else exists c,
         stack_layer_calls server_refused_layer order !! length calls = Some c /\
         ~ valid_call server_refused_layer c) /\
  _update_layers LayerFacts.qsort_stable server_refused_layer
  = Ok (false, [Layer_stereo_projection 0 0 0 1; Layer_quad 1 0 0]).
Proof.
  split.
  - apply (_update_layers_submits_valid_layers LayerFacts.qsort_stable
             server_refused_layer).
    + exact LayerFacts.qsort_stable_contract.
    + vm_compute. reflexivity.
    + vm_compute. reflexivity.
  - vm_compute. reflexivity.
Defined.

End LayerSafetyFacts.

(** ** IPC server process: connections and the render loop *)

Module ServerLoopFacts.
Import CInt CIntFacts ResultFacts IpcServer IpcServerLoop.

Lemma find_free_thread_first l1 cs l2 :
  Forall (fun c => 0 <= server_thread_index c) l1 ->
  server_thread_index cs < 0 ->
  forall i, find_free_thread (l1 ++ cs :: l2) i = Some (i + Z.of_nat (length l1)).
Proof.
  intros Hl1 Hcs. induction Hl1 as [|c l1 Hc Hl1 IH]; intros i; simpl.
  - destruct (Z.ltb_spec (server_thread_index cs) 0); [f_equal; lia | lia].
  - destruct (Z.ltb_spec (server_thread_index c) 0); [lia|].
    rewrite IH. f_equal. lia.
Qed.

Lemma find_free_thread_none l :
  Forall (fun c => 0 <= server_thread_index c) l ->
  forall i, find_free_thread l i = None.
Proof.
  induction 1 as [|c l Hc Hl IH]; intros i; simpl; [reflexivity|].
  destruct (Z.ltb_spec (server_thread_index c) 0); [lia | apply IH].
Qed.

(** X26: accepting a connection.  [handle_listen] gives the new client
    the first thread slot whose [server_thread_index] is negative: the slots
    before it are left alone, the slot gets its own position as
    [server_thread_index] and the accepted socket, its thread is joined first
    if it was stopping and is then started.  When every slot is taken the
    socket is closed and nothing else changes.  A failed [accept] clears
    [running] but does not end the call: a free slot is still taken and its
    thread started, with the negative return value as its socket. *)
Theorem handle_listen_takes_first_free ret vs :
  let running' := running vs && (0 <=? ret) in
  (Forall (fun c => 0 <= server_thread_index c) (threads (sp_server vs)) ->
   handle_listen ret vs
   = Ok (mk_server_process (sp_server vs) (sp_threads vs) running' (listen_socket vs)
           (effects vs ++ [Close ret]))) /\
  (forall l1 cs l2 it,
     threads (sp_server vs) = l1 ++ cs :: l2 ->
     Forall (fun c => 0 <= server_thread_index c) l1 ->
     server_thread_index cs < 0 ->
     sp_threads vs !! length l1 = Some it ->
     it_state it = IPC_THREAD_READY \/ it_state it = IPC_THREAD_STOPPING ->
     handle_listen ret vs
     = Ok (mk_server_process
             (set_threads (sp_server vs)
                (l1 ++ set_server_thread_index cs (Z.of_nat (length l1)) :: l2))
             (<[length l1 := mk_ipc_thread IPC_THREAD_STARTING ret (urth it)]>
                (sp_threads vs))
             running' (listen_socket vs)
             (effects vs
              ++ (if is_stopping (it_state it)
                  then [Thread_join (Z.of_nat (length l1))] else [])
              ++ [Thread_start (Z.of_nat (length l1))]))).
Proof.
  cbv zeta. split.
  - intros Hall. unfold handle_listen.
    assert (Hf : forall b : bool, threads (sp_server (if b then set_running vs false else vs))
                           = threads (sp_server vs)) by (intros b; destruct b; reflexivity).
    rewrite Hf, (find_free_thread_none _ Hall).
    destruct (Z.ltb_spec ret 0), (Z.leb_spec 0 ret); try lia;
      unfold add_effects; simpl; rewrite ?andb_false_r, ?andb_true_r; reflexivity.
  - intros l1 cs l2 it Hth Hl1 Hcs Hit Hst. unfold handle_listen.
    assert (Hf : forall b : bool, threads (sp_server (if b then set_running vs false else vs))
                           = threads (sp_server vs)) by (intros b; destruct b; reflexivity).
    assert (Hg : forall b : bool, sp_threads (if b then set_running vs false else vs)
                           = sp_threads vs) by (intros b; destruct b; reflexivity).
    rewrite Hf, Hth, (find_free_thread_first l1 cs l2 Hl1 Hcs). rewrite Z.add_0_l.
    rewrite Hg.
    assert (Hget : array_get (sp_threads vs) (Z.of_nat (length l1)) = Ok it).
    { apply array_get_Ok. rewrite Nat2Z.id. split; [lia | exact Hit]. }
    rewrite Hget, bind_Ok.
    assert (Hcsget : forall v,
              threads (sp_server v) = l1 ++ cs :: l2 ->
              array_get (threads (sp_server v)) (Z.of_nat (length l1)) = Ok cs).
    { intros v Hv. apply array_get_Ok. rewrite Nat2Z.id, Hv. split; [lia|].
      rewrite lookup_app_r by lia. rewrite Nat.sub_diag. reflexivity. }
    assert (Hins : <[length l1 := set_server_thread_index cs (Z.of_nat (length l1))]>
                     (l1 ++ cs :: l2)
                   = l1 ++ set_server_thread_index cs (Z.of_nat (length l1)) :: l2).
    { rewrite insert_app_r_alt by lia. rewrite Nat.sub_diag. reflexivity. }
    destruct Hst as [Hst|Hst]; rewrite Hst; cbn [is_ready is_stopping negb andb];
      destruct (Z.ltb_spec ret 0), (Z.leb_spec 0 ret); try lia;
      (rewrite Hcsget by (simpl; exact Hth)); rewrite bind_Ok;
      cbn [sp_server sp_threads running listen_socket effects set_running add_effects];
      rewrite Nat2Z.id, ?Hth, Hins, ?andb_false_r, ?andb_true_r,
        <- ?app_assoc; reflexivity.
Qed.

(** The effects of accepting connections. *)
Definition connection_effect (e : effect) : Prop :=
  match e with
  | Close _ | Thread_join _ | Thread_start _ => True
  | _ => False
  end.

(** What accepting connections and looking at the poll events leaves
    alone. *)
Definition loop_step (vs vs' : server_process) : Prop :=
  (exists effs, effects vs' = effects vs ++ effs /\ Forall connection_effect effs) /\
  (running vs' = true -> running vs = true) /\
  listen_socket vs' = listen_socket vs /\
  map urth (sp_threads vs') = map urth (sp_threads vs).

Lemma loop_step_refl vs : loop_step vs vs.
Proof.
  split; [exists []; rewrite app_nil_r; split; [reflexivity | constructor]|].
  auto.
Qed.

Lemma loop_step_trans a b c : loop_step a b -> loop_step b c -> loop_step a c.
Proof.
  intros ((e1 & He1 & Hf1) & Hr1 & Hl1 & Hu1) ((e2 & He2 & Hf2) & Hr2 & Hl2 & Hu2).
  split; [|split; [auto | split; congruence]].
  exists (e1 ++ e2). rewrite He2, He1, app_assoc. split; [reflexivity|].
  apply Forall_app. auto.
Qed.

Lemma loop_step_stop vs : loop_step vs (set_running vs false).
Proof.
  split; [exists []; simpl; rewrite app_nil_r; split; [reflexivity | constructor]|].
  split; [discriminate | auto].
Qed.

Lemma loop_step_effects vs l :
  Forall connection_effect l -> loop_step vs (add_effects vs l).
Proof. intros H. split; [exists l; auto | auto]. Qed.

Lemma handle_listen_step ret vs vs' :
  handle_listen ret vs = Ok vs' -> loop_step vs vs'.
Proof.
  unfold handle_listen.
  set (vs0 := if ret <? 0 then set_running vs false else vs).
  assert (H0 : loop_step vs vs0).
  { subst vs0. destruct (ret <? 0); [apply loop_step_stop | apply loop_step_refl]. }
  intros H. apply (loop_step_trans _ _ _ H0). clearbody vs0. clear H0.
  destruct (find_free_thread (threads (sp_server vs0)) 0) as [i|].
  - destruct (array_get (sp_threads vs0) i) as [it| | |] eqn:Hit; simpl in H;
      try discriminate.
    apply array_get_Ok in Hit as [_ Hit].
    destruct (negb (is_ready (it_state it)) && negb (is_stopping (it_state it))).
    + injection H as <-. apply loop_step_effects. repeat constructor.
    + set (vs1 := if negb (is_ready (it_state it))
                  then add_effects vs0 [Thread_join i] else vs0) in *.
      assert (H1 : loop_step vs0 vs1 /\ sp_threads vs1 = sp_threads vs0).
      { subst vs1. destruct (negb (is_ready (it_state it))).
        - split; [apply loop_step_effects; repeat constructor | reflexivity].
        - split; [apply loop_step_refl | reflexivity]. }
      destruct H1 as [H1 Hth]. apply (loop_step_trans _ _ _ H1).
      destruct (array_get (threads (sp_server vs1)) i) as [cs| | |]; simpl in H;
        try discriminate.
      injection H as <-. split; [|split; [|split]]; simpl.
      * exists [Thread_start i]. split; [reflexivity | repeat constructor].
      * auto.
      * reflexivity.
      * rewrite Hth, list_fmap_insert. simpl. apply list_insert_id.
        rewrite list_lookup_fmap, Hit. reflexivity.
  - injection H as <-. apply loop_step_effects. repeat constructor.
Qed.

Lemma check_epoll_loop_step : forall events vs vs',
  check_epoll_loop events vs = Ok vs' -> loop_step vs vs'.
Proof.
  induction events as [|[fd acc] events IH]; intros vs vs'; simpl.
  - intros [= <-]. apply loop_step_refl.
  - destruct (fd =? 0); [intros [= <-]; apply loop_step_stop|].
    destruct (fd =? listen_socket vs).
    + destruct (handle_listen acc vs) as [vs1| | |] eqn:Hl; simpl; try discriminate.
      intros H. eapply loop_step_trans; [eapply handle_listen_step, Hl | eapply IH, H].
    + simpl. apply IH.
Qed.

Lemma check_epoll_step r vs vs' : check_epoll r vs = Ok vs' -> loop_step vs vs'.
Proof.
  destruct r; simpl; [intros [= <-]; apply loop_step_stop|].
  apply check_epoll_loop_step.
Qed.

Lemma main_loop_body_shape
    (qsort : (_z_sort_data -> _z_sort_data -> Z) ->
             list _z_sort_data -> list _z_sort_data) fi s s' :
  main_loop_body qsort fi s = Ok s' ->
  exists ok calls effs,
    _update_layers qsort (sp_server s) = Ok (ok, calls) /\
    effects s'
    = effects s
      ++ [Comp_begin_frame (fi_frame_id fi); Comp_layer_begin (fi_frame_id fi)]
      ++ map Comp_layer calls ++ [Comp_layer_commit (fi_frame_id fi)] ++ effs /\
    Forall connection_effect effs /\
    (running s' = true -> running s = true) /\
    length (sp_threads s') = length (sp_threads s) /\
    forall j it',
      sp_threads s' !! j = Some it' ->
      RenderTiming.last_input (urth it') = fi_predicted_display_time fi /\
      RenderTiming.period (urth it') = fi_predicted_display_period fi /\
      RenderTiming.extra (urth it')
        = to_uint64 (fi_predicted_display_time fi - fi_now fi) /\
      exists it,
        sp_threads s !! j = Some it /\
        RenderTiming.frames (urth it') = RenderTiming.frames (urth it) /\
        RenderTiming.frame_counter (urth it') = RenderTiming.frame_counter (urth it) /\
        RenderTiming.last_returned (urth it') = RenderTiming.last_returned (urth it).
Proof.
  unfold main_loop_body. cbv zeta. cbn [sp_server add_effects].
  destruct (_update_layers qsort (sp_server s)) as [[ok calls]| | |]; simpl;
    try discriminate.
  intros H. apply check_epoll_step in H as ((effs & He & Hf) & Hr & _ & Hu).
  unfold add_effects in *. cbn [effects running sp_threads] in *.
  exists ok, calls, effs. split; [reflexivity|].
  split; [rewrite He, <- !app_assoc; reflexivity|].
  split; [exact Hf|]. split; [exact Hr|].
  rewrite map_map in Hu. cbn [urth] in Hu.
  split.
  - apply (f_equal (@length _)) in Hu. rewrite !length_map in Hu. exact Hu.
  - intros j it' Hit'.
    apply (f_equal (fun l => l !! j)) in Hu.
    rewrite !list_lookup_fmap, Hit' in Hu. simpl in Hu.
    destruct (sp_threads s !! j) as [it|] eqn:Hit; simpl in Hu; [|discriminate].
    injection Hu as Hu. rewrite Hu. simpl. repeat split. exists it.
    repeat split.
Qed.

(** X27: one pass of the render loop.  Whenever the body of the loop of
    [main_loop] returns, the calls on the compositor are, in this order,
    [begin_frame] and [layer_begin] for the frame the compositor handed out,
    the layers [_update_layers] submits, and [layer_commit] for the same
    frame; the commit is made whether [_update_layers] returned [true] or
    [false].  After them come only the effects of accepting connections.
    Every client's render-timing helper, connected or not, has received the
    predicted display time as its sample, the predicted display period as its
    period and [predicted_display_time - now] modulo 2^64 as its extra time.
    The pass never sets [running] back to true. *)
Theorem main_loop_body_pass
    (qsort : (_z_sort_data -> _z_sort_data -> Z) ->
             list _z_sort_data -> list _z_sort_data) fi s s' :
  main_loop_body qsort fi s = Ok s' ->
  exists ok calls effs,
    _update_layers qsort (sp_server s) = Ok (ok, calls) /\
    effects s'
    = effects s
      ++ [Comp_begin_frame (fi_frame_id fi); Comp_layer_begin (fi_frame_id fi)]
      ++ map Comp_layer calls ++ [Comp_layer_commit (fi_frame_id fi)] ++ effs /\
    Forall connection_effect effs /\
    (running s' = true -> running s = true) /\
    length (sp_threads s') = length (sp_threads s) /\
    forall j it',
      sp_threads s' !! j = Some it' ->
      RenderTiming.last_input (urth it') = fi_predicted_display_time fi /\
      RenderTiming.period (urth it') = fi_predicted_display_period fi /\
      RenderTiming.extra (urth it')
        = to_uint64 (fi_predicted_display_time fi - fi_now fi) /\
      exists it,
        sp_threads s !! j = Some it /\
        RenderTiming.frames (urth it') = RenderTiming.frames (urth it) /\
        RenderTiming.frame_counter (urth it') = RenderTiming.frame_counter (urth it) /\
        RenderTiming.last_returned (urth it') = RenderTiming.last_returned (urth it).
Proof. apply main_loop_body_shape. Qed.

(** A server process with the primary application and the two overlays of
    the layer scenario, each with a helper of two frames, listening on
    socket 7. *)
Definition fresh_thread : ipc_thread :=
  mk_ipc_thread IPC_THREAD_STARTING 3 (RenderTiming.u_rt_helper_init 2).

Definition process_three_clients : server_process :=
  mk_server_process LayerFacts.server_primary_two_overlays
    [fresh_thread; fresh_thread; fresh_thread] true 7 [].

(** Frame 5 is predicted for time 2000 with period 100, the clock reads
    1500, and a connection is waiting whose [accept] returns 9. *)
Definition pass_input : frame_input :=
  mk_frame_input 5 2000 100 1500 (Epoll_events [(7, 9)]).

Definition process_after_pass : server_process :=
  Eval vm_compute in
    match main_loop_body LayerFacts.qsort_stable pass_input process_three_clients with
    | Ok s' => s'
    | _ => process_three_clients
    end.

Lemma process_pass :
  main_loop_body LayerFacts.qsort_stable pass_input process_three_clients
  = Ok process_after_pass.
Proof. vm_compute. reflexivity. Qed.

Lemma main_loop_body_pass_witness :
  exists ok calls effs,
    _update_layers LayerFacts.qsort_stable (sp_server process_three_clients)
      = Ok (ok, calls) /\
    effects process_after_pass
    = effects process_three_clients
      ++ [Comp_begin_frame (fi_frame_id pass_input);
          Comp_layer_begin (fi_frame_id pass_input)]
      ++ map Comp_layer calls ++ [Comp_layer_commit (fi_frame_id pass_input)] ++ effs /\
    Forall connection_effect effs /\
    (running process_after_pass = true -> running process_three_clients = true) /\
    length (sp_threads process_after_pass) = length (sp_threads process_three_clients) /\
    forall j it',
      sp_threads process_after_pass !! j = Some it' ->
      RenderTiming.last_input (urth it') = fi_predicted_display_time pass_input /\
      RenderTiming.period (urth it') = fi_predicted_display_period pass_input /\
      RenderTiming.extra (urth it')
        = to_uint64 (fi_predicted_display_time pass_input - fi_now pass_input) /\
      exists it,
        sp_threads process_three_clients !! j = Some it /\
        RenderTiming.frames (urth it') = RenderTiming.frames (urth it) /\
        RenderTiming.frame_counter (urth it') = RenderTiming.frame_counter (urth it) /\
        RenderTiming.last_returned (urth it') = RenderTiming.last_returned (urth it).
Proof.
  apply (main_loop_body_pass LayerFacts.qsort_stable pass_input process_three_clients
           process_after_pass).
  vm_compute. reflexivity.
Defined.

(** The pass of the example: the three layer stacks in z order between
    the frame calls, then the connection that finds every slot taken. *)
Example process_pass_effects :
  effects process_after_pass
  = [Comp_begin_frame 5; Comp_layer_begin 5;
     Comp_layer (Layer_stereo_projection 0 0 0 1);
     Comp_layer (Layer_quad 2 0 1); Comp_layer (Layer_quad 1 0 0);
     Comp_layer_commit 5; Close 9].
Proof. reflexivity. Qed.

(** X28: from the render loop to a client's prediction.  After a pass of
    the render loop that handed out a positive predicted display period, a
    prediction on any client's helper whose next slot is free returns, in
    both builds, provided the sample is not negative and nothing overflows;
    it returns a display time that is the predicted display time of the pass
    plus a whole number of periods, strictly after both the client's clock
    reading and the time returned last, and a wake-up time one period
    earlier. *)
Theorem render_loop_feeds_prediction
    (qsort : (_z_sort_data -> _z_sort_data -> Z) ->
             list _z_sort_data -> list _z_sort_data) fi s s' j it' ndebug now1 now2 f :
  main_loop_body qsort fi s = Ok s' ->
  sp_threads s' !! j = Some it' ->
  0 < fi_predicted_display_period fi ->
  0 <= fi_predicted_display_time fi ->
  Z.max now1 (RenderTiming.last_returned (urth it')) + fi_predicted_display_period fi
    < two64 ->
  0 <= RenderTiming.frame_counter (urth it') < 2 ^ 63 - 1 ->
  RenderTiming.frames (urth it')
    !! Z.to_nat ((RenderTiming.frame_counter (urth it') + 1)
                 mod RenderTiming.array_size (urth it')) = Some f ->
  RenderTiming.frame_id f = -1 /\ RenderTiming.state f = RenderTiming.U_RT_READY ->
  exists fuel out urth',
    RenderTiming.u_rt_helper_predict ndebug fuel (urth it') now1 now2 = Ok (out, urth') /\
    Z.max now1 (RenderTiming.last_returned (urth it'))
      < RenderTiming.predicted_display_time out /\
    (RenderTiming.predicted_display_time out - fi_predicted_display_time fi)
      mod fi_predicted_display_period fi = 0 /\
    RenderTiming.wake_up_time out
      = to_uint64 (RenderTiming.predicted_display_time out
                   - fi_predicted_display_period fi) /\
    RenderTiming.predicted_display_period out = fi_predicted_display_period fi.
Proof.
  intros Hb Hit Hp Ht Hov Hfc Hf Hfree.
  destruct (main_loop_body_shape qsort fi s s' Hb)
    as (ok & calls & effs & _ & _ & _ & _ & _ & Hall).
  destruct (Hall j it' Hit) as (Hli & Hpe & _).
  destruct (RenderTimingFacts.u_rt_helper_predict_returns ndebug (urth it') now1 now2 f)
    as (fuel & out & u' & Hpred & Hrange & Hmod & _).
  - rewrite Hpe. exact Hp.
  - rewrite Hli. exact Ht.
  - rewrite Hpe. exact Hov.
  - exact Hfc.
  - exact Hf.
  - right. exact Hfree.
  - exists fuel, out, u'. split; [exact Hpred|].
    rewrite Hli, Hpe in *. split; [lia|]. split; [exact Hmod|].
    unfold RenderTiming.u_rt_helper_predict in Hpred.
    destruct (RenderTiming.get_last_input_plus_period_at_least_greater_then _ _ _ _)
      as [v| | |]; simpl in Hpred; try discriminate.
    step_binds Hpred. injection Hpred as <- <-. simpl. rewrite Hpe. auto.
Qed.

(** The first client thread after the pass of the example, and the slot of
    its helper that the next prediction takes. *)
Definition thread_after_pass : ipc_thread :=
  Eval vm_compute in
    match sp_threads process_after_pass !! 0%nat with
    | Some it => it
    | None => fresh_thread
    end.

Definition next_slot_after_pass : RenderTiming.u_rt_frame :=
  Eval vm_compute in
    match RenderTiming.frames (urth thread_after_pass) !! 1%nat with
    | Some f => f
    | None => RenderTiming.mk_u_rt_frame 0 0 0 0 0 RenderTiming.U_RT_READY
    end.

Lemma render_loop_feeds_prediction_witness :
  exists fuel out urth',
    RenderTiming.u_rt_helper_predict false fuel (urth thread_after_pass) 2050 2060
      = Ok (out, urth') /\
    Z.max 2050 (RenderTiming.last_returned (urth thread_after_pass))
      < RenderTiming.predicted_display_time out /\
    (RenderTiming.predicted_display_time out - fi_predicted_display_time pass_input)
      mod fi_predicted_display_period pass_input = 0 /\
    RenderTiming.wake_up_time out
      = to_uint64 (RenderTiming.predicted_display_time out
                   - fi_predicted_display_period pass_input) /\
    RenderTiming.predicted_display_period out = fi_predicted_display_period pass_input.
Proof.
  refine (render_loop_feeds_prediction LayerFacts.qsort_stable pass_input
            process_three_clients process_after_pass 0%nat thread_after_pass false
            2050 2060 next_slot_after_pass _ _ _ _ _ _ _ _).
  - vm_compute. reflexivity.
  - vm_compute. reflexivity.
  - vm_compute. reflexivity.
  - vm_compute. discriminate.
  - vm_compute. reflexivity.
  - vm_compute. split; [discriminate | reflexivity].
  - vm_compute. reflexivity.
  - vm_compute. split; reflexivity.
Defined.

End ServerLoopFacts.

(** ** IPC server process: the tracking-origin table and the shared memory *)

Module SharedTablesFacts.
Import CInt CIntFacts ResultFacts IpcServerProcess.

(** The devices that are there, in the order of the array. *)
Definition present (devs : list (option xrt_device)) : list xrt_device :=
  omap id devs.

(** A table with its entries in front and [NULL] behind them. *)
Definition table (L : list Z) (n : nat) : list (option Z) :=
  map Some L ++ replicate n None.

Definition add_origin (L : list Z) (o : Z) : list Z :=
  if decide (o ∈ L) then L else L ++ [o].

(** The origins of a list of devices in the order of their first
    appearance, behind those of [L]. *)
Definition origins_from (L : list Z) (ds : list xrt_device) : list Z :=
  foldl add_origin L (omap tracking_origin ds).

Lemma store_origin_NULL L n : store_origin None (table L n) = table L n.
Proof.
  unfold table. induction L as [|x L IH]; simpl.
  - destruct n; reflexivity.
  - rewrite IH. reflexivity.
Qed.

Lemma store_origin_known o L n :
  o ∈ L -> store_origin (Some o) (table L n) = table L n.
Proof.
  unfold table. induction L as [|x L IH]; simpl; intros Hin.
  - inversion Hin.
  - destruct (Z.eqb_spec x o) as [->|Hne]; [reflexivity|].
    rewrite IH; [reflexivity|].
    apply elem_of_cons in Hin as [->|Hin]; [contradiction|exact Hin].
Qed.

Lemma store_origin_new o L n :
  o ∉ L -> store_origin (Some o) (table L (S n)) = table (L ++ [o]) n.
Proof.
  unfold table. induction L as [|x L IH]; cbn -[replicate]; intros Hin.
  - reflexivity.
  - apply not_elem_of_cons in Hin as [Hne Hin].
    destruct (Z.eqb_spec x o) as [->|_]; [contradiction|].
    rewrite IH by exact Hin. reflexivity.
Qed.

(** A full table takes no further origin: the loop ends without a store. *)
Lemma store_origin_full o L :
  o ∉ L -> store_origin (Some o) (table L 0) = table L 0.
Proof.
  unfold table. induction L as [|x L IH]; cbn -[replicate]; intros Hin.
  - reflexivity.
  - apply not_elem_of_cons in Hin as [Hne Hin].
    destruct (Z.eqb_spec x o) as [->|_]; [contradiction|].
    rewrite IH by exact Hin. reflexivity.
Qed.

Lemma add_origin_length L o :
  (length L <= length (add_origin L o) <= S (length L))%nat.
Proof.
  unfold add_origin. destruct (decide (o ∈ L)); [lia|].
  rewrite length_app. simpl. lia.
Qed.

Lemma add_origin_NoDup L o : NoDup L -> NoDup (add_origin L o).
Proof.
  intros HL. unfold add_origin. destruct (decide (o ∈ L)) as [|Hn]; [exact HL|].
  apply NoDup_app. split; [exact HL|]. split.
  - intros x Hx Hx'. apply list_elem_of_singleton in Hx'. subst. contradiction.
  - apply NoDup_singleton.
Qed.

Lemma add_origin_elem L o x : x ∈ add_origin L o <-> x ∈ L \/ x = o.
Proof.
  unfold add_origin. destruct (decide (o ∈ L)) as [Hin|Hn].
  - split; [auto|]. intros [H| ->]; assumption.
  - rewrite elem_of_app, list_elem_of_singleton. reflexivity.
Qed.

Lemma add_origin_prefix L o : L `prefix_of` add_origin L o.
Proof.
  unfold add_origin. destruct (decide (o ∈ L)); [reflexivity|].
  apply prefix_app_r. reflexivity.
Qed.

Lemma foldl_add_origin_length os : forall L,
  (length L <= length (foldl add_origin L os) <= length L + length os)%nat.
Proof.
  induction os as [|o os IH]; intros L; simpl; [lia|].
  specialize (IH (add_origin L o)). pose proof (add_origin_length L o). lia.
Qed.

Lemma foldl_add_origin_NoDup os : forall L,
  NoDup L -> NoDup (foldl add_origin L os).
Proof.
  induction os as [|o os IH]; intros L HL; simpl; [exact HL|].
  apply IH, add_origin_NoDup, HL.
Qed.

Lemma foldl_add_origin_elem os : forall L x,
  x ∈ foldl add_origin L os <-> x ∈ L \/ x ∈ os.
Proof.
  induction os as [|o os IH]; intros L x; simpl.
  - split; [auto|]. intros [H|H]; [exact H|inversion H].
  - rewrite IH, add_origin_elem, elem_of_cons. tauto.
Qed.

Lemma foldl_add_origin_prefix os : forall L,
  L `prefix_of` foldl add_origin L os.
Proof.
  induction os as [|o os IH]; intros L; simpl; [reflexivity|].
  etrans; [apply add_origin_prefix|apply IH].
Qed.

Lemma omap_length_le {A B} (f : A -> option B) (l : list A) :
  (length (omap f l) <= length l)%nat.
Proof.
  induction l as [|x l IH]; simpl; [lia|].
  unfold omap in IH. destruct (f x); simpl; lia.
Qed.

Lemma elem_of_origins (ds : list xrt_device) (o : Z) :
  o ∈ omap tracking_origin ds
  <-> exists d, d ∈ ds /\ tracking_origin d = Some o.
Proof. rewrite list_elem_of_omap. reflexivity. Qed.

(** The outer loop of [init_tracking_origins] on a table with its entries
    in front that has room for one origin per device. *)
Lemma init_tracking_origins_loop_table ndebug devs : forall L n,
  (length (present devs) <= n)%nat ->
  (ndebug = false -> Forall (fun d => tracking_origin d <> None) (present devs)) ->
  init_tracking_origins_loop ndebug devs (table L n)
  = Ok (table (origins_from L (present devs))
          (n + length L - length (origins_from L (present devs)))).
Proof.
  unfold origins_from.
  induction devs as [|[xdev|] devs IH]; intros L n Hn Hnn; simpl.
  - replace (n + length L - length L)%nat with n by lia. reflexivity.
  - simpl in Hn.
    assert (Hnn' : ndebug = false ->
                   Forall (fun d => tracking_origin d <> None) (present devs)).
    { intros E. specialize (Hnn E). simpl in Hnn. inversion Hnn; assumption. }
    destruct (tracking_origin xdev) as [o|] eqn:Ho; simpl.
    + rewrite c_assert_true, bind_Ok.
      unfold add_origin at 2 4. destruct (decide (o ∈ L)) as [Hin|Hin].
      * rewrite store_origin_known by exact Hin. apply IH; [lia|exact Hnn'].
      * destruct n as [|n]; [lia|]. rewrite store_origin_new by exact Hin.
        rewrite IH by (try exact Hnn'; lia).
        rewrite length_app. simpl. do 3 f_equal. lia.
    + destruct ndebug.
      * rewrite c_assert_release, bind_Ok, store_origin_NULL.
        apply IH; [lia|exact Hnn'].
      * specialize (Hnn eq_refl). simpl in Hnn. inversion Hnn; subst. congruence.
  - apply IH; assumption.
Qed.

(** What [init_tracking_origins] leaves in the table. *)
Lemma init_tracking_origins_shape ndebug s L n :
  xtracks s = table L n ->
  NoDup L ->
  (length (present (sd_xdevs s)) <= n)%nat ->
  (ndebug = false ->
   Forall (fun d => tracking_origin d <> None) (present (sd_xdevs s))) ->
  exists L',
    init_tracking_origins ndebug s
    = Ok (mk_server_devices (sd_xdevs s)
            (table L' (n + length L - length L'))) /\
    NoDup L' /\ L `prefix_of` L' /\
    (length L' <= length L + length (present (sd_xdevs s)))%nat /\
    forall o, o ∈ L' <->
      o ∈ L \/ exists d, d ∈ present (sd_xdevs s) /\ tracking_origin d = Some o.
Proof.
  intros Ht HL Hn Hnn. exists (origins_from L (present (sd_xdevs s))).
  unfold init_tracking_origins.
  rewrite Ht, init_tracking_origins_loop_table, bind_Ok by assumption.
  split; [reflexivity|]. unfold origins_from.
  split; [apply foldl_add_origin_NoDup, HL|].
  split; [apply foldl_add_origin_prefix|]. split.
  - pose proof (foldl_add_origin_length
                  (omap tracking_origin (present (sd_xdevs s))) L) as Hl.
    pose proof (omap_length_le tracking_origin (present (sd_xdevs s))). lia.
  - intros o. rewrite foldl_add_origin_elem, elem_of_origins. reflexivity.
Qed.

(** X29: the table of tracking origins.  On a table that holds distinct
    origins in front and [NULL] behind them, with at least one [NULL] slot
    per device, [init_tracking_origins] returns (in a debug build when every
    device has a tracking origin, in a release build always) and leaves the
    devices as they are and a table of the same size that again holds
    distinct origins in front and [NULL] behind: the earlier origins in
    their places, followed by exactly the origins of the devices that were
    not yet in the table. *)
Theorem init_tracking_origins_table ndebug s L n :
  xtracks s = table L n ->
  NoDup L ->
  (length (present (sd_xdevs s)) <= n)%nat ->
  (ndebug = false ->
   Forall (fun d => tracking_origin d <> None) (present (sd_xdevs s))) ->
  exists L',
    init_tracking_origins ndebug s
    = Ok (mk_server_devices (sd_xdevs s)
            (table L' (n + length L - length L'))) /\
    NoDup L' /\ L `prefix_of` L' /\
    (length L' <= length L + length (present (sd_xdevs s)))%nat /\
    forall o, o ∈ L' <->
      o ∈ L \/ exists d, d ∈ present (sd_xdevs s) /\ tracking_origin d = Some o.
Proof. apply init_tracking_origins_shape. Qed.

(** *** The shared memory *)

Lemma to_uint32_small x : 0 <= x < two32 -> to_uint32 x = x.
Proof. intros H. unfold to_uint32. apply Z.mod_small. exact H. Qed.

Lemma array_set_Ok {A} (a : list A) (i : nat) (x : A) :
  (i < length a)%nat -> array_set a (Z.of_nat i) x = Ok (<[i:=x]> a).
Proof.
  intros Hi. unfold array_set.
  destruct (lookup_lt_is_Some_2 a i Hi) as [y Hy].
  assert (array_get a (Z.of_nat i) = Ok y) as ->.
  { apply array_get_Ok. rewrite Nat2Z.id. split; [lia|exact Hy]. }
  rewrite bind_Ok, Nat2Z.id. reflexivity.
Qed.

(** A copy loop that stays inside the array writes the entries one behind
    the other. *)
Lemma copy_entries_Ok src : forall dst idx,
  (idx + length src <= length dst)%nat ->
  Z.of_nat (length dst) < two32 ->
  copy_entries src dst (Z.of_nat idx)
  = Ok (list_inserts idx src dst, Z.of_nat (idx + length src)).
Proof.
  induction src as [|x src IH]; intros dst idx Hlen Hb; cbn [copy_entries].
  - rewrite Nat.add_0_r. reflexivity.
  - simpl in Hlen. rewrite array_set_Ok by lia. rewrite bind_Ok.
    rewrite to_uint32_small by lia.
    replace (Z.of_nat idx + 1) with (Z.of_nat (S idx)) by lia.
    rewrite IH by (rewrite ?length_insert; lia).
    cbn [list_inserts length]. rewrite list_insert_inserts_lt by lia.
    do 2 f_equal. lia.
Qed.

Lemma find_origin_table o L n : forall k0,
  o ∈ L ->
  exists k, L !! k = Some o /\
    find_origin (Some o) (table L n) k0 = to_uint32 (k0 + Z.of_nat k).
Proof.
  unfold table. induction L as [|x L IH]; intros k0 Hin.
  - inversion Hin.
  - cbn -[replicate]. destruct (Z.eqb_spec o x) as [->|Hne]; cbn -[replicate].
    + exists 0%nat. split; [reflexivity|]. f_equal. lia.
    + apply elem_of_cons in Hin as [->|Hin]; [contradiction|].
      destruct (IH (k0 + 1) Hin) as (k & Hk & ->).
      exists (S k). split; [exact Hk|]. f_equal. lia.
Qed.

Section shared_memory.
Variable origin_at : Z -> xrt_tracking_origin.
Variable xrt_device_update_inputs : xrt_device -> list Z.
Variable IPC_SHARED_MAX_DEVICES : Z.

Lemma copy_origins_NULL ndebug n : forall i tracks count,
  copy_origins origin_at IPC_SHARED_MAX_DEVICES ndebug (replicate n None) i tracks count
  = Ok (tracks, count).
Proof. induction n as [|n IH]; intros i tracks count; simpl; [reflexivity|apply IH]. Qed.

(** The first loop of [init_shm] on a table with its entries in front: the
    record of the origin in slot [k] of the table goes to slot [k] of
    [itracks]. *)
Lemma copy_origins_table ndebug L n : forall i tracks count,
  (ndebug = false -> i + Z.of_nat (length L) <= IPC_SHARED_MAX_DEVICES) ->
  (count + length L <= length tracks)%nat ->
  Z.of_nat (length tracks) < two32 ->
  copy_origins origin_at IPC_SHARED_MAX_DEVICES ndebug (table L n) i tracks
    (Z.of_nat count)
  = Ok (list_inserts count (map origin_at L) tracks, Z.of_nat (count + length L)).
Proof.
  unfold table. induction L as [|x L IH]; intros i tracks count Hmax Hlen Hb.
  - cbn -[replicate]. rewrite copy_origins_NULL, Nat.add_0_r. reflexivity.
  - cbn -[replicate]. cbn [length] in Hmax, Hlen.
    assert (c_assert ndebug (i <? IPC_SHARED_MAX_DEVICES) = Ok tt) as ->.
    { destruct ndebug; [reflexivity|]. specialize (Hmax eq_refl).
      replace (i <? IPC_SHARED_MAX_DEVICES) with true; [reflexivity|].
      symmetry. apply Z.ltb_lt. lia. }
    rewrite bind_Ok, array_set_Ok by lia. rewrite bind_Ok.
    rewrite to_uint32_small by lia.
    replace (Z.of_nat count + 1) with (Z.of_nat (S count)) by lia.
    rewrite IH by (rewrite ?length_insert; intros; try specialize (Hmax ltac:(assumption)); lia).
    rewrite list_insert_inserts_lt by lia.
    do 2 f_equal. lia.
Qed.

(** What the record [idev] in the shared memory [ism] says of the device
    [d], with [L] the origins in the server's table: name and string, the
    slot of the device's tracking origin, and its inputs and outputs, which
    lie from [ii] and from [oi] on. *)
Definition recorded (L : list Z) (ism : ipc_shared_memory) (ii oi : nat)
    (d : xrt_device) (idev : ipc_shared_device) : Prop :=
  idev_name idev = xdev_name d /\
  idev_str idev = xdev_str d /\
  (exists k o, tracking_origin d = Some o /\ L !! k = Some o /\
     tracking_origin_index idev = Z.of_nat k) /\
  (forall m x, xrt_device_update_inputs d !! m = Some x ->
     num_inputs idev = Z.of_nat (length (xrt_device_update_inputs d)) /\
     first_input_index idev = Z.of_nat ii /\
     ism_inputs ism !! (ii + m)%nat = Some x) /\
  (forall m x, outputs d !! m = Some x ->
     num_outputs idev = Z.of_nat (length (outputs d)) /\
     first_output_index idev = Z.of_nat oi /\
     ism_outputs ism !! (oi + m)%nat = Some x).

Lemma recorded_later L ism ism' ii oi d idev :
  recorded L ism ii oi d idev ->
  (forall p, (p < ii + length (xrt_device_update_inputs d))%nat ->
     ism_inputs ism' !! p = ism_inputs ism !! p) ->
  (forall p, (p < oi + length (outputs d))%nat ->
     ism_outputs ism' !! p = ism_outputs ism !! p) ->
  recorded L ism' ii oi d idev.
Proof.
  intros (Hn & Hs & Hk & Hi & Ho) Hin Hout.
  split; [exact Hn|]. split; [exact Hs|]. split; [exact Hk|]. split.
  - intros m x Hm. destruct (Hi m x Hm) as (H1 & H2 & H3).
    split; [exact H1|]. split; [exact H2|].
    rewrite Hin; [exact H3|]. apply lookup_lt_Some in Hm. lia.
  - intros m x Hm. destruct (Ho m x Hm) as (H1 & H2 & H3).
    split; [exact H1|]. split; [exact H2|].
    rewrite Hout; [exact H3|]. apply lookup_lt_Some in Hm. lia.
Qed.

(** The room the second loop of [init_shm] needs from the running indices
    on. *)
Definition total_inputs (ds : list xrt_device) : nat :=
  sum_list_with (fun d => length (xrt_device_update_inputs d)) ds.

Definition total_outputs (ds : list xrt_device) : nat :=
  sum_list_with (fun d => length (outputs d)) ds.

Lemma copy_device_spec ndebug s L n d st c ii oi o :
  xtracks s = table L n ->
  Z.of_nat (length L) < two32 - 1 ->
  tracking_origin d = Some o -> o ∈ L ->
  cs_count st = Z.of_nat c ->
  input_index st = Z.of_nat ii ->
  output_index st = Z.of_nat oi ->
  (c < length (idevs (cs_ism st)))%nat ->
  Z.of_nat (length (idevs (cs_ism st))) < two32 ->
  (ii + length (xrt_device_update_inputs d) <= length (ism_inputs (cs_ism st)))%nat ->
  Z.of_nat (length (ism_inputs (cs_ism st))) < two32 ->
  (oi + length (outputs d) <= length (ism_outputs (cs_ism st)))%nat ->
  Z.of_nat (length (ism_outputs (cs_ism st))) < two32 ->
  exists st' idev,
    copy_device xrt_device_update_inputs ndebug s d st = Ok st' /\
    cs_count st' = Z.of_nat (S c) /\
    input_index st' = Z.of_nat (ii + length (xrt_device_update_inputs d)) /\
    output_index st' = Z.of_nat (oi + length (outputs d)) /\
    itracks (cs_ism st') = itracks (cs_ism st) /\
    num_itracks (cs_ism st') = num_itracks (cs_ism st) /\
    idevs (cs_ism st') = <[c:=idev]> (idevs (cs_ism st)) /\
    ism_inputs (cs_ism st')
    = list_inserts ii (xrt_device_update_inputs d) (ism_inputs (cs_ism st)) /\
    ism_outputs (cs_ism st')
    = list_inserts oi (outputs d) (ism_outputs (cs_ism st)) /\
    recorded L (cs_ism st') ii oi d idev.
Proof.
  intros Ht HL Ho Hin Hc Hii Hoi Hclt Hcb Hilen Hib Holen Hob.
  destruct (lookup_lt_is_Some_2 _ _ Hclt) as [idev0 Hidev0].
  destruct (find_origin_table o L n 0 Hin) as (k & Hk & Hfind).
  pose proof (lookup_lt_Some _ _ _ Hk) as Hklt.
  rewrite to_uint32_small in Hfind by lia.
  unfold copy_device. cbv zeta.
  assert (array_get (idevs (cs_ism st)) (cs_count st) = Ok idev0) as ->.
  { apply array_get_Ok. rewrite Hc, Nat2Z.id. split; [lia|exact Hidev0]. }
  rewrite bind_Ok. cbn [tracking_origin_index idev_name idev_str num_inputs
                        first_input_index num_outputs first_output_index].
  rewrite Ho, Ht, Hfind.
  assert (negb (0 + Z.of_nat k =? to_uint32 (-1)) = true) as ->.
  { apply negb_true_iff, Z.eqb_neq. change (to_uint32 (-1)) with (two32 - 1). lia. }
  rewrite c_assert_true, bind_Ok.
  rewrite Hii, copy_entries_Ok by assumption. rewrite bind_Ok. cbv beta iota.
  rewrite Hoi, copy_entries_Ok by assumption. rewrite bind_Ok. cbv beta iota.
  rewrite Hc, Nat2Z.id, to_uint32_small by lia.
  eexists. eexists. split; [reflexivity|].
  cbn [cs_count input_index output_index cs_ism itracks num_itracks idevs
       ism_inputs ism_outputs].
  repeat (split; [reflexivity || lia|]).
  assert (Hu : forall a b : nat, Z.of_nat (a + b) < two32 ->
               to_uint64 (Z.of_nat (a + b) - Z.of_nat a) = Z.of_nat b).
  { intros a b Hab. unfold to_uint64. rewrite Z.mod_small; [lia|].
    unfold two64, two32 in *. lia. }
  unfold recorded.
  destruct (xrt_device_update_inputs d) as [|x0 ins] eqn:Hins;
    destruct (outputs d) as [|y0 outs] eqn:Houts; cbn [length] in *.
  all: repeat match goal with
         | |- context [Z.of_nat ?a =? Z.of_nat ?b] =>
             destruct (Z.eqb_spec (Z.of_nat a) (Z.of_nat b)); try lia; cbn [negb]
         end;
       rewrite ?Nat.add_0_r, ?Z.eqb_refl; cbn [negb];
       cbn [idev_name idev_str tracking_origin_index num_inputs first_input_index
            num_outputs first_output_index];
       (split; [reflexivity|]); (split; [reflexivity|]);
       (split; [exists k, o; split; [exact Ho|]; split; [exact Hk|lia]|]).
  all: split; intros m x Hm; try (exfalso; rewrite lookup_nil in Hm; discriminate).
  all: rewrite ?Hu by lia; (split; [reflexivity|]); (split; [reflexivity|]);
       cbn [ism_inputs ism_outputs];
       rewrite list_lookup_inserts by (cbn [length]; apply lookup_lt_Some in Hm; cbn [length] in Hm; lia);
       rewrite <- Hm; f_equal; lia.
Qed.

Lemma total_inputs_cons d ds :
  total_inputs (d :: ds)
  = (length (xrt_device_update_inputs d) + total_inputs ds)%nat.
Proof. reflexivity. Qed.

Lemma total_outputs_cons d ds :
  total_outputs (d :: ds) = (length (outputs d) + total_outputs ds)%nat.
Proof. reflexivity. Qed.

(** The second loop of [init_shm]: the devices get the records from
    [c] on, one behind the other, their inputs the entries from [ii] on and
    their outputs the entries from [oi] on; what lies before is kept. *)
Lemma copy_devices_spec ndebug s L n devs : forall st c ii oi,
  xtracks s = table L n ->
  Z.of_nat (length L) < two32 - 1 ->
  Forall (fun d => exists o, tracking_origin d = Some o /\ o ∈ L) (present devs) ->
  cs_count st = Z.of_nat c ->
  input_index st = Z.of_nat ii ->
  output_index st = Z.of_nat oi ->
  (c + length (present devs) <= length (idevs (cs_ism st)))%nat ->
  Z.of_nat (length (idevs (cs_ism st))) < two32 ->
  (ii + total_inputs (present devs) <= length (ism_inputs (cs_ism st)))%nat ->
  Z.of_nat (length (ism_inputs (cs_ism st))) < two32 ->
  (oi + total_outputs (present devs) <= length (ism_outputs (cs_ism st)))%nat ->
  Z.of_nat (length (ism_outputs (cs_ism st))) < two32 ->
  exists st',
    copy_devices xrt_device_update_inputs ndebug s devs st = Ok st' /\
    cs_count st' = Z.of_nat (c + length (present devs)) /\
    itracks (cs_ism st') = itracks (cs_ism st) /\
    num_itracks (cs_ism st') = num_itracks (cs_ism st) /\
    length (idevs (cs_ism st')) = length (idevs (cs_ism st)) /\
    length (ism_inputs (cs_ism st')) = length (ism_inputs (cs_ism st)) /\
    length (ism_outputs (cs_ism st')) = length (ism_outputs (cs_ism st)) /\
    (forall j, (j < c)%nat -> idevs (cs_ism st') !! j = idevs (cs_ism st) !! j) /\
    (forall p, (p < ii)%nat ->
       ism_inputs (cs_ism st') !! p = ism_inputs (cs_ism st) !! p) /\
    (forall p, (p < oi)%nat ->
       ism_outputs (cs_ism st') !! p = ism_outputs (cs_ism st) !! p) /\
    forall j d, present devs !! j = Some d ->
      exists idev,
        idevs (cs_ism st') !! (c + j)%nat = Some idev /\
        recorded L (cs_ism st')
          (ii + total_inputs (take j (present devs)))
          (oi + total_outputs (take j (present devs))) d idev.
Proof.
  induction devs as [|[d|] devs IH];
    intros st c ii oi Ht HL Hall Hc Hii Hoi Hclen Hcb Hilen Hib Holen Hob.
  - exists st. cbn. rewrite Nat.add_0_r.
    repeat (split; [reflexivity || assumption || auto|]).
    intros j d Hj. rewrite lookup_nil in Hj. discriminate.
  - change (present (Some d :: devs)) with (d :: present devs) in *.
    rewrite total_inputs_cons in Hilen. rewrite total_outputs_cons in Holen.
    cbn [length] in Hclen.
    inversion Hall as [|? ? (o & Ho & Hin) Hall']; subst.
    destruct (copy_device_spec ndebug s L n d st c ii oi o)
      as (st1 & idev1 & Hcd & Hc1 & Hii1 & Hoi1 & Hit1 & Hnit1 & Hid1 & Hin1 & Hout1 & Hrec1);
      try assumption; try lia.
    destruct (IH st1 (S c) (ii + length (xrt_device_update_inputs d))%nat
                (oi + length (outputs d))%nat)
      as (st' & Hcds & Hc' & Hit' & Hnit' & Hlid' & Hlin' & Hlout' & Hkid & Hkin & Hkout & Hrecs);
      try assumption;
      rewrite ?Hid1, ?Hin1, ?Hout1, ?length_insert, ?length_inserts; try lia.
    exists st'. cbn [copy_devices]. rewrite Hcd, bind_Ok.
    split; [exact Hcds|].
    split; [rewrite Hc'; f_equal; cbn [length]; lia|].
    split; [congruence|]. split; [congruence|].
    split; [rewrite Hlid', Hid1, length_insert; reflexivity|].
    split; [rewrite Hlin', Hin1, length_inserts; reflexivity|].
    split; [rewrite Hlout', Hout1, length_inserts; reflexivity|].
    split; [intros j Hj; rewrite Hkid, Hid1 by lia;
            apply list_lookup_insert_ne; lia|].
    split; [intros p Hp; rewrite Hkin, Hin1 by lia;
            apply list_lookup_inserts_lt; lia|].
    split; [intros p Hp; rewrite Hkout, Hout1 by lia;
            apply list_lookup_inserts_lt; lia|].
    intros [|j] d' Hj.
    + injection Hj as <-. exists idev1. rewrite Nat.add_0_r. split.
      * rewrite Hkid, Hid1 by lia. apply list_lookup_insert_eq. lia.
      * cbn [take]. change (total_inputs []) with 0%nat.
        change (total_outputs []) with 0%nat. rewrite !Nat.add_0_r.
        apply (recorded_later L (cs_ism st1)); [exact Hrec1|exact Hkin|exact Hkout].
    + cbn [lookup list_lookup] in Hj. destruct (Hrecs j d' Hj) as (idev & Hl & Hrec).
      exists idev. split.
      * rewrite <- Hl. f_equal. lia.
      * cbn [take]. rewrite total_inputs_cons, total_outputs_cons, !Nat.add_assoc.
        exact Hrec.
  - apply IH; assumption.
Qed.

(** X30: start-up of the shared memory.  With an empty table of tracking
    origins that has a slot per device, devices that all have a tracking
    origin, and shared arrays that have room (a record and an origin per
    device, an entry per input and per output, fewer than 2^32 entries
    each), [init_tracking_origins] followed by [init_shm] returns in both
    builds.  The shared memory then counts the devices and their distinct
    origins; the record of the [j]-th device carries its name and string and
    the index of a slot of [itracks] that holds the data of the device's own
    tracking origin; and its inputs and outputs, when it has any, are counted
    in the record and lie in [inputs] and [outputs] one behind the other,
    from the number of entries of the devices before it on. *)
Theorem init_shm_after_init_tracking_origins ndebug s ism N :
  xtracks s = replicate N None ->
  (length (present (sd_xdevs s)) <= N)%nat ->
  Forall (fun d => tracking_origin d <> None) (present (sd_xdevs s)) ->
  Z.of_nat (length (present (sd_xdevs s))) < two32 - 1 ->
  (ndebug = false ->
   Z.of_nat (length (present (sd_xdevs s))) <= IPC_SHARED_MAX_DEVICES) ->
  (length (present (sd_xdevs s)) <= length (itracks ism))%nat ->
  Z.of_nat (length (itracks ism)) < two32 ->
  (length (present (sd_xdevs s)) <= length (idevs ism))%nat ->
  Z.of_nat (length (idevs ism)) < two32 ->
  (total_inputs (present (sd_xdevs s)) <= length (ism_inputs ism))%nat ->
  Z.of_nat (length (ism_inputs ism)) < two32 ->
  (total_outputs (present (sd_xdevs s)) <= length (ism_outputs ism))%nat ->
  Z.of_nat (length (ism_outputs ism)) < two32 ->
  exists s' ism' L,
    init_tracking_origins ndebug s = Ok s' /\
    init_shm origin_at xrt_device_update_inputs IPC_SHARED_MAX_DEVICES ndebug s' ism
    = Ok ism' /\
    NoDup L /\
    (forall o, o ∈ L <->
       exists d, d ∈ present (sd_xdevs s) /\ tracking_origin d = Some o) /\
    num_itracks ism' = Z.of_nat (length L) /\
    (forall k o, L !! k = Some o -> itracks ism' !! k = Some (origin_at o)) /\
    num_idevs ism' = Z.of_nat (length (present (sd_xdevs s))) /\
    forall j d, present (sd_xdevs s) !! j = Some d ->
      exists idev,
        idevs ism' !! j = Some idev /\
        recorded L ism'
          (total_inputs (take j (present (sd_xdevs s))))
          (total_outputs (take j (present (sd_xdevs s)))) d idev.
Proof.
  intros Ht HN Hnn HD Hmax Hitl Hitb Hidl Hidb Hinl Hinb Houtl Houtb.
  destruct (init_tracking_origins_shape ndebug s [] N)
    as (L & Hinit & HND & _ & HLlen & Hmem);
    [exact Ht|apply NoDup_nil_2|exact HN|intros _; exact Hnn|].
  cbn [length Nat.add] in HLlen.
  set (n := (N + length (@nil Z) - length L)%nat) in Hinit.
  set (s' := mk_server_devices (sd_xdevs s) (table L n)) in Hinit.
  pose proof (copy_origins_table ndebug L n 0 (itracks ism) 0%nat) as Hco.
  change (Z.of_nat 0) with 0 in Hco. cbn [Nat.add] in Hco.
  specialize (Hco ltac:(intros E; specialize (Hmax E); lia) ltac:(lia) Hitb).
  destruct (copy_devices_spec ndebug s' L n (sd_xdevs s)
              (mk_copy_state
                 (mk_ipc_shared_memory
                    (list_inserts 0 (map origin_at L) (itracks ism))
                    (Z.of_nat (length L)) (idevs ism) (num_idevs ism) (ism_hmd ism)
                    (ism_inputs ism) (ism_outputs ism)) 0 0 0) 0%nat 0%nat 0%nat)
    as (st' & Hcds & Hc' & Hit' & Hnit' & _ & _ & _ & _ & _ & _ & Hrecs);
    try reflexivity; cbn [cs_ism idevs ism_inputs ism_outputs Nat.add];
    try assumption; try lia.
  { apply Forall_forall. intros d Hd.
    pose proof (proj1 (Forall_forall _ _) Hnn d Hd) as Hdn.
    destruct (tracking_origin d) as [o|] eqn:Ho; [|congruence].
    exists o. split; [reflexivity|]. apply Hmem. right. exists d. auto. }
  cbn [cs_ism itracks num_itracks Nat.add] in *.
  exists s', (mk_ipc_shared_memory (itracks (cs_ism st')) (num_itracks (cs_ism st'))
               (idevs (cs_ism st')) (cs_count st') (ism_hmd (cs_ism st'))
               (ism_inputs (cs_ism st')) (ism_outputs (cs_ism st'))), L.
  split; [exact Hinit|]. split.
  { unfold init_shm. subst s'. cbn [xtracks sd_xdevs]. rewrite Hco, bind_Ok.
    cbv beta iota zeta. rewrite Hcds, bind_Ok. reflexivity. }
  split; [exact HND|]. split.
  { intros o. rewrite Hmem. split; [intros [H|H]; [inversion H|exact H]|auto]. }
  cbn [num_itracks itracks num_idevs idevs].
  split; [exact Hnit'|]. split.
  { intros k o Hk. rewrite Hit', list_lookup_inserts.
    - rewrite Nat.sub_0_r, list_lookup_fmap, Hk. reflexivity.
    - rewrite length_map. apply lookup_lt_Some in Hk. lia.
    - apply lookup_lt_Some in Hk. lia. }
  split; [exact Hc'|].
  intros j d Hj. destruct (Hrecs j d Hj) as (idev & Hl & Hrec).
  exists idev. split; [exact Hl|].
  apply (recorded_later L (cs_ism st')); [exact Hrec| |]; intros; reflexivity.
Qed.

End shared_memory.

(** A head-mounted display and two controllers that share a tracking
    origin, in a device array of four with one slot empty and an empty table
    of origins; the shared arrays are zeroed, as [ftruncate] leaves them. *)
Definition hmd_device : xrt_device :=
  mk_xrt_device 1 10 (Some 7) (Some 100) [11] [].

Definition left_controller : xrt_device :=
  mk_xrt_device 2 20 None (Some 200) [21; 22] [31].

Definition right_controller : xrt_device :=
  mk_xrt_device 3 30 None (Some 200) [23; 24] [32].

Definition server_three_devices : server_devices :=
  mk_server_devices
    [Some hmd_device; None; Some left_controller; Some right_controller]
    (replicate 4 None).

Definition origin_record (o : Z) : xrt_tracking_origin :=
  mk_xrt_tracking_origin o 0 0.

Definition zeroed_shared_memory : ipc_shared_memory :=
  mk_ipc_shared_memory (replicate 8 (mk_xrt_tracking_origin 0 0 0)) 0
    (replicate 8 (mk_ipc_shared_device 0 0 0 0 0 0 0)) 0 0
    (replicate 16 0) (replicate 16 0).

Lemma init_tracking_origins_table_witness :
  exists L',
    init_tracking_origins false server_three_devices
    = Ok (mk_server_devices (sd_xdevs server_three_devices)
            (table L' (4 + length (@nil Z) - length L'))) /\
    NoDup L' /\ [] `prefix_of` L' /\
    (length L' <= length (@nil Z) + length (present (sd_xdevs server_three_devices)))%nat /\
    forall o, o ∈ L' <->
      o ∈ @nil Z \/
      exists d, d ∈ present (sd_xdevs server_three_devices) /\
                tracking_origin d = Some o.
Proof.
  apply (init_tracking_origins_table false server_three_devices [] 4%nat).
  - reflexivity.
  - apply NoDup_nil_2.
  - simpl. lia.
  - intros _. repeat constructor; discriminate.
Defined.

(** The table and the shared memory of the example: two origins for the
    three devices, and the inputs of the controllers behind the one of the
    head-mounted display. *)
Example init_three_devices :
  (s' ← init_tracking_origins false server_three_devices;
   ism ← init_shm origin_record inputs 8 false s' zeroed_shared_memory;
   Ok (xtracks s', num_itracks ism, take 2 (itracks ism), num_idevs ism,
       take 3 (idevs ism), take 5 (ism_inputs ism), take 2 (ism_outputs ism)))
  = Ok ([Some 100; Some 200; None; None], 2,
        [origin_record 100; origin_record 200], 3,
        [mk_ipc_shared_device 1 10 0 1 0 0 0;
         mk_ipc_shared_device 2 20 1 2 1 1 0;
         mk_ipc_shared_device 3 30 1 2 3 1 1],
        [11; 21; 22; 23; 24], [31; 32]).
Proof. vm_compute. reflexivity. Qed.

Lemma init_shm_after_init_tracking_origins_witness :
  exists s' ism' L,
    init_tracking_origins false server_three_devices = Ok s' /\
    init_shm origin_record inputs 8 false s' zeroed_shared_memory = Ok ism' /\
    NoDup L /\
    (forall o, o ∈ L <->
       exists d, d ∈ present (sd_xdevs server_three_devices) /\
                 tracking_origin d = Some o) /\
    num_itracks ism' = Z.of_nat (length L) /\
    (forall k o, L !! k = Some o -> itracks ism' !! k = Some (origin_record o)) /\
    num_idevs ism' = Z.of_nat (length (present (sd_xdevs server_three_devices))) /\
    forall j d, present (sd_xdevs server_three_devices) !! j = Some d ->
      exists idev,
        idevs ism' !! j = Some idev /\
        recorded inputs L ism'
          (total_inputs inputs (take j (present (sd_xdevs server_three_devices))))
          (total_outputs (take j (present (sd_xdevs server_three_devices)))) d idev.
Proof.
  apply (init_shm_after_init_tracking_origins origin_record inputs 8 false
           server_three_devices zeroed_shared_memory 4%nat).
  - reflexivity.
  - simpl. lia.
  - repeat constructor; discriminate.
  - vm_compute. reflexivity.
  - intros _. vm_compute. discriminate.
  - simpl. lia.
  - vm_compute. reflexivity.
  - simpl. lia.
  - vm_compute. reflexivity.
  - simpl. lia.
  - vm_compute. reflexivity.
  - simpl. lia.
  - vm_compute. reflexivity.
Defined.

End SharedTablesFacts.
